(** * XCM transport layer, UTLS hybrid transport and control channel

    A shallow embedding of [libxcm/xcm_tp.c], [libxcm/xcm_tp_utls.c] and
    [libxcm/ctl.c], with the assertion and errno macros of
    [common/util.h].

    The C code is stateful: sockets live on the heap, the protocol
    registry and the per-function proto caches are static variables,
    [errno] is written by every system call.  All of this is threaded
    through one record, [World], by a state-and-failure monad [M].

    Code that the three files call but do not contain (the UX and TLS
    transports, the address helpers, the epoll registry, the OS) is
    represented by an [environment]: every such call is appended to the
    world's [trace] and answered by the environment as a function of the
    whole history, so nothing is assumed about it beyond determinism. *)

From Stdlib Require Import ZArith Lia List Bool.
From Stdlib Require Import Strings.String Strings.Ascii Strings.Byte.
From stdpp Require Import base option list gmap strings.

Local Open Scope string_scope.
Local Open Scope list_scope.
Local Open Scope Z_scope.

(** ** Build configuration and constants *)

(** The preprocessor symbols the three files test, and the limits that
    are defined in headers outside them. *)
Class build_config := {
  NDEBUG : bool;                 (* util.h: ut_assert compiled out *)
  XCM_CTL : bool;                (* control channel compiled in *)
  XCM_SCTP : bool;               (* SCTP transport compiled in *)
  XCM_ADDR_MAX : Z;              (* xcm_addr.h *)
  XCM_ADDR_MAX_PROTO_LEN : Z;    (* xcm_addr.h *)
  CTL_PROTO_MAX_ATTRS : Z;       (* ctl_proto.h *)
  sizeof_ctl_proto_msg : Z;      (* sizeof(struct ctl_proto_msg) *)
  sizeof_any_value : Z;          (* sizeof(attr->any_value), ctl_proto.h *)
}.

(* xcm_tp.c *)
Definition MAX_PROTOS : Z := 8.
(* ctl.c *)
Definition MAX_CLIENTS : Z := 2.
Definition DEFAULT_CALLS_PER_ACCEPT : Z := 64.
Definition DEFAULT_CALLS_PER_SEND_RECEIVE : Z := 8.
Definition SCTP_CALLS_PER_ACCEPT : Z := 8.
Definition SCTP_CALLS_PER_SEND_RECEIVE : Z := 2.
(* xcm_tp_utls.c *)
Definition PROTO_SEP_LEN : Z := 1.

(* Protocol tags (xcm_addr.h). *)
Definition XCM_UX_PROTO : string := "ux".
Definition XCM_TLS_PROTO : string := "tls".
Definition XCM_UTLS_PROTO : string := "utls".
Definition XCM_SCTP_PROTO : string := "sctp".

(* <errno.h>, Linux values. *)
Definition ENOENT : Z := 2.
Definition EAGAIN : Z := 11.
Definition EACCES : Z := 13.
Definition EINVAL : Z := 22.
Definition EOVERFLOW : Z := 75.
Definition ECONNREFUSED : Z := 111.

(* <sys/epoll.h> *)
Definition EPOLLIN : Z := 1.
Definition EPOLLOUT : Z := 4.

(* Object sizes on the LP64 targets XCM builds for. *)
Definition sizeof_bool : Z := 1.
Definition sizeof_int64 : Z := 8.

(** Conversion of a value to C [int] (two's complement, 32 bits). *)
Definition to_int (z : Z) : Z := (z + 2^31) mod 2^32 - 2^31.
(** Conversion to [uint64_t]. *)
Definition to_uint64 (z : Z) : Z := z mod 2^64.
(** Conversion to [int64_t]. *)
Definition to_int64 (z : Z) : Z := (z + 2^63) mod 2^64 - 2^63.

Definition strlen (s : string) : Z := Z.of_nat (String.length s).

(** ** Pointers and heap objects *)

Definition loc := positive.
(** A C pointer: [None] is NULL. *)
Definition ptr := option loc.

Inductive xcm_socket_type := xcm_socket_type_conn | xcm_socket_type_server.

#[global] Instance xcm_socket_type_eq_dec : EqDecision xcm_socket_type.
Proof. solve_decision. Defined.

(** The address of a transport's static [struct xcm_tp_ops]: the one
    defined in xcm_tp_utls.c, or that of another transport. *)
Inductive ops_ref := utls_ops_ref | ext_ops_ref (n : N).

#[global] Instance ops_ref_eq_dec : EqDecision ops_ref.
Proof. solve_decision. Defined.

(** struct xcm_tp_proto (xcm_tp.h). *)
Record xcm_tp_proto := mk_proto {
  proto_name : string;
  proto_ops : option ops_ref;
}.

(** struct utls_socket: the private trailer of a UTLS socket.  The
    attribute proxy arrays are not modelled. *)
Record utls_socket := mk_utls {
  laddr : string;
  ux_socket : ptr;
  tls_socket : ptr;
}.

(** struct cnt_conn: the four (messages, bytes) pairs. *)
Record cnt_conn := mk_cnt {
  to_app_msgs : Z; to_app_bytes : Z;
  from_app_msgs : Z; from_app_bytes : Z;
  to_lower_msgs : Z; to_lower_bytes : Z;
  from_lower_msgs : Z; from_lower_bytes : Z;
}.

(** struct xcm_socket (xcm_tp.h).  [so_proto] points into [protos]
    (an index); [so_ctl] points to a [struct ctl]; [so_priv] is the
    trailer seen through TOUTLS, zero-filled by ut_calloc. *)
Record xcm_socket := mk_socket {
  so_proto : nat;
  so_type : xcm_socket_type;
  so_is_blocking : bool;
  so_epoll_fd : Z;
  so_sock_id : Z;
  so_condition : Z;
  so_ctl : ptr;
  so_cnt : cnt_conn;
  so_priv : utls_socket;
}.

(** ctl_proto.h: the fixed-size request/response record, reduced to the
    fields ctl.c itself reads or writes. *)
Inductive ctl_proto_type :=
| ctl_proto_type_get_attr_req
| ctl_proto_type_get_attr_cfm
| ctl_proto_type_get_attr_rej
| ctl_proto_type_get_all_attr_req
| ctl_proto_type_get_all_attr_cfm
| ctl_proto_type_other (n : Z).

Record ctl_proto_attr := mk_attr {
  attr_name : string;
  attr_value_type : Z;
  attr_any_value : list byte;
  attr_value_len : Z;
}.

Record ctl_proto_msg := mk_msg {
  msg_type : ctl_proto_type;
  msg_attr_name : string;        (* get_attr_req.attr_name *)
  msg_attr : ctl_proto_attr;     (* get_attr_cfm.attr *)
  msg_rej_errno : Z;             (* get_attr_rej.rej_errno *)
  msg_attrs : list ctl_proto_attr; (* get_all_attr_cfm.attrs *)
  msg_attrs_len : Z;             (* get_all_attr_cfm.attrs_len *)
}.

(** struct client (ctl.c). *)
Record client := mk_client {
  cl_fd : Z;
  cl_is_response_pending : bool;
  cl_pending_response : ctl_proto_msg;
}.

(** struct ctl (ctl.c).  [ctl_clients] is the array of MAX_CLIENTS
    slots; [ctl_reg_set] is the epoll registration set, a map from
    descriptor to event mask. *)
Record ctl := mk_ctl {
  ctl_socket : ptr;
  ctl_server_fd : Z;
  ctl_clients : list client;
  ctl_num_clients : Z;
  ctl_reg_set : gmap Z Z;
  ctl_calls_since_process : Z;
}.

(** ** Calls that leave the three files *)

Inductive event :=
(* operations of a wrapped transport (its struct xcm_tp_ops) *)
| TpInit (s : loc)
| TpConnect (s : loc) (addr : string)
| TpServer (s : loc) (addr : string)
| TpClose (s : loc)
| TpCleanup (s : loc)
| TpAccept (conn_s server_s : loc)
| TpSend (s : loc) (buf : list byte)
| TpReceive (s : loc) (capacity : Z)
| TpUpdate (s : loc)
| TpFinish (s : loc)
| TpGetLocalAddr (s : loc) (suppress_tracing : bool)
| TpMaxMsg (s : loc)
(* the OS and the rest of libxcm, as used by ctl.c *)
| SysCreateUx (s : loc)
| SysAccept (fd : Z)
| SysSetBlocking (fd : Z) (should_block : bool)
| SysClose (fd : Z)
| SysSend (fd : Z) (msg : ctl_proto_msg)
| SysRecv (fd : Z)
| SysGetsockname (fd : Z)
| SysUnlink (fd : Z)
| SysEpollCtl (fd : Z) (events : option Z)
| SysEpollReset
| XcmAttrGet (s : ptr) (name : string)
| XcmAttrGetAll (s : ptr).

Definition is_tp_event (e : event) : bool :=
  match e with
  | TpInit _ | TpConnect _ _ | TpServer _ _ | TpClose _ | TpCleanup _
  | TpAccept _ _ | TpSend _ _ | TpReceive _ _ | TpUpdate _ | TpFinish _
  | TpGetLocalAddr _ _ | TpMaxMsg _ => true
  | _ => false
  end.

(** What a call returns: its return code, the value of [errno] when it
    is back, and whatever it wrote through its out-parameters. *)
Record reply := mk_reply {
  rep_rc : Z;
  rep_errno : Z;
  rep_str : option string;
  rep_bytes : list byte;
  rep_num : Z;
  rep_msg : ctl_proto_msg;
  rep_attrs : list ctl_proto_attr;
}.

(** Parsed host of an address (xcm_addr.h), opaque here. *)
Record xcm_addr_host := mk_host { host_repr : string }.

(** The outside world.  [env_reply history call] answers [call] after
    [history].  The address helpers of xcm_addr.c are pure functions;
    each returns its return code and what it left in the output
    buffer. *)
Class environment := {
  env_reply : list event -> event -> reply;
  xcm_addr_parse_utls : string -> Z * Z * (xcm_addr_host * Z);
  xcm_addr_parse_tls : string -> Z * (xcm_addr_host * Z);
  xcm_addr_make_tls : xcm_addr_host -> Z -> Z -> Z * string;
  xcm_addr_ux_make : string -> Z -> Z * string;
  xcm_addr_tls6_parse : string -> Z * (string * Z);
  xcm_addr_utls6_make : string -> Z -> Z -> Z * string;
}.

(** ** The world and the monad *)

Record World := mk_world {
  heap : gmap loc xcm_socket;
  ctls : gmap loc ctl;
  errno : Z;
  (* xcm_tp.c statics *)
  protos : list xcm_tp_proto;
  num_protos : Z;
  next_id : Z;
  (* xcm_tp_utls.c statics *)
  ux_cached_proto : option nat;
  tls_cached_proto : option nat;
  trace : list event;
}.

Inductive outcome (A : Type) :=
| Ok (a : A) (w : World)
| Abort        (* abort(): a failed ut_assert *)
| Fault        (* undefined behaviour: bad pointer, array overrun *)
| OutOfFuel.   (* the recursion bound of the model was reached *)
Arguments Ok {A} a w.
Arguments Abort {A}.
Arguments Fault {A}.
Arguments OutOfFuel {A}.

Definition M (A : Type) := World -> outcome A.

Definition ret {A} (a : A) : M A := fun w => Ok a w.

Definition bind {A B} (m : M A) (k : A -> M B) : M B :=
  fun w => match m w with
           | Ok a w' => k a w'
           | Abort => Abort
           | Fault => Fault
           | OutOfFuel => OutOfFuel
           end.

Notation "'let*' x ':=' m 'in' k" := (bind m (fun x => k))
  (at level 10, x pattern, m at level 100, k at level 200).
Notation "m1 ;;; m2" := (bind m1 (fun _ => m2))
  (at level 100, m2 at level 200, right associativity).

Definition fault {A} : M A := fun _ => Fault.
Definition abort {A} : M A := fun _ => Abort.
Definition out_of_fuel {A} : M A := fun _ => OutOfFuel.
Definition get_world : M World := fun w => Ok w w.
Definition put_world (w : World) : M unit := fun _ => Ok tt w.
Definition gets {A} (f : World -> A) : M A := fun w => Ok (f w) w.
Definition modify (f : World -> World) : M unit := fun w => Ok tt (f w).

Definition set_heap (h : gmap loc xcm_socket) (w : World) : World :=
  mk_world h (ctls w) (errno w) (protos w) (num_protos w) (next_id w)
           (ux_cached_proto w) (tls_cached_proto w) (trace w).
Definition set_ctls (c : gmap loc ctl) (w : World) : World :=
  mk_world (heap w) c (errno w) (protos w) (num_protos w) (next_id w)
           (ux_cached_proto w) (tls_cached_proto w) (trace w).
Definition set_errno_w (e : Z) (w : World) : World :=
  mk_world (heap w) (ctls w) e (protos w) (num_protos w) (next_id w)
           (ux_cached_proto w) (tls_cached_proto w) (trace w).
Definition set_registry (p : list xcm_tp_proto) (n : Z) (w : World) : World :=
  mk_world (heap w) (ctls w) (errno w) p n (next_id w)
           (ux_cached_proto w) (tls_cached_proto w) (trace w).
Definition set_next_id (n : Z) (w : World) : World :=
  mk_world (heap w) (ctls w) (errno w) (protos w) (num_protos w) n
           (ux_cached_proto w) (tls_cached_proto w) (trace w).
Definition set_ux_cached (c : option nat) (w : World) : World :=
  mk_world (heap w) (ctls w) (errno w) (protos w) (num_protos w) (next_id w)
           c (tls_cached_proto w) (trace w).
Definition set_tls_cached (c : option nat) (w : World) : World :=
  mk_world (heap w) (ctls w) (errno w) (protos w) (num_protos w) (next_id w)
           (ux_cached_proto w) c (trace w).
Definition log_event (e : event) (w : World) : World :=
  mk_world (heap w) (ctls w) (errno w) (protos w) (num_protos w) (next_id w)
           (ux_cached_proto w) (tls_cached_proto w) (trace w ++ [e]).

(** [errno = e]. *)
Definition set_errno (e : Z) : M unit := modify (set_errno_w e).
Definition get_errno : M Z := gets errno.

(** A call out of the model: logged, answered by the environment, and
    [errno] is whatever the callee left there. *)
Definition ext_call `{environment} (e : event) : M reply :=
  fun w => let r := env_reply (trace w) e in
           Ok r (set_errno_w (rep_errno r) (log_event e w)).

(** util.h: ut_assert.  With NDEBUG the expression is evaluated and
    dropped; otherwise a false expression ends in abort(). *)
Definition ut_assert `{build_config} (expr : bool) : M unit :=
  if NDEBUG then ret tt else if expr then ret tt else abort.

(** Dereferencing. *)
Definition load (s : ptr) : M xcm_socket :=
  fun w => match s with
           | Some l => match heap w !! l with
                       | Some so => Ok so w
                       | None => Fault
                       end
           | None => Fault
           end.

Definition store (s : ptr) (so : xcm_socket) : M unit :=
  fun w => match s with
           | Some l => match heap w !! l with
                       | Some _ => Ok tt (set_heap (<[l := so]> (heap w)) w)
                       | None => Fault
                       end
           | None => Fault
           end.

Definition load_ctl (c : ptr) : M ctl :=
  fun w => match c with
           | Some l => match ctls w !! l with
                       | Some x => Ok x w
                       | None => Fault
                       end
           | None => Fault
           end.

Definition store_ctl (c : ptr) (x : ctl) : M unit :=
  fun w => match c with
           | Some l => match ctls w !! l with
                       | Some _ => Ok tt (set_ctls (<[l := x]> (ctls w)) w)
                       | None => Fault
                       end
           | None => Fault
           end.

(** util.h: ut_free.  free(NULL) does nothing; freeing what is not
    allocated is undefined. *)
Definition ut_free_socket (s : ptr) : M unit :=
  fun w => match s with
           | None => Ok tt w
           | Some l => match heap w !! l with
                       | Some _ => Ok tt (set_heap (delete l (heap w)) w)
                       | None => Fault
                       end
           end.

Definition ut_free_ctl (c : ptr) : M unit :=
  fun w => match c with
           | None => Ok tt w
           | Some l => match ctls w !! l with
                       | Some _ => Ok tt (set_ctls (delete l (ctls w)) w)
                       | None => Fault
                       end
           end.

(** ** xcm_tp.c: the protocol registry *)

Section Registry.
Context `{build_config}.

(** The [for] loop of xcm_tp_proto_by_name, from index [i], at most
    [n] more rounds.  The result is a pointer into [protos]. *)
Fixpoint proto_scan (ps : list xcm_tp_proto) (num : Z) (proto_name_arg : string)
         (n : nat) (i : nat) : option (option nat) :=
  match n with
  | O => Some None
  | S n' =>
      if Z.of_nat i <? num then
        match ps !! i with
        | Some p =>
            if String.eqb (proto_name p) proto_name_arg then Some (Some i)
            else proto_scan ps num proto_name_arg n' (S i)
        | None => None            (* protos[i] past the array *)
        end
      else Some None
  end.

Definition xcm_tp_proto_by_name (proto_name_arg : string) : M (option nat) :=
  fun w =>
    match proto_scan (protos w) (num_protos w) proto_name_arg
                     (Z.to_nat (num_protos w)) 0 with
    | Some r => Ok r w
    | None => Fault
    end.

Definition xcm_tp_register (proto_name_arg : string) (ops : ops_ref) : M unit :=
  let* n := gets num_protos in
  ut_assert (n <? MAX_PROTOS) ;;;
  ut_assert (strlen proto_name_arg <=? XCM_ADDR_MAX_PROTO_LEN) ;;;
  ut_assert (strlen proto_name_arg <=? XCM_ADDR_MAX_PROTO_LEN) ;;;
  let* found := xcm_tp_proto_by_name proto_name_arg in
  ut_assert (bool_decide (found = None)) ;;;
  let* ps := gets protos in
  (* strcpy into protos[num_protos].name, a buffer of
     XCM_ADDR_MAX_PROTO_LEN+1 bytes, then the ops pointer *)
  if (Z.of_nat (length ps) <=? n) || (XCM_ADDR_MAX_PROTO_LEN <? strlen proto_name_arg)
  then fault
  else
    modify (set_registry (<[Z.to_nat n := mk_proto proto_name_arg (Some ops)]> ps)
                         (n + 1)).
End Registry.

(** ** xcm_tp.h: the operations table and its dispatch macros *)

(** struct xcm_tp_ops.  The three hooks that may be NULL are options. *)
Record xcm_tp_ops := mk_ops {
  op_init : ptr -> M Z;
  op_connect : ptr -> string -> M Z;
  op_server : ptr -> string -> M Z;
  op_close : ptr -> M Z;
  op_cleanup : ptr -> M unit;
  op_accept : ptr -> ptr -> M Z;
  op_send : ptr -> list byte -> M Z;
  op_receive : ptr -> Z -> M (Z * list byte);
  op_update : ptr -> M unit;
  op_finish : ptr -> M Z;
  op_get_transport : option (ptr -> M string);
  op_get_local_addr : ptr -> bool -> M (option string);
  op_max_msg : ptr -> M Z;
  op_get_cnt : option (ptr -> M ptr);
  op_enable_ctl : option (ptr -> M unit);
}.

(** util.h: UT_PROTECT_ERRNO. *)
Definition UT_PROTECT_ERRNO {A} (stmt : M A) : M unit :=
  let* _errno := get_errno in
  stmt ;;;
  set_errno _errno.

(** [a[i]] for an array held as a list. *)
Definition array_get {A} (a : list A) (i : Z) : M A :=
  if i <? 0 then fault
  else match a !! Z.to_nat i with
       | Some x => ret x
       | None => fault
       end.

Definition array_set {A} (a : list A) (i : Z) (x : A) : M (list A) :=
  if (i <? 0) || (Z.of_nat (length a) <=? i) then fault
  else ret (<[Z.to_nat i := x]> a).

(* Field updates. *)
Definition ctl_set_clients (cs : list client) (x : ctl) : ctl :=
  mk_ctl (ctl_socket x) (ctl_server_fd x) cs (ctl_num_clients x)
         (ctl_reg_set x) (ctl_calls_since_process x).
Definition ctl_set_num_clients (n : Z) (x : ctl) : ctl :=
  mk_ctl (ctl_socket x) (ctl_server_fd x) (ctl_clients x) n
         (ctl_reg_set x) (ctl_calls_since_process x).
Definition ctl_set_reg_set (r : gmap Z Z) (x : ctl) : ctl :=
  mk_ctl (ctl_socket x) (ctl_server_fd x) (ctl_clients x) (ctl_num_clients x)
         r (ctl_calls_since_process x).
Definition ctl_set_calls (n : Z) (x : ctl) : ctl :=
  mk_ctl (ctl_socket x) (ctl_server_fd x) (ctl_clients x) (ctl_num_clients x)
         (ctl_reg_set x) n.

Definition cl_set_pending (b : bool) (cl : client) : client :=
  mk_client (cl_fd cl) b (cl_pending_response cl).
Definition cl_set_response (m : ctl_proto_msg) (cl : client) : client :=
  mk_client (cl_fd cl) (cl_is_response_pending cl) m.

Definition msg_set_cfm (a : ctl_proto_attr) (m : ctl_proto_msg) : ctl_proto_msg :=
  mk_msg ctl_proto_type_get_attr_cfm (msg_attr_name m) a (msg_rej_errno m)
         (msg_attrs m) (msg_attrs_len m).
Definition msg_set_rej (a : ctl_proto_attr) (e : Z) (m : ctl_proto_msg) : ctl_proto_msg :=
  mk_msg ctl_proto_type_get_attr_rej (msg_attr_name m) a e
         (msg_attrs m) (msg_attrs_len m).
Definition msg_set_attrs (l : list ctl_proto_attr) (n : Z) (m : ctl_proto_msg)
  : ctl_proto_msg :=
  mk_msg (msg_type m) (msg_attr_name m) (msg_attr m) (msg_rej_errno m) l n.

Definition so_set_ctl (c : ptr) (so : xcm_socket) : xcm_socket :=
  mk_socket (so_proto so) (so_type so) (so_is_blocking so) (so_epoll_fd so)
            (so_sock_id so) (so_condition so) c (so_cnt so) (so_priv so).
Definition so_set_condition (c : Z) (so : xcm_socket) : xcm_socket :=
  mk_socket (so_proto so) (so_type so) (so_is_blocking so) (so_epoll_fd so)
            (so_sock_id so) c (so_ctl so) (so_cnt so) (so_priv so).
Definition so_set_priv (us : utls_socket) (so : xcm_socket) : xcm_socket :=
  mk_socket (so_proto so) (so_type so) (so_is_blocking so) (so_epoll_fd so)
            (so_sock_id so) (so_condition so) (so_ctl so) (so_cnt so) us.

(** Zero-filled objects, as ut_calloc returns them. *)
Definition zero_attr : ctl_proto_attr := mk_attr EmptyString 0 [] 0.
Definition zero_msg `{build_config} : ctl_proto_msg :=
  mk_msg (ctl_proto_type_other 0) EmptyString zero_attr 0
         (replicate (Z.to_nat CTL_PROTO_MAX_ATTRS) zero_attr) 0.
Definition zero_client `{build_config} : client := mk_client 0 false zero_msg.

Section Transport.
Context `{build_config} `{environment}.

(** The vtable behind each ops pointer, and the bound on the depth of
    the recursion of [ctl_process]. *)
Variable getops : ops_ref -> xcm_tp_ops.
Variable ctl_fuel : nat.

(** XCM_TP_GETOPS(s): [s->proto->ops]. *)
Definition XCM_TP_GETOPS (s : ptr) : M xcm_tp_ops :=
  let* so := load s in
  let* ps := gets protos in
  match ps !! so_proto so with
  | Some p => match proto_ops p with
              | Some r => ret (getops r)
              | None => fault
              end
  | None => fault
  end.

(** [s->proto->name]. *)
Definition socket_proto_name (s : ptr) : M string :=
  let* so := load s in
  let* ps := gets protos in
  match ps !! so_proto so with
  | Some p => ret (proto_name p)
  | None => fault
  end.

Definition xcm_tp_socket_get_transport (s : ptr) : M string :=
  let* ops := XCM_TP_GETOPS s in
  match op_get_transport ops with
  | Some get_transport => get_transport s
  | None => socket_proto_name s
  end.

(** *** ctl.c *)

(** Modelled from the spec: epoll_reg_set.c is missing.  The registry
    "supports add, modify, and delete" on a mapping "from OS
    descriptor to desired events"; each operation is an epoll_ctl
    system call. *)
Definition epoll_reg_set_add (c : ptr) (fd : Z) (events : Z) : M unit :=
  ext_call (SysEpollCtl fd (Some events)) ;;;
  let* x := load_ctl c in
  store_ctl c (ctl_set_reg_set (<[fd := events]> (ctl_reg_set x)) x).

Definition epoll_reg_set_mod (c : ptr) (fd : Z) (events : Z) : M unit :=
  ext_call (SysEpollCtl fd (Some events)) ;;;
  let* x := load_ctl c in
  store_ctl c (ctl_set_reg_set (<[fd := events]> (ctl_reg_set x)) x).

Definition epoll_reg_set_del (c : ptr) (fd : Z) : M unit :=
  ext_call (SysEpollCtl fd None) ;;;
  let* x := load_ctl c in
  store_ctl c (ctl_set_reg_set (delete fd (ctl_reg_set x)) x).

Definition epoll_reg_set_reset (c : ptr) : M unit :=
  ext_call SysEpollReset ;;;
  let* x := load_ctl c in
  store_ctl c (ctl_set_reg_set ∅ x).

Definition ctl_create (socket : ptr) : M ptr :=
  match socket with
  | None => fault
  | Some sl =>
      let* _oerrno := get_errno in
      let* r := ext_call (SysCreateUx sl) in
      let server_fd := rep_rc r in
      set_errno _oerrno ;;;
      if server_fd <? 0 then ret None
      else
        load socket ;;;
        fun w =>
          let l := fresh (dom (ctls w)) in
          let x := mk_ctl socket server_fd
                          (replicate (Z.to_nat MAX_CLIENTS) zero_client) 0 ∅ 0 in
          (epoll_reg_set_add (Some l) server_fd EPOLLIN ;;; ret (Some l))
            (set_ctls (<[l := x]> (ctls w)) w)
  end.

Definition remove_client (c : ptr) (client_idx : Z) : M unit :=
  let* x := load_ctl c in
  let* rclient := array_get (ctl_clients x) client_idx in
  epoll_reg_set_del c (cl_fd rclient) ;;;
  UT_PROTECT_ERRNO (ext_call (SysClose (cl_fd rclient))) ;;;
  let* x := load_ctl c in
  let last_idx := ctl_num_clients x - 1 in
  (if client_idx =? last_idx then ret tt
   else
     let* last := array_get (ctl_clients x) last_idx in
     let* cs := array_set (ctl_clients x) client_idx last in
     store_ctl c (ctl_set_clients cs x)) ;;;
  let* x := load_ctl c in
  (if ctl_num_clients x =? MAX_CLIENTS
   then epoll_reg_set_add c (ctl_server_fd x) EPOLLIN
   else ret tt) ;;;
  let* x := load_ctl c in
  store_ctl c (ctl_set_num_clients (ctl_num_clients x - 1) x).

(** The [while] loop of ctl_destroy, at most [n] rounds. *)
Fixpoint ctl_destroy_loop (n : nat) (c : ptr) : M unit :=
  let* x := load_ctl c in
  if 0 <? ctl_num_clients x then
    match n with
    | O => out_of_fuel
    | S n' => remove_client c 0 ;;; ctl_destroy_loop n' c
    end
  else ret tt.

Definition ctl_destroy (c : ptr) (owner : bool) : M unit :=
  match c with
  | None => ret tt
  | Some _ =>
      let* _oerrno := get_errno in
      let* x := load_ctl c in
      (* every round removes one client *)
      ctl_destroy_loop (Z.to_nat (ctl_num_clients x)) c ;;;
      let* x := load_ctl c in
      let* r := ext_call (SysGetsockname (ctl_server_fd x)) in
      epoll_reg_set_reset c ;;;
      let* x := load_ctl c in
      ext_call (SysClose (ctl_server_fd x)) ;;;
      (if (rep_rc r =? 0) && owner
       then ext_call (SysUnlink (ctl_server_fd x)) ;;; ret tt
       else ret tt) ;;;
      ut_free_ctl c ;;;
      set_errno _oerrno
  end.

Definition process_get_attr (socket : ptr) (req : ctl_proto_msg)
           (response : ctl_proto_msg) : M ctl_proto_msg :=
  let* _oerrno := get_errno in
  let* r := ext_call (XcmAttrGet socket (msg_attr_name req)) in
  let* attr_errno := get_errno in
  set_errno _oerrno ;;;
  let rc := rep_rc r in
  let cfm_attr := mk_attr (attr_name (msg_attr response)) (rep_num r)
                          (rep_bytes r) (attr_value_len (msg_attr response)) in
  if 0 <=? rc then
    ret (msg_set_cfm (mk_attr (attr_name cfm_attr) (attr_value_type cfm_attr)
                              (attr_any_value cfm_attr) rc) response)
  else
    ret (msg_set_rej cfm_attr attr_errno response).

(** The callback handed to xcm_attr_get_all. *)
Definition add_attr (attr_name_arg : string) (type : Z) (value : list byte)
           (len : Z) (cfm : ctl_proto_msg) : M ctl_proto_msg :=
  let idx := msg_attrs_len cfm in
  let cfm := msg_set_attrs (msg_attrs cfm) (idx + 1) cfm in
  ut_assert (msg_attrs_len cfm <? CTL_PROTO_MAX_ATTRS) ;;;
  let* attr := array_get (msg_attrs cfm) idx in
  ut_assert (attr_value_len attr <? sizeof_any_value) ;;;
  if sizeof_any_value <? len then fault
  else
    let* l := array_set (msg_attrs cfm) idx (mk_attr attr_name_arg type value len) in
    ret (msg_set_attrs l (msg_attrs_len cfm) cfm).

Fixpoint add_attrs (l : list ctl_proto_attr) (cfm : ctl_proto_msg)
  : M ctl_proto_msg :=
  match l with
  | [] => ret cfm
  | a :: l' =>
      let* cfm := add_attr (attr_name a) (attr_value_type a) (attr_any_value a)
                           (attr_value_len a) cfm in
      add_attrs l' cfm
  end.

Definition process_get_all_attr (socket : ptr) (response : ctl_proto_msg)
  : M ctl_proto_msg :=
  let cfm := msg_set_attrs (msg_attrs response) 0 response in
  (* xcm_attr_get_all walks the attributes and calls back *)
  let* r := ext_call (XcmAttrGetAll socket) in
  add_attrs (rep_attrs r) cfm.

(** Writes [clients[i]] of the channel. *)
Definition set_client (c : ptr) (i : Z) (cl : client) : M unit :=
  let* x := load_ctl c in
  let* cs := array_set (ctl_clients x) i cl in
  store_ctl c (ctl_set_clients cs x).

Definition get_client (c : ptr) (i : Z) : M client :=
  let* x := load_ctl c in
  array_get (ctl_clients x) i.

(** process_client(&ctl->clients[i], ctl). *)
Definition process_client (i : Z) (c : ptr) : M Z :=
  let* cl := get_client c i in
  if cl_is_response_pending cl then
    let* _oerrno := get_errno in
    let* r := ext_call (SysSend (cl_fd cl) (cl_pending_response cl)) in
    let* send_errno := get_errno in
    set_errno _oerrno ;;;
    if rep_rc r <? 0 then
      if send_errno =? EAGAIN then ret 0 else ret (-1)
    else
      set_client c i (cl_set_pending false cl) ;;;
      epoll_reg_set_mod c (cl_fd cl) EPOLLIN ;;;
      ret 0
  else
    let* _oerrno := get_errno in
    let* r := ext_call (SysRecv (cl_fd cl)) in
    let req := rep_msg r in
    let* recv_errno := get_errno in
    set_errno _oerrno ;;;
    if rep_rc r <? 0 then
      if recv_errno =? EAGAIN then ret 0 else ret (-1)
    else if negb (rep_rc r =? sizeof_ctl_proto_msg) then ret (-1)
    else
      set_client c i (cl_set_pending true cl) ;;;
      epoll_reg_set_mod c (cl_fd cl) EPOLLOUT ;;;
      let* x := load_ctl c in
      let* cl := get_client c i in
      match msg_type req with
      | ctl_proto_type_get_attr_req =>
          let* res := process_get_attr (ctl_socket x) req (cl_pending_response cl) in
          set_client c i (cl_set_response res cl) ;;;
          ret 0
      | ctl_proto_type_get_all_attr_req =>
          let* res := process_get_all_attr (ctl_socket x) (cl_pending_response cl) in
          set_client c i (cl_set_response res cl) ;;;
          ret 0
      | _ =>
          set_client c i (cl_set_pending false cl) ;;;
          ret (-1)
      end.

Definition accept_client (c : ptr) : M unit :=
  let* x := load_ctl c in
  let* r := ext_call (SysAccept (ctl_server_fd x)) in
  let client_fd := rep_rc r in
  if client_fd <? 0 then ret tt
  else
    let* r := ext_call (SysSetBlocking client_fd false) in
    if rep_rc r <? 0 then
      ext_call (SysClose client_fd) ;;; ret tt
    else
      epoll_reg_set_add c client_fd EPOLLIN ;;;
      let* x := load_ctl c in
      let idx := ctl_num_clients x in
      let* nclient := array_get (ctl_clients x) idx in
      store_ctl c (ctl_set_num_clients (ctl_num_clients x + 1) x) ;;;
      set_client c idx (mk_client client_fd false (cl_pending_response nclient)) ;;;
      let* x := load_ctl c in
      if ctl_num_clients x =? MAX_CLIENTS
      then epoll_reg_set_del c (ctl_server_fd x)
      else ret tt.

Definition is_sctp (s : ptr) : M bool :=
  let* t := xcm_tp_socket_get_transport s in
  ret (String.eqb t XCM_SCTP_PROTO).

Definition min_calls (c : ptr) : M Z :=
  let* x := load_ctl c in
  let active := 0 <? ctl_num_clients x in
  let* sctp := (if XCM_SCTP then is_sctp (ctl_socket x) else ret false) in
  if sctp then
    ret (if active then SCTP_CALLS_PER_SEND_RECEIVE else SCTP_CALLS_PER_ACCEPT)
  else
    ret (if active then DEFAULT_CALLS_PER_SEND_RECEIVE else DEFAULT_CALLS_PER_ACCEPT).

(** The [for] loop of ctl_process from index [i], at most [k] rounds;
    [again] is the recursive call [ctl_process(ctl)]. *)
Fixpoint process_clients (again : M unit) (c : ptr) (k : nat) (i : Z) : M unit :=
  let* x := load_ctl c in
  if i <? ctl_num_clients x then
    match k with
    | O => out_of_fuel
    | S k' =>
        let* rc := process_client i c in
        (if rc <? 0 then
           remove_client c i ;;;
           (* restart the process for simplicity *)
           again
         else ret tt) ;;;
        process_clients again c k' (i + 1)
    end
  else ret tt.

Fixpoint ctl_process (fuel : nat) (c : ptr) : M unit :=
  match fuel with
  | O => out_of_fuel
  | S fuel' =>
      let* x := load_ctl c in
      store_ctl c (ctl_set_calls (to_uint64 (ctl_calls_since_process x + 1)) x) ;;;
      let* x := load_ctl c in
      let* mc := min_calls c in
      if ctl_calls_since_process x <? mc then ret tt
      else
        store_ctl c (ctl_set_calls 0 x) ;;;
        let* _oerrno := get_errno in
        process_clients (ctl_process fuel' c) c fuel 0 ;;;
        let* x := load_ctl c in
        (if ctl_num_clients x <? MAX_CLIENTS then accept_client c else ret tt) ;;;
        set_errno _oerrno
  end.
(** *** xcm_tp.c: sockets *)

(** XCM_TP_CALL(fun, s, ...) is [XCM_TP_GETOPS(s)->fun(s, ...)]; it is
    written out at each use. *)

Definition get_next_sock_id : M Z :=
  let* nid := gets next_id in
  modify (set_next_id (to_int64 (nid + 1))) ;;;
  ret nid.

Definition zero_cnt : cnt_conn := mk_cnt 0 0 0 0 0 0 0 0.

(** ut_calloc of a socket: a fresh address, never NULL. *)
Definition alloc_socket (so : xcm_socket) : M ptr :=
  fun w => let l := fresh (dom (heap w)) in
           Ok (Some l) (set_heap (<[l := so]> (heap w)) w).

Definition xcm_tp_socket_create (proto : option nat) (type : xcm_socket_type)
           (epoll_fd : Z) (is_blocking : bool) : M ptr :=
  match proto with
  | None => fault
  | Some pi =>
      let* ps := gets protos in
      match ps !! pi with
      | None => fault
      | Some p =>
          match proto_ops p with
          | None => fault         (* proto->ops->priv_size *)
          | Some _ =>
              let* s := alloc_socket
                          (mk_socket pi type is_blocking epoll_fd 0 0 None zero_cnt
                                     (mk_utls EmptyString None None)) in
              let* nid := get_next_sock_id in
              let* so := load s in
              store s (mk_socket pi type is_blocking epoll_fd nid 0 None zero_cnt
                                 (so_priv so)) ;;;
              ret s
          end
      end
  end.

Definition xcm_tp_socket_destroy (s : ptr) : M unit := ut_free_socket s.

Definition xcm_tp_socket_init (s : ptr) : M Z :=
  let* ops := XCM_TP_GETOPS s in op_init ops s.

Definition do_ctl (s : ptr) : M unit :=
  if XCM_CTL then
    let* so := load s in
    match so_ctl so with
    | Some _ => ctl_process ctl_fuel (so_ctl so)
    | None => ret tt
    end
  else ret tt.

Definition xcm_tp_socket_update (s : ptr) : M unit :=
  let* ops := XCM_TP_GETOPS s in op_update ops s.

Definition xcm_tp_socket_connect (s : ptr) (remote_addr : string) : M Z :=
  do_ctl s ;;;
  let* ops := XCM_TP_GETOPS s in
  let* rc := op_connect ops s remote_addr in
  (if rc =? 0 then xcm_tp_socket_update s else ret tt) ;;;
  ret rc.

Definition xcm_tp_socket_server (s : ptr) (local_addr : string) : M Z :=
  do_ctl s ;;;
  let* ops := XCM_TP_GETOPS s in
  let* rc := op_server ops s local_addr in
  (if rc =? 0 then xcm_tp_socket_update s else ret tt) ;;;
  ret rc.

Definition xcm_tp_socket_close (s : ptr) : M Z :=
  match s with
  | None => ret 0
  | Some _ =>
      (if XCM_CTL then
         let* so := load s in ctl_destroy (so_ctl so) true
       else ret tt) ;;;
      let* ops := XCM_TP_GETOPS s in
      op_close ops s
  end.

Definition xcm_tp_socket_cleanup (s : ptr) : M unit :=
  match s with
  | None => ret tt
  | Some _ =>
      (if XCM_CTL then
         let* so := load s in ctl_destroy (so_ctl so) false
       else ret tt) ;;;
      let* ops := XCM_TP_GETOPS s in
      op_cleanup ops s
  end.

Definition xcm_tp_socket_accept (conn_s server_s : ptr) : M Z :=
  do_ctl server_s ;;;
  let* ops := XCM_TP_GETOPS conn_s in
  let* rc := op_accept ops conn_s server_s in
  (if rc =? 0 then xcm_tp_socket_update conn_s else ret tt) ;;;
  xcm_tp_socket_update server_s ;;;
  ret rc.

Definition xcm_tp_socket_send (s : ptr) (buf : list byte) : M Z :=
  do_ctl s ;;;
  let* ops := XCM_TP_GETOPS s in
  let* rc := op_send ops s buf in
  xcm_tp_socket_update s ;;;
  ret rc.

Definition xcm_tp_socket_receive (s : ptr) (capacity : Z) : M (Z * list byte) :=
  do_ctl s ;;;
  let* ops := XCM_TP_GETOPS s in
  let* r := op_receive ops s capacity in
  xcm_tp_socket_update s ;;;
  ret r.

Definition xcm_tp_socket_finish (s : ptr) : M Z :=
  do_ctl s ;;;
  let* ops := XCM_TP_GETOPS s in
  let* rc := op_finish ops s in
  xcm_tp_socket_update s ;;;
  ret rc.

Definition xcm_tp_socket_get_local_addr (s : ptr) (suppress_tracing : bool)
  : M (option string) :=
  let* ops := XCM_TP_GETOPS s in op_get_local_addr ops s suppress_tracing.

Definition xcm_tp_socket_max_msg (conn_s : ptr) : M Z :=
  let* ops := XCM_TP_GETOPS conn_s in op_max_msg ops conn_s.

(** The result points to a [struct cnt_conn]; it is identified by the
    socket that holds it. *)
Definition xcm_tp_socket_get_cnt (conn_s : ptr) : M ptr :=
  let* ops := XCM_TP_GETOPS conn_s in
  match op_get_cnt ops with
  | Some get_cnt => get_cnt conn_s
  | None => load conn_s ;;; ret conn_s
  end.

Definition xcm_tp_socket_enable_ctl (s : ptr) : M unit :=
  if XCM_CTL then
    let* ops := XCM_TP_GETOPS s in
    match op_enable_ctl ops with
    | Some enable_ctl => enable_ctl s
    | None =>
        let* c := ctl_create s in
        let* so := load s in
        store s (so_set_ctl c so)
    end
  else ret tt.

(** Modelled from the spec: xcm.c is missing.  xcm_local_addr is the
    facade over the transport's "address reflection" operation
    [get_local_addr], with tracing on. *)
Definition xcm_local_addr (s : ptr) : M (option string) :=
  xcm_tp_socket_get_local_addr s false.

(** *** xcm_tp.c: generic attribute getters *)

Definition byte_of_Z (z : Z) : byte :=
  default x00 (Byte.of_N (Z.to_N (z mod 256))).

(** The object representation of an integer, least significant byte
    first. *)
Fixpoint le_bytes (n : nat) (z : Z) : list byte :=
  match n with
  | O => []
  | S n' => byte_of_Z z :: le_bytes n' (z / 256)
  end.

(** memcpy/strcpy into the start of the caller's buffer; running past
    its end is undefined. *)
Definition buf_write (buf data : list byte) : M (list byte) :=
  if (length buf <? length data)%nat then fault
  else ret (data ++ drop (length data) buf)%list.

Definition c_string (s : string) : list byte :=
  (list_byte_of_string s ++ [x00])%list.

Definition get_str_attr (value : string) (buf : list byte) (capacity : Z)
  : M (Z * list byte) :=
  let len := strlen value in
  if capacity <=? len then
    set_errno EOVERFLOW ;;; ret (-1, buf)
  else
    let* buf' := buf_write buf (c_string value) in
    ret (to_int (len + 1), buf').

Definition get_bool_attr (value : bool) (buf : list byte) (capacity : Z)
  : M (Z * list byte) :=
  if capacity <? sizeof_bool then
    set_errno EOVERFLOW ;;; ret (-1, buf)
  else
    let* buf' := buf_write buf [if value then x01 else x00] in
    ret (sizeof_bool, buf').

Definition xcm_tp_socket_type_name (s : ptr) : M string :=
  let* so := load s in
  match so_type so with
  | xcm_socket_type_conn => ret "connection"
  | xcm_socket_type_server => ret "server"
  end.

Definition get_type_attr (s : ptr) (value : list byte) (capacity : Z)
  : M (Z * list byte) :=
  let* n := xcm_tp_socket_type_name s in
  get_str_attr n value capacity.

Definition get_transport_attr (s : ptr) (value : list byte) (capacity : Z)
  : M (Z * list byte) :=
  let* t := xcm_tp_socket_get_transport s in
  get_str_attr t value capacity.

Definition addr_to_attr (addr : option string) (value : list byte) (capacity : Z)
  : M (Z * list byte) :=
  match addr with
  | None => ret (-1, value)
  | Some a => get_str_attr a value capacity
  end.

Definition get_local_attr (s : ptr) (value : list byte) (capacity : Z)
  : M (Z * list byte) :=
  let* a := xcm_local_addr s in
  addr_to_attr a value capacity.

Definition get_blocking_attr (s : ptr) (value : list byte) (capacity : Z)
  : M (Z * list byte) :=
  let* so := load s in
  get_bool_attr (so_is_blocking so) value capacity.

Definition get_max_msg_attr (s : ptr) (value : list byte) (capacity : Z)
  : M (Z * list byte) :=
  let* so := load s in
  if negb (bool_decide (so_type so = xcm_socket_type_conn)) then
    set_errno ENOENT ;;; ret (-1, value)
  else if capacity <? sizeof_int64 then
    set_errno EOVERFLOW ;;; ret (-1, value)
  else
    let* ops := XCM_TP_GETOPS s in
    let* m := op_max_msg ops s in
    let max_msg := to_int64 m in
    let* value' := buf_write value (le_bytes 8 max_msg) in
    ret (sizeof_int64, value').

(** GEN_CNT_ATTR_GETTER(cnt_name, cnt_type); [field] selects
    [cnt->cnt_name.cnt_type]. *)
Definition get_cnt_attr (field : cnt_conn -> Z) (s : ptr) (value : list byte)
           (capacity : Z) : M (Z * list byte) :=
  if capacity <? sizeof_int64 then
    set_errno EOVERFLOW ;;; ret (-1, value)
  else
    let* cnt := xcm_tp_socket_get_cnt s in
    let* so := load cnt in
    let* value' := buf_write value (le_bytes 8 (field (so_cnt so))) in
    ret (sizeof_int64, value').

Definition get_to_app_msgs_attr := get_cnt_attr to_app_msgs.
Definition get_to_app_bytes_attr := get_cnt_attr to_app_bytes.
Definition get_from_app_msgs_attr := get_cnt_attr from_app_msgs.
Definition get_from_app_bytes_attr := get_cnt_attr from_app_bytes.
Definition get_to_lower_msgs_attr := get_cnt_attr to_lower_msgs.
Definition get_to_lower_bytes_attr := get_cnt_attr to_lower_bytes.
Definition get_from_lower_msgs_attr := get_cnt_attr from_lower_msgs.
Definition get_from_lower_bytes_attr := get_cnt_attr from_lower_bytes.
End Transport.

(** ** The wrapped transports *)

Section Wrapped.
Context `{build_config} `{environment}.

(** A call of an operation of a transport that is not in these files
    (xcm_tp_ux.c, xcm_tp_tls.c, ...): the socket must be live, the call
    is logged and the environment answers. *)
Definition tp_call (mk : loc -> event) (s : ptr) : M reply :=
  match s with
  | Some l => load s ;;; ext_call (mk l)
  | None => fault
  end.

Definition tp_call2 (mk : loc -> loc -> event) (s1 s2 : ptr) : M reply :=
  match s1, s2 with
  | Some l1, Some l2 => load s1 ;;; load s2 ;;; ext_call (mk l1 l2)
  | _, _ => fault
  end.

(** Modelled from the spec: the operation tables of the other
    transports are missing.  The hooks [get_transport], [get_cnt] and
    [enable_ctl] are "optional ... hooks used by the hybrid transport to
    delegate"; the other transports leave them NULL. *)
Definition ext_ops : xcm_tp_ops :=
  mk_ops
    (fun s => let* r := tp_call TpInit s in ret (rep_rc r))
    (fun s a => let* r := tp_call (fun l => TpConnect l a) s in ret (rep_rc r))
    (fun s a => let* r := tp_call (fun l => TpServer l a) s in ret (rep_rc r))
    (fun s => let* r := tp_call TpClose s in ret (rep_rc r))
    (fun s => tp_call TpCleanup s ;;; ret tt)
    (fun c v => let* r := tp_call2 TpAccept c v in ret (rep_rc r))
    (fun s b => let* r := tp_call (fun l => TpSend l b) s in ret (rep_rc r))
    (fun s n => let* r := tp_call (fun l => TpReceive l n) s in
                ret (rep_rc r, rep_bytes r))
    (fun s => tp_call TpUpdate s ;;; ret tt)
    (fun s => let* r := tp_call TpFinish s in ret (rep_rc r))
    None
    (fun s t => let* r := tp_call (fun l => TpGetLocalAddr l t) s in ret (rep_str r))
    (fun s => let* r := tp_call TpMaxMsg s in ret (rep_rc r))
    None
    None.

(** A UTLS socket never wraps a UTLS socket: its sub-sockets are made
    from the registry entries "ux" and "tls".  Were one of these names
    registered with the UTLS table, utls_init would recurse without
    end; the model stops there. *)
Definition nested_utls_ops : xcm_tp_ops :=
  mk_ops (fun _ => fault) (fun _ _ => fault) (fun _ _ => fault) (fun _ => fault)
         (fun _ => fault) (fun _ _ => fault) (fun _ _ => fault) (fun _ _ => fault)
         (fun _ => fault) (fun _ => fault) (Some (fun _ => fault))
         (fun _ _ => fault) (fun _ => fault) (Some (fun _ => fault))
         (Some (fun _ => fault)).

(** The tables reachable from a sub-socket. *)
Definition sub_ops (r : ops_ref) : xcm_tp_ops :=
  match r with
  | ext_ops_ref _ => ext_ops
  | utls_ops_ref => nested_utls_ops
  end.
End Wrapped.

(** ** xcm_tp_utls.c *)

(** The two pointer fields of struct utls_socket, for the functions
    that take [struct xcm_socket **]. *)
Inductive sub_field := f_ux_socket | f_tls_socket.

Definition us_get (f : sub_field) (us : utls_socket) : ptr :=
  match f with
  | f_ux_socket => ux_socket us
  | f_tls_socket => tls_socket us
  end.

Definition us_set (f : sub_field) (v : ptr) (us : utls_socket) : utls_socket :=
  match f with
  | f_ux_socket => mk_utls (laddr us) v (tls_socket us)
  | f_tls_socket => mk_utls (laddr us) (ux_socket us) v
  end.

Definition us_set_laddr (a : string) (us : utls_socket) : utls_socket :=
  mk_utls a (ux_socket us) (tls_socket us).

(** [s + n] on a C string: the tail after [n] characters; past the
    terminating NUL the pointer is invalid. *)
Fixpoint str_skip (n : nat) (s : string) : option string :=
  match n with
  | O => Some s
  | S n' => match s with
            | EmptyString => None
            | String _ s' => str_skip n' s'
            end
  end.

Section UTLS.
Context `{build_config} `{environment}.
Variable ctl_fuel : nat.

(** TOUTLS(s). *)
Definition TOUTLS (s : ptr) : M utls_socket :=
  let* so := load s in ret (so_priv so).

(** [TOUTLS(s)->field = v]. *)
Definition us_write (s : ptr) (f : sub_field) (v : ptr) : M unit :=
  let* so := load s in
  store s (so_set_priv (us_set f v (so_priv so)) so).

Definition us_read (s : ptr) (f : sub_field) : M ptr :=
  let* us := TOUTLS s in ret (us_get f us).

Definition get_proto (name : string) (cached : World -> option nat)
           (set_cached : option nat -> World -> World) : M (option nat) :=
  let* proto := gets cached in
  match proto with
  | Some _ => ret proto
  | None =>
      let* proto := xcm_tp_proto_by_name name in
      modify (set_cached proto) ;;;
      ret proto
  end.

Definition ux_proto : M (option nat) :=
  get_proto XCM_UX_PROTO ux_cached_proto set_ux_cached.

Definition tls_proto : M (option nat) :=
  get_proto XCM_TLS_PROTO tls_cached_proto set_tls_cached.

Definition create_sub_socket (proto : option nat) (type : xcm_socket_type)
           (epoll_fd : Z) : M ptr :=
  let* s := xcm_tp_socket_create proto type epoll_fd false in
  match s with
  | None => ret None
  | Some _ =>
      let* rc := xcm_tp_socket_init sub_ops s in
      if rc <? 0 then
        xcm_tp_socket_destroy s ;;; ret None
      else ret s
  end.

Definition utls_init (s : ptr) : M Z :=
  let* so := load s in
  let* p := ux_proto in
  let* ux := create_sub_socket p (so_type so) (so_epoll_fd so) in
  us_write s f_ux_socket ux ;;;
  let* so := load s in
  let* p := tls_proto in
  let* tls := create_sub_socket p (so_type so) (so_epoll_fd so) in
  us_write s f_tls_socket tls ;;;
  let* us := TOUTLS s in
  if negb (bool_decide (is_Some (ux_socket us)))
     || negb (bool_decide (is_Some (tls_socket us))) then
    xcm_tp_socket_destroy (ux_socket us) ;;;
    ret (-1)
  else ret 0.

Definition deinit (s : ptr) : M unit :=
  match s with
  | None => ret tt
  | Some _ =>
      let* us := TOUTLS s in
      xcm_tp_socket_destroy (ux_socket us) ;;;
      xcm_tp_socket_destroy (tls_socket us)
  end.

Definition map_tls_to_ux (tls_addr : string) (capacity : Z) : M string :=
  match str_skip (Z.to_nat (strlen XCM_TLS_PROTO + PROTO_SEP_LEN)) tls_addr with
  | None => fault
  | Some tail =>
      let '(rc, ux_addr) := xcm_addr_ux_make tail capacity in
      ut_assert (rc =? 0) ;;;
      ret ux_addr
  end.

(** remove_sub_socket(&TOUTLS(s)->field). *)
Definition remove_sub_socket (s : ptr) (f : sub_field) : M unit :=
  let* sub := us_read s f in
  xcm_tp_socket_destroy sub ;;;
  us_write s f None.

Definition utls_connect (s : ptr) (remote_addr : string) : M Z :=
  let err := deinit s ;;; ret (-1) in
  let err_close_tls :=
    (let* us := TOUTLS s in xcm_tp_socket_close sub_ops (tls_socket us)) ;;; err in
  let err_close_both :=
    (let* us := TOUTLS s in xcm_tp_socket_close sub_ops (ux_socket us)) ;;;
    err_close_tls in
  load s ;;;
  let '(prc, perrno, (host, port)) := xcm_addr_parse_utls remote_addr in
  if prc <? 0 then
    set_errno perrno ;;; err_close_both
  else
    let '(rc, tls_addr) := xcm_addr_make_tls host port XCM_ADDR_MAX in
    ut_assert (rc =? 0) ;;;
    let* ux_addr := map_tls_to_ux tls_addr (XCM_ADDR_MAX + 1) in
    let* us := TOUTLS s in
    let* rc := xcm_tp_socket_connect sub_ops ctl_fuel (ux_socket us) ux_addr in
    if rc =? 0 then
      let* us := TOUTLS s in
      xcm_tp_socket_close sub_ops (tls_socket us) ;;;
      remove_sub_socket s f_tls_socket ;;;
      ret 0
    else
      let* e := get_errno in
      if negb (e =? ECONNREFUSED) then err_close_tls
      else
        let* us := TOUTLS s in
        let* rc := xcm_tp_socket_connect sub_ops ctl_fuel (tls_socket us) tls_addr in
        if rc <? 0 then err
        else
          remove_sub_socket s f_ux_socket ;;;
          ret 0.

(** bind_sub_server(&TOUTLS(s)->field, local_addr). *)
Definition bind_sub_server (s : ptr) (f : sub_field) (local_addr : string) : M Z :=
  let* sub := us_read s f in
  let* rc := xcm_tp_socket_server sub_ops ctl_fuel sub local_addr in
  if rc <? 0 then
    let* sub := us_read s f in
    xcm_tp_socket_destroy sub ;;;
    us_write s f None ;;;
    ret (-1)
  else ret 0.

Definition utls_server (s : ptr) (local_addr : string) : M Z :=
  let err := deinit s ;;; ret (-1) in
  let err_close_ux :=
    (let* us := TOUTLS s in xcm_tp_socket_close sub_ops (ux_socket us)) ;;; err in
  let err_close_both :=
    (let* us := TOUTLS s in xcm_tp_socket_close sub_ops (tls_socket us)) ;;;
    err_close_ux in
  load s ;;;
  let '(prc, perrno, (host, port)) := xcm_addr_parse_utls local_addr in
  if prc <? 0 then
    set_errno perrno ;;; err_close_both
  else
    let '(rc, tls_addr) := xcm_addr_make_tls host port (XCM_ADDR_MAX + 1) in
    ut_assert (rc =? 0) ;;;
    let* brc := bind_sub_server s f_tls_socket tls_addr in
    if brc <? 0 then err_close_ux
    else
      let* actual_addr :=
        (if port =? 0 then
           let* us := TOUTLS s in
           let* a := xcm_local_addr sub_ops (tls_socket us) in
           ut_assert (bool_decide (is_Some a)) ;;;
           match a with
           | None => fault
           | Some actual =>
               let '(rc, (_, port')) := xcm_addr_parse_tls actual in
               ut_assert ((rc =? 0) && (0 <? port')) ;;;
               ret actual
           end
         else ret tls_addr) in
      let* ux_addr := map_tls_to_ux actual_addr (XCM_ADDR_MAX + 1) in
      let* brc := bind_sub_server s f_ux_socket ux_addr in
      if brc <? 0 then err
      else ret 0.

Definition utls_close (s : ptr) : M Z :=
  match s with
  | None => ret 0
  | Some _ =>
      let* us := TOUTLS s in
      let* rc1 := xcm_tp_socket_close sub_ops (ux_socket us) in
      let* us := TOUTLS s in
      let* rc2 := xcm_tp_socket_close sub_ops (tls_socket us) in
      deinit s ;;;
      ret (if (rc1 <? 0) || (rc2 <? 0) then -1 else 0)
  end.

Definition utls_cleanup (s : ptr) : M unit :=
  match s with
  | None => ret tt
  | Some _ =>
      let* us := TOUTLS s in
      xcm_tp_socket_cleanup sub_ops (ux_socket us) ;;;
      let* us := TOUTLS s in
      xcm_tp_socket_cleanup sub_ops (tls_socket us) ;;;
      deinit s
  end.

Definition utls_accept (conn_s server_s : ptr) : M Z :=
  let* server_us := TOUTLS server_s in
  let* conn_us := TOUTLS conn_s in
  let* rc := xcm_tp_socket_accept sub_ops ctl_fuel
                                  (ux_socket conn_us) (ux_socket server_us) in
  if rc =? 0 then
    let* conn_us := TOUTLS conn_s in
    xcm_tp_socket_close sub_ops (tls_socket conn_us) ;;;
    remove_sub_socket conn_s f_tls_socket ;;;
    ret 0
  else
    let* server_us := TOUTLS server_s in
    let* conn_us := TOUTLS conn_s in
    let* rc := xcm_tp_socket_accept sub_ops ctl_fuel
                                    (tls_socket conn_us) (tls_socket server_us) in
    if rc =? 0 then
      remove_sub_socket conn_s f_ux_socket ;;;
      ret 0
    else
      deinit conn_s ;;;
      ret (-1).

Definition active_sub_conn (s : ptr) : M ptr :=
  let* us := TOUTLS s in
  ret (match ux_socket us with
       | Some _ => ux_socket us
       | None => tls_socket us
       end).

Definition utls_send (s : ptr) (buf : list byte) : M Z :=
  let* a := active_sub_conn s in
  xcm_tp_socket_send sub_ops ctl_fuel a buf.

Definition utls_receive (s : ptr) (capacity : Z) : M (Z * list byte) :=
  let* a := active_sub_conn s in
  xcm_tp_socket_receive sub_ops ctl_fuel a capacity.

Definition sync_update (s sub_socket : ptr) : M unit :=
  let* so := load s in
  let* sub := load sub_socket in
  store sub_socket (so_set_condition (so_condition so) sub) ;;;
  xcm_tp_socket_update sub_ops sub_socket.

Definition utls_update (s : ptr) : M unit :=
  let* so := load s in
  match so_type so with
  | xcm_socket_type_conn =>
      let* a := active_sub_conn s in
      sync_update s a
  | xcm_socket_type_server =>
      let* us := TOUTLS s in
      sync_update s (ux_socket us) ;;;
      let* us := TOUTLS s in
      sync_update s (tls_socket us)
  end.

Definition utls_finish (s : ptr) : M Z :=
  let* so := load s in
  match so_type so with
  | xcm_socket_type_conn =>
      let* a := active_sub_conn s in
      xcm_tp_socket_finish sub_ops ctl_fuel a
  | xcm_socket_type_server =>
      let* us := TOUTLS s in
      let* rc := xcm_tp_socket_finish sub_ops ctl_fuel (ux_socket us) in
      if rc <? 0 then ret (-1)
      else
        let* us := TOUTLS s in
        let* rc := xcm_tp_socket_finish sub_ops ctl_fuel (tls_socket us) in
        if rc <? 0 then ret (-1) else ret 0
  end.

Definition utls_get_transport (s : ptr) : M string :=
  let* so := load s in
  match so_type so with
  | xcm_socket_type_conn =>
      (* masquerade as the underlying transport *)
      let* a := active_sub_conn s in
      xcm_tp_socket_get_transport sub_ops a
  | xcm_socket_type_server => ret XCM_UTLS_PROTO
  end.

Definition get_conn_local_addr (s : ptr) (suppress_tracing : bool)
  : M (option string) :=
  let* active := active_sub_conn s in
  match active with
  | None => ret None
  | Some _ => xcm_tp_socket_get_local_addr sub_ops active suppress_tracing
  end.

Definition get_server_local_addr (s : ptr) (suppress_tracing : bool)
  : M (option string) :=
  let* us := TOUTLS s in
  match tls_socket us with
  | None => ret None
  | Some _ =>
      let* tls_addr :=
        xcm_tp_socket_get_local_addr sub_ops (tls_socket us) suppress_tracing in
      match tls_addr with
      | None => ret None
      | Some a =>
          let '(rc, (ip, port)) := xcm_addr_tls6_parse a in
          ut_assert (rc =? 0) ;;;
          let '(rc, l) := xcm_addr_utls6_make ip port (XCM_ADDR_MAX + 1) in
          ut_assert (rc =? 0) ;;;
          let* so := load s in
          store s (so_set_priv (us_set_laddr l (so_priv so)) so) ;;;
          ret (Some l)
      end
  end.

Definition utls_get_local_addr (s : ptr) (suppress_tracing : bool)
  : M (option string) :=
  let* so := load s in
  match so_type so with
  | xcm_socket_type_conn => get_conn_local_addr s suppress_tracing
  | xcm_socket_type_server => get_server_local_addr s suppress_tracing
  end.

Definition utls_max_msg (conn_s : ptr) : M Z :=
  let* a := active_sub_conn conn_s in
  xcm_tp_socket_max_msg sub_ops a.

Definition utls_get_cnt (conn_s : ptr) : M ptr :=
  let* a := active_sub_conn conn_s in
  xcm_tp_socket_get_cnt sub_ops a.

(** [sock->ctl = ctl_create(sock)]. *)
Definition enable_socket_ctl (sock : ptr) : M unit :=
  load sock ;;;
  let* c := ctl_create sock in
  let* so := load sock in
  store sock (so_set_ctl c so).

Definition utls_enable_ctl (s : ptr) : M unit :=
  if XCM_CTL then
    let* so := load s in
    match so_type so with
    | xcm_socket_type_conn =>
        let* active := active_sub_conn s in
        enable_socket_ctl active
    | xcm_socket_type_server =>
        let* us := TOUTLS s in
        (* the reason all three sockets are exposed in the case of
           the UTLS server socket are mostly historical *)
        enable_socket_ctl (ux_socket us) ;;;
        let* us := TOUTLS s in
        enable_socket_ctl (tls_socket us) ;;;
        enable_socket_ctl s
    end
  else ret tt.

Definition utls_ops : xcm_tp_ops :=
  mk_ops utls_init utls_connect utls_server utls_close utls_cleanup utls_accept
         utls_send utls_receive utls_update utls_finish
         (Some utls_get_transport) utls_get_local_addr utls_max_msg
         (Some utls_get_cnt) (Some utls_enable_ctl).

(** The table behind every ops pointer an application socket can
    carry. *)
Definition tp_ops (r : ops_ref) : xcm_tp_ops :=
  match r with
  | utls_ops_ref => utls_ops
  | ext_ops_ref _ => ext_ops
  end.

(** The constructor [reg] of xcm_tp_utls.c. *)
Definition reg : M unit := xcm_tp_register XCM_UTLS_PROTO utls_ops_ref.
End UTLS.

(** ** The state of a freshly loaded library *)

Definition zero_proto : xcm_tp_proto := mk_proto EmptyString None.

(** Static storage is zero-initialised; the heap is empty. *)
Definition initial_world : World :=
  mk_world ∅ ∅ 0 (replicate (Z.to_nat MAX_PROTOS) zero_proto) 0 0 None None [].

(** A run of transport constructors, each calling xcm_tp_register. *)
Fixpoint registrations `{build_config} (l : list (string * ops_ref)) : M unit :=
  match l with
  | [] => ret tt
  | (name, ops) :: l' => xcm_tp_register name ops ;;; registrations l'
  end.

(** ** Predicates used in the statements *)

(** The registry as the code maintains it: the array has MAX_PROTOS
    slots, [num_protos] of them are in use, and the names in use are
    pairwise different. *)
Definition reg_wf (w : World) : Prop :=
  length (protos w) = Z.to_nat MAX_PROTOS /\
  0 <= num_protos w <= MAX_PROTOS /\
  NoDup (proto_name <$> take (Z.to_nat (num_protos w)) (protos w)).

Definition name_registered (w : World) (name : string) : Prop :=
  exists i p, (Z.of_nat i < num_protos w) /\ protos w !! i = Some p /\ proto_name p = name.


(** The calls made to wrapped transports, in order. *)
Definition tp_events (w : World) : list event := List.filter is_tp_event (trace w).

(** The world after the call [e] has returned. *)
Definition after_call `{environment} (e : event) (w : World) : World :=
  set_errno_w (rep_errno (env_reply (trace w) e)) (log_event e w).

(** What a step of the control channel leaves alone: the sockets, the
    registry and the statics, and the calls made to transports. *)
Definition ctl_frame (w w' : World) : Prop :=
  heap w' = heap w /\ protos w' = protos w /\ num_protos w' = num_protos w /\
  next_id w' = next_id w /\ ux_cached_proto w' = ux_cached_proto w /\
  tls_cached_proto w' = tls_cached_proto w /\ tp_events w' = tp_events w.

(** A computation that only reads. *)
Definition read_only {A} (m : M A) : Prop :=
  forall w a w', m w = Ok a w' -> w' = w.

Definition transport_hooks_read_only (getops : ops_ref -> xcm_tp_ops) : Prop :=
  forall r f s, op_get_transport (getops r) = Some f -> read_only (f s).

(** No transport's get_transport runs into the recursion bound of the
    model. *)
Definition transport_hooks_in_fuel (getops : ops_ref -> xcm_tp_ops) : Prop :=
  forall r f s w, op_get_transport (getops r) = Some f -> f s w <> OutOfFuel.

(** The client table of a channel within its bounds. *)
Definition ctl_ok (x : ctl) : Prop :=
  length (ctl_clients x) = Z.to_nat MAX_CLIENTS /\
  0 <= ctl_num_clients x <= MAX_CLIENTS.

Definition ctl_inv (c : loc) (w : World) : Prop :=
  exists x, ctls w !! c = Some x /\ ctl_ok x.

(** A channel changed in its per-client data only. *)
Definition ctl_same_shape (x x' : ctl) : Prop :=
  ctl_socket x' = ctl_socket x /\ ctl_server_fd x' = ctl_server_fd x /\
  ctl_num_clients x' = ctl_num_clients x /\
  ctl_calls_since_process x' = ctl_calls_since_process x /\
  length (ctl_clients x') = length (ctl_clients x).

(** What any sequence of channel operations on channel [c] does to the
    world: it stays within the frame, touches no other channel, keeps
    the listening descriptor and the owning socket, and keeps the
    client table within bounds. *)
Definition ctl_step (c : loc) (w w' : World) : Prop :=
  ctl_frame w w' /\
  exists x x',
    ctls w !! c = Some x /\ ctls w' = <[c := x']> (ctls w) /\
    ctl_socket x' = ctl_socket x /\ ctl_server_fd x' = ctl_server_fd x /\
    (ctl_ok x -> ctl_ok x').

(** The two ways a channel client can fail, in the words of the
    specification: an I/O error (a failed send or receive other than
    EAGAIN), or a malformed request (a record of the wrong size or of
    an unknown kind). *)
Definition io_error (r : reply) : bool :=
  (rep_rc r <? 0) && negb (rep_errno r =? EAGAIN).

Definition known_request (t : ctl_proto_type) : bool :=
  match t with
  | ctl_proto_type_get_attr_req | ctl_proto_type_get_all_attr_req => true
  | _ => false
  end.

Definition malformed_request `{build_config} (r : reply) : bool :=
  (0 <=? rep_rc r) &&
  (negb (rep_rc r =? sizeof_ctl_proto_msg) || negb (known_request (msg_type (rep_msg r)))).

Definition client_failed `{build_config} `{environment} (cl : client) (w : World) : bool :=
  if cl_is_response_pending cl then
    io_error (env_reply (trace w) (SysSend (cl_fd cl) (cl_pending_response cl)))
  else
    let r := env_reply (trace w) (SysRecv (cl_fd cl)) in
    io_error r || malformed_request r.

(** [l] is a live socket of a wrapped transport, with no control
    channel of its own. *)
Definition ext_socket (w : World) (l : loc) : Prop :=
  exists so p n,
    heap w !! l = Some so /\ protos w !! so_proto so = Some p /\
    proto_ops p = Some (ext_ops_ref n) /\ so_ctl so = None.

(** The same, whether or not it has a control channel. *)
Definition ext_socket_any (w : World) (l : loc) : Prop :=
  exists so p n,
    heap w !! l = Some so /\ protos w !! so_proto so = Some p /\
    proto_ops p = Some (ext_ops_ref n).

(** [l] is a live socket whose registry entry is named [name]. *)
Definition socket_named (w : World) (l : loc) (name : string) : Prop :=
  exists so p,
    heap w !! l = Some so /\ protos w !! so_proto so = Some p /\
    proto_name p = name.

(** A UTLS socket as utls_init leaves it: both sub-sockets present,
    live, of wrapped transports, and apart from each other and from
    the socket itself. *)
Definition utls_ready (w : World) (s lu lt : loc) : Prop :=
  (exists so, heap w !! s = Some so /\
              ux_socket (so_priv so) = Some lu /\
              tls_socket (so_priv so) = Some lt) /\
  s <> lu /\ s <> lt /\ lu <> lt /\
  ext_socket w lu /\ ext_socket w lt.

(** A UTLS connection socket after connect or accept: exactly one
    sub-socket, [a], is left; it is live and of a wrapped transport. *)
Definition utls_connected (w : World) (s a : loc) : Prop :=
  (exists so, heap w !! s = Some so /\
     ((ux_socket (so_priv so) = Some a /\ tls_socket (so_priv so) = None) \/
      (ux_socket (so_priv so) = None /\ tls_socket (so_priv so) = Some a))) /\
  s <> a /\ ext_socket w a.

(** The UTLS server socket [srv] with its two listeners. *)
Definition utls_listening (w : World) (srv su st : loc) : Prop :=
  (exists so, heap w !! srv = Some so /\
              ux_socket (so_priv so) = Some su /\
              tls_socket (so_priv so) = Some st) /\
  ext_socket_any w su /\ ext_socket_any w st.

(** The registry entries cached by ux_proto and tls_proto, once set,
    are entries of these names. *)
Definition proto_cache_ok (w : World) : Prop :=
  (forall i, ux_cached_proto w = Some i ->
             exists p, protos w !! i = Some p /\ proto_name p = XCM_UX_PROTO) /\
  (forall i, tls_cached_proto w = Some i ->
             exists p, protos w !! i = Some p /\ proto_name p = XCM_TLS_PROTO).

(** The socket at [s] is still there, of the same protocol and kind. *)
Definition socket_kept (w w' : World) (s : loc) : Prop :=
  exists so so', heap w !! s = Some so /\ heap w' !! s = Some so' /\
                 so_proto so' = so_proto so /\ so_type so' = so_type so.

(** The socket at [s] is of kind [type] and its protocol entry carries
    the UTLS operations. *)
Definition utls_socket_of_type (w : World) (s : loc) (type : xcm_socket_type) : Prop :=
  exists so p, heap w !! s = Some so /\ so_type so = type /\
               protos w !! so_proto so = Some p /\ proto_ops p = Some utls_ops_ref.

(** From [w] to [w']: sockets, registry and statics are the same, and
    the calls [evs] were made to transports. *)
Definition calls_made (evs : list event) (w w' : World) : Prop :=
  heap w' = heap w /\ protos w' = protos w /\ num_protos w' = num_protos w /\
  next_id w' = next_id w /\ ux_cached_proto w' = ux_cached_proto w /\
  tls_cached_proto w' = tls_cached_proto w /\
  tp_events w' = tp_events w ++ evs.

(** The private part of the UTLS socket at [s]. *)
Definition utls_priv (w : World) (s : loc) : option utls_socket :=
  so_priv <$> heap w !! s.

(** The call counter and the client count of the channel at [c]. *)
Definition calls_since_process_of (w : World) (c : loc) : option Z :=
  ctl_calls_since_process <$> ctls w !! c.

Definition num_clients_of (w : World) (c : loc) : option Z :=
  ctl_num_clients <$> ctls w !! c.

(** The number of calls between two processing steps of the channel of
    a socket that is not SCTP. *)
Definition default_period (x : ctl) : Z :=
  if 0 <? ctl_num_clients x then DEFAULT_CALLS_PER_SEND_RECEIVE
  else DEFAULT_CALLS_PER_ACCEPT.

(** ** Sample configurations *)

(** A build with assertions (the default) and one with NDEBUG. *)
Definition debug_build : build_config :=
  {| NDEBUG := false; XCM_CTL := true; XCM_SCTP := false;
     XCM_ADDR_MAX := 254; XCM_ADDR_MAX_PROTO_LEN := 32;
     CTL_PROTO_MAX_ATTRS := 64; sizeof_ctl_proto_msg := 512;
     sizeof_any_value := 256 |}.

Definition release_build : build_config :=
  {| NDEBUG := true; XCM_CTL := true; XCM_SCTP := false;
     XCM_ADDR_MAX := 254; XCM_ADDR_MAX_PROTO_LEN := 32;
     CTL_PROTO_MAX_ATTRS := 64; sizeof_ctl_proto_msg := 512;
     sizeof_any_value := 256 |}.

(** ** A sample environment and sample runs *)

Definition reply_of (rc e : Z) : reply :=
  mk_reply rc e None [] 0 (@zero_msg debug_build) [].

Definition is_SysAccept (e : event) : bool :=
  match e with SysAccept _ => true | _ => false end.

Definition is_TpAccept (e : event) : bool :=
  match e with TpAccept _ _ => true | _ => false end.

(** Replies of a small world.  The control directory exists and the
    channel listener gets descriptor 3; one channel client (descriptor
    4) connects, and every read from it fails with ECONNRESET (104).
    A local UX peer exists iff [ux_up]: otherwise UX connect is refused
    and the first accept (the UX one) finds nothing.  The TLS listener
    reports port 40000. *)
Definition sample_reply (ux_up : bool) (hist : list event) (e : event) : reply :=
  match e with
  | SysCreateUx _ => reply_of 3 0
  | SysAccept _ =>
      if existsb is_SysAccept hist then reply_of (-1) EAGAIN else reply_of 4 0
  | SysRecv _ => reply_of (-1) 104
  | TpConnect _ a =>
      if String.prefix "ux:" a && negb ux_up then reply_of (-1) ECONNREFUSED
      else reply_of 0 0
  | TpAccept _ _ =>
      if ux_up || existsb is_TpAccept hist then reply_of 0 0
      else reply_of (-1) EAGAIN
  | TpGetLocalAddr _ _ =>
      mk_reply 0 0 (Some "tls:127.0.0.1:40000") [] 0 (@zero_msg debug_build) []
  | TpMaxMsg _ => reply_of 65535 0
  | _ => reply_of 0 0
  end.

Definition sample_port (port : Z) : string :=
  if port =? 0 then "0" else if port =? 14001 then "14001" else "40000".

Definition sample_env (ux_up : bool) : environment :=
  {| env_reply := sample_reply ux_up;
     xcm_addr_parse_utls := fun a =>
       if String.eqb a "utls:127.0.0.1:14001" then (0, 0, (mk_host "127.0.0.1", 14001))
       else if String.eqb a "utls:127.0.0.1:0" then (0, 0, (mk_host "127.0.0.1", 0))
       else (-1, EINVAL, (mk_host EmptyString, 0));
     xcm_addr_parse_tls := fun a =>
       if String.eqb a "tls:127.0.0.1:40000" then (0, (mk_host "127.0.0.1", 40000))
       else if String.eqb a "tls:127.0.0.1:14001" then (0, (mk_host "127.0.0.1", 14001))
       else (-1, (mk_host EmptyString, 0));
     xcm_addr_make_tls := fun host port _ =>
       (0, "tls:" ++ host_repr host ++ ":" ++ sample_port port)%string;
     xcm_addr_ux_make := fun name _ => (0, "ux:" ++ name)%string;
     xcm_addr_tls6_parse := fun a => (0, ("127.0.0.1", 40000));
     xcm_addr_utls6_make := fun ip port _ =>
       (0, "utls:" ++ ip ++ ":" ++ sample_port port)%string |}.

Definition world_of {A} (o : outcome A) : World :=
  match o with
  | Ok _ w => w
  | _ => initial_world
  end.

Definition value_of {A} (d : A) (o : outcome A) : A :=
  match o with
  | Ok a _ => a
  | _ => d
  end.

(** The library after its constructors have run: "ux", "tls" and
    "utls" are registered. *)
Definition booted_world : World :=
  world_of (@registrations debug_build
              [("ux", ext_ops_ref 1); ("tls", ext_ops_ref 2); ("utls", utls_ops_ref)]
              initial_world).

(** [m] run [n] times in a row. *)
Fixpoint repeat_call (n : nat) (m : M unit) : M unit :=
  match n with
  | O => ret tt
  | S n' => m ;;; repeat_call n' m
  end.

Section Samples.
Context (cfg : build_config) (env : environment).

(** A socket of the registered protocol [name], made and initialised
    as the facade does. *)
Definition sample_socket (fuel : nat) (name : string) (type : xcm_socket_type)
  : M ptr :=
  let* proto := xcm_tp_proto_by_name name in
  let* s := xcm_tp_socket_create proto type 5 true in
  let* _ := xcm_tp_socket_init (tp_ops fuel) s in
  ret s.

(** The same with the control channel enabled. *)
Definition sample_socket_with_ctl (fuel : nat) (name : string)
           (type : xcm_socket_type) : M ptr :=
  let* s := sample_socket fuel name type in
  xcm_tp_socket_enable_ctl (tp_ops fuel) s ;;;
  ret s.
End Samples.

(** A UX connection socket with its control channel, in the sample
    world with a local peer; the channel is at location 1. *)
Definition sample_ctl_world : World :=
  world_of (sample_socket_with_ctl debug_build (sample_env true) 3
              "ux" xcm_socket_type_conn booted_world).

(** [n] calls of ctl_process on that channel. *)
Definition sample_ctl_calls (n : nat) (w : World) : World :=
  world_of (repeat_call n
              (@ctl_process debug_build (sample_env true)
                 (@tp_ops debug_build (sample_env true) 3) 3 (Some 1%positive)) w).

(** A UTLS socket of kind [type] as xcm_tp_socket_create makes it,
    before utls_init; it is at location 1. *)
Definition sample_created_world (type : xcm_socket_type) : World :=
  world_of ((let* proto := xcm_tp_proto_by_name "utls" in
             xcm_tp_socket_create proto type 5 true) booted_world).

(** A UTLS socket of kind [type] after utls_init; it is at location 1,
    its UX and TLS sub-sockets at 2 and 3. *)
Definition sample_utls_world (ux_up : bool) (type : xcm_socket_type) : World :=
  world_of (sample_socket debug_build (sample_env ux_up) 3
              "utls" type booted_world).

(** The UTLS server socket bound to port 0 of the loopback address. *)
Definition sample_listening_world (ux_up : bool) : World :=
  world_of (@utls_server debug_build (sample_env ux_up) 3 (Some 1%positive)
              "utls:127.0.0.1:0" (sample_utls_world ux_up xcm_socket_type_server)).

(** Next to it a fresh UTLS connection socket for accept: it is at
    location 4, its sub-sockets at 5 and 6. *)
Definition sample_accept_world (ux_up : bool) : World :=
  world_of (sample_socket debug_build (sample_env ux_up) 3
              "utls" xcm_socket_type_conn (sample_listening_world ux_up)).
(** * Further parts of the code *)

(** ** xcm_tp.c: socket ids *)

(** Every socket on the heap has an id below the next one to hand out. *)
Definition sock_ids_below_next (w : World) : Prop :=
  forall l so, heap w !! l = Some so -> 0 <= so_sock_id so < next_id w.

(** ** xcm_tp_utls.c: the registry entries behind the sub-sockets *)

(** get_proto(name, cached) gives entry [i]: either the static already
    holds it, or it is still NULL and the lookup by name finds it; the
    entry carries the operations of a wrapped transport. *)
Definition sub_proto_at (w : World) (cached : option nat) (name : string) (i : nat)
  : Prop :=
  (cached = Some i \/
   (cached = None /\ xcm_tp_proto_by_name name w = Ok (Some i) w)) /\
  exists p n, protos w !! i = Some p /\ proto_ops p = Some (ext_ops_ref n).

(** The socket xcm_tp_socket_create leaves behind. *)
Definition created_socket (pi : nat) (type : xcm_socket_type) (epoll_fd : Z)
           (is_blocking : bool) (nid : Z) : xcm_socket :=
  mk_socket pi type is_blocking epoll_fd nid 0 None zero_cnt
            (mk_utls EmptyString None None).

(** ** More sample environments *)

(** The sample environment with a local peer, except that the calls
    picked out by [fails] return -1 with errno EINVAL. *)
Definition sample_env_failing (fails : event -> bool) : environment :=
  {| env_reply := fun hist e =>
       if fails e then reply_of (-1) EINVAL else sample_reply true hist e;
     xcm_addr_parse_utls := @xcm_addr_parse_utls (sample_env true);
     xcm_addr_parse_tls := @xcm_addr_parse_tls (sample_env true);
     xcm_addr_make_tls := @xcm_addr_make_tls (sample_env true);
     xcm_addr_ux_make := @xcm_addr_ux_make (sample_env true);
     xcm_addr_tls6_parse := @xcm_addr_tls6_parse (sample_env true);
     xcm_addr_utls6_make := @xcm_addr_utls6_make (sample_env true) |}.

Definition is_TpServer_on (l : loc) (e : event) : bool :=
  match e with TpServer l' _ => bool_decide (l' = l) | _ => false end.

(** A request for the attribute "xcm.type", and one for all
    attributes. *)
Definition sample_request : ctl_proto_msg :=
  mk_msg ctl_proto_type_get_attr_req "xcm.type" zero_attr 0 [] 0.

Definition sample_request_all : ctl_proto_msg :=
  mk_msg ctl_proto_type_get_all_attr_req EmptyString zero_attr 0 [] 0.

(** The attribute "xcm.type" of a connection socket: the string
    "connection" (type 3, xcm_attr_type_str), eleven bytes with its
    NUL. *)
Definition sample_type_attr : ctl_proto_attr :=
  mk_attr "xcm.type" 3 (c_string "connection") 11.

(** The sample environment with a channel client that sends [req]
    whenever it is read, and a socket whose attributes are [attrs]. *)
Definition sample_env_channel (req : ctl_proto_msg) (attrs : list ctl_proto_attr)
  : environment :=
  {| env_reply := fun hist e =>
       match e with
       | SysRecv _ =>
           mk_reply (@sizeof_ctl_proto_msg debug_build) 0 None [] 0 req []
       | XcmAttrGet _ _ =>
           mk_reply (attr_value_len sample_type_attr) 0 None
                    (attr_any_value sample_type_attr)
                    (attr_value_type sample_type_attr) (@zero_msg debug_build) []
       | XcmAttrGetAll _ =>
           mk_reply 0 0 None [] 0 (@zero_msg debug_build) attrs
       | _ => sample_reply true hist e
       end;
     xcm_addr_parse_utls := @xcm_addr_parse_utls (sample_env true);
     xcm_addr_parse_tls := @xcm_addr_parse_tls (sample_env true);
     xcm_addr_make_tls := @xcm_addr_make_tls (sample_env true);
     xcm_addr_ux_make := @xcm_addr_ux_make (sample_env true);
     xcm_addr_tls6_parse := @xcm_addr_tls6_parse (sample_env true);
     xcm_addr_utls6_make := @xcm_addr_utls6_make (sample_env true) |}.

(** The UTLS connection socket of the sample world after a connect
    with no local peer: the TLS sub-socket, at location 3, is the one
    left. *)
Definition sample_connected_world : World :=
  world_of (@utls_connect debug_build (sample_env false) 3 (Some 1%positive)
              "utls:127.0.0.1:14001" (sample_utls_world false xcm_socket_type_conn)).

(** ** Control channels of a socket *)

(** From [w] to [w'] the socket at [l] got its ctl field written: NULL,
    or a new channel with no client that names [l] as its socket. *)
Definition ctl_made_for (w w' : World) (l : loc) : Prop :=
  exists so c,
    heap w !! l = Some so /\ heap w' !! l = Some (so_set_ctl c so) /\
    match c with
    | None => True
    | Some cl =>
        exists x, ctls w !! cl = None /\ ctls w' !! cl = Some x /\
                  ctl_socket x = Some l /\ ctl_num_clients x = 0 /\
                  ctl_reg_set x = {[ctl_server_fd x := EPOLLIN]}
    end.

Definition is_SysCreateUx (e : event) : bool :=
  match e with SysCreateUx _ => true | _ => false end.

(** ** xcm_tp_utls.c: the attribute tables of a UTLS socket *)

(** A function pointer in an attribute entry: one of the two proxies
    of xcm_tp_utls.c, or an accessor of another transport. *)
Inductive attr_fun := proxy_fun | real_fun (n : N).

(** struct xcm_tp_attr (xcm_tp.h), as used here: name, type and the
    two accessors, each of which may be NULL. *)
Record xcm_tp_attr := mk_tp_attr {
  tpa_name : string;
  tpa_type : Z;
  tpa_set_fun : option attr_fun;
  tpa_get_fun : option attr_fun;
}.

(** The attribute part of struct utls_socket.  The three arrays are
    heap blocks; a slot that was never written is [None].  A pointer
    to an entry of a transport's constant attribute table is kept as
    the entry, and [attrs_len], a size_t that counts entries, as a
    nat. *)
Record utls_attr_tables := mk_tables {
  utls_attrs : list (option xcm_tp_attr);
  real_attrs : list (option xcm_tp_attr);
  real_sockets : list (option ptr);
  attrs_len : nat;
}.

(** The tail call of a proxy: the accessor called, with the socket and
    the attribute entry it is handed. *)
Record accessor_call := mk_call {
  call_fun : attr_fun;
  call_socket : ptr;
  call_attr : xcm_tp_attr;
}.

Module UtlsAttrs.
Section WithTransports.

(** xcm_tp_socket_get_attrs on a sub-socket: the attribute table of
    its transport, which is not in these files. *)
Variable xcm_tp_socket_get_attrs : loc -> list xcm_tp_attr.

(** ut_realloc of an array to [n] elements: the old elements that fit
    are kept, the others are not initialised. *)
Definition ut_realloc {A} (a : list (option A)) (n : nat) : list (option A) :=
  resize n None a.

(** [a[idx] = x]; a write past the block is a fault. *)
Definition slot_write {A} (a : list (option A)) (idx : nat) (x : A)
  : option (list (option A)) :=
  if decide (idx < length a)%nat then Some (<[idx := Some x]> a) else None.

(** [a[idx]]; a read past the block or of a slot never written is a
    fault. *)
Definition slot_read {A} (a : list (option A)) (idx : nat) : option A :=
  match a !! idx with
  | Some (Some x) => Some x
  | _ => None
  end.

Definition set_attr_proxy (t : utls_attr_tables) (idx : nat) : option accessor_call :=
  match slot_read (real_attrs t) idx, slot_read (real_sockets t) idx with
  | Some real_attr, Some real_socket =>
      match tpa_set_fun real_attr with
      | Some f => Some (mk_call f real_socket real_attr)
      | None => None            (* a call through NULL *)
      end
  | _, _ => None
  end.

Definition get_attr_proxy (t : utls_attr_tables) (idx : nat) : option accessor_call :=
  match slot_read (real_attrs t) idx, slot_read (real_sockets t) idx with
  | Some real_attr, Some real_socket =>
      match tpa_get_fun real_attr with
      | Some f => Some (mk_call f real_socket real_attr)
      | None => None            (* a call through NULL *)
      end
  | _, _ => None
  end.

Definition add_attr (t : utls_attr_tables) (real_attr : xcm_tp_attr)
           (real_socket : ptr) : option utls_attr_tables :=
  let idx := attrs_len t in
  let copy := real_attr in
  let copy := match tpa_get_fun real_attr with
              | Some _ => mk_tp_attr (tpa_name copy) (tpa_type copy)
                                     (tpa_set_fun copy) (Some proxy_fun)
              | None => copy
              end in
  let copy := match tpa_set_fun real_attr with
              | Some _ => mk_tp_attr (tpa_name copy) (tpa_type copy)
                                     (Some proxy_fun) (tpa_get_fun copy)
              | None => copy
              end in
  match slot_write (utls_attrs t) idx copy,
        slot_write (real_attrs t) idx real_attr,
        slot_write (real_sockets t) idx real_socket with
  | Some ua, Some ra, Some rs => Some (mk_tables ua ra rs (S idx))
  | _, _, _ => None
  end.

(** One of the two [for] loops of update_attrs. *)
Fixpoint add_attrs (t : utls_attr_tables) (attrs : list xcm_tp_attr)
         (real_socket : ptr) : option utls_attr_tables :=
  match attrs with
  | [] => Some t
  | a :: rest =>
      match add_attr t a real_socket with
      | Some t' => add_attrs t' rest real_socket
      | None => None
      end
  end.

Definition update_attrs (us : utls_socket) (t : utls_attr_tables)
  : option utls_attr_tables :=
  let ux_attrs := match ux_socket us with
                  | Some l => xcm_tp_socket_get_attrs l
                  | None => []
                  end in
  let tls_attrs := match tls_socket us with
                   | Some l => xcm_tp_socket_get_attrs l
                   | None => []
                   end in
  let attrs_len := (length ux_attrs + length tls_attrs)%nat in
  if decide (attrs_len = 0%nat) then Some t
  else
    let t := mk_tables (ut_realloc (utls_attrs t) attrs_len)
                       (ut_realloc (real_attrs t) attrs_len)
                       (ut_realloc (real_sockets t) attrs_len) 0 in
    match add_attrs t ux_attrs (ux_socket us) with
    | Some t => add_attrs t tls_attrs (tls_socket us)
    | None => None
    end.

(** The new tables, with the list and the length handed back. *)
Definition utls_get_attrs (us : utls_socket) (t : utls_attr_tables)
  : option (utls_attr_tables * (list (option xcm_tp_attr) * nat)) :=
  match update_attrs us t with
  | Some t' => Some (t', (utls_attrs t', attrs_len t'))
  | None => None
  end.
End WithTransports.
End UtlsAttrs.

(** The copy of a transport's attribute entry that the UTLS table
    holds: the accessors that exist are replaced by the proxies. *)
Definition proxied (a : xcm_tp_attr) : xcm_tp_attr :=
  mk_tp_attr (tpa_name a) (tpa_type a)
             (match tpa_set_fun a with Some _ => Some proxy_fun | None => None end)
             (match tpa_get_fun a with Some _ => Some proxy_fun | None => None end).

(** ** Setting the local address *)

Definition ENOPROTOOPT : Z := 92.

Section LocalAddr.
Context `{build_config} `{environment}.

(** The [set_local_addr] field of the operation table of a wrapped
    transport, NULL for a transport that has none. *)
Variable ext_set_local_addr : N -> option (ptr -> string -> M Z).

(** xcm_tp.c.  [set_local_addr_of r] is the field of the table [r]. *)
Definition xcm_tp_socket_set_local_addr
           (set_local_addr_of : ops_ref -> option (ptr -> string -> M Z))
           (s : ptr) (local_addr : string) : M Z :=
  let* so := load s in
  let* ps := gets protos in
  match ps !! so_proto so with
  | Some p =>
      match proto_ops p with
      | Some r =>
          match set_local_addr_of r with
          | Some set_local_addr => set_local_addr s local_addr
          | None => set_errno EACCES ;;; ret (-1)
          end
      | None => fault
      end
  | None => fault
  end.

(** The field as seen from a sub-socket, which is never a UTLS
    socket. *)
Definition sub_set_local_addr (r : ops_ref) : option (ptr -> string -> M Z) :=
  match r with
  | ext_ops_ref n => ext_set_local_addr n
  | utls_ops_ref => Some (fun _ _ => fault)
  end.

(** xcm_tp_utls.c *)
Definition utls_set_local_addr (s : ptr) (local_addr : string) : M Z :=
  let* us := TOUTLS s in
  match tls_socket us with
  | None => set_errno EACCES ;;; ret (-1)
  | Some _ =>
      let '(prc, perrno, (host, port)) := xcm_addr_parse_utls local_addr in
      if prc <? 0 then
        set_errno perrno ;;;
        set_errno EINVAL ;;; ret (-1)
      else
        let '(rc, tls_local_addr) := xcm_addr_make_tls host port XCM_ADDR_MAX in
        ut_assert (rc =? 0) ;;;
        xcm_tp_socket_set_local_addr sub_set_local_addr (tls_socket us) tls_local_addr
  end.

(** The field of every table. *)
Definition tp_set_local_addr (r : ops_ref) : option (ptr -> string -> M Z) :=
  match r with
  | utls_ops_ref => Some utls_set_local_addr
  | ext_ops_ref n => ext_set_local_addr n
  end.

(** xcm_tp.c: the setter of the attribute "xcm.local_addr". *)
Definition set_local_attr (s : ptr) (value : string) : M Z :=
  xcm_tp_socket_set_local_addr tp_set_local_addr s value.
End LocalAddr.

(** ** xcm_tp.c: the protocol of an address *)

Section ProtoByAddr.
(** xcm_addr_parse_proto (xcm_addr.c): return code, the errno it
    leaves on failure, and the protocol part of the address. *)
Variable xcm_addr_parse_proto : string -> Z -> Z * Z * string.
Context `{build_config}.

Definition xcm_tp_proto_by_addr (addr : string) : M (option nat) :=
  let '(rc, perrno, proto_s) :=
    xcm_addr_parse_proto addr (XCM_ADDR_MAX_PROTO_LEN + 1) in
  if rc <? 0 then set_errno perrno ;;; ret None
  else
    let* proto := xcm_tp_proto_by_name proto_s in
    match proto with
    | None => set_errno ENOPROTOOPT ;;; ret None
    | Some _ => ret proto
    end.
End ProtoByAddr.

(** ** xcm_tp.c: the attribute "xcm.blocking" *)

Section BlockingAttr.
(** xcm_set_blocking (xcm.c). *)
Variable xcm_set_blocking : ptr -> bool -> M Z.

(** memcpy of one byte into a bool, read as a bool; the second
    component is what [*value] holds afterwards, if written. *)
Definition set_bool_attr (buf : list byte) (len : Z) : M (Z * option bool) :=
  if negb (len =? sizeof_bool) then
    set_errno EINVAL ;;; ret (-1, None)
  else
    match buf with
    | b :: _ => ret (0, Some (negb (Byte.eqb b x00)))
    | [] => fault
    end.

Definition set_blocking_attr (s : ptr) (value : list byte) (len : Z) : M Z :=
  let* r := set_bool_attr value len in
  if fst r <? 0 then ret (-1)
  else
    match snd r with
    | Some is_blocking =>
        let* rc := xcm_set_blocking s is_blocking in
        if rc <? 0 then ret (-1) else ret 0
    | None => fault
    end.
End BlockingAttr.

(** ** ctl.c: the listening socket of a control channel *)

(** The system calls of create_ux. *)
Inductive sys_call :=
| sys_stat (path : string)
| sys_unlink (path : string)
| sys_socket
| sys_bind (fd : Z) (path : string)
| sys_listen (fd : Z) (backlog : Z)
| sys_set_blocking (fd : Z) (should_block : bool)
| sys_close (fd : Z).

#[global] Instance sys_call_eq_dec : EqDecision sys_call.
Proof. solve_decision. Defined.

Section CreateUx.
(** The operating system: the return code of a call after the calls
    made so far, and whether a path that stat found is a directory. *)
Variable sys_rc : list sys_call -> sys_call -> Z.
Variable S_ISDIR : list sys_call -> string -> bool.
(** ctl_get_dir, getpid and ctl_derive_path (common_ctl.c). *)
Variable ctl_get_dir : string.
Variable getpid : Z.
Variable ctl_derive_path : string -> Z -> Z -> string.

(** A call: its return code, and the call added to the history. *)
Definition sys (c : sys_call) (hist : list sys_call) : Z * list sys_call :=
  (sys_rc hist c, hist ++ [c]).

Definition create_ux (sock_id : Z) (hist : list sys_call) : Z * list sys_call :=
  let ctl_dir := ctl_get_dir in
  let '(rc, h) := sys (sys_stat ctl_dir) hist in
  if rc <? 0 then (-1, h)
  else if negb (S_ISDIR hist ctl_dir) then (-1, h)
  else
    let path := ctl_derive_path ctl_dir getpid sock_id in
    let '(_, h) := sys (sys_unlink path) h in
    let '(server_fd, h) := sys sys_socket h in
    if server_fd <? 0 then (-1, h)
    else
      let err_close h := let '(_, h) := sys (sys_close server_fd) h in (-1, h) in
      let err_unlink h := let '(_, h) := sys (sys_unlink path) h in err_close h in
      let '(rc, h) := sys (sys_bind server_fd path) h in
      if rc <? 0 then err_close h
      else
        let '(rc, h) := sys (sys_listen server_fd 2) h in
        if rc <? 0 then err_unlink h
        else
          let '(rc, h) := sys (sys_set_blocking server_fd false) h in
          if rc <? 0 then err_unlink h
          else (server_fd, h).
End CreateUx.

(** The descriptors a run of calls leaves open: made by socket(), not
    closed since. *)
Fixpoint open_fds (sys_rc : list sys_call -> sys_call -> Z)
         (hist calls : list sys_call) : list Z :=
  match calls with
  | [] => []
  | c :: rest =>
      let later := open_fds sys_rc (hist ++ [c]) rest in
      match c with
      | sys_socket =>
          if sys_rc hist c <? 0 then later
          else if bool_decide (sys_close (sys_rc hist c) ∈ rest) then later
               else sys_rc hist c :: later
      | _ => later
      end
  end.

(** ** Samples for the models above *)

(** Attribute tables of two wrapped transports: the sub-socket at
    location 2 has one read-only attribute, every other one a
    read-write attribute. *)
Definition sample_sub_attrs (l : loc) : list xcm_tp_attr :=
  if bool_decide (l = 2%positive)
  then [mk_tp_attr "xcm.type" 3 None (Some (real_fun 1))]
  else [mk_tp_attr "tls.cert_file" 3 (Some (real_fun 2)) (Some (real_fun 3))].

(** An operating system in which listen fails; socket() gives
    descriptor 7. *)
Definition sample_sys_rc (hist : list sys_call) (c : sys_call) : Z :=
  match c with
  | sys_socket => 7
  | sys_listen _ _ => -1
  | _ => 0
  end.

(** * Reasoning about the monad *)

Lemma bind_Ok_inv {A B} (m : M A) (k : A -> M B) w b w' :
  bind m k w = Ok b w' -> exists a w1, m w = Ok a w1 /\ k a w1 = Ok b w'.
Proof.
  unfold bind. destruct (m w) as [a w1| | |]; try discriminate.
  intros Hk. exists a, w1. split; [reflexivity | exact Hk].
Qed.

Lemma bind_Ok {A B} (m : M A) (k : A -> M B) w a w1 :
  m w = Ok a w1 -> bind m k w = k a w1.
Proof. unfold bind. intros ->. reflexivity. Qed.

Lemma bind_assoc {A B C} (m : M A) (f : A -> M B) (g : B -> M C) w :
  bind (bind m f) g w = bind m (fun x => bind (f x) g) w.
Proof. unfold bind. destruct (m w); reflexivity. Qed.

Lemma ret_Ok_inv {A} (a b : A) w w' : ret a w = Ok b w' -> b = a /\ w' = w.
Proof. unfold ret. intros [= <- <-]. split; reflexivity. Qed.

Lemma gets_Ok_inv {A} (f : World -> A) w b w' :
  gets f w = Ok b w' -> b = f w /\ w' = w.
Proof. unfold gets. intros [= <- <-]. split; reflexivity. Qed.

Lemma modify_Ok_inv (f : World -> World) w u w' :
  modify f w = Ok u w' -> w' = f w.
Proof. unfold modify. intros [= _ <-]. reflexivity. Qed.

Lemma load_Ok_inv s w so w' :
  load s w = Ok so w' -> w' = w /\ exists l, s = Some l /\ heap w !! l = Some so.
Proof.
  unfold load. destruct s as [l|]; [|discriminate].
  destruct (heap w !! l) as [so'|] eqn:E; [|discriminate].
  intros [= <- <-]. split; [reflexivity|]. exists l. split; [reflexivity | exact E].
Qed.

Lemma load_ctl_Ok_inv c w x w' :
  load_ctl c w = Ok x w' -> w' = w /\ exists l, c = Some l /\ ctls w !! l = Some x.
Proof.
  unfold load_ctl. destruct c as [l|]; [|discriminate].
  destruct (ctls w !! l) as [x'|] eqn:E; [|discriminate].
  intros [= <- <-]. split; [reflexivity|]. exists l. split; [reflexivity | exact E].
Qed.

Lemma store_ctl_Ok_inv c x w u w' :
  store_ctl c x w = Ok u w' ->
  exists l, c = Some l /\ is_Some (ctls w !! l) /\ w' = set_ctls (<[l := x]> (ctls w)) w.
Proof.
  unfold store_ctl. destruct c as [l|]; [|discriminate].
  destruct (ctls w !! l) as [x'|] eqn:E; [|discriminate].
  intros [= _ <-]. exists l. split; [reflexivity|]. split; [eauto | reflexivity].
Qed.

Lemma store_Ok_inv s so w u w' :
  store s so w = Ok u w' ->
  exists l, s = Some l /\ is_Some (heap w !! l) /\ w' = set_heap (<[l := so]> (heap w)) w.
Proof.
  unfold store. destruct s as [l|]; [|discriminate].
  destruct (heap w !! l) as [x'|] eqn:E; [|discriminate].
  intros [= _ <-]. exists l. split; [reflexivity|]. split; [eauto | reflexivity].
Qed.

Lemma ut_assert_Ok_inv `{build_config} b w u w' :
  ut_assert b w = Ok u w' -> w' = w /\ (NDEBUG = false -> b = true).
Proof.
  unfold ut_assert. destruct NDEBUG.
  - intros [= _ <-]. split; [reflexivity | discriminate].
  - destruct b; [|discriminate]. intros [= _ <-]. split; reflexivity.
Qed.

Lemma ut_assert_true `{build_config} w : ut_assert true w = Ok tt w.
Proof. unfold ut_assert. destruct NDEBUG; reflexivity. Qed.

Lemma array_get_Ok_inv {A} (a : list A) i w x w' :
  array_get a i w = Ok x w' ->
  w' = w /\ 0 <= i /\ a !! Z.to_nat i = Some x.
Proof.
  unfold array_get. destruct (i <? 0) eqn:Ei; [discriminate|].
  destruct (a !! Z.to_nat i) as [y|] eqn:E; [|discriminate].
  intros [= <- <-]. apply Z.ltb_ge in Ei. auto.
Qed.

Lemma array_set_Ok_inv {A} (a : list A) i x w a' w' :
  array_set a i x w = Ok a' w' ->
  w' = w /\ 0 <= i < Z.of_nat (length a) /\ a' = <[Z.to_nat i := x]> a.
Proof.
  unfold array_set.
  destruct (i <? 0) eqn:E1; [discriminate|].
  destruct (Z.of_nat (length a) <=? i) eqn:E2; [discriminate|].
  intros [= <- <-]. apply Z.ltb_ge in E1. apply Z.leb_gt in E2. auto.
Qed.

(** Takes apart every hypothesis that says a sequence of steps ended
    well. *)
Ltac inv_step :=
  match goal with
  | H : bind _ _ _ = Ok _ _ |- _ =>
      let a := fresh "a" in let w := fresh "w" in
      let H1 := fresh "Hm" in let H2 := fresh "Hk" in
      apply bind_Ok_inv in H; destruct H as (a & w & H1 & H2)
  | H : ret _ _ = Ok _ _ |- _ =>
      apply ret_Ok_inv in H; destruct H as [? ?]; subst
  | H : gets _ _ = Ok _ _ |- _ =>
      apply gets_Ok_inv in H; destruct H as [? ?]; subst
  | H : get_errno _ = Ok _ _ |- _ =>
      apply gets_Ok_inv in H; destruct H as [? ?]; subst
  | H : modify _ _ = Ok _ _ |- _ =>
      apply modify_Ok_inv in H; subst
  | H : set_errno _ _ = Ok _ _ |- _ =>
      apply modify_Ok_inv in H; subst
  | H : fault _ = Ok _ _ |- _ => discriminate H
  | H : abort _ = Ok _ _ |- _ => discriminate H
  | H : out_of_fuel _ = Ok _ _ |- _ => discriminate H
  | H : Fault = Ok _ _ |- _ => discriminate H
  | H : Abort = Ok _ _ |- _ => discriminate H
  | H : OutOfFuel = Ok _ _ |- _ => discriminate H
  end.

Ltac inv_steps := repeat inv_step.

(** * The protocol registry *)

Section RegistryFacts.
Context `{build_config}.

Lemma proto_scan_found ps num name n i j :
  proto_scan ps num name n i = Some (Some j) ->
  (i <= j)%nat /\ Z.of_nat j < num /\
  exists p, ps !! j = Some p /\ proto_name p = name.
Proof.
  revert i. induction n as [|n IH]; intros i; simpl; [discriminate|].
  destruct (Z.of_nat i <? num) eqn:Ei; [|discriminate].
  destruct (ps !! i) as [p|] eqn:Ep; [|discriminate].
  destruct (String.eqb (proto_name p) name) eqn:En.
  - intros [= <-]. apply String.eqb_eq in En. apply Z.ltb_lt in Ei.
    split; [lia|]. split; [lia|]. eauto.
  - intros Hs. apply IH in Hs as (Hle & Hlt & Hp). split; [lia|]. auto.
Qed.

Lemma proto_scan_none ps num name n i k p :
  proto_scan ps num name n i = Some None ->
  (i <= k < i + n)%nat -> Z.of_nat k < num ->
  ps !! k = Some p -> proto_name p <> name.
Proof.
  revert i. induction n as [|n IH]; intros i; simpl; [lia|].
  destruct (Z.of_nat i <? num) eqn:Ei.
  - destruct (ps !! i) as [q|] eqn:Eq; [|discriminate].
    destruct (String.eqb (proto_name q) name) eqn:En; [discriminate|].
    intros Hs Hk Hnum Hp. destruct (decide (k = i)) as [->|Hne].
    + rewrite Eq in Hp. injection Hp as <-. apply String.eqb_neq in En. exact En.
    + eapply IH; eauto. lia.
  - intros _ Hk Hnum. apply Z.ltb_ge in Ei. lia.
Qed.

Lemma proto_scan_total ps num name n i :
  num <= Z.of_nat (length ps) -> proto_scan ps num name n i <> None.
Proof.
  intros Hlen. revert i. induction n as [|n IH]; intros i; simpl; [discriminate|].
  destruct (Z.of_nat i <? num) eqn:Ei; [|discriminate].
  apply Z.ltb_lt in Ei.
  destruct (ps !! i) as [q|] eqn:Eq.
  - destruct (String.eqb (proto_name q) name); [discriminate | apply IH].
  - apply lookup_ge_None in Eq. lia.
Qed.

Lemma proto_scan_first ps num name n i j p :
  (i <= j < i + n)%nat -> Z.of_nat j < num ->
  ps !! j = Some p -> proto_name p = name ->
  (forall k q, (i <= k < j)%nat -> ps !! k = Some q -> proto_name q <> name) ->
  num <= Z.of_nat (length ps) ->
  proto_scan ps num name n i = Some (Some j).
Proof.
  revert i. induction n as [|n IH]; intros i Hj Hnum Hp Hn Hfirst Hlen; simpl; [lia|].
  destruct (Z.of_nat i <? num) eqn:Ei; [|apply Z.ltb_ge in Ei; lia].
  destruct (ps !! i) as [q|] eqn:Eq.
  - destruct (decide (i = j)) as [->|Hne].
    + rewrite Hp in Eq. injection Eq as <-.
      rewrite (proj2 (String.eqb_eq _ _) Hn). reflexivity.
    + assert (Hq : proto_name q <> name) by (apply (Hfirst i q); [lia | exact Eq]).
      apply String.eqb_neq in Hq. rewrite Hq. apply IH; auto; [lia|].
      intros k q' Hk. apply Hfirst. lia.
  - apply lookup_ge_None in Eq. apply Z.ltb_lt in Ei. lia.
Qed.

Lemma xcm_tp_proto_by_name_Ok_inv name w r w' :
  xcm_tp_proto_by_name name w = Ok r w' ->
  w' = w /\
  match r with
  | Some j => Z.of_nat j < num_protos w /\
              exists p, protos w !! j = Some p /\ proto_name p = name
  | None => forall k p, Z.of_nat k < num_protos w ->
                        protos w !! k = Some p -> proto_name p <> name
  end.
Proof.
  unfold xcm_tp_proto_by_name.
  destruct (proto_scan _ _ _ _ _) as [r'|] eqn:E; [|discriminate].
  intros [= <- <-]. split; [reflexivity|]. destruct r' as [j|].
  - apply proto_scan_found in E. tauto.
  - intros k p Hk Hp. eapply proto_scan_none; eauto. lia.
Qed.

Lemma reg_wf_initial : reg_wf initial_world.
Proof.
  unfold reg_wf, initial_world, MAX_PROTOS. simpl.
  split; [reflexivity|]. split; [lia|]. constructor.
Qed.

(** What a registration that returns has done. *)
Lemma xcm_tp_register_Ok name ops w w' :
  NDEBUG = false -> reg_wf w ->
  xcm_tp_register name ops w = Ok tt w' ->
  ~ name_registered w name /\
  num_protos w < MAX_PROTOS /\
  w' = set_registry (<[Z.to_nat (num_protos w) := mk_proto name (Some ops)]> (protos w))
                    (num_protos w + 1) w.
Proof.
  intros Hdbg (Hlen & Hnum & Hnd) Hreg. unfold xcm_tp_register in Hreg.
  inv_steps.
  repeat match goal with
         | H : ut_assert _ _ = Ok _ _ |- _ =>
             apply ut_assert_Ok_inv in H as [-> H]; specialize (H Hdbg)
         | H : xcm_tp_proto_by_name _ _ = Ok _ _ |- _ =>
             apply xcm_tp_proto_by_name_Ok_inv in H as [-> H]
         end.
  match goal with
  | H : bool_decide (?r = None) = true |- _ => apply bool_decide_eq_true in H; subst r
  end.
  match goal with
  | H : (_ <? MAX_PROTOS) = true |- _ => apply Z.ltb_lt in H; rename H into Hcap
  end.
  match goal with
  | H : (if ?b then _ else _) _ = Ok _ _ |- _ =>
      destruct b; [discriminate H|]; apply modify_Ok_inv in H; rename H into Hw
  end.
  split; [|split; [exact Hcap | exact Hw]].
  intros (i & p & Hi & Hp & Hn).
  match goal with
  | H : forall k p, _ -> _ -> proto_name p <> name |- _ => exact (H i p Hi Hp Hn)
  end.
Qed.

Lemma take_insert_snoc {A} (l : list A) (n : nat) (x : A) :
  (n < length l)%nat -> take (S n) (<[n := x]> l) = take n l ++ [x].
Proof.
  revert n. induction l as [|y l IH]; intros n Hn; simpl in *; [lia|].
  destruct n as [|n]; simpl.
  - rewrite take_0. reflexivity.
  - f_equal. apply IH. lia.
Qed.

Lemma reg_wf_register name ops w :
  reg_wf w -> ~ name_registered w name -> num_protos w < MAX_PROTOS ->
  reg_wf (set_registry (<[Z.to_nat (num_protos w) := mk_proto name (Some ops)]> (protos w))
                       (num_protos w + 1) w).
Proof.
  intros (Hlen & Hnum & Hnd) Hfresh Hcap. unfold reg_wf. simpl.
  rewrite length_insert. split; [exact Hlen|]. split; [lia|].
  replace (Z.to_nat (num_protos w + 1)) with (S (Z.to_nat (num_protos w))) by lia.
  rewrite take_insert_snoc by (unfold MAX_PROTOS in *; lia).
  rewrite fmap_app. simpl. apply NoDup_app. split; [exact Hnd|]. split.
  - intros x Hx Hx'. apply list_elem_of_singleton in Hx'. subst x.
    apply list_elem_of_fmap in Hx as (p & Hp & Hin).
    apply list_elem_of_lookup in Hin as (i & Hi).
    apply Hfresh. exists i, p.
    pose proof (lookup_lt_Some _ _ _ Hi) as Hlt. rewrite length_take in Hlt.
    rewrite lookup_take_lt in Hi by lia.
    split; [lia|]. split; [exact Hi | symmetry; exact Hp].
  - apply NoDup_singleton.
Qed.

Lemma lookup_after_register name ops w :
  reg_wf w -> ~ name_registered w name -> num_protos w < MAX_PROTOS ->
  let w' := set_registry (<[Z.to_nat (num_protos w) := mk_proto name (Some ops)]> (protos w))
                         (num_protos w + 1) w in
  xcm_tp_proto_by_name name w' = Ok (Some (Z.to_nat (num_protos w))) w'.
Proof.
  intros (Hlen & Hnum & Hnd) Hfresh Hcap w'.
  unfold xcm_tp_proto_by_name.
  rewrite (proto_scan_first _ _ name _ 0 (Z.to_nat (num_protos w))
                            (mk_proto name (Some ops))); [reflexivity|..].
  - subst w'. simpl. lia.
  - subst w'. simpl. lia.
  - subst w'. simpl. apply list_lookup_insert_eq. unfold MAX_PROTOS in *. lia.
  - reflexivity.
  - intros k q Hk Hq Hn. subst w'. simpl in Hq.
    rewrite list_lookup_insert_ne in Hq by lia.
    apply Hfresh. exists k, q. split; [lia|]. auto.
  - subst w'. simpl. rewrite length_insert. unfold MAX_PROTOS in *. lia.
Qed.

Lemma registrations_wf l : forall w w',
  NDEBUG = false -> reg_wf w -> registrations l w = Ok tt w' -> reg_wf w'.
Proof.
  induction l as [|[name ops] l IH]; intros w w' Hdbg Hwf Hrun; simpl in Hrun.
  - inv_steps. exact Hwf.
  - inv_steps. destruct a.
    pose proof (xcm_tp_register_Ok _ _ _ _ Hdbg Hwf Hm) as (Hfresh & Hcap & ->).
    eapply IH; [exact Hdbg | | exact Hk].
    apply reg_wf_register; assumption.
Qed.
End RegistryFacts.

Section RegistryRuns.
Context `{build_config}.

Lemma xcm_tp_register_returns_or_aborts name ops w :
  NDEBUG = false -> reg_wf w ->
  xcm_tp_register name ops w = Abort \/ exists w', xcm_tp_register name ops w = Ok tt w'.
Proof.
  intros Hdbg (Hlen & Hnum & Hnd).
  unfold xcm_tp_register, bind, gets, ut_assert. rewrite Hdbg.
  destruct (num_protos w <? MAX_PROTOS) eqn:Ecap; [|left; reflexivity].
  destruct (strlen name <=? XCM_ADDR_MAX_PROTO_LEN) eqn:Elen; [|left; reflexivity].
  simpl. unfold xcm_tp_proto_by_name.
  destruct (proto_scan _ _ _ _ _) as [r|] eqn:Es.
  - destruct r as [j|]; simpl; [left; reflexivity|].
    apply Z.ltb_lt in Ecap. apply Z.leb_le in Elen.
    replace (Z.of_nat (length (protos w)) <=? num_protos w) with false
      by (symmetry; apply Z.leb_gt; unfold MAX_PROTOS in *; lia).
    replace (XCM_ADDR_MAX_PROTO_LEN <? strlen name) with false
      by (symmetry; apply Z.ltb_ge; lia).
    simpl. right. eexists. reflexivity.
  - exfalso. revert Es. apply proto_scan_total. unfold MAX_PROTOS in *. lia.
Qed.
End RegistryRuns.

Section RegistryTheorems.
Context `{build_config}.

(** C9 (as amended).  In a build where ut_assert is active (NDEBUG not
    defined), and for a registry in the state the code maintains:
    registering a name that is already registered, or registering when
    MAX_PROTOS (8) protocols are registered, ends in abort() and no
    registration takes place; a registration that returns has added one
    entry, the count stays at most 8, and lookup by the name just
    registered returns the entry holding the registered operations.
    Hence after any sequence of registrations from program start the
    count is at most 8. *)
Theorem registry_bounded_and_duplicate_free (w : World) (name : string) (ops : ops_ref) :
  NDEBUG = false ->
  reg_wf w ->
  (name_registered w name -> xcm_tp_register name ops w = Abort) /\
  (num_protos w = MAX_PROTOS -> xcm_tp_register name ops w = Abort) /\
  (forall w', xcm_tp_register name ops w = Ok tt w' ->
     reg_wf w' /\
     num_protos w' = num_protos w + 1 /\
     num_protos w' <= MAX_PROTOS /\
     exists i, xcm_tp_proto_by_name name w' = Ok (Some i) w' /\
               protos w' !! i = Some (mk_proto name (Some ops))) /\
  (forall l w', registrations l initial_world = Ok tt w' ->
     reg_wf w' /\ num_protos w' <= MAX_PROTOS).
Proof.
  intros Hdbg Hwf. split; [|split; [|split]].
  - intros Hreg.
    destruct (xcm_tp_register_returns_or_aborts name ops w Hdbg Hwf) as [Ha|[w' Hok]];
      [exact Ha|].
    apply (xcm_tp_register_Ok _ _ _ _ Hdbg Hwf) in Hok as (Hfresh & _).
    contradiction.
  - intros Hfull.
    destruct (xcm_tp_register_returns_or_aborts name ops w Hdbg Hwf) as [Ha|[w' Hok]];
      [exact Ha|].
    apply (xcm_tp_register_Ok _ _ _ _ Hdbg Hwf) in Hok as (_ & Hcap & _). lia.
  - intros w' Hok.
    apply (xcm_tp_register_Ok _ _ _ _ Hdbg Hwf) in Hok as (Hfresh & Hcap & ->).
    split; [apply reg_wf_register; assumption|].
    split; [reflexivity|]. split; [simpl; lia|].
    exists (Z.to_nat (num_protos w)). split.
    + apply lookup_after_register; assumption.
    + simpl. apply list_lookup_insert_eq.
      destruct Hwf as (Hlen & Hnum & _). unfold MAX_PROTOS in *. lia.
  - intros l w' Hrun.
    pose proof (registrations_wf _ _ _ Hdbg reg_wf_initial Hrun) as Hwf'.
    split; [exact Hwf'|]. destruct Hwf' as (_ & Hnum & _). lia.
Qed.
End RegistryTheorems.

(** With assertions, registering "ux" twice from program start: the
    first call returns and "ux" is found, the second aborts. *)
Lemma registry_bounded_and_duplicate_free_witness :
  exists w1,
    @xcm_tp_register debug_build "ux" (ext_ops_ref 1) initial_world = Ok tt w1 /\
    num_protos w1 = 1 /\
    @xcm_tp_register debug_build "ux" (ext_ops_ref 2) w1 = Abort.
Proof.
  destruct (@registry_bounded_and_duplicate_free debug_build initial_world
              "ux" (ext_ops_ref 1) eq_refl reg_wf_initial) as (_ & _ & Hok & _).
  eexists. split; [reflexivity|].
  destruct (Hok _ eq_refl) as (Hwf1 & Hnum & _ & i & Hlook & Hi).
  split; [exact Hnum|].
  destruct (@registry_bounded_and_duplicate_free debug_build _
              "ux" (ext_ops_ref 2) eq_refl Hwf1) as (Hdup & _).
  apply Hdup. exists 0%nat, (mk_proto "ux" (Some (ext_ops_ref 1))).
  split; [reflexivity|]. split; reflexivity.
Defined.

(** C9 as stated fails in a build with NDEBUG: there ut_assert checks
    nothing, a second registration of "ux" returns, the registry has
    grown to two entries, and lookup of "ux" yields the operations of
    the first registration, not those just registered. *)
Lemma duplicate_registered_under_NDEBUG :
  exists w1 w2,
    @xcm_tp_register release_build "ux" (ext_ops_ref 1) initial_world = Ok tt w1 /\
    @xcm_tp_register release_build "ux" (ext_ops_ref 2) w1 = Ok tt w2 /\
    num_protos w1 = 1 /\ num_protos w2 = 2 /\
    protos w2 <> protos w1 /\
    @xcm_tp_proto_by_name "ux" w2 = Ok (Some 0%nat) w2 /\
    protos w2 !! 0%nat = Some (mk_proto "ux" (Some (ext_ops_ref 1))).
Proof.
  eexists. eexists. split; [reflexivity|]. split; [reflexivity|].
  repeat split; try reflexivity. discriminate.
Qed.

(** * Generic attribute getters *)

Lemma length_list_byte_of_string (s : string) :
  length (list_byte_of_string s) = String.length s.
Proof.
  unfold list_byte_of_string. rewrite length_map.
  induction s as [|c s IH]; simpl; [reflexivity | f_equal; exact IH].
Qed.

Lemma length_c_string (s : string) : length (c_string s) = S (String.length s).
Proof.
  unfold c_string. rewrite length_app, length_list_byte_of_string. simpl. lia.
Qed.

Lemma length_le_bytes n z : length (le_bytes n z) = n.
Proof. revert z. induction n as [|n IH]; intros z; simpl; [reflexivity | f_equal; apply IH]. Qed.

Lemma to_int_small z : - 2^31 <= z < 2^31 -> to_int z = z.
Proof. intros Hz. unfold to_int. rewrite Z.mod_small; lia. Qed.

Lemma buf_write_fits (buf data : list byte) w :
  (length data <= length buf)%nat ->
  buf_write buf data w = Ok (data ++ drop (length data) buf) w.
Proof.
  intros Hlen. unfold buf_write.
  destruct (length buf <? length data)%nat eqn:E; [|reflexivity].
  apply Nat.ltb_lt in E. lia.
Qed.

Lemma length_buf_write (buf data : list byte) :
  (length data <= length buf)%nat ->
  length (data ++ drop (length data) buf) = length buf.
Proof. intros Hlen. rewrite length_app, length_drop. lia. Qed.

Section AttrTheorems.
Context `{build_config} `{environment}.
Variable getops : ops_ref -> xcm_tp_ops.

Lemma get_str_attr_overflow value buf capacity w :
  capacity <= strlen value ->
  get_str_attr value buf capacity w = Ok (-1, buf) (set_errno_w EOVERFLOW w).
Proof.
  intros Hc. unfold get_str_attr.
  destruct (capacity <=? strlen value) eqn:E; [reflexivity|].
  apply Z.leb_gt in E. lia.
Qed.

Lemma get_str_attr_fits value buf capacity w :
  strlen value < capacity -> capacity <= Z.of_nat (length buf) ->
  strlen value + 1 < 2^31 ->
  get_str_attr value buf capacity w =
    Ok (strlen value + 1, c_string value ++ drop (length (c_string value)) buf) w.
Proof.
  intros Hc Hb Hint. unfold get_str_attr.
  destruct (capacity <=? strlen value) eqn:E; [apply Z.leb_le in E; lia|].
  unfold bind. rewrite buf_write_fits.
  - unfold ret. rewrite to_int_small; [reflexivity|]. unfold strlen in *. lia.
  - rewrite length_c_string. unfold strlen in *. lia.
Qed.

Lemma get_bool_attr_overflow value buf capacity w :
  capacity < sizeof_bool ->
  get_bool_attr value buf capacity w = Ok (-1, buf) (set_errno_w EOVERFLOW w).
Proof.
  intros Hc. unfold get_bool_attr.
  destruct (capacity <? sizeof_bool) eqn:E; [reflexivity|].
  apply Z.ltb_ge in E. lia.
Qed.

Lemma get_bool_attr_fits value buf capacity w :
  sizeof_bool <= capacity -> capacity <= Z.of_nat (length buf) ->
  get_bool_attr value buf capacity w =
    Ok (sizeof_bool, [if value then x01 else x00] ++ drop 1 buf) w.
Proof.
  intros Hc Hb. unfold get_bool_attr.
  destruct (capacity <? sizeof_bool) eqn:E; [apply Z.ltb_lt in E; lia|].
  unfold bind. rewrite buf_write_fits; [reflexivity|].
  unfold sizeof_bool in *. simpl. lia.
Qed.

Lemma get_max_msg_attr_overflow s so value capacity w :
  heap w !! s = Some so -> so_type so = xcm_socket_type_conn ->
  capacity < sizeof_int64 ->
  get_max_msg_attr getops (Some s) value capacity w
  = Ok (-1, value) (set_errno_w EOVERFLOW w).
Proof.
  intros Hs Ht Hc. unfold get_max_msg_attr, bind, load. rewrite Hs, Ht.
  rewrite bool_decide_eq_true_2 by reflexivity. cbn [negb].
  destruct (capacity <? sizeof_int64) eqn:E; [reflexivity|].
  apply Z.ltb_ge in E. lia.
Qed.

Lemma get_max_msg_attr_fits s so value capacity w ops m w' :
  heap w !! s = Some so -> so_type so = xcm_socket_type_conn ->
  sizeof_int64 <= capacity -> capacity <= Z.of_nat (length value) ->
  XCM_TP_GETOPS getops (Some s) w = Ok ops w ->
  op_max_msg ops (Some s) w = Ok m w' ->
  get_max_msg_attr getops (Some s) value capacity w
  = Ok (sizeof_int64, le_bytes 8 (to_int64 m) ++ drop 8 value) w'.
Proof.
  intros Hs Ht Hc Hb Hops Hm. unfold get_max_msg_attr.
  unfold bind at 1. unfold load. rewrite Hs, Ht.
  rewrite bool_decide_eq_true_2 by reflexivity. cbn [negb].
  destruct (capacity <? sizeof_int64) eqn:E; [apply Z.ltb_lt in E; lia|].
  rewrite (bind_Ok _ _ _ _ _ Hops). rewrite (bind_Ok _ _ _ _ _ Hm).
  unfold bind. rewrite buf_write_fits.
  - rewrite length_le_bytes. reflexivity.
  - rewrite length_le_bytes. unfold sizeof_int64 in *. lia.
Qed.

Lemma get_cnt_attr_overflow field s value capacity w :
  capacity < sizeof_int64 ->
  get_cnt_attr getops field s value capacity w
  = Ok (-1, value) (set_errno_w EOVERFLOW w).
Proof.
  intros Hc. unfold get_cnt_attr.
  destruct (capacity <? sizeof_int64) eqn:E; [reflexivity|].
  apply Z.ltb_ge in E. lia.
Qed.

Lemma get_cnt_attr_fits field s value capacity w c co w' :
  sizeof_int64 <= capacity -> capacity <= Z.of_nat (length value) ->
  xcm_tp_socket_get_cnt getops s w = Ok (Some c) w' ->
  heap w' !! c = Some co ->
  get_cnt_attr getops field s value capacity w
  = Ok (sizeof_int64, le_bytes 8 (field (so_cnt co)) ++ drop 8 value) w'.
Proof.
  intros Hc Hb Hcnt Hco. unfold get_cnt_attr.
  destruct (capacity <? sizeof_int64) eqn:E; [apply Z.ltb_lt in E; lia|].
  rewrite (bind_Ok _ _ _ _ _ Hcnt).
  unfold bind at 1. unfold load. rewrite Hco.
  unfold bind. rewrite buf_write_fits.
  - rewrite length_le_bytes. reflexivity.
  - rewrite length_le_bytes. unfold sizeof_int64 in *. lia.
Qed.

(** C8.  A read of a generic attribute into a buffer of [capacity]
    bytes (the buffer being at least that large).  String: fails with
    EOVERFLOW and an untouched buffer when strlen(value) >= capacity,
    otherwise copies the string with its NUL and returns strlen+1.
    Boolean: fails likewise when capacity < sizeof(bool), otherwise
    writes one byte and returns 1.  xcm.max_msg_size on a connection
    socket and the counters: fail likewise when capacity < 8, otherwise
    write the eight bytes of the value and return 8. *)
Theorem generic_attr_read_overflow_or_length
        (buf : list byte) (capacity : Z) (w : World) :
  0 <= capacity <= Z.of_nat (length buf) ->
  (forall value : string,
     (capacity <= strlen value ->
      get_str_attr value buf capacity w = Ok (-1, buf) (set_errno_w EOVERFLOW w)) /\
     (strlen value < capacity -> strlen value + 1 < 2^31 ->
      exists buf',
        get_str_attr value buf capacity w = Ok (strlen value + 1, buf') w /\
        length buf' = length buf /\
        take (length (c_string value)) buf' = c_string value)) /\
  (forall value : bool,
     (capacity < sizeof_bool ->
      get_bool_attr value buf capacity w = Ok (-1, buf) (set_errno_w EOVERFLOW w)) /\
     (sizeof_bool <= capacity ->
      exists buf',
        get_bool_attr value buf capacity w = Ok (sizeof_bool, buf') w /\
        length buf' = length buf /\
        take 1 buf' = [if value then x01 else x00])) /\
  (forall s so,
     heap w !! s = Some so -> so_type so = xcm_socket_type_conn ->
     (capacity < sizeof_int64 ->
      get_max_msg_attr getops (Some s) buf capacity w
      = Ok (-1, buf) (set_errno_w EOVERFLOW w)) /\
     (sizeof_int64 <= capacity ->
      forall ops m w',
        XCM_TP_GETOPS getops (Some s) w = Ok ops w ->
        op_max_msg ops (Some s) w = Ok m w' ->
        exists buf',
          get_max_msg_attr getops (Some s) buf capacity w = Ok (sizeof_int64, buf') w' /\
          length buf' = length buf /\
          take 8 buf' = le_bytes 8 (to_int64 m))) /\
  (forall field s,
     (capacity < sizeof_int64 ->
      get_cnt_attr getops field s buf capacity w
      = Ok (-1, buf) (set_errno_w EOVERFLOW w)) /\
     (sizeof_int64 <= capacity ->
      forall c co w',
        xcm_tp_socket_get_cnt getops s w = Ok (Some c) w' ->
        heap w' !! c = Some co ->
        exists buf',
          get_cnt_attr getops field s buf capacity w = Ok (sizeof_int64, buf') w' /\
          length buf' = length buf /\
          take 8 buf' = le_bytes 8 (field (so_cnt co)))).
Proof.
  intros [Hc0 Hcb]. split; [|split; [|split]].
  - intros value. split; [apply get_str_attr_overflow|].
    intros Hlt Hint. eexists. split; [apply get_str_attr_fits; assumption|].
    assert (Hfit : (length (c_string value) <= length buf)%nat)
      by (rewrite length_c_string; unfold strlen in *; lia).
    split; [apply length_buf_write; exact Hfit|].
    rewrite take_app_length. reflexivity.
  - intros value. split; [apply get_bool_attr_overflow|].
    intros Hge. eexists. split; [apply get_bool_attr_fits; assumption|].
    unfold sizeof_bool in *.
    split; [apply (length_buf_write buf [_]); simpl; lia | reflexivity].
  - intros s so Hs Ht. split; [apply (get_max_msg_attr_overflow s so); assumption|].
    intros Hge ops m w' Hops Hm. eexists.
    split; [eapply (get_max_msg_attr_fits s so); eassumption|].
    unfold sizeof_int64 in *.
    split.
    + rewrite <- (length_le_bytes 8 (to_int64 m)) at 2.
      apply length_buf_write. rewrite length_le_bytes. lia.
    + rewrite <- (length_le_bytes 8 (to_int64 m)) at 1. apply take_app_length.
  - intros field s. split; [apply get_cnt_attr_overflow|].
    intros Hge c co w' Hcnt Hco. eexists.
    split; [eapply get_cnt_attr_fits; eassumption|].
    unfold sizeof_int64 in *.
    split.
    + rewrite <- (length_le_bytes 8 (field (so_cnt co))) at 2.
      apply length_buf_write. rewrite length_le_bytes. lia.
    + rewrite <- (length_le_bytes 8 (field (so_cnt co))) at 1. apply take_app_length.
Qed.
End AttrTheorems.

(** * NULL sockets *)

(** C10.  close and cleanup of a NULL socket, in the generic layer and
    in the UTLS transport, return (close with 0) in an unchanged world:
    nothing is dereferenced, nothing is called, nothing is written. *)
Theorem close_cleanup_null_noop `{build_config} `{environment}
        (getops : ops_ref -> xcm_tp_ops) (w : World) :
  xcm_tp_socket_close getops None w = Ok 0 w /\
  xcm_tp_socket_cleanup getops None w = Ok tt w /\
  utls_close None w = Ok 0 w /\
  utls_cleanup None w = Ok tt w.
Proof. repeat split; reflexivity. Qed.

(** * The control channel *)

Lemma load_ctl_Some_inv l w x w' :
  load_ctl (Some l) w = Ok x w' -> w' = w /\ ctls w !! l = Some x.
Proof.
  intros Hl. apply load_ctl_Ok_inv in Hl as (-> & l' & [= <-] & Hx). auto.
Qed.

Lemma store_ctl_Some_inv l x w u w' :
  store_ctl (Some l) x w = Ok u w' ->
  is_Some (ctls w !! l) /\ w' = set_ctls (<[l := x]> (ctls w)) w.
Proof.
  intros Hs. apply store_ctl_Ok_inv in Hs as (l' & [= <-] & Hx & ->). auto.
Qed.

Lemma ext_call_Ok_inv `{environment} e w r w' :
  ext_call e w = Ok r w' -> r = env_reply (trace w) e /\ w' = after_call e w.
Proof. unfold ext_call. intros [= <- <-]. split; reflexivity. Qed.

Lemma ut_free_ctl_Some_inv l w u w' :
  ut_free_ctl (Some l) w = Ok u w' ->
  is_Some (ctls w !! l) /\ w' = set_ctls (delete l (ctls w)) w.
Proof.
  unfold ut_free_ctl. destruct (ctls w !! l) eqn:E; [|discriminate].
  intros [= _ <-]. split; [eauto | reflexivity].
Qed.

(** Inversion of the primitive steps, and case analysis where the
    code branches. *)
Ltac inv_prim :=
  match goal with
  | H : load_ctl (Some _) _ = Ok _ _ |- _ =>
      apply load_ctl_Some_inv in H; destruct H as [? H]; subst
  | H : store_ctl (Some _) _ _ = Ok _ _ |- _ =>
      apply store_ctl_Some_inv in H; destruct H as [_ H]; subst
  | H : ext_call _ _ = Ok _ _ |- _ =>
      apply ext_call_Ok_inv in H; destruct H as [? ?]; subst
  | H : array_get _ _ _ = Ok _ _ |- _ =>
      apply array_get_Ok_inv in H; destruct H as (? & ? & H); subst
  | H : array_set _ _ _ _ = Ok _ _ |- _ =>
      apply array_set_Ok_inv in H; destruct H as (? & ? & ?); subst
  | H : ut_assert _ _ = Ok _ _ |- _ =>
      apply ut_assert_Ok_inv in H; destruct H as [? H]; subst
  | H : ut_free_ctl (Some _) _ = Ok _ _ |- _ =>
      apply ut_free_ctl_Some_inv in H; destruct H as [_ H]; subst
  | H : UT_PROTECT_ERRNO _ _ = Ok _ _ |- _ => unfold UT_PROTECT_ERRNO in H
  | H : load _ _ = Ok _ _ |- _ =>
      let l := fresh "l" in
      apply load_Ok_inv in H; destruct H as (? & l & ? & H);
      repeat match goal with
             | E : Some _ = Some _ |- _ => injection E as E
             end;
      try subst
  end.

Ltac inv_branch :=
  match goal with
  | H : (if ?b then _ else _) _ = Ok _ _ |- _ => destruct b eqn:?
  | H : (match ?x with _ => _ end) _ = Ok _ _ |- _ => destruct x eqn:?
  end.

Ltac inv_all := repeat (inv_step || inv_prim || inv_branch).

Section CtlFacts.
Context `{build_config} `{environment}.

Lemma ctl_frame_refl w : ctl_frame w w.
Proof. unfold ctl_frame. tauto. Qed.

Lemma ctl_frame_trans w1 w2 w3 : ctl_frame w1 w2 -> ctl_frame w2 w3 -> ctl_frame w1 w3.
Proof.
  unfold ctl_frame. intros (?&?&?&?&?&?&?) (?&?&?&?&?&?&?).
  repeat split; congruence.
Qed.

Lemma ctl_frame_set_ctls m w : ctl_frame w (set_ctls m w).
Proof. unfold ctl_frame, tp_events. simpl. tauto. Qed.

Lemma ctl_frame_set_errno e w : ctl_frame w (set_errno_w e w).
Proof. unfold ctl_frame, tp_events. simpl. tauto. Qed.

Lemma ctl_frame_after_call e w : is_tp_event e = false -> ctl_frame w (after_call e w).
Proof.
  intros He. unfold ctl_frame, tp_events, after_call. simpl.
  rewrite List.filter_app. simpl. rewrite He, app_nil_r. tauto.
Qed.
End CtlFacts.

Create HintDb ctl.
#[export] Hint Resolve ctl_frame_refl ctl_frame_set_ctls ctl_frame_set_errno : ctl.

(** Closes a goal [ctl_frame w w'] where [w'] is [w] after a chain of
    updates and calls that are not transport calls. *)
Ltac frame_chain :=
  repeat first
    [ apply ctl_frame_refl
    | lazymatch goal with
      | |- ctl_frame _ (after_call _ _) =>
          eapply ctl_frame_trans; [|apply ctl_frame_after_call; reflexivity]
      | |- ctl_frame _ (set_ctls _ _) =>
          eapply ctl_frame_trans; [|apply ctl_frame_set_ctls]
      | |- ctl_frame _ (set_errno_w _ _) =>
          eapply ctl_frame_trans; [|apply ctl_frame_set_errno]
      end ].

(** Projections of an updated world. *)
Lemma ctls_after_call `{environment} e w : ctls (after_call e w) = ctls w.
Proof. reflexivity. Qed.
Lemma ctls_set_errno e w : ctls (set_errno_w e w) = ctls w.
Proof. reflexivity. Qed.
Lemma ctls_set_ctls m w : ctls (set_ctls m w) = m.
Proof. reflexivity. Qed.
Lemma ctls_set_heap m w : ctls (set_heap m w) = ctls w.
Proof. reflexivity. Qed.
Lemma heap_after_call `{environment} e w : heap (after_call e w) = heap w.
Proof. reflexivity. Qed.
Lemma heap_set_errno e w : heap (set_errno_w e w) = heap w.
Proof. reflexivity. Qed.
Lemma heap_set_ctls m w : heap (set_ctls m w) = heap w.
Proof. reflexivity. Qed.
Lemma heap_set_heap m w : heap (set_heap m w) = m.
Proof. reflexivity. Qed.
Lemma errno_after_call `{environment} e w :
  errno (after_call e w) = rep_errno (env_reply (trace w) e).
Proof. reflexivity. Qed.
Lemma errno_set_errno e w : errno (set_errno_w e w) = e.
Proof. reflexivity. Qed.
Lemma errno_set_ctls m w : errno (set_ctls m w) = errno w.
Proof. reflexivity. Qed.
Lemma errno_set_heap m w : errno (set_heap m w) = errno w.
Proof. reflexivity. Qed.
Lemma protos_after_call `{environment} e w : protos (after_call e w) = protos w.
Proof. reflexivity. Qed.
Lemma protos_set_errno e w : protos (set_errno_w e w) = protos w.
Proof. reflexivity. Qed.
Lemma protos_set_ctls m w : protos (set_ctls m w) = protos w.
Proof. reflexivity. Qed.
Lemma protos_set_heap m w : protos (set_heap m w) = protos w.
Proof. reflexivity. Qed.
Lemma trace_after_call `{environment} e w : trace (after_call e w) = trace w ++ [e].
Proof. reflexivity. Qed.
Lemma trace_set_errno e w : trace (set_errno_w e w) = trace w.
Proof. reflexivity. Qed.
Lemma trace_set_ctls m w : trace (set_ctls m w) = trace w.
Proof. reflexivity. Qed.
Lemma trace_set_heap m w : trace (set_heap m w) = trace w.
Proof. reflexivity. Qed.

Create Rewrite HintDb world.
#[export] Hint Rewrite @ctls_after_call ctls_set_errno ctls_set_ctls ctls_set_heap
  @heap_after_call heap_set_errno heap_set_ctls heap_set_heap
  @errno_after_call errno_set_errno errno_set_ctls errno_set_heap
  @protos_after_call protos_set_errno protos_set_ctls protos_set_heap
  @trace_after_call trace_set_errno trace_set_ctls trace_set_heap : world.

(** Reading back what was just stored. *)
Ltac norm_world :=
  autorewrite with world in *;
  repeat match goal with
         | H : <[?c := ?x]> _ !! ?c = Some ?y |- _ =>
             rewrite lookup_insert_eq in H; injection H as <-
         | H1 : ?m !! ?c = Some ?x, H2 : ?m !! ?c = Some ?y |- _ =>
             rewrite H1 in H2; injection H2 as <-
         end.

Ltac inv_ctl := repeat (first [inv_step | inv_prim | inv_branch]; norm_world).

Lemma add_attr_Ok_inv `{build_config} n t v len cfm w cfm' w' :
  add_attr n t v len cfm w = Ok cfm' w' -> w' = w.
Proof.
  unfold add_attr. intros Hrun. inv_all. reflexivity.
Qed.

Lemma add_attrs_Ok_inv `{build_config} l : forall cfm w cfm' w',
  add_attrs l cfm w = Ok cfm' w' -> w' = w.
Proof.
  induction l as [|a l IH]; intros cfm w cfm' w' Hrun; simpl in Hrun.
  - inv_all. reflexivity.
  - apply bind_Ok_inv in Hrun as (cfm1 & w1 & H1 & H2).
    apply add_attr_Ok_inv in H1 as ->. eapply IH; eassumption.
Qed.

Ltac inv_ctl ::=
  repeat (first [ inv_step | inv_prim
                | match goal with
                  | H : add_attrs _ _ _ = Ok _ _ |- _ =>
                      apply add_attrs_Ok_inv in H; subst
                  end
                | inv_branch ]; norm_world).

Section CtlSteps.
Context `{build_config} `{environment}.

(** remove_client, in full: what it reads, and the channel it leaves. *)
Lemma remove_client_spec c i w w' :
  remove_client (Some c) i w = Ok tt w' ->
  exists x rclient,
    ctls w !! c = Some x /\
    0 <= i /\ ctl_clients x !! Z.to_nat i = Some rclient /\
    ctl_frame w w' /\
    ctls w' =
      <[c := mk_ctl (ctl_socket x) (ctl_server_fd x)
                    (if i =? ctl_num_clients x - 1 then ctl_clients x
                     else <[Z.to_nat i :=
                              default rclient
                                (ctl_clients x !! Z.to_nat (ctl_num_clients x - 1))]>
                            (ctl_clients x))
                    (ctl_num_clients x - 1)
                    (if ctl_num_clients x =? MAX_CLIENTS
                     then <[ctl_server_fd x := EPOLLIN]>
                            (delete (cl_fd rclient) (ctl_reg_set x))
                     else delete (cl_fd rclient) (ctl_reg_set x))
                    (ctl_calls_since_process x)]> (ctls w).
Proof.
  unfold remove_client, epoll_reg_set_del, epoll_reg_set_add. intros Hrun.
  inv_ctl.
  all: match goal with
       | Hx : ctls _ !! _ = Some ?x, Hc : ctl_clients ?x !! _ = Some ?r |- _ =>
           exists x, r
       end.
  all: cbn [ctl_num_clients ctl_set_reg_set ctl_set_num_clients ctl_set_clients
            ctl_server_fd ctl_clients ctl_reg_set ctl_socket
            ctl_calls_since_process] in *.
  all: repeat match goal with
              | Hb : (_ =? _) = _ |- _ => rewrite Hb
              | Hl : ctl_clients _ !! _ = Some _ |- context [default _ _] => rewrite Hl
              end.
  all: do 3 (split; [first [assumption | reflexivity]|]).
  all: split; [frame_chain | rewrite ?insert_insert_eq; reflexivity].
Qed.

(** accept_client: either nothing was accepted and the channel is as
    before, or a client was put in slot [num_clients]. *)
Lemma accept_client_spec c w w' :
  accept_client (Some c) w = Ok tt w' ->
  exists x,
    ctls w !! c = Some x /\
    ctl_frame w w' /\
    (ctls w' = ctls w \/
     exists fd nclient,
       0 <= fd /\ 0 <= ctl_num_clients x /\
       ctl_clients x !! Z.to_nat (ctl_num_clients x) = Some nclient /\
       ctls w' =
         <[c := mk_ctl (ctl_socket x) (ctl_server_fd x)
                       (<[Z.to_nat (ctl_num_clients x) :=
                            mk_client fd false (cl_pending_response nclient)]>
                          (ctl_clients x))
                       (ctl_num_clients x + 1)
                       (if ctl_num_clients x + 1 =? MAX_CLIENTS
                        then delete (ctl_server_fd x) (<[fd := EPOLLIN]> (ctl_reg_set x))
                        else <[fd := EPOLLIN]> (ctl_reg_set x))
                       (ctl_calls_since_process x)]> (ctls w)).
Proof.
  unfold accept_client, set_client, epoll_reg_set_del, epoll_reg_set_add. intros Hrun.
  inv_ctl.
  all: match goal with
       | Hx : ctls _ !! _ = Some ?x |- _ => exists x
       end.
  all: cbn [ctl_num_clients ctl_set_reg_set ctl_set_num_clients ctl_set_clients
            ctl_server_fd ctl_clients ctl_reg_set ctl_socket
            ctl_calls_since_process] in *.
  all: split; [assumption|]; split; [frame_chain|].
  1, 2: left; reflexivity.
  all: repeat match goal with
              | Hb : (_ =? _) = _ |- _ => rewrite Hb
              | Hb : (_ <? 0) = false |- _ => apply Z.ltb_ge in Hb
              end.
  all: match goal with
       | Hb : 0 <= rep_rc (env_reply _ (SysSetBlocking ?fd false)),
         Hc : ctl_clients _ !! _ = Some ?n |- _ => right; exists fd, n
       end.
  all: split; [assumption|]; split; [assumption|]; split; [assumption|].
  all: rewrite ?insert_insert_eq; reflexivity.
Qed.

Lemma ctl_same_shape_refl x : ctl_same_shape x x.
Proof. unfold ctl_same_shape. tauto. Qed.

(** process_client: the result tells whether the client failed, and
    the channel keeps its shape. *)
Lemma process_client_spec c i w rc w' :
  process_client i (Some c) w = Ok rc w' ->
  exists x cl x',
    ctls w !! c = Some x /\
    0 <= i /\ ctl_clients x !! Z.to_nat i = Some cl /\
    ctl_frame w w' /\
    rc = (if client_failed cl w then -1 else 0) /\
    ctls w' = <[c := x']> (ctls w) /\
    ctl_same_shape x x' /\
    exists cl', ctl_clients x' !! Z.to_nat i = Some cl' /\ cl_fd cl' = cl_fd cl.
Proof.
  unfold process_client, get_client, set_client, epoll_reg_set_mod,
    process_get_attr, process_get_all_attr.
  intros Hrun. inv_ctl.
  all: match goal with
       | Hx : ctls _ !! _ = Some ?x, Hc : ctl_clients ?x !! _ = Some ?r |- _ =>
           exists x, r
       end.
  all: rewrite ?insert_insert_eq.
  all: eexists.
  all: do 3 (split; [assumption|]).
  all: split; [frame_chain|].
  all: split;
    [ unfold client_failed, io_error, malformed_request, known_request;
      rewrite ?Z.leb_antisym;
      repeat match goal with
             | Hb : ?b = true |- context [?b] => rewrite Hb
             | Hb : ?b = false |- context [?b] => rewrite Hb
             | Hb : msg_type ?m = _ |- context [msg_type ?m] => rewrite Hb
             end;
      reflexivity |].
  all: split; [first [reflexivity | symmetry; apply insert_id; eassumption]|].
  all: split; [unfold ctl_same_shape; simpl; rewrite ?length_insert; tauto|].
  all: cbn [ctl_num_clients ctl_set_reg_set ctl_set_num_clients ctl_set_clients
            ctl_server_fd ctl_clients ctl_reg_set ctl_socket
            ctl_calls_since_process] in *.
  all: rewrite ?length_insert in *.
  all: repeat match goal with
              | Hl : <[?n := _]> _ !! ?n = Some _ |- _ =>
                  rewrite list_lookup_insert_eq in Hl by lia; injection Hl as <-
              end.
  all: first [ eexists; split; [eassumption | reflexivity]
             | eexists; split; [apply list_lookup_insert_eq; rewrite ?length_insert; lia
                               | reflexivity] ].
Qed.

Lemma ctl_step_refl c w x : ctls w !! c = Some x -> ctl_step c w w.
Proof.
  intros Hx. split; [apply ctl_frame_refl|]. exists x, x.
  split; [exact Hx|]. split; [symmetry; apply insert_id; exact Hx|]. tauto.
Qed.

Lemma ctl_step_trans c w1 w2 w3 :
  ctl_step c w1 w2 -> ctl_step c w2 w3 -> ctl_step c w1 w3.
Proof.
  intros (Hf1 & x1 & x2 & Hx1 & Hc2 & Hs1 & Hfd1 & Hok1)
         (Hf2 & x2' & x3 & Hx2 & Hc3 & Hs2 & Hfd2 & Hok2).
  rewrite Hc2, lookup_insert_eq in Hx2. injection Hx2 as <-.
  split; [eapply ctl_frame_trans; eassumption|]. exists x1, x3.
  split; [exact Hx1|]. split; [rewrite Hc3, Hc2, insert_insert_eq; reflexivity|].
  split; [congruence|]. split; [congruence | tauto].
Qed.

Lemma ctl_step_lookup c w w' :
  ctl_step c w w' -> is_Some (ctls w' !! c).
Proof.
  intros (_ & x & x' & _ & Hc & _). rewrite Hc, lookup_insert_eq. eauto.
Qed.

Lemma process_client_step c i w rc w' :
  process_client i (Some c) w = Ok rc w' -> ctl_step c w w'.
Proof.
  intros Hrun.
  apply process_client_spec in Hrun
    as (x & cl & x' & Hx & Hi & Hcl & Hf & _ & Hc & (Hs1 & Hs2 & Hs3 & Hs4 & Hs5) & _).
  split; [exact Hf|]. exists x, x'.
  split; [exact Hx|]. split; [exact Hc|]. split; [exact Hs1|]. split; [exact Hs2|].
  intros [Hlen Hn]. split; [congruence | lia].
Qed.

Lemma accept_client_step c w w' :
  accept_client (Some c) w = Ok tt w' -> ctl_step c w w'.
Proof.
  intros Hrun. apply accept_client_spec in Hrun as (x & Hx & Hf & Hcase).
  split; [exact Hf|]. destruct Hcase as [Hsame | (fd & n & Hfd & Hnum & Hn & Hc)].
  - exists x, x. rewrite Hsame. split; [exact Hx|].
    split; [symmetry; apply insert_id; exact Hx | tauto].
  - eexists x, _. split; [exact Hx|]. split; [exact Hc|]. simpl.
    split; [reflexivity|]. split; [reflexivity|].
    intros [Hlen Hb]. split; simpl.
    + rewrite length_insert. exact Hlen.
    + apply lookup_lt_Some in Hn. unfold MAX_CLIENTS in *. lia.
Qed.

Lemma remove_client_step c i w w' x :
  ctls w !! c = Some x -> i < ctl_num_clients x ->
  remove_client (Some c) i w = Ok tt w' -> ctl_step c w w'.
Proof.
  intros Hx Hlt Hrun.
  apply remove_client_spec in Hrun as (x0 & r & Hx0 & Hi & Hr & Hf & Hc).
  rewrite Hx in Hx0. injection Hx0 as <-.
  split; [exact Hf|]. eexists x, _. split; [exact Hx|]. split; [exact Hc|]. simpl.
  split; [reflexivity|]. split; [reflexivity|].
  intros [Hlen Hb]. split; simpl.
  - destruct (i =? ctl_num_clients x - 1); [exact Hlen|].
    rewrite length_insert. exact Hlen.
  - lia.
Qed.
End CtlSteps.

Section CtlProcess.
Context `{build_config} `{environment}.
Variable getops : ops_ref -> xcm_tp_ops.
Hypothesis hooks_ro : transport_hooks_read_only getops.

Lemma XCM_TP_GETOPS_read_only s : read_only (XCM_TP_GETOPS getops s).
Proof.
  intros w ops w' Hrun. unfold XCM_TP_GETOPS in Hrun. inv_all. reflexivity.
Qed.

Lemma socket_proto_name_read_only s : read_only (socket_proto_name s).
Proof.
  intros w n w' Hrun. unfold socket_proto_name in Hrun. inv_all. reflexivity.
Qed.

Lemma xcm_tp_socket_get_transport_read_only s :
  read_only (xcm_tp_socket_get_transport getops s).
Proof.
  intros w n w' Hrun. unfold xcm_tp_socket_get_transport in Hrun.
  apply bind_Ok_inv in Hrun as (ops & w1 & Hops & Hrun).
  pose proof Hops as Hops'. apply XCM_TP_GETOPS_read_only in Hops' as ->.
  destruct (op_get_transport ops) as [f|] eqn:Ef.
  - unfold XCM_TP_GETOPS in Hops. inv_all. eapply hooks_ro; eassumption.
  - eapply socket_proto_name_read_only; eassumption.
Qed.

(** min_calls reads only, and answers 8 or 64 unless the socket's
    transport is SCTP in a build with SCTP. *)
Lemma min_calls_spec c w mc w' :
  min_calls getops (Some c) w = Ok mc w' ->
  w' = w /\
  exists x, ctls w !! c = Some x /\
    2 <= mc <= 64 /\
    (XCM_SCTP = false \/
     (exists t, xcm_tp_socket_get_transport getops (ctl_socket x) w = Ok t w /\
                t <> XCM_SCTP_PROTO) ->
     mc = if 0 <? ctl_num_clients x then DEFAULT_CALLS_PER_SEND_RECEIVE
          else DEFAULT_CALLS_PER_ACCEPT).
Proof.
  unfold min_calls. intros Hrun.
  apply bind_Ok_inv in Hrun as (x & w1 & Hx & Hrun).
  apply load_ctl_Some_inv in Hx as [-> Hx].
  apply bind_Ok_inv in Hrun as (sctp & w1 & Hs & Hrun).
  assert (Hw1 : w1 = w /\
                (XCM_SCTP = false \/
                 (exists t, xcm_tp_socket_get_transport getops (ctl_socket x) w = Ok t w /\
                            t <> XCM_SCTP_PROTO) -> sctp = false)).
  { destruct XCM_SCTP eqn:Esctp.
    - unfold is_sctp in Hs. apply bind_Ok_inv in Hs as (t & w2 & Ht & Hs).
      pose proof Ht as Ht'. apply xcm_tp_socket_get_transport_read_only in Ht' as ->.
      apply ret_Ok_inv in Hs as [-> ->]. split; [reflexivity|].
      intros [Hf | (t' & Ht' & Hne)]; [discriminate|].
      rewrite Ht in Ht'. injection Ht' as <-.
      apply String.eqb_neq. exact Hne.
    - inv_all. split; [reflexivity | reflexivity]. }
  destruct Hw1 as [-> Hns].
  split.
  - destruct sctp; inv_all; reflexivity.
  - exists x. split; [exact Hx|].
    unfold SCTP_CALLS_PER_SEND_RECEIVE, SCTP_CALLS_PER_ACCEPT,
      DEFAULT_CALLS_PER_SEND_RECEIVE, DEFAULT_CALLS_PER_ACCEPT in *.
    split.
    + destruct sctp; inv_all; destruct (0 <? ctl_num_clients x); lia.
    + intros Hn. rewrite (Hns Hn) in Hrun. inv_all; reflexivity.
Qed.

(** The loop over the clients keeps the channel in shape, provided the
    recursive call does. *)
Lemma process_clients_step c again k : forall i w w',
  0 <= i ->
  (forall w1 w2, again w1 = Ok tt w2 -> ctl_step c w1 w2) ->
  process_clients again (Some c) k i w = Ok tt w' ->
  ctl_step c w w'.
Proof.
  induction k as [|k IH]; intros i w w' Hi Hagain Hrun; simpl in Hrun.
  - apply bind_Ok_inv in Hrun as (x & w1 & Hx & Hrun).
    apply load_ctl_Some_inv in Hx as [-> Hx].
    destruct (i <? ctl_num_clients x); inv_all.
    eapply ctl_step_refl; eassumption.
  - apply bind_Ok_inv in Hrun as (x & w1 & Hx & Hrun).
    apply load_ctl_Some_inv in Hx as [-> Hx].
    destruct (i <? ctl_num_clients x) eqn:Ei; [|inv_all; eapply ctl_step_refl; eassumption].
    apply Z.ltb_lt in Ei.
    apply bind_Ok_inv in Hrun as (rc & w1 & Hpc & Hrun).
    apply bind_Ok_inv in Hrun as (u & w2 & Hrm & Hrun).
    pose proof (process_client_step _ _ _ _ _ Hpc) as Hstep1.
    apply process_client_spec in Hpc
      as (x0 & cl & x' & Hx0 & _ & _ & _ & _ & Hc1 & (_ & _ & Hnum & _) & _).
    rewrite Hx in Hx0. injection Hx0 as <-.
    eapply ctl_step_trans; [exact Hstep1|].
    eapply ctl_step_trans; [|eapply IH; [|exact Hagain|exact Hrun]; lia].
    destruct (rc <? 0).
    + apply bind_Ok_inv in Hrm as (u' & w3 & Hrm & Hag). destruct u, u'.
      eapply ctl_step_trans; [|apply Hagain; exact Hag].
      eapply remove_client_step; [| |exact Hrm].
      * rewrite Hc1. apply lookup_insert_eq.
      * lia.
    + inv_all. eapply ctl_step_refl. rewrite Hc1. apply lookup_insert_eq.
Qed.

Lemma store_ctl_step c x y w :
  ctls w !! c = Some x ->
  ctl_socket y = ctl_socket x -> ctl_server_fd y = ctl_server_fd x ->
  ctl_clients y = ctl_clients x -> ctl_num_clients y = ctl_num_clients x ->
  ctl_step c w (set_ctls (<[c := y]> (ctls w)) w).
Proof.
  intros Hx Hs Hfd Hcl Hn. split; [apply ctl_frame_set_ctls|].
  exists x, y. split; [exact Hx|]. split; [reflexivity|].
  split; [exact Hs|]. split; [exact Hfd|].
  unfold ctl_ok. rewrite Hcl, Hn. tauto.
Qed.

Lemma ctl_process_S fuel c :
  ctl_process getops (S fuel) c =
  (let* x := load_ctl c in
   store_ctl c (ctl_set_calls (to_uint64 (ctl_calls_since_process x + 1)) x) ;;;
   let* x := load_ctl c in
   let* mc := min_calls getops c in
   if ctl_calls_since_process x <? mc then ret tt
   else
     store_ctl c (ctl_set_calls 0 x) ;;;
     let* _oerrno := get_errno in
     process_clients (ctl_process getops fuel c) c (S fuel) 0 ;;;
     let* x := load_ctl c in
     (if ctl_num_clients x <? MAX_CLIENTS then accept_client c else ret tt) ;;;
     set_errno _oerrno).
Proof. reflexivity. Qed.

(** One call of ctl_process: the channel keeps its shape, and errno is
    what it was. *)
Lemma ctl_process_step fuel : forall c w w',
  ctl_process getops fuel (Some c) w = Ok tt w' ->
  ctl_step c w w' /\ errno w' = errno w.
Proof.
  induction fuel as [|fuel IH]; intros c w w' Hrun; [discriminate|].
  rewrite ctl_process_S in Hrun.
  apply bind_Ok_inv in Hrun as (x & w1 & Hx & Hrun).
  apply load_ctl_Some_inv in Hx as [-> Hx].
  apply bind_Ok_inv in Hrun as (u & w1 & Hst & Hrun).
  apply store_ctl_Some_inv in Hst as [_ ->].
  apply bind_Ok_inv in Hrun as (x1 & w1 & Hx1 & Hrun).
  apply load_ctl_Some_inv in Hx1 as [-> Hx1].
  rewrite ctls_set_ctls, lookup_insert_eq in Hx1. injection Hx1 as <-.
  apply bind_Ok_inv in Hrun as (mc & w1 & Hmc & Hrun).
  apply min_calls_spec in Hmc as [-> _].
  assert (Hstep0 : ctl_step c w
            (set_ctls (<[c := ctl_set_calls (to_uint64 (ctl_calls_since_process x + 1)) x]>
                         (ctls w)) w))
    by (apply (store_ctl_step c x); [exact Hx | reflexivity..]).
  destruct (_ <? mc).
  { inv_all. split; [exact Hstep0 | reflexivity]. }
  apply bind_Ok_inv in Hrun as (u1 & w1 & Hst & Hrun).
  apply store_ctl_Some_inv in Hst as [_ ->].
  rewrite ctls_set_ctls, insert_insert_eq in Hrun.
  apply bind_Ok_inv in Hrun as (oerrno & w1 & He & Hrun).
  apply gets_Ok_inv in He as [-> ->].
  apply bind_Ok_inv in Hrun as (u2 & w2 & Hloop & Hrun).
  apply bind_Ok_inv in Hrun as (x2 & w3 & Hx2 & Hrun).
  apply load_ctl_Some_inv in Hx2 as [-> Hx2].
  apply bind_Ok_inv in Hrun as (u3 & w3 & Hacc & Hrun).
  apply modify_Ok_inv in Hrun as ->. destruct u2, u3.
  split; [|reflexivity].
  assert (Hstep1 : ctl_step c w
            (set_ctls (<[c := ctl_set_calls 0
                              (ctl_set_calls (to_uint64 (ctl_calls_since_process x + 1)) x)]>
                         (ctls w))
               (set_ctls (<[c := ctl_set_calls (to_uint64 (ctl_calls_since_process x + 1)) x]>
                            (ctls w)) w))).
  { eapply ctl_step_trans; [exact Hstep0|].
    pose proof (store_ctl_step c
                  (ctl_set_calls (to_uint64 (ctl_calls_since_process x + 1)) x)
                  (ctl_set_calls 0
                     (ctl_set_calls (to_uint64 (ctl_calls_since_process x + 1)) x))
                  (set_ctls (<[c := ctl_set_calls
                                      (to_uint64 (ctl_calls_since_process x + 1)) x]>
                               (ctls w)) w)) as Hs.
    rewrite ctls_set_ctls, insert_insert_eq in Hs.
    apply Hs; [apply lookup_insert_eq | reflexivity..]. }
  eapply ctl_step_trans; [exact Hstep1|].
  assert (Hstep2 : ctl_step c
            (set_ctls (<[c := ctl_set_calls 0
                              (ctl_set_calls (to_uint64 (ctl_calls_since_process x + 1)) x)]>
                         (ctls w))
               (set_ctls (<[c := ctl_set_calls (to_uint64 (ctl_calls_since_process x + 1)) x]>
                            (ctls w)) w)) w2).
  { eapply process_clients_step; [| |exact Hloop]; [lia|].
    intros w1 w1' Hag. apply IH in Hag as [Hag _]. exact Hag. }
  eapply ctl_step_trans; [exact Hstep2|].
  assert (Hstep3 : ctl_step c w2 w3).
  { destruct (ctl_num_clients x2 <? MAX_CLIENTS).
    - apply accept_client_step. exact Hacc.
    - inv_all. eapply ctl_step_refl. exact Hx2. }
  eapply ctl_step_trans; [exact Hstep3|].
  destruct Hstep3 as (_ & y & y' & _ & Hc3 & _).
  split; [apply ctl_frame_set_errno|].
  exists y', y'. rewrite ctls_set_errno, Hc3.
  split; [apply lookup_insert_eq|]. split; [rewrite insert_insert_eq; reflexivity|]. tauto.
Qed.
End CtlProcess.

Section HooksReadOnly.
Context `{build_config} `{environment}.

Lemma sub_ops_hooks_read_only : transport_hooks_read_only sub_ops.
Proof.
  intros r f s Hf. destruct r; simpl in Hf; [|discriminate].
  injection Hf as <-. intros w a w' Hrun. discriminate Hrun.
Qed.

Lemma utls_get_transport_read_only s : read_only (utls_get_transport s).
Proof.
  intros w t w' Hrun. unfold utls_get_transport, active_sub_conn, TOUTLS in Hrun.
  inv_all; try reflexivity.
  all: eapply (xcm_tp_socket_get_transport_read_only sub_ops sub_ops_hooks_read_only);
    eassumption.
Qed.

Lemma tp_ops_hooks_read_only fuel : transport_hooks_read_only (tp_ops fuel).
Proof.
  intros r f s Hf. destruct r; simpl in Hf; [|discriminate].
  injection Hf as <-. apply utls_get_transport_read_only.
Qed.
End HooksReadOnly.

Section CtlCreate.
Context `{build_config} `{environment}.
Variable getops : ops_ref -> xcm_tp_ops.

Lemma ctl_step_inv c w w' : ctl_step c w w' -> ctl_inv c w -> ctl_inv c w'.
Proof.
  intros (_ & x & x' & Hx & Hc & _ & _ & Hok) (x0 & Hx0 & Hok0).
  rewrite Hx in Hx0. injection Hx0 as <-.
  exists x'. split; [rewrite Hc; apply lookup_insert_eq | auto].
Qed.

Lemma ctl_create_spec sl w c w' :
  ctl_create (Some sl) w = Ok (Some c) w' ->
  exists x, ctls w' !! c = Some x /\ ctl_ok x /\
            ctl_num_clients x = 0 /\ ctl_calls_since_process x = 0 /\
            ctl_socket x = Some sl /\
            0 <= ctl_server_fd x /\
            ctl_reg_set x = {[ctl_server_fd x := EPOLLIN]} /\
            errno w' = rep_errno (env_reply (trace w ++ [SysCreateUx sl])
                                            (SysEpollCtl (ctl_server_fd x) (Some EPOLLIN))).
Proof.
  unfold ctl_create, epoll_reg_set_add. intros Hrun.
  inv_all; try discriminate.
  norm_world. eexists. rewrite lookup_insert_eq. split; [reflexivity|].
  split; [split; [reflexivity | simpl; unfold MAX_CLIENTS; lia]|]. simpl.
  split; [reflexivity|]. split; [reflexivity|]. split; [reflexivity|].
  split; [apply Z.ltb_ge; assumption|].
  split; [apply insert_empty | reflexivity].
Qed.

End CtlCreate.

Section CtlFailures.
Context `{build_config} `{environment}.
Variable getops : ops_ref -> xcm_tp_ops.
Hypothesis hooks_ro : transport_hooks_read_only getops.

(** Removing slot [i] of the [n] active clients leaves the other
    active clients, in some order. *)
Lemma removal_permutation (cs : list client) (n i : Z) (r : client) :
  length cs = Z.to_nat MAX_CLIENTS -> 0 <= i < n -> n <= MAX_CLIENTS ->
  cs !! Z.to_nat i = Some r ->
  take (Z.to_nat n) cs ≡ₚ
  r :: take (Z.to_nat (n - 1))
            (if i =? n - 1 then cs
             else <[Z.to_nat i := default r (cs !! Z.to_nat (n - 1))]> cs).
Proof.
  unfold MAX_CLIENTS. intros Hlen Hi Hn Hr.
  destruct cs as [|a [|b [|? ?]]]; simpl in Hlen; try discriminate.
  assert (Hcases : (i = 0 /\ n = 1) \/ (i = 0 /\ n = 2) \/ (i = 1 /\ n = 2)) by lia.
  destruct Hcases as [[-> ->] | [[-> ->] | [-> ->]]]; simpl in *;
    injection Hr as <-.
  - reflexivity.
  - reflexivity.
  - apply perm_swap.
Qed.

Lemma do_ctl_spec fuel s w w' :
  do_ctl getops fuel s w = Ok tt w' -> errno w' = errno w /\ ctl_frame w w'.
Proof.
  unfold do_ctl. intros Hrun. destruct XCM_CTL.
  - apply bind_Ok_inv in Hrun as (so & w1 & Hso & Hrun).
    apply load_Ok_inv in Hso as [-> _].
    destruct (so_ctl so) as [c|].
    + apply (ctl_process_step getops hooks_ro) in Hrun as [[Hf _] He]. auto.
    + inv_all. split; [reflexivity | apply ctl_frame_refl].
  - inv_all. split; [reflexivity | apply ctl_frame_refl].
Qed.

Lemma ctl_process_errno fuel c w w' :
  ctl_process getops fuel c w = Ok tt w' -> errno w' = errno w.
Proof.
  destruct c as [c|].
  - intros Hrun. apply (ctl_process_step getops hooks_ro) in Hrun as [_ He]. exact He.
  - destruct fuel; [discriminate|]. rewrite ctl_process_S. discriminate.
Qed.

(** A failing client met by the loop of ctl_process is removed. *)
Lemma failing_client_removed again k i c w w' x cl :
  ctls w !! c = Some x -> ctl_ok x -> 0 <= i < ctl_num_clients x ->
  ctl_clients x !! Z.to_nat i = Some cl ->
  client_failed cl w = true ->
  process_clients again (Some c) (S k) i w = Ok tt w' ->
  exists w1 w2 x1 x2 cl1,
    process_client i (Some c) w = Ok (-1) w1 /\
    remove_client (Some c) i w1 = Ok tt w2 /\
    ctls w1 !! c = Some x1 /\
    ctl_clients x1 !! Z.to_nat i = Some cl1 /\ cl_fd cl1 = cl_fd cl /\
    ctls w2 !! c = Some x2 /\
    ctl_num_clients x2 = ctl_num_clients x - 1 /\
    take (Z.to_nat (ctl_num_clients x)) (ctl_clients x1) ≡ₚ
      cl1 :: take (Z.to_nat (ctl_num_clients x2)) (ctl_clients x2).
Proof.
  intros Hx [Hlen Hn] Hi Hcl Hfail Hrun. simpl in Hrun.
  apply bind_Ok_inv in Hrun as (x0 & w0 & Hx0 & Hrun).
  apply load_ctl_Some_inv in Hx0 as [-> Hx0].
  rewrite Hx in Hx0. injection Hx0 as <-.
  destruct (i <? ctl_num_clients x) eqn:Ei; [|apply Z.ltb_ge in Ei; lia].
  apply bind_Ok_inv in Hrun as (rc & w1 & Hpc & Hrun).
  pose proof Hpc as Hspec.
  apply process_client_spec in Hspec
    as (x0 & cl0 & x1 & Hx0 & _ & Hcl0 & _ & Hrc & Hc1 &
        (_ & _ & Hnum1 & _ & Hlen1) & cl1 & Hcl1 & Hfd).
  rewrite Hx in Hx0. injection Hx0 as <-.
  rewrite Hcl in Hcl0. injection Hcl0 as <-.
  rewrite Hfail in Hrc. subst rc.
  apply bind_Ok_inv in Hrun as (u & w2 & Hrm & _). simpl in Hrm.
  apply bind_Ok_inv in Hrm as (u' & w3 & Hrm & _). destruct u'.
  pose proof Hrm as Hrspec.
  apply remove_client_spec in Hrspec as (x1' & r & Hx1 & _ & Hr & _ & Hc3).
  rewrite Hc1, lookup_insert_eq in Hx1. injection Hx1 as <-.
  rewrite Hcl1 in Hr. injection Hr as <-.
  exists w1, w3, x1. eexists. exists cl1.
  split; [exact Hpc|]. split; [exact Hrm|].
  split; [rewrite Hc1; apply lookup_insert_eq|].
  split; [exact Hcl1|]. split; [exact Hfd|].
  split; [rewrite Hc3; apply lookup_insert_eq|]. simpl.
  split; [lia|]. rewrite <- Hnum1.
  apply removal_permutation; [congruence | lia | lia | exact Hcl1].
Qed.

End CtlFailures.

(** * Sub-sockets of the hybrid transport *)

Lemma ut_free_socket_Ok_inv s w u w' :
  ut_free_socket s w = Ok u w' ->
  match s with
  | None => w' = w
  | Some l => is_Some (heap w !! l) /\ w' = set_heap (delete l (heap w)) w
  end.
Proof.
  unfold ut_free_socket. destruct s as [l|].
  - destruct (heap w !! l) eqn:E; [|discriminate].
    intros [= _ <-]. split; [eauto | reflexivity].
  - intros [= _ <-]. reflexivity.
Qed.

Lemma load_Some l so w : heap w !! l = Some so -> load (Some l) w = Ok so w.
Proof. unfold load. intros ->. reflexivity. Qed.

Lemma store_Some l so so' w :
  heap w !! l = Some so ->
  store (Some l) so' w = Ok tt (set_heap (<[l := so']> (heap w)) w).
Proof. unfold store. intros ->. reflexivity. Qed.

Lemma ut_free_socket_Some l so w :
  heap w !! l = Some so ->
  ut_free_socket (Some l) w = Ok tt (set_heap (delete l (heap w)) w).
Proof. unfold ut_free_socket. intros ->. reflexivity. Qed.

Section SubSockets.
Context `{build_config} `{environment}.
Variable ctl_fuel : nat.

Lemma ext_socket_frame w w' l :
  ext_socket w l -> heap w' !! l = heap w !! l -> protos w' = protos w ->
  ext_socket w' l.
Proof.
  intros (so & p & n & Hl & Hp & Ho & Hc) Hh Hps. exists so, p, n.
  rewrite Hh, Hps. auto.
Qed.

Lemma ext_socket_after_call w e l : ext_socket w l -> ext_socket (after_call e w) l.
Proof. intros He. eapply ext_socket_frame; [exact He | reflexivity..]. Qed.

Lemma XCM_TP_GETOPS_ext w l :
  ext_socket_any w l -> XCM_TP_GETOPS sub_ops (Some l) w = Ok ext_ops w.
Proof.
  intros (so & p & n & Hl & Hp & Ho).
  unfold XCM_TP_GETOPS. rewrite (bind_Ok _ _ _ _ _ (load_Some _ _ _ Hl)).
  unfold bind, gets. rewrite Hp, Ho. reflexivity.
Qed.

Lemma ext_socket_is_any w l : ext_socket w l -> ext_socket_any w l.
Proof. intros (so & p & n & Hl & Hp & Ho & _). exists so, p, n. auto. Qed.

Lemma do_ctl_ext w l : ext_socket w l -> do_ctl sub_ops ctl_fuel (Some l) w = Ok tt w.
Proof.
  intros (so & p & n & Hl & Hp & Ho & Hc). unfold do_ctl.
  destruct XCM_CTL; [|reflexivity].
  rewrite (bind_Ok _ _ _ _ _ (load_Some _ _ _ Hl)). rewrite Hc. reflexivity.
Qed.

Lemma tp_call_ext mk w l :
  ext_socket_any w l ->
  tp_call mk (Some l) w = Ok (env_reply (trace w) (mk l)) (after_call (mk l) w).
Proof.
  intros (so & p & n & Hl & _). unfold tp_call.
  rewrite (bind_Ok _ _ _ _ _ (load_Some _ _ _ Hl)). reflexivity.
Qed.

(** What the operations of a wrapped transport do in the model. *)
Lemma ext_op_update w l :
  ext_socket_any w l -> op_update ext_ops (Some l) w = Ok tt (after_call (TpUpdate l) w).
Proof.
  intros Ha. unfold ext_ops; cbn [op_update].
  rewrite (bind_Ok _ _ _ _ _ (tp_call_ext TpUpdate _ _ Ha)). reflexivity.
Qed.

Lemma ext_op_connect w l addr :
  ext_socket_any w l ->
  op_connect ext_ops (Some l) addr w =
  Ok (rep_rc (env_reply (trace w) (TpConnect l addr))) (after_call (TpConnect l addr) w).
Proof.
  intros Ha. unfold ext_ops; cbn [op_connect].
  rewrite (bind_Ok _ _ _ _ _ (tp_call_ext (fun l => TpConnect l addr) _ _ Ha)).
  reflexivity.
Qed.

Lemma ext_op_server w l addr :
  ext_socket_any w l ->
  op_server ext_ops (Some l) addr w =
  Ok (rep_rc (env_reply (trace w) (TpServer l addr))) (after_call (TpServer l addr) w).
Proof.
  intros Ha. unfold ext_ops; cbn [op_server].
  rewrite (bind_Ok _ _ _ _ _ (tp_call_ext (fun l => TpServer l addr) _ _ Ha)).
  reflexivity.
Qed.

Lemma ext_op_close w l :
  ext_socket_any w l ->
  op_close ext_ops (Some l) w =
  Ok (rep_rc (env_reply (trace w) (TpClose l))) (after_call (TpClose l) w).
Proof.
  intros Ha. unfold ext_ops; cbn [op_close].
  rewrite (bind_Ok _ _ _ _ _ (tp_call_ext TpClose _ _ Ha)). reflexivity.
Qed.

Lemma ext_op_get_local_addr w l t :
  ext_socket_any w l ->
  op_get_local_addr ext_ops (Some l) t w =
  Ok (rep_str (env_reply (trace w) (TpGetLocalAddr l t))) (after_call (TpGetLocalAddr l t) w).
Proof.
  intros Ha. unfold ext_ops; cbn [op_get_local_addr].
  rewrite (bind_Ok _ _ _ _ _ (tp_call_ext (fun l => TpGetLocalAddr l t) _ _ Ha)).
  reflexivity.
Qed.

Lemma ext_op_accept w c v :
  ext_socket_any w c -> ext_socket_any w v ->
  op_accept ext_ops (Some c) (Some v) w =
  Ok (rep_rc (env_reply (trace w) (TpAccept c v))) (after_call (TpAccept c v) w).
Proof.
  intros (so1 & _ & _ & Hl1 & _) (so2 & _ & _ & Hl2 & _).
  unfold ext_ops; cbn [op_accept]. unfold tp_call2.
  unfold bind at 1. unfold bind at 1.
  rewrite (load_Some _ _ _ Hl1). unfold bind at 1. rewrite (load_Some _ _ _ Hl2).
  reflexivity.
Qed.

Lemma ext_socket_any_after_call w e l :
  ext_socket_any w l -> ext_socket_any (after_call e w) l.
Proof. intros (so & p & n & Hl & Hp & Ho). exists so, p, n. auto. Qed.

Lemma xcm_tp_socket_update_ext w l :
  ext_socket_any w l ->
  xcm_tp_socket_update sub_ops (Some l) w = Ok tt (after_call (TpUpdate l) w).
Proof.
  intros He. unfold xcm_tp_socket_update.
  rewrite (bind_Ok _ _ _ _ _ (XCM_TP_GETOPS_ext _ _ He)).
  apply ext_op_update. exact He.
Qed.

(** connect on a sub-socket: the transport's connect, then update if
    it returned 0. *)
Lemma xcm_tp_socket_connect_ext w l addr :
  ext_socket w l ->
  xcm_tp_socket_connect sub_ops ctl_fuel (Some l) addr w =
  Ok (rep_rc (env_reply (trace w) (TpConnect l addr)))
     (if rep_rc (env_reply (trace w) (TpConnect l addr)) =? 0
      then after_call (TpUpdate l) (after_call (TpConnect l addr) w)
      else after_call (TpConnect l addr) w).
Proof.
  intros He. pose proof (ext_socket_is_any _ _ He) as Ha.
  unfold xcm_tp_socket_connect.
  rewrite (bind_Ok _ _ _ _ _ (do_ctl_ext _ _ He)).
  rewrite (bind_Ok _ _ _ _ _ (XCM_TP_GETOPS_ext _ _ Ha)).
  rewrite (bind_Ok _ _ _ _ _ (ext_op_connect _ _ addr Ha)).
  destruct (_ =? 0).
  - rewrite (bind_Ok _ _ _ _ _
               (xcm_tp_socket_update_ext _ _ (ext_socket_any_after_call _ _ _ Ha))).
    reflexivity.
  - reflexivity.
Qed.

Lemma xcm_tp_socket_server_ext w l addr :
  ext_socket w l ->
  xcm_tp_socket_server sub_ops ctl_fuel (Some l) addr w =
  Ok (rep_rc (env_reply (trace w) (TpServer l addr)))
     (if rep_rc (env_reply (trace w) (TpServer l addr)) =? 0
      then after_call (TpUpdate l) (after_call (TpServer l addr) w)
      else after_call (TpServer l addr) w).
Proof.
  intros He. pose proof (ext_socket_is_any _ _ He) as Ha.
  unfold xcm_tp_socket_server.
  rewrite (bind_Ok _ _ _ _ _ (do_ctl_ext _ _ He)).
  rewrite (bind_Ok _ _ _ _ _ (XCM_TP_GETOPS_ext _ _ Ha)).
  rewrite (bind_Ok _ _ _ _ _ (ext_op_server _ _ addr Ha)).
  destruct (_ =? 0).
  - rewrite (bind_Ok _ _ _ _ _
               (xcm_tp_socket_update_ext _ _ (ext_socket_any_after_call _ _ _ Ha))).
    reflexivity.
  - reflexivity.
Qed.

(** close on a sub-socket without a channel: the transport's close. *)
Lemma xcm_tp_socket_close_ext w l :
  ext_socket w l ->
  xcm_tp_socket_close sub_ops (Some l) w =
  Ok (rep_rc (env_reply (trace w) (TpClose l))) (after_call (TpClose l) w).
Proof.
  intros He. pose proof (ext_socket_is_any _ _ He) as Ha.
  destruct He as (so & p & n & Hl & Hp & Ho & Hc).
  unfold xcm_tp_socket_close.
  assert (Hctl : (if XCM_CTL
                  then let* so := load (Some l) in ctl_destroy (so_ctl so) true
                  else ret tt) w = Ok tt w).
  { destruct XCM_CTL; [|reflexivity].
    rewrite (bind_Ok _ _ _ _ _ (load_Some _ _ _ Hl)). rewrite Hc. reflexivity. }
  rewrite (bind_Ok _ _ _ _ _ Hctl).
  rewrite (bind_Ok _ _ _ _ _ (XCM_TP_GETOPS_ext _ _ Ha)).
  apply ext_op_close. exact Ha.
Qed.

Lemma xcm_local_addr_ext w l :
  ext_socket_any w l ->
  xcm_local_addr sub_ops (Some l) w =
  Ok (rep_str (env_reply (trace w) (TpGetLocalAddr l false)))
     (after_call (TpGetLocalAddr l false) w).
Proof.
  intros Ha. unfold xcm_local_addr, xcm_tp_socket_get_local_addr.
  rewrite (bind_Ok _ _ _ _ _ (XCM_TP_GETOPS_ext _ _ Ha)).
  apply ext_op_get_local_addr. exact Ha.
Qed.
End SubSockets.

(** Lookups in a heap written as a chain of updates. *)
Ltac use_frames :=
  repeat match goal with
         | Hh : heap ?X = _ |- context [heap ?X] => rewrite Hh
         | Hp : protos ?X = _ |- context [protos ?X] => rewrite Hp
         end.

Ltac heap_lookup :=
  autorewrite with world; use_frames;
  repeat first
    [ rewrite lookup_insert_eq
    | rewrite lookup_delete_eq
    | rewrite lookup_insert_ne by congruence
    | rewrite lookup_delete_ne by congruence ];
  first [eassumption | reflexivity].

Section UtlsRuns.
Context `{build_config} `{environment}.
Variable ctl_fuel : nat.

Lemma TOUTLS_Some s so w : heap w !! s = Some so -> TOUTLS (Some s) w = Ok (so_priv so) w.
Proof.
  intros Hs. unfold TOUTLS. rewrite (bind_Ok _ _ _ _ _ (load_Some _ _ _ Hs)). reflexivity.
Qed.

Lemma us_read_Some s f so w :
  heap w !! s = Some so -> us_read (Some s) f w = Ok (us_get f (so_priv so)) w.
Proof.
  intros Hs. unfold us_read. rewrite (bind_Ok _ _ _ _ _ (TOUTLS_Some _ _ _ Hs)). reflexivity.
Qed.

Lemma us_write_Some s f v so w :
  heap w !! s = Some so ->
  us_write (Some s) f v w =
  Ok tt (set_heap (<[s := so_set_priv (us_set f v (so_priv so)) so]> (heap w)) w).
Proof.
  intros Hs. unfold us_write. rewrite (bind_Ok _ _ _ _ _ (load_Some _ _ _ Hs)).
  apply store_Some with (so := so). exact Hs.
Qed.

Lemma xcm_tp_socket_destroy_Some l so w :
  heap w !! l = Some so ->
  xcm_tp_socket_destroy (Some l) w = Ok tt (set_heap (delete l (heap w)) w).
Proof. apply ut_free_socket_Some. Qed.

Lemma map_tls_to_ux_run tls_addr capacity tail ux_addr w :
  str_skip 4 tls_addr = Some tail ->
  xcm_addr_ux_make tail capacity = (0, ux_addr) ->
  map_tls_to_ux tls_addr capacity w = Ok ux_addr w.
Proof.
  intros Hskip Hmake. unfold map_tls_to_ux.
  change (Z.to_nat (strlen XCM_TLS_PROTO + PROTO_SEP_LEN)) with 4%nat.
  rewrite Hskip, Hmake. change (0 =? 0) with true.
  rewrite (bind_Ok _ _ _ _ _ (ut_assert_true w)). reflexivity.
Qed.

Lemma ext_socket_at w w' l :
  ext_socket w l -> heap w' !! l = heap w !! l -> protos w' = protos w ->
  ext_socket w' l.
Proof. apply ext_socket_frame. Qed.

Lemma get_errno_run w : get_errno w = Ok (errno w) w.
Proof. reflexivity. Qed.

Lemma remove_sub_socket_run s f so l sub w :
  heap w !! s = Some so -> us_get f (so_priv so) = Some l ->
  heap w !! l = Some sub -> s <> l ->
  remove_sub_socket (Some s) f w =
  Ok tt (set_heap (<[s := so_set_priv (us_set f None (so_priv so)) so]>
                     (delete l (heap w))) w).
Proof.
  intros Hs Hf Hl Hne. unfold remove_sub_socket.
  rewrite (bind_Ok _ _ _ _ _ (us_read_Some _ f _ _ Hs)). rewrite Hf.
  rewrite (bind_Ok _ _ _ _ _ (xcm_tp_socket_destroy_Some _ _ _ Hl)).
  rewrite (us_write_Some s f None so); [reflexivity|].
  simpl. rewrite lookup_delete_ne by congruence. exact Hs.
Qed.

Lemma deinit_run s so lu lt su st w :
  heap w !! s = Some so ->
  ux_socket (so_priv so) = Some lu -> tls_socket (so_priv so) = Some lt ->
  heap w !! lu = Some su -> heap w !! lt = Some st -> lu <> lt ->
  deinit (Some s) w = Ok tt (set_heap (delete lt (delete lu (heap w))) w).
Proof.
  intros Hs Hux Htls Hlu Hlt Hne. unfold deinit.
  rewrite (bind_Ok _ _ _ _ _ (TOUTLS_Some _ _ _ Hs)). rewrite Hux, Htls.
  rewrite (bind_Ok _ _ _ _ _ (xcm_tp_socket_destroy_Some _ _ _ Hlu)).
  rewrite (xcm_tp_socket_destroy_Some lt st); [reflexivity|].
  simpl. rewrite lookup_delete_ne by congruence. exact Hlt.
Qed.
End UtlsRuns.

(** Side conditions of the forward steps. *)
Ltac ext_at :=
  eapply ext_socket_at;
  [ eassumption | heap_lookup | autorewrite with world; use_frames; reflexivity ].

Ltac run_lemma :=
  first
    [ apply load_Some; heap_lookup
    | apply TOUTLS_Some; heap_lookup
    | apply us_read_Some; heap_lookup
    | apply us_write_Some; heap_lookup
    | apply xcm_tp_socket_destroy_Some; heap_lookup
    | apply xcm_tp_socket_connect_ext; ext_at
    | apply xcm_tp_socket_server_ext; ext_at
    | apply xcm_tp_socket_close_ext; ext_at
    | apply xcm_local_addr_ext; apply ext_socket_is_any; ext_at
    | apply ut_assert_true
    | apply get_errno_run
    | eapply map_tls_to_ux_run; eassumption
    | eapply remove_sub_socket_run;
      [heap_lookup | simpl; eassumption | heap_lookup | congruence]
    | eapply deinit_run;
      [heap_lookup | eassumption | eassumption | heap_lookup | heap_lookup | congruence] ].

Ltac fwd := rewrite ?bind_assoc; erewrite bind_Ok by run_lemma; cbv beta.

(** The transport calls in a trace written as a chain of calls. *)
Ltac events_eq :=
  unfold tp_events; autorewrite with world;
  rewrite ?List.filter_app; simpl; rewrite <- ?app_assoc; simpl;
  rewrite ?app_nil_r; reflexivity.

Section UtlsConnect.
Context `{build_config} `{environment}.
Variable ctl_fuel : nat.

(** C2.  A UTLS connect to a parseable address, on a socket as
    utls_init leaves it.  It returns; the first transport call is the
    UX connect.  If that returns 0, the TLS sub-socket is closed and
    freed and the result is 0, with no TLS connect.  If it fails with
    ECONNREFUSED, the TLS connect is made, and if that does not fail the
    UX sub-socket is freed and the result is 0.  If it fails with
    another errno the result is -1 and no TLS connect was made. *)
Theorem utls_connect_prefers_ux (w : World) (s lu lt : loc)
        (remote_addr : string) (host : xcm_addr_host) (port prc perrno : Z)
        (tls_addr tail ux_addr : string) :
  utls_ready w s lu lt ->
  xcm_addr_parse_utls remote_addr = (prc, perrno, (host, port)) -> 0 <= prc ->
  xcm_addr_make_tls host port XCM_ADDR_MAX = (0, tls_addr) ->
  str_skip 4 tls_addr = Some tail ->
  xcm_addr_ux_make tail (XCM_ADDR_MAX + 1) = (0, ux_addr) ->
  let r1 := env_reply (trace w) (TpConnect lu ux_addr) in
  let r2 := env_reply (trace w ++ [TpConnect lu ux_addr]) (TpConnect lt tls_addr) in
  exists rc w',
    utls_connect ctl_fuel (Some s) remote_addr w = Ok rc w' /\
    (exists rest, tp_events w' = tp_events w ++ TpConnect lu ux_addr :: rest) /\
    (rep_rc r1 = 0 ->
       rc = 0 /\
       tp_events w' = tp_events w ++ [TpConnect lu ux_addr; TpUpdate lu; TpClose lt] /\
       heap w' !! lt = None /\
       heap w' !! lu = heap w !! lu /\
       (ux_socket <$> utls_priv w' s) = Some (Some lu) /\
       (tls_socket <$> utls_priv w' s) = Some None) /\
    (rep_rc r1 <> 0 -> rep_errno r1 = ECONNREFUSED ->
       (0 <= rep_rc r2 ->
          rc = 0 /\
          tp_events w' = tp_events w ++
            [TpConnect lu ux_addr; TpConnect lt tls_addr] ++
            (if rep_rc r2 =? 0 then [TpUpdate lt] else []) /\
          heap w' !! lu = None /\
          heap w' !! lt = heap w !! lt /\
          (ux_socket <$> utls_priv w' s) = Some None /\
          (tls_socket <$> utls_priv w' s) = Some (Some lt)) /\
       (rep_rc r2 < 0 ->
          rc = -1 /\
          tp_events w' = tp_events w ++ [TpConnect lu ux_addr; TpConnect lt tls_addr])) /\
    (rep_rc r1 <> 0 -> rep_errno r1 <> ECONNREFUSED ->
       rc = -1 /\
       tp_events w' = tp_events w ++ [TpConnect lu ux_addr; TpClose lt]).
Proof.
  intros ((so & Hs & Hux & Htls) & Hn1 & Hn2 & Hn3 & Heu & Het) Hparse Hprc Hmake Hskip Huxm.
  pose proof Heu as (su & pu & nu & Hlu & _).
  pose proof Het as (st & pt & nt & Hlt & _).
  intros r1 r2. subst r1 r2.
  unfold utls_connect. cbv zeta.
  fwd. rewrite Hparse.
  destruct (prc <? 0) eqn:Ep; [apply Z.ltb_lt in Ep; lia|].
  rewrite Hmake. change (0 =? 0) with true.
  fwd. fwd. fwd. rewrite Hux. fwd.
  destruct (rep_rc (env_reply (trace w) (TpConnect lu ux_addr)) =? 0) eqn:E1.
  - apply Z.eqb_eq in E1.
    fwd. rewrite Htls. fwd. fwd.
    eexists _, _. split; [reflexivity|].
    split; [eexists; events_eq|].
    split.
    + intros _. split; [reflexivity|]. split; [events_eq|].
      unfold utls_priv. simpl.
      rewrite lookup_insert_ne by congruence. rewrite lookup_delete_eq.
      rewrite lookup_insert_ne by congruence. rewrite lookup_delete_ne by congruence.
      rewrite lookup_insert_eq. simpl. rewrite Hux. repeat split; reflexivity.
    + split; intros Hne; contradiction.
  - apply Z.eqb_neq in E1. fwd.
    autorewrite with world.
    destruct (rep_errno (env_reply (trace w) (TpConnect lu ux_addr)) =? ECONNREFUSED)
      eqn:E2; cbn [negb].
    + apply Z.eqb_eq in E2. fwd. rewrite Htls. fwd.
      autorewrite with world.
      destruct (rep_rc (env_reply (trace w ++ [TpConnect lu ux_addr])
                                  (TpConnect lt tls_addr)) <? 0) eqn:E3.
      * apply Z.ltb_lt in E3.
        destruct (_ =? 0) eqn:E4; [apply Z.eqb_eq in E4; lia|].
        fwd.
        eexists _, _. split; [reflexivity|].
        split; [eexists; events_eq|].
        split; [intros Hz; contradiction|].
        split; [|intros _ Hne; contradiction].
        intros _ _. split; [intros Hge; lia|].
        intros _. split; [reflexivity | events_eq].
      * apply Z.ltb_ge in E3.
        destruct (_ =? 0) eqn:E4.
        -- fwd.
           eexists _, _. split; [reflexivity|].
           split; [eexists; events_eq|].
           split; [intros Hz; contradiction|].
           split; [|intros _ Hne; contradiction].
           intros _ _. split; [|intros Hlt0; lia].
           intros _. split; [reflexivity|]. split; [events_eq|].
           unfold utls_priv. simpl.
           rewrite lookup_insert_ne by congruence. rewrite lookup_delete_eq.
           rewrite lookup_insert_ne by congruence. rewrite lookup_delete_ne by congruence.
           rewrite lookup_insert_eq. simpl. rewrite Htls. repeat split; reflexivity.
        -- fwd.
           eexists _, _. split; [reflexivity|].
           split; [eexists; events_eq|].
           split; [intros Hz; contradiction|].
           split; [|intros _ Hne; contradiction].
           intros _ _. split; [|intros Hlt0; lia].
           intros _. split; [reflexivity|]. split; [events_eq|].
           unfold utls_priv. simpl.
           rewrite lookup_insert_ne by congruence. rewrite lookup_delete_eq.
           rewrite lookup_insert_ne by congruence. rewrite lookup_delete_ne by congruence.
           rewrite lookup_insert_eq. simpl. rewrite Htls. repeat split; reflexivity.
    + apply Z.eqb_neq in E2. fwd. rewrite Htls. fwd. fwd.
      eexists _, _. split; [reflexivity|].
      split; [eexists; events_eq|].
      split; [intros Hz; contradiction|].
      split; [intros _ He; contradiction|].
      intros _ _. split; [reflexivity | events_eq].
Qed.
End UtlsConnect.

Ltac fwd_in H :=
  rewrite ?bind_assoc in H; erewrite bind_Ok in H by run_lemma; cbv beta in H.

(** A path that ends in [return -1] did not return 0. *)
Ltac dead_branch H :=
  exfalso; clear - H;
  repeat (first [inv_step | inv_branch]; try change (-1 <? 0) with true in * );
  congruence.

Section UtlsServer.
Context `{build_config} `{environment}.
Variable ctl_fuel : nat.

(** C4.  A UTLS server creation that returns 0, on a socket as
    utls_init leaves it.  The transport calls it made are: server on
    the TLS sub-socket with the TLS address, then (port 0 only) the
    query of that socket's local address, then server on the UX
    sub-socket.  The UX address is xcm_addr_ux_make of the text that
    follows the first four characters ("tls:") of the TLS address: the
    address the TLS socket reported when the port was 0, the bound
    address otherwise.  Where assertions are active that text was
    checked to parse as a TLS address with a port above 0, and with
    xcm_addr_ux_make prefixing "ux:" the UX address is "ux:" and that
    same host:port text. *)
Theorem utls_server_binds_tls_first (w : World) (s lu lt : loc)
        (local_addr : string) (host : xcm_addr_host) (port prc perrno mrc : Z)
        (tls_addr : string) (w' : World) :
  utls_ready w s lu lt ->
  xcm_addr_parse_utls local_addr = (prc, perrno, (host, port)) ->
  xcm_addr_make_tls host port (XCM_ADDR_MAX + 1) = (mrc, tls_addr) ->
  (forall name cap a, xcm_addr_ux_make name cap = (0, a) -> a = ("ux:" ++ name)%string) ->
  utls_server ctl_fuel (Some s) local_addr w = Ok 0 w' ->
  let rc_t := rep_rc (env_reply (trace w) (TpServer lt tls_addr)) in
  let w1 := if rc_t =? 0
            then after_call (TpUpdate lt) (after_call (TpServer lt tls_addr) w)
            else after_call (TpServer lt tls_addr) w in
  exists actual tail ux_addr last,
    tp_events w' =
      tp_events w ++ [TpServer lt tls_addr] ++
      (if rc_t =? 0 then [TpUpdate lt] else []) ++
      (if port =? 0 then [TpGetLocalAddr lt false] else []) ++
      TpServer lu ux_addr :: last /\
    (last = [] \/ last = [TpUpdate lu]) /\
    (if port =? 0
     then rep_str (env_reply (trace w1) (TpGetLocalAddr lt false)) = Some actual
     else actual = tls_addr) /\
    str_skip 4 actual = Some tail /\
    ux_addr = snd (xcm_addr_ux_make tail (XCM_ADDR_MAX + 1)) /\
    (NDEBUG = false ->
     ux_addr = ("ux:" ++ tail)%string /\
     (port = 0 -> fst (xcm_addr_parse_tls actual) = 0 /\
                  0 < snd (snd (xcm_addr_parse_tls actual)))) /\
    utls_priv w' s = utls_priv w s /\
    heap w' !! lu = heap w !! lu /\ heap w' !! lt = heap w !! lt.
Proof.
  intros ((so & Hs & Hux & Htls) & Hn1 & Hn2 & Hn3 & Heu & Het)
         Hparse Hmake Huxspec Hrun.
  pose proof Heu as (su & pu & nu & Hlu & _).
  pose proof Het as (st & pt & nt & Hlt & _).
  unfold utls_server in Hrun. cbv zeta in Hrun.
  fwd_in Hrun. rewrite Hparse in Hrun.
  destruct (prc <? 0) eqn:Ep; [dead_branch Hrun|].
  rewrite Hmake in Hrun.
  apply bind_Ok_inv in Hrun as (u0 & w0 & Has0 & Hrun).
  apply ut_assert_Ok_inv in Has0 as [-> _].
  unfold bind_sub_server in Hrun.
  fwd_in Hrun. simpl us_get in Hrun. rewrite Htls in Hrun. fwd_in Hrun.
  intros rc_t w1. fold rc_t in Hrun. fold w1 in Hrun.
  assert (Hw1 : calls_made ([TpServer lt tls_addr] ++
                            (if rc_t =? 0 then [TpUpdate lt] else [])) w w1).
  { subst w1. destruct (rc_t =? 0); repeat split; events_eq. }
  destruct Hw1 as (Hh1 & Hp1 & _ & _ & _ & _ & Hev1).
  assert (Hs1 : heap w1 !! s = Some so) by (rewrite Hh1; exact Hs).
  assert (Heu1 : ext_socket w1 lu)
    by (eapply ext_socket_at; [exact Heu | rewrite Hh1; reflexivity | exact Hp1]).
  assert (Het1 : ext_socket w1 lt)
    by (eapply ext_socket_at; [exact Het | rewrite Hh1; reflexivity | exact Hp1]).
  clearbody w1.
  destruct (rc_t <? 0) eqn:Et; [dead_branch Hrun|].
  rewrite (bind_Ok _ _ w1 0 w1 eq_refl) in Hrun. change (0 <? 0) with false in Hrun.
  cbv beta iota in Hrun.
  (* the address the UX listener is derived from *)
  apply bind_Ok_inv in Hrun as (actual & w2 & Hact & Hrun).
  assert (Hw2 : calls_made (if port =? 0 then [TpGetLocalAddr lt false] else []) w1 w2 /\
                (if port =? 0
                 then rep_str (env_reply (trace w1) (TpGetLocalAddr lt false)) = Some actual
                 else actual = tls_addr) /\
                (NDEBUG = false -> port = 0 ->
                 fst (xcm_addr_parse_tls actual) = 0 /\
                 0 < snd (snd (xcm_addr_parse_tls actual)))).
  { destruct (port =? 0) eqn:Eport.
    - fwd_in Hact. rewrite Htls in Hact. fwd_in Hact.
      apply bind_Ok_inv in Hact as (u & w3 & Has & Hact).
      apply ut_assert_Ok_inv in Has as [-> _].
      destruct (rep_str (env_reply (trace w1) (TpGetLocalAddr lt false)))
        as [a|] eqn:Ea; [|discriminate Hact].
      destruct (xcm_addr_parse_tls a) as [rc [h p']] eqn:Eparse.
      apply bind_Ok_inv in Hact as (u' & w4 & Has & Hact).
      apply ut_assert_Ok_inv in Has as [-> Hchk].
      apply ret_Ok_inv in Hact as [-> ->].
      split; [repeat split; events_eq|]. split; [reflexivity|].
      intros Hdbg _. rewrite Eparse. simpl.
      apply Hchk in Hdbg. apply andb_true_iff in Hdbg as [Hrc Hp].
      apply Z.eqb_eq in Hrc. apply Z.ltb_lt in Hp. auto.
    - apply ret_Ok_inv in Hact as [-> ->].
      split; [repeat split; unfold tp_events; rewrite app_nil_r; reflexivity|].
      split; [reflexivity|]. intros _ Hp0. apply Z.eqb_neq in Eport. contradiction. }
  destruct Hw2 as ((Hh2 & Hp2 & _ & _ & _ & _ & Hev2) & Hactual & Hparsed).
  assert (Hs2 : heap w2 !! s = Some so) by (rewrite Hh2; exact Hs1).
  assert (Heu2 : ext_socket w2 lu)
    by (eapply ext_socket_at; [exact Heu1 | rewrite Hh2; reflexivity | exact Hp2]).
  clear Hact.
  (* map_tls_to_ux *)
  apply bind_Ok_inv in Hrun as (ux_addr & w3 & Hmap & Hrun).
  unfold map_tls_to_ux in Hmap.
  change (Z.to_nat (strlen XCM_TLS_PROTO + PROTO_SEP_LEN)) with 4%nat in Hmap.
  destruct (str_skip 4 actual) as [tail|] eqn:Eskip; [|discriminate Hmap].
  destruct (xcm_addr_ux_make tail (XCM_ADDR_MAX + 1)) as [rcu ua] eqn:Eux.
  apply bind_Ok_inv in Hmap as (u & w4 & Has & Hmap).
  apply ut_assert_Ok_inv in Has as [-> Hrcu].
  apply ret_Ok_inv in Hmap as [-> ->].
  (* the UX listener *)
  fwd_in Hrun. simpl us_get in Hrun. rewrite Hux in Hrun. fwd_in Hrun.
  destruct (rep_rc (env_reply (trace w2) (TpServer lu ua)) <? 0) eqn:Eu;
    [dead_branch Hrun|].
  set (rc_u := rep_rc (env_reply (trace w2) (TpServer lu ua))) in *.
  rewrite (bind_Ok _ _ _ 0 _ eq_refl) in Hrun. change (0 <? 0) with false in Hrun.
  cbv beta iota in Hrun. apply ret_Ok_inv in Hrun as [_ ->].
  exists actual, tail, ua, (if rc_u =? 0 then [TpUpdate lu] else []).
  split.
  { destruct (rc_u =? 0); unfold tp_events in *; autorewrite with world;
      rewrite ?List.filter_app; simpl; rewrite Hev2, Hev1;
      rewrite <- ?app_assoc; simpl; rewrite ?app_nil_r; reflexivity. }
  split; [destruct (rc_u =? 0); auto|].
  split; [exact Hactual|]. split; [exact Eskip|].
  split; [rewrite Eux; reflexivity|].
  split.
  { intros Hdbg. split; [|intros Hp0; apply Hparsed; assumption].
    apply Hrcu in Hdbg. apply Z.eqb_eq in Hdbg. subst rcu.
    eapply Huxspec. exact Eux. }
  unfold utls_priv.
  destruct (rc_u =? 0); autorewrite with world; rewrite Hh2, Hh1; auto.
Qed.
End UtlsServer.

Section UtlsAccept.
Context `{build_config} `{environment}.
Variable ctl_fuel : nat.

Lemma ext_socket_any_frame w w' l :
  ext_socket_any w l -> heap w' = heap w -> protos w' = protos w ->
  ext_socket_any w' l.
Proof.
  intros (so & p & n & Hl & Hp & Ho) Hh Hps. exists so, p, n.
  rewrite Hh, Hps. auto.
Qed.

(** accept on sub-sockets: the server's channel may be served first;
    then the transport's accept, update of the connection if it
    returned 0, update of the server. *)
Lemma xcm_tp_socket_accept_ext w c v rc w' :
  ext_socket_any w c -> ext_socket_any w v ->
  xcm_tp_socket_accept sub_ops ctl_fuel (Some c) (Some v) w = Ok rc w' ->
  exists w0,
    ctl_frame w w0 /\
    rc = rep_rc (env_reply (trace w0) (TpAccept c v)) /\
    w' = after_call (TpUpdate v)
           (if rc =? 0 then after_call (TpUpdate c) (after_call (TpAccept c v) w0)
            else after_call (TpAccept c v) w0).
Proof.
  intros Hc Hv Hrun. unfold xcm_tp_socket_accept in Hrun.
  apply bind_Ok_inv in Hrun as ([] & w0 & Hctl & Hrun).
  apply (do_ctl_spec sub_ops sub_ops_hooks_read_only) in Hctl as [_ Hf].
  pose proof Hf as (Hh & Hp & _).
  assert (Hc0 : ext_socket_any w0 c) by (eapply ext_socket_any_frame; eassumption).
  assert (Hv0 : ext_socket_any w0 v) by (eapply ext_socket_any_frame; eassumption).
  rewrite (bind_Ok _ _ _ _ _ (XCM_TP_GETOPS_ext _ _ Hc0)) in Hrun.
  rewrite (bind_Ok _ _ _ _ _ (ext_op_accept _ _ _ Hc0 Hv0)) in Hrun.
  exists w0. split; [exact Hf|].
  destruct (rep_rc (env_reply (trace w0) (TpAccept c v)) =? 0) eqn:E.
  - erewrite bind_Ok in Hrun
      by (apply xcm_tp_socket_update_ext; apply ext_socket_any_after_call; exact Hc0).
    erewrite bind_Ok in Hrun
      by (apply xcm_tp_socket_update_ext; repeat apply ext_socket_any_after_call; exact Hv0).
    apply ret_Ok_inv in Hrun as [-> ->]. rewrite E. auto.
  - rewrite (bind_Ok _ _ _ tt _ eq_refl) in Hrun.
    erewrite bind_Ok in Hrun
      by (apply xcm_tp_socket_update_ext; repeat apply ext_socket_any_after_call; exact Hv0).
    apply ret_Ok_inv in Hrun as [-> ->]. rewrite E. auto.
Qed.
Lemma active_sub_conn_connected w s a :
  utls_connected w s a -> active_sub_conn (Some s) w = Ok (Some a) w.
Proof.
  intros ((so & Hs & Hcase) & _). unfold active_sub_conn.
  rewrite (bind_Ok _ _ _ _ _ (TOUTLS_Some _ _ _ Hs)).
  destruct Hcase as [[-> _] | [-> ->]]; reflexivity.
Qed.

(** On a connection socket with one sub-socket left, the UTLS
    operations are the generic operations on that sub-socket. *)
Lemma utls_dispatch w s a :
  utls_connected w s a ->
  (forall buf, utls_send ctl_fuel (Some s) buf w
               = xcm_tp_socket_send sub_ops ctl_fuel (Some a) buf w) /\
  (forall capacity, utls_receive ctl_fuel (Some s) capacity w
                    = xcm_tp_socket_receive sub_ops ctl_fuel (Some a) capacity w) /\
  utls_max_msg (Some s) w = xcm_tp_socket_max_msg sub_ops (Some a) w /\
  utls_get_cnt (Some s) w = xcm_tp_socket_get_cnt sub_ops (Some a) w /\
  utls_get_cnt (Some s) w = Ok (Some a) w.
Proof.
  intros Hc. pose proof (active_sub_conn_connected _ _ _ Hc) as Ha.
  unfold utls_send, utls_receive, utls_max_msg, utls_get_cnt.
  repeat split; intros; rewrite ?(bind_Ok _ _ _ _ _ Ha); try reflexivity.
  destruct Hc as (_ & _ & He). pose proof He as (so & p & n & Hl & _).
  unfold xcm_tp_socket_get_cnt.
  rewrite (bind_Ok _ _ _ _ _ (XCM_TP_GETOPS_ext _ _ (ext_socket_is_any _ _ He))).
  unfold ext_ops; cbn [op_get_cnt].
  rewrite (bind_Ok _ _ _ _ _ (load_Some _ _ _ Hl)). reflexivity.
Qed.

Lemma utls_accept_cases (w : World) (conn srv cu ct su st : loc)
      (rc : Z) (w' : World) :
  utls_ready w conn cu ct ->
  utls_listening w srv su st ->
  utls_accept ctl_fuel (Some conn) (Some srv) w = Ok rc w' ->
    (rc = 0 /\
     tp_events w' = tp_events w ++ [TpAccept cu su; TpUpdate cu; TpUpdate su; TpClose ct] /\
     utls_connected w' conn cu /\ heap w' !! ct = None /\
     heap w' !! cu = heap w !! cu /\ protos w' = protos w /\
    socket_kept w w' conn) \/
    (exists rc_tls,
       tp_events w' = tp_events w ++
         [TpAccept cu su; TpUpdate su; TpAccept ct st] ++
         (if rc_tls =? 0 then [TpUpdate ct] else []) ++ [TpUpdate st] /\
       ((rc_tls = 0 /\ rc = 0 /\
         utls_connected w' conn ct /\ heap w' !! cu = None /\
         heap w' !! ct = heap w !! ct /\ protos w' = protos w /\
        socket_kept w w' conn) \/
        (rc_tls <> 0 /\ rc = -1))).
Proof.
  intros ((so & Hs & Hux & Htls) & Hn1 & Hn2 & Hn3 & Heu & Het)
         ((sso & Hsrv & Hsux & Hstls) & Hesu & Hest) Hrun.
  pose proof Heu as (sou & pu & nu & Hlu & _).
  pose proof Het as (sot & pt & nt & Hlt & _).
  unfold utls_accept in Hrun.
  fwd_in Hrun. fwd_in Hrun. rewrite Hux, Hsux in Hrun.
  apply bind_Ok_inv in Hrun as (rc1 & w1 & Hacc & Hrun).
  apply xcm_tp_socket_accept_ext in Hacc as (w0 & Hf0 & Hrc1 & Hw1);
    [|apply ext_socket_is_any; exact Heu | exact Hesu].
  destruct Hf0 as (Hh0 & Hp0 & _ & _ & _ & _ & Hev0). unfold tp_events in Hev0.
  clear Hrc1.
  destruct (rc1 =? 0) eqn:E1.
  - left. subst w1.
    fwd_in Hrun. rewrite Htls in Hrun. fwd_in Hrun. fwd_in Hrun.
    apply ret_Ok_inv in Hrun as [-> ->].
    split; [reflexivity|].
    split.
    { unfold tp_events. autorewrite with world. rewrite !List.filter_app. simpl.
      rewrite Hev0, <- !app_assoc. reflexivity. }
    split.
    { split; [|split; [exact Hn1 | ext_at]].
      eexists. split; [heap_lookup|]. simpl. rewrite Hux. auto. }
    split; [heap_lookup|]. split; [heap_lookup|].
    split; [autorewrite with world; exact Hp0|].
    exists so. eexists. split; [exact Hs|]. split; [heap_lookup|]. split; reflexivity.
  - right. subst w1.
    fwd_in Hrun. fwd_in Hrun. rewrite Htls, Hstls in Hrun.
    apply bind_Ok_inv in Hrun as (rc2 & w2 & Hacc & Hrun).
    apply xcm_tp_socket_accept_ext in Hacc as (w3 & Hf3 & Hrc2 & Hw2).
    2: { apply ext_socket_is_any. ext_at. }
    2: { eapply ext_socket_any_frame; [exact Hest | |];
         autorewrite with world; assumption. }
    destruct Hf3 as (Hh3 & Hp3 & _ & _ & _ & _ & Hev3). unfold tp_events in Hev3.
    autorewrite with world in Hh3, Hp3, Hev3.
    rewrite !List.filter_app in Hev3. simpl in Hev3.
    clear Hrc2. exists rc2.
    destruct (rc2 =? 0) eqn:E2.
    + subst w2. fwd_in Hrun. apply ret_Ok_inv in Hrun as [-> ->].
      split.
      { unfold tp_events. autorewrite with world. rewrite !List.filter_app. simpl.
        rewrite Hev3, Hev0, <- !app_assoc. reflexivity. }
      left. apply Z.eqb_eq in E2. split; [exact E2|]. split; [reflexivity|].
      split.
      { split; [|split; [exact Hn2 | ext_at]].
        eexists. split; [heap_lookup|]. simpl. rewrite Htls. auto. }
      split; [heap_lookup|]. split; [heap_lookup|].
      split; [autorewrite with world; congruence|].
      exists so. eexists. split; [exact Hs|]. split; [heap_lookup|]. split; reflexivity.
    + subst w2.
      split.
      { assert (Hrc : rc = -1 /\ tp_events w' =
                  tp_events (after_call (TpUpdate st) (after_call (TpAccept ct st) w3))).
        { fwd_in Hrun. apply ret_Ok_inv in Hrun as [-> ->]. split; reflexivity. }
        destruct Hrc as [_ ->].
        unfold tp_events. autorewrite with world. rewrite !List.filter_app. simpl.
        rewrite Hev3, Hev0, <- !app_assoc. reflexivity. }
      right. apply Z.eqb_neq in E2. split; [exact E2|].
      fwd_in Hrun. apply ret_Ok_inv in Hrun as [-> _]. reflexivity.
Qed.

(** accept on sub-sockets whose server has no control channel of its
    own. *)
Lemma xcm_tp_socket_accept_ext_run w c v :
  ext_socket_any w c -> ext_socket w v ->
  xcm_tp_socket_accept sub_ops ctl_fuel (Some c) (Some v) w =
  Ok (rep_rc (env_reply (trace w) (TpAccept c v)))
     (after_call (TpUpdate v)
        (if rep_rc (env_reply (trace w) (TpAccept c v)) =? 0
         then after_call (TpUpdate c) (after_call (TpAccept c v) w)
         else after_call (TpAccept c v) w)).
Proof.
  intros Hc Hv. pose proof (ext_socket_is_any _ _ Hv) as Hva.
  unfold xcm_tp_socket_accept.
  erewrite bind_Ok by (apply do_ctl_ext; exact Hv).
  rewrite (bind_Ok _ _ _ _ _ (XCM_TP_GETOPS_ext _ _ Hc)).
  rewrite (bind_Ok _ _ _ _ _ (ext_op_accept _ _ _ Hc Hva)).
  destruct (_ =? 0).
  - erewrite bind_Ok
      by (apply xcm_tp_socket_update_ext; apply ext_socket_any_after_call; exact Hc).
    erewrite bind_Ok
      by (apply xcm_tp_socket_update_ext; repeat apply ext_socket_any_after_call; exact Hva).
    reflexivity.
  - rewrite (bind_Ok _ _ _ tt _ eq_refl).
    erewrite bind_Ok
      by (apply xcm_tp_socket_update_ext; repeat apply ext_socket_any_after_call; exact Hva).
    reflexivity.
Qed.

(** utls_accept returns when the two listeners have no control channel
    of their own. *)
Lemma utls_accept_returns (w : World) (conn srv cu ct su st : loc) :
  utls_ready w conn cu ct ->
  utls_listening w srv su st ->
  ext_socket w su -> ext_socket w st ->
  exists rc w', utls_accept ctl_fuel (Some conn) (Some srv) w = Ok rc w'.
Proof.
  intros ((so & Hs & Hux & Htls) & Hn1 & Hn2 & Hn3 & Heu & Het)
         ((sso & Hsrv & Hsux & Hstls) & _ & _) Hesu Hest.
  pose proof Heu as (sou & pu & nu & Hlu & _).
  pose proof Het as (sot & pt & nt & Hlt & _).
  unfold utls_accept.
  fwd. fwd. rewrite Hux, Hsux.
  erewrite bind_Ok
    by (apply xcm_tp_socket_accept_ext_run; [apply ext_socket_is_any; exact Heu | exact Hesu]).
  cbv beta.
  destruct (rep_rc _ =? 0) eqn:E1.
  - fwd. rewrite Htls. fwd. fwd. eexists. eexists. reflexivity.
  - fwd. fwd. rewrite Htls, Hstls.
    erewrite bind_Ok
      by (apply xcm_tp_socket_accept_ext_run; [apply ext_socket_is_any; ext_at | ext_at]).
    cbv beta.
    match goal with
    | |- context [if ?b then bind (remove_sub_socket _ _) _ else _] =>
        destruct b eqn:E2
    end.
    + fwd. eexists. eexists. reflexivity.
    + fwd. eexists. eexists. reflexivity.
Qed.

(** C3.  A UTLS accept on a connection socket as utls_init leaves it
    and a server socket with its two listeners.  It returns (shown for
    listeners without a control channel of their own).  Whenever it
    returns, the first transport call is accept on the UX listener.
    If that returns 0 no TLS accept is made, the TLS sub-socket of the
    connection is closed and freed, and the UX one is the only one
    left.  Otherwise accept on the TLS listener follows, and if it
    returns 0 the UX sub-socket is freed and the TLS one is the only
    one left.  With one sub-socket left, send, receive, max_msg and
    get_cnt are those of that sub-socket. *)
Theorem utls_accept_prefers_ux (w : World) (conn srv cu ct su st : loc) :
  utls_ready w conn cu ct ->
  utls_listening w srv su st ->
  (ext_socket w su -> ext_socket w st ->
   exists rc w', utls_accept ctl_fuel (Some conn) (Some srv) w = Ok rc w') /\
  (forall rc w',
     utls_accept ctl_fuel (Some conn) (Some srv) w = Ok rc w' ->
     (exists rest, tp_events w' = tp_events w ++ TpAccept cu su :: rest) /\
     ((rc = 0 /\
       tp_events w' = tp_events w ++
         [TpAccept cu su; TpUpdate cu; TpUpdate su; TpClose ct] /\
       utls_connected w' conn cu /\ heap w' !! ct = None /\
       heap w' !! cu = heap w !! cu /\ protos w' = protos w /\
       socket_kept w w' conn) \/
      (exists rc_tls,
         tp_events w' = tp_events w ++
           [TpAccept cu su; TpUpdate su; TpAccept ct st] ++
           (if rc_tls =? 0 then [TpUpdate ct] else []) ++ [TpUpdate st] /\
         ((rc_tls = 0 /\ rc = 0 /\
           utls_connected w' conn ct /\ heap w' !! cu = None /\
           heap w' !! ct = heap w !! ct /\ protos w' = protos w /\
           socket_kept w w' conn) \/
          (rc_tls <> 0 /\ rc = -1))))) /\
  (forall w'' a, utls_connected w'' conn a ->
     (forall buf, utls_send ctl_fuel (Some conn) buf w''
                  = xcm_tp_socket_send sub_ops ctl_fuel (Some a) buf w'') /\
     (forall capacity, utls_receive ctl_fuel (Some conn) capacity w''
                       = xcm_tp_socket_receive sub_ops ctl_fuel (Some a) capacity w'') /\
     utls_max_msg (Some conn) w'' = xcm_tp_socket_max_msg sub_ops (Some a) w'' /\
     utls_get_cnt (Some conn) w'' = xcm_tp_socket_get_cnt sub_ops (Some a) w'' /\
     utls_get_cnt (Some conn) w'' = Ok (Some a) w'').
Proof.
  intros Hready Hlisten.
  split; [intros Hesu Hest; eapply utls_accept_returns; eassumption|].
  split; [|intros w'' a; apply utls_dispatch].
  intros rc w' Hrun.
  pose proof (utls_accept_cases _ _ _ _ _ _ _ _ _ Hready Hlisten Hrun) as Hmain.
  split; [|exact Hmain].
  destruct Hmain as [(_ & Hev & _) | (rc_tls & Hev & _)]; rewrite Hev; eexists;
    simpl; reflexivity.
Qed.
End UtlsAccept.

Section UtlsTransport.
Context `{build_config} `{environment}.
Variable ctl_fuel : nat.

Lemma map_tls_to_ux_Ok_inv tls_addr capacity ux_addr w w' :
  map_tls_to_ux tls_addr capacity w = Ok ux_addr w' -> w' = w.
Proof.
  unfold map_tls_to_ux. intros Hrun.
  destruct (str_skip _ tls_addr); [|discriminate].
  destruct (xcm_addr_ux_make _ _). inv_all. reflexivity.
Qed.

(** A connect that returned 0 left exactly one sub-socket, untouched. *)
Lemma utls_connect_success_inv w s lu lt addr w' :
  utls_ready w s lu lt ->
  utls_connect ctl_fuel (Some s) addr w = Ok 0 w' ->
  exists a, (a = lu \/ a = lt) /\
            utls_connected w' s a /\ heap w' !! a = heap w !! a /\
            protos w' = protos w /\ socket_kept w w' s.
Proof.
  intros ((so & Hs & Hux & Htls) & Hn1 & Hn2 & Hn3 & Heu & Het) Hrun.
  pose proof Heu as (sou & pu & nu & Hlu & _).
  pose proof Het as (sot & pt & nt & Hlt & _).
  unfold utls_connect in Hrun. cbv zeta in Hrun.
  fwd_in Hrun.
  destruct (xcm_addr_parse_utls addr) as [[prc pe] [host port]].
  destruct (prc <? 0); [dead_branch Hrun|].
  destruct (xcm_addr_make_tls host port XCM_ADDR_MAX) as [mrc tls_addr].
  apply bind_Ok_inv in Hrun as (u0 & w0 & Has & Hrun).
  apply ut_assert_Ok_inv in Has as [-> _].
  apply bind_Ok_inv in Hrun as (ux_addr & w0 & Hmap & Hrun).
  apply map_tls_to_ux_Ok_inv in Hmap as ->.
  fwd_in Hrun. rewrite Hux in Hrun. fwd_in Hrun.
  destruct (rep_rc (env_reply (trace w) (TpConnect lu ux_addr)) =? 0).
  - fwd_in Hrun. rewrite Htls in Hrun. fwd_in Hrun. fwd_in Hrun.
    apply ret_Ok_inv in Hrun as [_ ->].
    exists lu. split; [auto|].
    split.
    { split; [|split; [exact Hn1 | ext_at]].
      eexists. split; [heap_lookup|]. simpl. rewrite Hux. auto. }
    split; [heap_lookup|]. split; [reflexivity|].
    exists so. eexists. split; [exact Hs|]. split; [heap_lookup|]. split; reflexivity.
  - fwd_in Hrun. autorewrite with world in Hrun.
    destruct (negb _); [dead_branch Hrun|].
    fwd_in Hrun. rewrite Htls in Hrun. fwd_in Hrun.
    autorewrite with world in Hrun.
    destruct (_ <? 0); [dead_branch Hrun|].
    destruct (_ =? 0).
    + fwd_in Hrun. apply ret_Ok_inv in Hrun as [_ ->].
      exists lt. split; [auto|].
      split.
      { split; [|split; [exact Hn2 | ext_at]].
        eexists. split; [heap_lookup|]. simpl. rewrite Htls. auto. }
      split; [heap_lookup|]. split; [reflexivity|].
      exists so. eexists. split; [exact Hs|]. split; [heap_lookup|]. split; reflexivity.
    + fwd_in Hrun. apply ret_Ok_inv in Hrun as [_ ->].
      exists lt. split; [auto|].
      split.
      { split; [|split; [exact Hn2 | ext_at]].
        eexists. split; [heap_lookup|]. simpl. rewrite Htls. auto. }
      split; [heap_lookup|]. split; [reflexivity|].
      exists so. eexists. split; [exact Hs|]. split; [heap_lookup|]. split; reflexivity.
Qed.

Lemma socket_named_frame w w' l name :
  socket_named w l name -> heap w' !! l = heap w !! l -> protos w' = protos w ->
  socket_named w' l name.
Proof.
  intros (so & p & Hl & Hp & Hn) Hh Hps. exists so, p. rewrite Hh, Hps. auto.
Qed.

Lemma utls_socket_of_type_kept w w' s type :
  utls_socket_of_type w s type -> socket_kept w w' s -> protos w' = protos w ->
  utls_socket_of_type w' s type.
Proof.
  intros (so & p & Hs & Ht & Hp & Ho) (so0 & so' & Hs0 & Hs' & Hpr & Hty) Hps.
  rewrite Hs in Hs0. injection Hs0 as <-.
  exists so', p. rewrite Hps, Hpr, Hty. auto.
Qed.

Lemma XCM_TP_GETOPS_utls w s type :
  utls_socket_of_type w s type ->
  XCM_TP_GETOPS (tp_ops ctl_fuel) (Some s) w = Ok (utls_ops ctl_fuel) w.
Proof.
  intros (so & p & Hs & _ & Hp & Ho). unfold XCM_TP_GETOPS.
  rewrite (bind_Ok _ _ _ _ _ (load_Some _ _ _ Hs)).
  unfold bind, gets. rewrite Hp, Ho. reflexivity.
Qed.

Lemma socket_proto_name_named w l name :
  socket_named w l name -> socket_proto_name (Some l) w = Ok name w.
Proof.
  intros (so & p & Hl & Hp & Hn). unfold socket_proto_name.
  rewrite (bind_Ok _ _ _ _ _ (load_Some _ _ _ Hl)).
  unfold bind, gets. rewrite Hp, Hn. reflexivity.
Qed.

(** The transport name of a connected UTLS socket is the registry name
    of its one sub-socket. *)
Lemma get_transport_connected w s a name :
  utls_socket_of_type w s xcm_socket_type_conn ->
  utls_connected w s a -> socket_named w a name ->
  xcm_tp_socket_get_transport (tp_ops ctl_fuel) (Some s) w = Ok name w.
Proof.
  intros Hty Hc Hn. unfold xcm_tp_socket_get_transport.
  rewrite (bind_Ok _ _ _ _ _ (XCM_TP_GETOPS_utls _ _ _ Hty)).
  unfold utls_ops; cbn [op_get_transport]. unfold utls_get_transport.
  destruct Hty as (so & p & Hs & Ht & _).
  rewrite (bind_Ok _ _ _ _ _ (load_Some _ _ _ Hs)). rewrite Ht.
  rewrite (bind_Ok _ _ _ _ _ (active_sub_conn_connected _ _ _ Hc)).
  destruct Hc as (_ & _ & He).
  unfold xcm_tp_socket_get_transport.
  rewrite (bind_Ok _ _ _ _ _ (XCM_TP_GETOPS_ext _ _ (ext_socket_is_any _ _ He))).
  unfold ext_ops; cbn [op_get_transport].
  apply socket_proto_name_named. exact Hn.
Qed.

Lemma get_transport_server w s :
  utls_socket_of_type w s xcm_socket_type_server ->
  xcm_tp_socket_get_transport (tp_ops ctl_fuel) (Some s) w = Ok XCM_UTLS_PROTO w.
Proof.
  intros Hty. unfold xcm_tp_socket_get_transport.
  rewrite (bind_Ok _ _ _ _ _ (XCM_TP_GETOPS_utls _ _ _ Hty)).
  unfold utls_ops; cbn [op_get_transport]. unfold utls_get_transport.
  destruct Hty as (so & p & Hs & Ht & _).
  rewrite (bind_Ok _ _ _ _ _ (load_Some _ _ _ Hs)). rewrite Ht. reflexivity.
Qed.
End UtlsTransport.

Section UtlsTransportOfReady.
Context `{build_config} `{environment}.
Variable ctl_fuel : nat.

(** The transport name of a UTLS socket.  Let a connection socket be as
    utls_init leaves it, its sub-sockets made from the registry entries
    named "ux" and "tls".  After a connect or an accept that returned 0,
    the transport name of the socket, and so the value of its
    xcm.transport attribute, is "ux" or "tls", the name of the one
    sub-socket left, and not "utls".  For a UTLS server socket it is
    "utls". *)
Lemma utls_transport_of_ready (w : World) (s lu lt : loc) :
  utls_ready w s lu lt ->
  socket_named w lu XCM_UX_PROTO -> socket_named w lt XCM_TLS_PROTO ->
  utls_socket_of_type w s xcm_socket_type_conn ->
  (forall addr w',
     utls_connect ctl_fuel (Some s) addr w = Ok 0 w' ->
     exists t, (t = "ux" \/ t = "tls") /\ t <> "utls" /\
       xcm_tp_socket_get_transport (tp_ops ctl_fuel) (Some s) w' = Ok t w' /\
       forall value capacity,
         get_transport_attr (tp_ops ctl_fuel) (Some s) value capacity w'
         = get_str_attr t value capacity w') /\
  (forall srv su st w',
     utls_listening w srv su st ->
     utls_accept ctl_fuel (Some s) (Some srv) w = Ok 0 w' ->
     exists t, (t = "ux" \/ t = "tls") /\ t <> "utls" /\
       xcm_tp_socket_get_transport (tp_ops ctl_fuel) (Some s) w' = Ok t w' /\
       forall value capacity,
         get_transport_attr (tp_ops ctl_fuel) (Some s) value capacity w'
         = get_str_attr t value capacity w') /\
  (forall w0 s0,
     utls_socket_of_type w0 s0 xcm_socket_type_server ->
     xcm_tp_socket_get_transport (tp_ops ctl_fuel) (Some s0) w0 = Ok "utls" w0 /\
     forall value capacity,
       get_transport_attr (tp_ops ctl_fuel) (Some s0) value capacity w0
       = get_str_attr "utls" value capacity w0).
Proof.
  intros Hready Hnu Hnt Hty.
  assert (Hread : forall w' a t,
            utls_connected w' s a -> socket_named w' a t ->
            utls_socket_of_type w' s xcm_socket_type_conn ->
            (t = "ux" \/ t = "tls") ->
            exists t, (t = "ux" \/ t = "tls") /\ t <> "utls" /\
              xcm_tp_socket_get_transport (tp_ops ctl_fuel) (Some s) w' = Ok t w' /\
              forall value capacity,
                get_transport_attr (tp_ops ctl_fuel) (Some s) value capacity w'
                = get_str_attr t value capacity w').
  { intros w' a t Hc Hn Hty' Ht. exists t. split; [exact Ht|].
    split; [destruct Ht as [-> | ->]; discriminate|].
    pose proof (get_transport_connected ctl_fuel _ _ _ _ Hty' Hc Hn) as Hget.
    split; [exact Hget|]. intros value capacity. unfold get_transport_attr.
    rewrite (bind_Ok _ _ _ _ _ Hget). reflexivity. }
  split; [|split].
  - intros addr w' Hrun.
    destruct (utls_connect_success_inv ctl_fuel _ _ _ _ _ _ Hready Hrun)
      as (a & Ha & Hc & Hh & Hp & Hk).
    pose proof (utls_socket_of_type_kept _ _ _ _ Hty Hk Hp) as Hty'.
    destruct Ha as [-> | ->].
    + apply (Hread w' lu "ux"); auto. eapply socket_named_frame; eassumption.
    + apply (Hread w' lt "tls"); auto. eapply socket_named_frame; eassumption.
  - intros srv su st w' Hl Hrun.
    pose proof (utls_accept_cases ctl_fuel _ _ _ _ _ _ _ _ _ Hready Hl Hrun)
      as Hcase.
    destruct Hcase as [(_ & _ & Hc & _ & Hh & Hp & Hk)
                      | (rc_tls & _ & [(_ & _ & Hc & _ & Hh & Hp & Hk) | (_ & Hrc)])].
    + pose proof (utls_socket_of_type_kept _ _ _ _ Hty Hk Hp) as Hty'.
      apply (Hread w' lu "ux"); auto. eapply socket_named_frame; eassumption.
    + pose proof (utls_socket_of_type_kept _ _ _ _ Hty Hk Hp) as Hty'.
      apply (Hread w' lt "tls"); auto. eapply socket_named_frame; eassumption.
    + discriminate Hrc.
  - intros w0 s0 Hty0.
    pose proof (get_transport_server ctl_fuel _ _ Hty0) as Hget.
    split; [exact Hget|]. intros value capacity. unfold get_transport_attr.
    rewrite (bind_Ok _ _ _ _ _ Hget). reflexivity.
Qed.
End UtlsTransportOfReady.

(** * The period of channel processing *)

Section CtlPeriod.
Context `{build_config} `{environment}.
Variable getops : ops_ref -> xcm_tp_ops.

Lemma load_ctl_Some c x w : ctls w !! c = Some x -> load_ctl (Some c) w = Ok x w.
Proof. unfold load_ctl. intros ->. reflexivity. Qed.

Lemma store_ctl_Some c x y w :
  ctls w !! c = Some x ->
  store_ctl (Some c) y w = Ok tt (set_ctls (<[c := y]> (ctls w)) w).
Proof. unfold store_ctl. intros ->. reflexivity. Qed.

Lemma min_calls_default c x w :
  XCM_SCTP = false -> ctls w !! c = Some x ->
  min_calls getops (Some c) w = Ok (default_period x) w.
Proof.
  intros Hsctp Hx. unfold min_calls.
  rewrite (bind_Ok _ _ _ _ _ (load_ctl_Some _ _ _ Hx)). rewrite Hsctp.
  unfold default_period. cbn. destruct (0 <? ctl_num_clients x); reflexivity.
Qed.

(** Below the period a call counts itself and does nothing else. *)
Lemma ctl_process_below_period fuel c x w :
  XCM_SCTP = false -> ctls w !! c = Some x ->
  to_uint64 (ctl_calls_since_process x + 1) < default_period x ->
  ctl_process getops (S fuel) (Some c) w
  = Ok tt (set_ctls (<[c := ctl_set_calls (to_uint64 (ctl_calls_since_process x + 1)) x]>
                       (ctls w)) w).
Proof.
  intros Hsctp Hx Hlt. rewrite ctl_process_S.
  rewrite (bind_Ok _ _ _ _ _ (load_ctl_Some _ _ _ Hx)).
  rewrite (bind_Ok _ _ _ _ _ (store_ctl_Some _ _ _ _ Hx)).
  set (x' := ctl_set_calls _ x).
  set (w1 := set_ctls _ w).
  assert (Hx' : ctls w1 !! c = Some x').
  { subst w1. autorewrite with world. apply lookup_insert_eq. }
  rewrite (bind_Ok _ _ _ _ _ (load_ctl_Some _ _ _ Hx')).
  rewrite (bind_Ok _ _ _ _ _ (min_calls_default _ _ _ Hsctp Hx')).
  replace (default_period x') with (default_period x) by (destruct x; reflexivity).
  replace (ctl_calls_since_process x')
    with (to_uint64 (ctl_calls_since_process x + 1)) by (destruct x; reflexivity).
  apply Z.ltb_lt in Hlt. rewrite Hlt. reflexivity.
Qed.
End CtlPeriod.

(** C6.  ctl_process does channel work on the call that brings its
    counter to N, N = 64 with no client and 8 with one, and starts the
    count again, but not when that step removes a client.  In the sample
    world (no SCTP) the idle channel accepts its client on call 64, and
    on call 72, 8 calls later, the read from the client fails, the
    client is removed and the listening descriptor is tried.  That call
    leaves the counter at 1, not 0: the call ctl_process makes to
    itself after the removal counts as a call and returns at the test
    of the counter.  The 62 calls that follow do no channel work, and
    the next step, the accept on the listening descriptor 3, comes on
    the 63rd call after the removal, not on the 64th. *)
Theorem ctl_process_period_after_removal :
  let w64 := sample_ctl_calls 64 sample_ctl_world in
  let w71 := sample_ctl_calls 7 w64 in
  let w72 := sample_ctl_calls 8 w64 in
  calls_since_process_of (sample_ctl_calls 63 sample_ctl_world) 1%positive = Some 63 /\
  num_clients_of w64 1%positive = Some 1 /\
  calls_since_process_of w64 1%positive = Some 0 /\
  calls_since_process_of w71 1%positive = Some 7 /\
  trace w71 = trace w64 /\
  num_clients_of w72 1%positive = Some 0 /\
  calls_since_process_of w72 1%positive = Some 1 /\
  trace w72 = trace w64 ++ [SysRecv 4; SysEpollCtl 4 None; SysClose 4; SysAccept 3] /\
  trace (sample_ctl_calls 62 w72) = trace w72 /\
  calls_since_process_of (sample_ctl_calls 62 w72) 1%positive = Some 63 /\
  trace (sample_ctl_calls 63 w72) = trace w72 ++ [SysAccept 3] /\
  calls_since_process_of (sample_ctl_calls 63 w72) 1%positive = Some 0.
Proof. vm_compute. repeat split. Qed.

(** * The recursion bound of the model is never reached *)

Lemma bind_fuel {A B} (m : M A) (k : A -> M B) w :
  m w <> OutOfFuel ->
  (forall a w1, m w = Ok a w1 -> k a w1 <> OutOfFuel) ->
  bind m k w <> OutOfFuel.
Proof.
  unfold bind. intros Hm Hk. destruct (m w) eqn:E; try discriminate.
  - apply Hk. reflexivity.
  - congruence.
Qed.

(** Straight-line code made of the primitives of the monad. *)
Ltac fuel_prim :=
  solve [ discriminate
        | unfold ret, gets, modify, get_errno, set_errno, fault, abort, ext_call,
            ut_assert, load, store, load_ctl, store_ctl, array_get, array_set,
            ut_free_ctl, ut_free_socket;
          repeat match goal with
                 | |- context [match ?x with _ => _ end] => destruct x
                 end;
          discriminate ].

Create HintDb fuel.

Ltac fuel_step :=
  lazymatch goal with
  | |- bind _ _ _ <> OutOfFuel => apply bind_fuel; [|intros ? ? _]
  | |- (if ?b then _ else _) _ <> OutOfFuel => destruct b
  | |- (match ?x with _ => _ end) _ <> OutOfFuel => destruct x
  | |- _ => first [fuel_prim | solve [auto with fuel]]
  end.

Ltac fuel_ok := repeat fuel_step.

Section CtlFuel.
Context `{build_config} `{environment}.

Lemma epoll_reg_set_add_fuel c fd ev w : epoll_reg_set_add c fd ev w <> OutOfFuel.
Proof. unfold epoll_reg_set_add. fuel_ok. Qed.

Lemma epoll_reg_set_mod_fuel c fd ev w : epoll_reg_set_mod c fd ev w <> OutOfFuel.
Proof. unfold epoll_reg_set_mod. fuel_ok. Qed.

Lemma epoll_reg_set_del_fuel c fd w : epoll_reg_set_del c fd w <> OutOfFuel.
Proof. unfold epoll_reg_set_del. fuel_ok. Qed.

Lemma set_client_fuel c i cl w : set_client c i cl w <> OutOfFuel.
Proof. unfold set_client. fuel_ok. Qed.

Lemma get_client_fuel c i w : get_client c i w <> OutOfFuel.
Proof. unfold get_client. fuel_ok. Qed.

Lemma process_get_attr_fuel s req res w : process_get_attr s req res w <> OutOfFuel.
Proof. unfold process_get_attr. fuel_ok. Qed.

Lemma add_attr_fuel n t v len cfm w : add_attr n t v len cfm w <> OutOfFuel.
Proof. unfold add_attr. fuel_ok. Qed.

Lemma add_attrs_fuel l : forall cfm w, add_attrs l cfm w <> OutOfFuel.
Proof.
  induction l as [|a l IH]; intros cfm w; simpl.
  - discriminate.
  - apply bind_fuel; [apply add_attr_fuel | intros ? ? _; apply IH].
Qed.
End CtlFuel.

#[export] Hint Resolve epoll_reg_set_add_fuel epoll_reg_set_mod_fuel
  epoll_reg_set_del_fuel set_client_fuel get_client_fuel process_get_attr_fuel
  add_attr_fuel add_attrs_fuel : fuel.

Section CtlFuelSteps.
Context `{build_config} `{environment}.

Lemma process_get_all_attr_fuel s res w : process_get_all_attr s res w <> OutOfFuel.
Proof. unfold process_get_all_attr. fuel_ok. Qed.

Lemma remove_client_fuel c i w : remove_client c i w <> OutOfFuel.
Proof. unfold remove_client, UT_PROTECT_ERRNO. fuel_ok. Qed.

Lemma accept_client_fuel c w : accept_client c w <> OutOfFuel.
Proof. unfold accept_client. fuel_ok. Qed.
End CtlFuelSteps.

#[export] Hint Resolve process_get_all_attr_fuel remove_client_fuel
  accept_client_fuel : fuel.

Section CtlProcessFuel.
Context `{build_config} `{environment}.
Variable getops : ops_ref -> xcm_tp_ops.
Hypothesis hooks_ro : transport_hooks_read_only getops.
Hypothesis hooks_fuel : transport_hooks_in_fuel getops.

Lemma process_client_fuel i c w : process_client i c w <> OutOfFuel.
Proof. unfold process_client. fuel_ok. Qed.

Lemma xcm_tp_socket_get_transport_fuel s w :
  xcm_tp_socket_get_transport getops s w <> OutOfFuel.
Proof.
  unfold xcm_tp_socket_get_transport.
  apply bind_fuel; [unfold XCM_TP_GETOPS; fuel_ok|].
  intros ops w1 Hops.
  destruct (op_get_transport ops) as [f|] eqn:Ef.
  - unfold XCM_TP_GETOPS in Hops. inv_all. eapply hooks_fuel. eassumption.
  - unfold socket_proto_name. fuel_ok.
Qed.

Lemma min_calls_fuel c w : min_calls getops c w <> OutOfFuel.
Proof.
  unfold min_calls, is_sctp.
  apply bind_fuel; [fuel_prim|]. intros x w1 _.
  apply bind_fuel.
  - destruct XCM_SCTP; [|discriminate].
    apply bind_fuel; [apply xcm_tp_socket_get_transport_fuel | intros ? ? _; discriminate].
  - intros sctp w2 _. destruct sctp; discriminate.
Qed.

(** The call ctl_process makes to itself: the counter was just set to
    0, so it counts to 1 and returns at the test of the counter. *)
Lemma ctl_process_again fuel c x w :
  ctls w !! c = Some x -> ctl_calls_since_process x = 0 ->
  ctl_process getops (S fuel) (Some c) w <> OutOfFuel /\
  forall w', ctl_process getops (S fuel) (Some c) w = Ok tt w' ->
             w' = set_ctls (<[c := ctl_set_calls 1 x]> (ctls w)) w.
Proof.
  intros Hx Hzero. rewrite ctl_process_S.
  rewrite (bind_Ok _ _ _ _ _ (load_ctl_Some _ _ _ Hx)).
  rewrite (bind_Ok _ _ _ _ _ (store_ctl_Some _ _ _ _ Hx)).
  rewrite Hzero. change (to_uint64 (0 + 1)) with 1.
  set (w1 := set_ctls _ w).
  assert (Hx1 : ctls w1 !! c = Some (ctl_set_calls 1 x)).
  { subst w1. autorewrite with world. apply lookup_insert_eq. }
  rewrite (bind_Ok _ _ _ _ _ (load_ctl_Some _ _ _ Hx1)).
  pose proof (min_calls_fuel (Some c) w1) as Hmf.
  destruct (min_calls getops (Some c) w1) as [mc w2| | |] eqn:Emc.
  - rewrite (bind_Ok _ _ _ _ _ Emc).
    apply (min_calls_spec getops hooks_ro) in Emc as (-> & x1 & _ & Hmc & _).
    replace (ctl_calls_since_process (ctl_set_calls 1 x) <? mc) with true
      by (symmetry; apply Z.ltb_lt; destruct x; simpl; lia).
    split; [discriminate|]. intros w' [= <-]. reflexivity.
  - unfold bind. rewrite Emc. split; [discriminate | intros ? [=]].
  - unfold bind. rewrite Emc. split; [discriminate | intros ? [=]].
  - contradiction.
Qed.

Lemma process_clients_fuel fuel c k : forall i w x,
  ctls w !! c = Some x -> ctl_num_clients x <= MAX_CLIENTS -> 0 <= i ->
  MAX_CLIENTS - i <= Z.of_nat k ->
  ctl_calls_since_process x = 0 \/ ctl_num_clients x <= i ->
  process_clients (ctl_process getops (S fuel) (Some c)) (Some c) k i w <> OutOfFuel.
Proof.
  induction k as [|k IH]; intros i w x Hx Hnum Hi Hk Hcase; simpl.
  - rewrite (bind_Ok _ _ _ _ _ (load_ctl_Some _ _ _ Hx)).
    destruct (i <? ctl_num_clients x) eqn:Ei; [|discriminate].
    apply Z.ltb_lt in Ei. unfold MAX_CLIENTS in *. lia.
  - rewrite (bind_Ok _ _ _ _ _ (load_ctl_Some _ _ _ Hx)).
    destruct (i <? ctl_num_clients x) eqn:Ei; [|discriminate].
    apply Z.ltb_lt in Ei.
    destruct Hcase as [Hzero | Hge]; [|lia].
    apply bind_fuel; [apply process_client_fuel|].
    intros rc w1 Hpc.
    apply process_client_spec in Hpc
      as (x0 & cl & x' & Hx0 & _ & _ & _ & _ & Hc1 & (_ & _ & Hn1 & Hcalls1 & _) & _).
    rewrite Hx in Hx0. injection Hx0 as <-.
    assert (Hx1 : ctls w1 !! c = Some x') by (rewrite Hc1; apply lookup_insert_eq).
    destruct (rc <? 0).
    + rewrite bind_assoc.
      apply bind_fuel; [apply remove_client_fuel|].
      intros u w2 Hrm. destruct u.
      apply remove_client_spec in Hrm as (x1 & r & Hx1' & _ & _ & _ & Hc2).
      rewrite Hx1 in Hx1'. injection Hx1' as <-.
      match type of Hc2 with
      | ctls w2 = <[c := ?y]> _ =>
          assert (Hx2 : ctls w2 !! c = Some y) by (rewrite Hc2; apply lookup_insert_eq);
          destruct (ctl_process_again fuel c y w2 Hx2) as [Hag Hag'];
          [simpl; congruence|]
      end.
      apply bind_fuel; [exact Hag|].
      intros u' w3 Hrun. destruct u'. apply Hag' in Hrun.
      eapply IH.
      * rewrite Hrun. autorewrite with world. apply lookup_insert_eq.
      * simpl. lia.
      * lia.
      * unfold MAX_CLIENTS in *. lia.
      * right. simpl. unfold MAX_CLIENTS in *. lia.
    + apply bind_fuel; [discriminate|].
      intros u w2 [= _ <-].
      eapply IH; [exact Hx1 | lia | lia | unfold MAX_CLIENTS in *; lia |].
      left. congruence.
Qed.

(** ctl_process with a bound of 2 or more, on a channel within its
    bounds, does not stop at the bound: the call it makes to itself
    returns at once, and its loop has at most MAX_CLIENTS rounds. *)
Lemma ctl_process_fuel fuel c w :
  ctl_inv c w -> (2 <= fuel)%nat ->
  ctl_process getops fuel (Some c) w <> OutOfFuel.
Proof.
  intros (x & Hx & _ & Hnum) Hfuel.
  destruct fuel as [|[|fuel]]; [lia | lia |].
  rewrite ctl_process_S.
  rewrite (bind_Ok _ _ _ _ _ (load_ctl_Some _ _ _ Hx)).
  rewrite (bind_Ok _ _ _ _ _ (store_ctl_Some _ _ _ _ Hx)).
  set (x1 := ctl_set_calls _ x).
  set (w1 := set_ctls _ w).
  assert (Hx1 : ctls w1 !! c = Some x1).
  { subst w1. autorewrite with world. apply lookup_insert_eq. }
  rewrite (bind_Ok _ _ _ _ _ (load_ctl_Some _ _ _ Hx1)).
  apply bind_fuel; [apply min_calls_fuel|].
  intros mc w2 Hmc. apply (min_calls_spec getops hooks_ro) in Hmc as (-> & _).
  destruct (_ <? mc); [discriminate|].
  rewrite (bind_Ok _ _ _ _ _ (store_ctl_Some _ _ _ _ Hx1)).
  apply bind_fuel; [fuel_prim|]. intros oerrno w2 He.
  apply gets_Ok_inv in He as [-> ->].
  apply bind_fuel.
  - eapply process_clients_fuel.
    + autorewrite with world. apply lookup_insert_eq.
    + subst x1. destruct x; simpl in *. lia.
    + lia.
    + unfold MAX_CLIENTS. lia.
    + left. reflexivity.
  - intros u w2 _. fuel_ok.
Qed.
End CtlProcessFuel.

Section CtlTheorems.
Context `{build_config} `{environment}.
Variable getops : ops_ref -> xcm_tp_ops.

End CtlTheorems.

Section HooksFuel.
Context `{build_config} `{environment}.

Lemma sub_ops_hooks_in_fuel : transport_hooks_in_fuel sub_ops.
Proof.
  intros r f s w Hf. destruct r; simpl in Hf; [|discriminate].
  injection Hf as <-. discriminate.
Qed.

Lemma utls_get_transport_fuel s w : utls_get_transport s w <> OutOfFuel.
Proof.
  unfold utls_get_transport, active_sub_conn, TOUTLS.
  apply bind_fuel; [fuel_prim|]. intros so w1 _.
  destruct (so_type so); [|discriminate].
  apply bind_fuel; [fuel_ok|]. intros a w2 _.
  apply xcm_tp_socket_get_transport_fuel. exact sub_ops_hooks_in_fuel.
Qed.

Lemma tp_ops_hooks_in_fuel fuel : transport_hooks_in_fuel (tp_ops fuel).
Proof.
  intros r f s w Hf. destruct r; simpl in Hf; [|discriminate].
  injection Hf as <-. apply utls_get_transport_fuel.
Qed.

(** With the transports of this library, a bound of 2 is enough for
    every call of ctl_process on a channel within its bounds. *)
Lemma ctl_process_returns_or_stops fuel c w :
  ctl_inv c w -> (2 <= fuel)%nat ->
  ctl_process (tp_ops fuel) fuel (Some c) w <> OutOfFuel.
Proof.
  intros Hinv Hfuel.
  apply ctl_process_fuel;
    [apply tp_ops_hooks_read_only | apply tp_ops_hooks_in_fuel | exact Hinv | exact Hfuel].
Qed.
End HooksFuel.

(** * utls_init *)

Section UtlsInit.
Context `{build_config} `{environment}.
Variable ctl_fuel : nat.

Lemma alloc_socket_Ok_inv so w s w' :
  alloc_socket so w = Ok s w' ->
  exists l, s = Some l /\ heap w !! l = None /\
            w' = set_heap (<[l := so]> (heap w)) w.
Proof.
  unfold alloc_socket. intros [= <- <-]. eexists. split; [reflexivity|].
  split; [|reflexivity]. apply not_elem_of_dom. apply is_fresh.
Qed.

Lemma ux_proto_Ok_inv w r w' :
  proto_cache_ok w -> ux_proto w = Ok r w' ->
  heap w' = heap w /\ protos w' = protos w /\ proto_cache_ok w' /\
  forall i, r = Some i ->
            exists p, protos w !! i = Some p /\ proto_name p = XCM_UX_PROTO.
Proof.
  intros [Hu Ht] Hrun. unfold ux_proto, get_proto in Hrun.
  apply bind_Ok_inv in Hrun as (c & w1 & Hc & Hrun).
  apply gets_Ok_inv in Hc as [-> ->].
  destruct (ux_cached_proto w) as [i|] eqn:Ec.
  - apply ret_Ok_inv in Hrun as [-> ->].
    split; [reflexivity|]. split; [reflexivity|]. split; [split; [intros j Hj; apply Hu; congruence | exact Ht]|].
    intros j [= <-]. apply Hu. reflexivity.
  - apply bind_Ok_inv in Hrun as (p & w1 & Hp & Hrun).
    apply xcm_tp_proto_by_name_Ok_inv in Hp as [-> Hp].
    apply bind_Ok_inv in Hrun as (u & w1 & Hm & Hrun).
    apply modify_Ok_inv in Hm as ->. apply ret_Ok_inv in Hrun as [-> ->].
    assert (Hfound : forall i, p = Some i ->
              exists q, protos w !! i = Some q /\ proto_name q = XCM_UX_PROTO).
    { intros i ->. tauto. }
    split; [reflexivity|]. split; [reflexivity|]. split; [|exact Hfound].
    split; [exact Hfound | exact Ht].
Qed.

Lemma tls_proto_Ok_inv w r w' :
  proto_cache_ok w -> tls_proto w = Ok r w' ->
  heap w' = heap w /\ protos w' = protos w /\ proto_cache_ok w' /\
  forall i, r = Some i ->
            exists p, protos w !! i = Some p /\ proto_name p = XCM_TLS_PROTO.
Proof.
  intros [Hu Ht] Hrun. unfold tls_proto, get_proto in Hrun.
  apply bind_Ok_inv in Hrun as (c & w1 & Hc & Hrun).
  apply gets_Ok_inv in Hc as [-> ->].
  destruct (tls_cached_proto w) as [i|] eqn:Ec.
  - apply ret_Ok_inv in Hrun as [-> ->].
    split; [reflexivity|]. split; [reflexivity|]. split; [split; [exact Hu | intros j Hj; apply Ht; congruence]|].
    intros j [= <-]. apply Ht. reflexivity.
  - apply bind_Ok_inv in Hrun as (p & w1 & Hp & Hrun).
    apply xcm_tp_proto_by_name_Ok_inv in Hp as [-> Hp].
    apply bind_Ok_inv in Hrun as (u & w1 & Hm & Hrun).
    apply modify_Ok_inv in Hm as ->. apply ret_Ok_inv in Hrun as [-> ->].
    assert (Hfound : forall i, p = Some i ->
              exists q, protos w !! i = Some q /\ proto_name q = XCM_TLS_PROTO).
    { intros i ->. tauto. }
    split; [reflexivity|]. split; [reflexivity|]. split; [|exact Hfound].
    split; [exact Hu | exact Hfound].
Qed.

Lemma us_write_Ok_inv s f v w u w' :
  us_write (Some s) f v w = Ok u w' ->
  exists so, heap w !! s = Some so /\
    w' = set_heap (<[s := so_set_priv (us_set f v (so_priv so)) so]> (heap w)) w.
Proof.
  unfold us_write. intros Hrun.
  apply bind_Ok_inv in Hrun as (so & w1 & Hso & Hst).
  apply load_Ok_inv in Hso as (-> & l & [= <-] & Hso).
  apply store_Ok_inv in Hst as (l & [= <-] & _ & ->).
  exists so. split; [exact Hso | reflexivity].
Qed.

Lemma TOUTLS_Ok_inv s w us w' :
  TOUTLS (Some s) w = Ok us w' ->
  w' = w /\ exists so, heap w !! s = Some so /\ us = so_priv so.
Proof.
  unfold TOUTLS. intros Hrun.
  apply bind_Ok_inv in Hrun as (so & w1 & Hso & Hret).
  apply load_Ok_inv in Hso as (-> & l & [= <-] & Hso).
  apply ret_Ok_inv in Hret as [-> ->]. split; [reflexivity|].
  exists so. split; [exact Hso | reflexivity].
Qed.

Lemma proto_cache_ok_frame w w' :
  protos w' = protos w -> ux_cached_proto w' = ux_cached_proto w ->
  tls_cached_proto w' = tls_cached_proto w ->
  proto_cache_ok w -> proto_cache_ok w'.
Proof. unfold proto_cache_ok. intros -> -> ->. tauto. Qed.

(** create_sub_socket: the socket it returns is new, of the registry
    entry asked for, initialised by a wrapped transport, and has no
    control channel. *)
Lemma create_sub_socket_Ok_inv p type fd w r w' :
  create_sub_socket p type fd w = Ok r w' ->
  protos w' = protos w /\
  ux_cached_proto w' = ux_cached_proto w /\
  tls_cached_proto w' = tls_cached_proto w /\
  match r with
  | None => True
  | Some l =>
      exists i pr n so',
        p = Some i /\ protos w !! i = Some pr /\
        proto_ops pr = Some (ext_ops_ref n) /\
        heap w !! l = None /\ heap w' = <[l := so']> (heap w) /\
        so_proto so' = i /\ so_ctl so' = None /\ so_type so' = type
  end.
Proof.
  unfold create_sub_socket, xcm_tp_socket_create. intros Hrun.
  apply bind_Ok_inv in Hrun as (s & w1 & Hcreate & Hrun).
  destruct p as [i|]; [|discriminate].
  apply bind_Ok_inv in Hcreate as (ps & w0 & Hps & Hcreate).
  apply gets_Ok_inv in Hps as [-> ->].
  destruct (protos w !! i) as [pr|] eqn:Epr; [|discriminate].
  destruct (proto_ops pr) as [r0|] eqn:Eops; [|discriminate].
  apply bind_Ok_inv in Hcreate as (s0 & w0 & Halloc & Hcreate).
  apply alloc_socket_Ok_inv in Halloc as (l & -> & Hfresh & ->).
  unfold get_next_sock_id in Hcreate.
  unfold bind, gets, modify, ret, load, store in Hcreate. cbn in Hcreate.
  rewrite lookup_insert_eq in Hcreate. cbn in Hcreate.
  rewrite lookup_insert_eq in Hcreate. injection Hcreate as <- <-.
  rewrite insert_insert_eq in Hrun. cbn [so_priv] in Hrun.
  apply bind_Ok_inv in Hrun as (rc & w2 & Hinit & Hrun).
  unfold xcm_tp_socket_init, XCM_TP_GETOPS in Hinit.
  rewrite bind_assoc in Hinit.
  erewrite bind_Ok in Hinit by (apply load_Some; cbn; apply lookup_insert_eq).
  cbn in Hinit. rewrite bind_assoc in Hinit.
  unfold gets in Hinit at 1. unfold bind in Hinit at 1.
  cbn [protos set_heap set_next_id] in Hinit. rewrite Epr, Eops in Hinit.
  unfold ret in Hinit at 1. unfold bind in Hinit at 1.
  destruct r0 as [|n]; [discriminate|].
  cbn [sub_ops] in Hinit. unfold ext_ops in Hinit; cbn [op_init] in Hinit.
  unfold tp_call in Hinit. rewrite bind_assoc in Hinit.
  erewrite bind_Ok in Hinit by (apply load_Some; cbn; apply lookup_insert_eq).
  apply bind_Ok_inv in Hinit as (rp & w3 & Hcall & Hret).
  apply ext_call_Ok_inv in Hcall as [-> ->]. apply ret_Ok_inv in Hret as [-> ->].
  destruct (_ <? 0).
  - apply bind_Ok_inv in Hrun as (u & w3 & Hd & Hrun).
    apply ut_free_socket_Ok_inv in Hd as [_ ->]. apply ret_Ok_inv in Hrun as [-> ->].
    repeat split.
  - apply ret_Ok_inv in Hrun as [-> ->].
    split; [reflexivity|]. split; [reflexivity|]. split; [reflexivity|].
    exists i, pr, n. eexists.
    split; [reflexivity|]. split; [exact Epr|]. split; [exact Eops|].
    split; [exact Hfresh|]. split; [reflexivity|]. repeat split.
Qed.

(** utls_init that returns 0 leaves the two sub-sockets in place: new,
    apart, initialised by wrapped transports, and made from the
    registry entries named "ux" and "tls". *)
Lemma utls_init_ready (s : loc) (w w' : World) :
  proto_cache_ok w ->
  utls_init (Some s) w = Ok 0 w' ->
  exists lu lt,
    utls_ready w' s lu lt /\
    socket_named w' lu XCM_UX_PROTO /\ socket_named w' lt XCM_TLS_PROTO /\
    socket_kept w w' s /\ protos w' = protos w /\ proto_cache_ok w'.
Proof.
  intros Hcache Hrun. unfold utls_init in Hrun.
  apply bind_Ok_inv in Hrun as (so & w0 & Hso & Hrun).
  apply load_Ok_inv in Hso as (-> & l & [= <-] & Hso).
  apply bind_Ok_inv in Hrun as (pu & w1 & Hpu & Hrun).
  apply ux_proto_Ok_inv in Hpu as (Hh1 & Hp1 & Hc1 & Hnu); [|exact Hcache].
  apply bind_Ok_inv in Hrun as (ux & w2 & Hux & Hrun).
  apply create_sub_socket_Ok_inv in Hux as (Hp2 & Hcu2 & Hct2 & Hux).
  apply bind_Ok_inv in Hrun as (u1 & w3 & Hw1 & Hrun).
  apply us_write_Ok_inv in Hw1 as (so2 & Hso2 & ->).
  apply bind_Ok_inv in Hrun as (so3 & w3 & Hso3 & Hrun).
  apply load_Ok_inv in Hso3 as (-> & l & [= <-] & Hso3).
  rewrite heap_set_heap, lookup_insert_eq in Hso3. injection Hso3 as <-.
  apply bind_Ok_inv in Hrun as (pt & w4 & Hpt & Hrun).
  apply tls_proto_Ok_inv in Hpt as (Hh4 & Hp4 & Hc4 & Hnt);
    [|eapply proto_cache_ok_frame; [| | |exact Hc1]; assumption].
  apply bind_Ok_inv in Hrun as (tls & w5 & Htls & Hrun).
  apply create_sub_socket_Ok_inv in Htls as (Hp5 & Hcu5 & Hct5 & Htls).
  apply bind_Ok_inv in Hrun as (u2 & w6 & Hw2 & Hrun).
  apply us_write_Ok_inv in Hw2 as (so5 & Hso5 & ->).
  apply bind_Ok_inv in Hrun as (us & w6 & Hus & Hrun).
  apply TOUTLS_Ok_inv in Hus as (-> & so6 & Hso6 & ->).
  rewrite heap_set_heap, lookup_insert_eq in Hso6. injection Hso6 as <-.
  rewrite heap_set_heap in Hh4. rewrite protos_set_heap in Hp4, Hnt.
  cbn [so_priv so_set_priv ux_socket tls_socket us_set] in Hrun.
  destruct (negb (bool_decide (is_Some (ux_socket (so_priv so5))))
            || negb (bool_decide (is_Some tls))) eqn:Econd.
  { apply bind_Ok_inv in Hrun as (u3 & w6 & _ & Hret).
    apply ret_Ok_inv in Hret as [Hbad _]. discriminate Hbad. }
  apply ret_Ok_inv in Hrun as [_ ->].
  apply orb_false_elim in Econd as [Eu Et].
  apply negb_false_iff, bool_decide_eq_true in Eu.
  apply negb_false_iff, bool_decide_eq_true in Et.
  destruct Et as [lt ->].
  destruct Htls as (it & prt & nt & st & -> & Hprt & Hopt & Hfreet & Hh5 & Hit & Hctlt & Htyt).
  assert (Hslt : s <> lt).
  { intros ->. rewrite Hh4, lookup_insert_eq in Hfreet. discriminate Hfreet. }
  rewrite Hh5, lookup_insert_ne, Hh4, lookup_insert_eq in Hso5 by congruence.
  injection Hso5 as <-.
  cbn [so_priv so_set_priv ux_socket us_set] in Eu. destruct Eu as [lu ->].
  destruct Hux as (iu & pru & nu & su & -> & Hpru & Hopu & Hfreeu & Hh2 & Hiu & Hctlu & Htyu).
  assert (Hslu : s <> lu).
  { intros ->. rewrite Hh1, Hso in Hfreeu. discriminate Hfreeu. }
  rewrite Hh2, lookup_insert_ne, Hh1, Hso in Hso2 by congruence.
  injection Hso2 as <-.
  assert (Hlult : lu <> lt).
  { intros ->. rewrite Hh4, lookup_insert_ne, Hh2, lookup_insert_eq in Hfreet by congruence.
    discriminate Hfreet. }
  assert (Hprotos : protos w5 = protos w) by congruence.
  match goal with
  | |- context [set_heap (<[s := ?x]> _) w5] => set (sfin := x)
  end.
  set (wf := set_heap _ w5).
  assert (Hfs : heap wf !! s = Some sfin)
    by (subst wf; rewrite heap_set_heap; apply lookup_insert_eq).
  assert (Hfu : heap wf !! lu = Some su).
  { subst wf.
    rewrite heap_set_heap, lookup_insert_ne, Hh5, lookup_insert_ne, Hh4,
      lookup_insert_ne, Hh2 by congruence.
    apply lookup_insert_eq. }
  assert (Hft : heap wf !! lt = Some st).
  { subst wf. rewrite heap_set_heap, lookup_insert_ne, Hh5 by congruence.
    apply lookup_insert_eq. }
  assert (Hfp : protos wf = protos w)
    by (subst wf; rewrite protos_set_heap; exact Hprotos).
  assert (Hpu : protos wf !! so_proto su = Some pru)
    by (rewrite Hfp, Hiu, <- Hp1; exact Hpru).
  assert (Hpt : protos wf !! so_proto st = Some prt)
    by (rewrite Hfp, Hit, <- Hp1, <- Hp2, <- Hp4; exact Hprt).
  destruct (Hnu iu eq_refl) as (pu' & Hpu' & Hnameu).
  rewrite <- Hp1, Hpru in Hpu'. injection Hpu' as <-.
  destruct (Hnt it eq_refl) as (pt' & Hpt' & Hnamet).
  rewrite <- Hp4, Hprt in Hpt'. injection Hpt' as <-.
  exists lu, lt.
  split.
  { split; [exists sfin; split; [exact Hfs | split; reflexivity]|].
    split; [exact Hslu|]. split; [exact Hslt|]. split; [exact Hlult|].
    split; [exists su, pru, nu; auto | exists st, prt, nt; auto]. }
  split; [exists su, pru; auto|].
  split; [exists st, prt; auto|].
  split.
  { exists so, sfin. split; [exact Hso|]. split; [exact Hfs|]. split; reflexivity. }
  split; [exact Hfp|].
  eapply proto_cache_ok_frame; [| | |exact Hc4].
  - rewrite Hfp. congruence.
  - subst wf. simpl. exact Hcu5.
  - subst wf. simpl. exact Hct5.
Qed.

Lemma proto_cache_ok_initial : proto_cache_ok initial_world.
Proof. split; intros i Hi; discriminate Hi. Qed.

End UtlsInit.

(** * Sample runs *)

Lemma ext_socket_intro w l so p n :
  heap w !! l = Some so -> protos w !! so_proto so = Some p ->
  proto_ops p = Some (ext_ops_ref n) -> so_ctl so = None -> ext_socket w l.
Proof. intros. exists so, p, n. auto. Qed.

Lemma socket_named_intro w l so p name :
  heap w !! l = Some so -> protos w !! so_proto so = Some p ->
  proto_name p = name -> socket_named w l name.
Proof. intros. exists so, p. auto. Qed.

Lemma utls_socket_of_type_intro w s so p type :
  heap w !! s = Some so -> so_type so = type ->
  protos w !! so_proto so = Some p -> proto_ops p = Some utls_ops_ref ->
  utls_socket_of_type w s type.
Proof. intros. exists so, p. auto. Qed.

Lemma utls_ready_intro w s lu lt so :
  heap w !! s = Some so ->
  ux_socket (so_priv so) = Some lu -> tls_socket (so_priv so) = Some lt ->
  s <> lu -> s <> lt -> lu <> lt -> ext_socket w lu -> ext_socket w lt ->
  utls_ready w s lu lt.
Proof. intros. split; [exists so; auto | auto]. Qed.

Lemma utls_listening_intro w srv su st so :
  heap w !! srv = Some so ->
  ux_socket (so_priv so) = Some su -> tls_socket (so_priv so) = Some st ->
  ext_socket w su -> ext_socket w st ->
  utls_listening w srv su st.
Proof.
  intros. split; [exists so; auto|]. split; apply ext_socket_is_any; assumption.
Qed.

(** Facts of a concrete world, by evaluation. *)
Ltac eval_eq := vm_compute; first [reflexivity | discriminate].

Ltac sample_fact :=
  lazymatch goal with
  | |- ext_socket _ _ => eapply ext_socket_intro; [eval_eq ..]
  | |- socket_named _ _ _ => eapply socket_named_intro; [eval_eq ..]
  | |- utls_socket_of_type _ _ _ => eapply utls_socket_of_type_intro; [eval_eq ..]
  | |- utls_ready _ _ _ _ =>
      eapply utls_ready_intro;
      [eval_eq | eval_eq | eval_eq | discriminate | discriminate | discriminate
      | eapply ext_socket_intro; [eval_eq ..]
      | eapply ext_socket_intro; [eval_eq ..] ]
  | |- utls_listening _ _ _ _ =>
      eapply utls_listening_intro;
      [eval_eq | eval_eq | eval_eq
      | eapply ext_socket_intro; [eval_eq ..]
      | eapply ext_socket_intro; [eval_eq ..] ]
  | |- _ => eval_eq
  end.


(** A UTLS connect with no local peer. *)
Lemma utls_connect_prefers_ux_witness :
  let w := sample_utls_world false xcm_socket_type_conn in
  exists rc w',
    @utls_connect debug_build (sample_env false) 3
      (Some 1%positive) "utls:127.0.0.1:14001" w = Ok rc w' /\
    rc = 0 /\
    tp_events w' = (tp_events w ++
                    [TpConnect 2%positive "ux:127.0.0.1:14001";
                     TpConnect 3%positive "tls:127.0.0.1:14001";
                     TpUpdate 3%positive])%list /\
    heap w' !! 2%positive = None.
Proof.
  intros w.
  assert (Hready : utls_ready w 1%positive 2%positive 3%positive) by sample_fact.
  destruct (@utls_connect_prefers_ux debug_build (sample_env false) 3
              w 1%positive 2%positive 3%positive "utls:127.0.0.1:14001"
              (mk_host "127.0.0.1") 14001 0 0
              "tls:127.0.0.1:14001" "127.0.0.1:14001" "ux:127.0.0.1:14001"
              Hready ltac:(vm_compute; reflexivity) ltac:(lia)
              ltac:(vm_compute; reflexivity) ltac:(vm_compute; reflexivity)
              ltac:(vm_compute; reflexivity))
    as (rc & w' & Hrun & _ & _ & Hrefused & _).
  exists rc, w'. split; [exact Hrun|].
  destruct (Hrefused ltac:(vm_compute; discriminate) ltac:(vm_compute; reflexivity))
    as (Htls & _).
  destruct (Htls ltac:(vm_compute; discriminate)) as (Hrc & Hev & Hfree & _).
  split; [exact Hrc|]. split; [exact Hev | exact Hfree].
Defined.

(** An accept with nothing on the UX listener and a connection on the
    TLS one. *)
Lemma utls_accept_prefers_ux_witness :
  let w := sample_accept_world false in
  exists rc w',
    @utls_accept debug_build (sample_env false) 3
      (Some 4%positive) (Some 1%positive) w = Ok rc w' /\
    (exists rest,
       tp_events w' = (tp_events w ++ TpAccept 5%positive 2%positive :: rest)%list) /\
    forall a, utls_connected w' 4%positive a ->
              @utls_get_cnt (sample_env false) (Some 4%positive) w' = Ok (Some a) w'.
Proof.
  intros w.
  assert (Hready : utls_ready w 4%positive 5%positive 6%positive) by sample_fact.
  assert (Hlisten : utls_listening w 1%positive 2%positive 3%positive) by sample_fact.
  assert (Hsu : ext_socket w 2%positive) by sample_fact.
  assert (Hst : ext_socket w 3%positive) by sample_fact.
  destruct (@utls_accept_prefers_ux debug_build (sample_env false) 3
              w 4%positive 1%positive 5%positive 6%positive 2%positive 3%positive
              Hready Hlisten)
    as (Hreturns & Hcases & Hdispatch).
  destruct (Hreturns Hsu Hst) as (rc & w' & Hrun).
  exists rc, w'. split; [exact Hrun|].
  destruct (Hcases rc w' Hrun) as (Hfirst & _).
  split; [exact Hfirst|].
  intros a Ha. apply (Hdispatch w' a Ha).
Defined.

(** A UTLS server on port 0: the TLS listener is bound first and its
    port, 40000, is the one of the UX listener. *)
Lemma utls_server_binds_tls_first_witness :
  let w := sample_utls_world true xcm_socket_type_server in
  let w' := sample_listening_world true in
  exists ux_addr last,
    tp_events w' = (tp_events w ++
                    [TpServer 3%positive "tls:127.0.0.1:0"; TpUpdate 3%positive;
                     TpGetLocalAddr 3%positive false] ++
                    TpServer 2%positive ux_addr :: last)%list /\
    ux_addr = "ux:127.0.0.1:40000".
Proof.
  intros w w'.
  assert (Hready : utls_ready w 1%positive 2%positive 3%positive) by sample_fact.
  destruct (@utls_server_binds_tls_first debug_build (sample_env true) 3
              w 1%positive 2%positive 3%positive "utls:127.0.0.1:0"
              (mk_host "127.0.0.1") 0 0 0 0 "tls:127.0.0.1:0" w'
              Hready ltac:(vm_compute; reflexivity) ltac:(vm_compute; reflexivity)
              (fun name cap a (Heq : (0, ("ux:" ++ name)%string) = (0, a)) =>
                 eq_sym (f_equal snd Heq))
              ltac:(vm_compute; reflexivity))
    as (actual & tail & ux_addr & last & Hev & _ & Hactual & Hskip & Hux & _).
  exists ux_addr, last. split; [exact Hev|].
  vm_compute in Hactual. injection Hactual as <-.
  vm_compute in Hskip. injection Hskip as <-.
  rewrite Hux. reflexivity.
Defined.



(** Reads into a buffer of four bytes: "utls" with its NUL does not
    fit, "ux" does. *)
Lemma generic_attr_read_overflow_or_length_witness :
  let buf := [Byte.x00; Byte.x00; Byte.x00; Byte.x00] in
  get_str_attr "utls" buf 4 initial_world
  = Ok (-1, buf) (set_errno_w EOVERFLOW initial_world) /\
  exists buf', get_str_attr "ux" buf 4 initial_world = Ok (3, buf') initial_world.
Proof.
  intros buf.
  destruct (generic_attr_read_overflow_or_length
              (@tp_ops debug_build (sample_env true) 3) buf 4 initial_world
              ltac:(simpl; lia)) as (Hstr & _).
  split.
  - apply (Hstr "utls"). vm_compute. discriminate.
  - destruct (Hstr "ux") as (_ & Hfit).
    destruct (Hfit ltac:(vm_compute; reflexivity) ltac:(vm_compute; reflexivity))
      as (buf' & Hrun & _).
    exists buf'. exact Hrun.
Defined.
(** * Further properties of the code *)

(** ** Tearing down a UTLS socket *)

Section UtlsTeardown.
Context `{build_config} `{environment}.

Lemma xcm_tp_socket_cleanup_ext w l :
  ext_socket w l ->
  xcm_tp_socket_cleanup sub_ops (Some l) w = Ok tt (after_call (TpCleanup l) w).
Proof.
  intros He. pose proof (ext_socket_is_any _ _ He) as Ha.
  destruct He as (so & p & n & Hl & Hp & Ho & Hc).
  unfold xcm_tp_socket_cleanup.
  assert (Hctl : (if XCM_CTL
                  then let* so := load (Some l) in ctl_destroy (so_ctl so) false
                  else ret tt) w = Ok tt w).
  { destruct XCM_CTL; [|reflexivity].
    rewrite (bind_Ok _ _ _ _ _ (load_Some _ _ _ Hl)). rewrite Hc. reflexivity. }
  rewrite (bind_Ok _ _ _ _ _ Hctl).
  rewrite (bind_Ok _ _ _ _ _ (XCM_TP_GETOPS_ext _ _ Ha)).
  unfold ext_ops; cbn [op_cleanup].
  rewrite (bind_Ok _ _ _ _ _ (tp_call_ext TpCleanup _ _ Ha)). reflexivity.
Qed.

(** X1.  Closing a UTLS socket that still has both sub-sockets closes
    the UX one, then the TLS one, and frees both.  The second close is
    made whatever the first returned, and the result is -1 when either
    returned a negative value, 0 otherwise.  utls_cleanup does the same
    with the transports' cleanup in place of close.  The socket itself
    is left to the caller. *)
Theorem utls_close_frees_both (w : World) (s lu lt : loc) :
  utls_ready w s lu lt ->
  let rc_ux := rep_rc (env_reply (trace w) (TpClose lu)) in
  let rc_tls := rep_rc (env_reply (trace w ++ [TpClose lu]) (TpClose lt)) in
  utls_close (Some s) w
  = Ok (if (rc_ux <? 0) || (rc_tls <? 0) then -1 else 0)
       (set_heap (delete lt (delete lu (heap w)))
          (after_call (TpClose lt) (after_call (TpClose lu) w))) /\
  utls_cleanup (Some s) w
  = Ok tt (set_heap (delete lt (delete lu (heap w)))
             (after_call (TpCleanup lt) (after_call (TpCleanup lu) w))).
Proof.
  intros ((so & Hs & Hux & Htls) & Hn1 & Hn2 & Hn3 & Heu & Het).
  pose proof Heu as (sou & pu & nu & Hlu & _).
  pose proof Het as (sot & pt & nt & Hlt & _).
  split.
  - unfold utls_close.
    fwd. rewrite Hux. fwd. fwd. rewrite Htls. fwd. fwd. reflexivity.
  - unfold utls_cleanup.
    fwd. rewrite Hux.
    rewrite (bind_Ok _ _ _ _ _ (xcm_tp_socket_cleanup_ext _ _ Heu)).
    fwd. rewrite Htls.
    erewrite bind_Ok by (apply xcm_tp_socket_cleanup_ext; ext_at).
    erewrite deinit_run;
      [reflexivity | heap_lookup | eassumption | eassumption | heap_lookup
      | heap_lookup | congruence].
Qed.
End UtlsTeardown.

(** ** Operations of a UTLS socket on its sub-sockets *)

(** The fields of a private part just written. *)
Ltac priv_simpl :=
  cbn [us_get us_set us_set_laddr so_priv so_set_priv ux_socket tls_socket laddr].

(** One forward step with the lemma for the first call given. *)
Ltac fwd_by tac := rewrite ?bind_assoc; erewrite bind_Ok by tac; cbv beta.

Section UtlsForward.
Context `{build_config} `{environment}.
Variable ctl_fuel : nat.

Lemma xcm_tp_socket_finish_ext w l :
  ext_socket w l ->
  xcm_tp_socket_finish sub_ops ctl_fuel (Some l) w =
  Ok (rep_rc (env_reply (trace w) (TpFinish l)))
     (after_call (TpUpdate l) (after_call (TpFinish l) w)).
Proof.
  intros He. pose proof (ext_socket_is_any _ _ He) as Ha.
  unfold xcm_tp_socket_finish.
  rewrite (bind_Ok _ _ _ _ _ (do_ctl_ext _ _ _ He)).
  rewrite (bind_Ok _ _ _ _ _ (XCM_TP_GETOPS_ext _ _ Ha)).
  unfold ext_ops; cbn [op_finish]. rewrite bind_assoc.
  rewrite (bind_Ok _ _ _ _ _ (tp_call_ext TpFinish _ _ Ha)).
  unfold ret at 1. unfold bind at 1.
  rewrite (bind_Ok _ _ _ _ _
             (xcm_tp_socket_update_ext _ _ (ext_socket_any_after_call _ _ _ Ha))).
  reflexivity.
Qed.

Lemma xcm_tp_socket_send_ext w l buf :
  ext_socket w l ->
  xcm_tp_socket_send sub_ops ctl_fuel (Some l) buf w =
  Ok (rep_rc (env_reply (trace w) (TpSend l buf)))
     (after_call (TpUpdate l) (after_call (TpSend l buf) w)).
Proof.
  intros He. pose proof (ext_socket_is_any _ _ He) as Ha.
  unfold xcm_tp_socket_send.
  rewrite (bind_Ok _ _ _ _ _ (do_ctl_ext _ _ _ He)).
  rewrite (bind_Ok _ _ _ _ _ (XCM_TP_GETOPS_ext _ _ Ha)).
  unfold ext_ops; cbn [op_send]. rewrite bind_assoc.
  rewrite (bind_Ok _ _ _ _ _ (tp_call_ext (fun l => TpSend l buf) _ _ Ha)).
  unfold ret at 1. unfold bind at 1.
  rewrite (bind_Ok _ _ _ _ _
             (xcm_tp_socket_update_ext _ _ (ext_socket_any_after_call _ _ _ Ha))).
  reflexivity.
Qed.

Lemma xcm_tp_socket_receive_ext w l capacity :
  ext_socket w l ->
  xcm_tp_socket_receive sub_ops ctl_fuel (Some l) capacity w =
  Ok (rep_rc (env_reply (trace w) (TpReceive l capacity)),
      rep_bytes (env_reply (trace w) (TpReceive l capacity)))
     (after_call (TpUpdate l) (after_call (TpReceive l capacity) w)).
Proof.
  intros He. pose proof (ext_socket_is_any _ _ He) as Ha.
  unfold xcm_tp_socket_receive.
  rewrite (bind_Ok _ _ _ _ _ (do_ctl_ext _ _ _ He)).
  rewrite (bind_Ok _ _ _ _ _ (XCM_TP_GETOPS_ext _ _ Ha)).
  unfold ext_ops; cbn [op_receive]. rewrite bind_assoc.
  rewrite (bind_Ok _ _ _ _ _ (tp_call_ext (fun l => TpReceive l capacity) _ _ Ha)).
  unfold ret at 1. unfold bind at 1.
  rewrite (bind_Ok _ _ _ _ _
             (xcm_tp_socket_update_ext _ _ (ext_socket_any_after_call _ _ _ Ha))).
  reflexivity.
Qed.

(** X2.  utls_finish on a server socket finishes the UX listener and
    then the TLS listener, each followed by its update.  When the UX
    finish returns a negative value the TLS listener is not touched and
    the result is -1; otherwise the result is -1 or 0 by the sign of the
    TLS finish alone. *)
Theorem utls_finish_server_in_order (w : World) (s lu lt : loc) :
  utls_ready w s lu lt ->
  so_type <$> heap w !! s = Some xcm_socket_type_server ->
  let r1 := rep_rc (env_reply (trace w) (TpFinish lu)) in
  let w1 := after_call (TpUpdate lu) (after_call (TpFinish lu) w) in
  let r2 := rep_rc (env_reply (trace w1) (TpFinish lt)) in
  utls_finish ctl_fuel (Some s) w =
  if r1 <? 0 then Ok (-1) w1
  else Ok (if r2 <? 0 then -1 else 0)
          (after_call (TpUpdate lt) (after_call (TpFinish lt) w1)).
Proof.
  intros ((so & Hs & Hux & Htls) & Hn1 & Hn2 & Hn3 & Heu & Het) Hty.
  rewrite Hs in Hty. injection Hty as Hty.
  intros r1 w1 r2. unfold utls_finish.
  fwd. rewrite Hty. fwd. rewrite Hux.
  rewrite (bind_Ok _ _ _ _ _ (xcm_tp_socket_finish_ext _ _ Heu)).
  fold r1 w1. destruct (r1 <? 0); [reflexivity|].
  erewrite bind_Ok by (apply TOUTLS_Some; subst w1; heap_lookup).
  rewrite Htls.
  erewrite bind_Ok by (apply xcm_tp_socket_finish_ext; subst w1; ext_at).
  fold r2. destruct (r2 <? 0); reflexivity.
Qed.


Lemma xcm_tp_socket_get_local_addr_ext w l t :
  ext_socket_any w l ->
  xcm_tp_socket_get_local_addr sub_ops (Some l) t w =
  Ok (rep_str (env_reply (trace w) (TpGetLocalAddr l t)))
     (after_call (TpGetLocalAddr l t) w).
Proof.
  intros Ha. unfold xcm_tp_socket_get_local_addr.
  rewrite (bind_Ok _ _ _ _ _ (XCM_TP_GETOPS_ext _ _ Ha)).
  apply ext_op_get_local_addr. exact Ha.
Qed.

(** X4.  The local address of a UTLS server socket is made from the
    address of its TLS listener alone: that address is parsed as a TLS
    address and written again as a UTLS address, which is kept in the
    socket and returned.  When the TLS listener has no address the
    result is NULL and nothing is stored.  The UX listener is not
    asked. *)
Theorem utls_server_local_addr_from_tls (w : World) (s lu lt : loc)
        (so : xcm_socket) (suppress_tracing : bool) :
  utls_ready w s lu lt ->
  heap w !! s = Some so ->
  so_type so = xcm_socket_type_server ->
  let r := env_reply (trace w) (TpGetLocalAddr lt suppress_tracing) in
  let w1 := after_call (TpGetLocalAddr lt suppress_tracing) w in
  (rep_str r = None ->
   utls_get_local_addr (Some s) suppress_tracing w = Ok None w1) /\
  (forall a ip port l,
     rep_str r = Some a ->
     xcm_addr_tls6_parse a = (0, (ip, port)) ->
     xcm_addr_utls6_make ip port (XCM_ADDR_MAX + 1) = (0, l) ->
     utls_get_local_addr (Some s) suppress_tracing w
     = Ok (Some l)
          (set_heap (<[s := so_set_priv (us_set_laddr l (so_priv so)) so]> (heap w)) w1)).
Proof.
  intros ((so0 & Hs0 & Hux & Htls) & Hn1 & Hn2 & Hn3 & Heu & Het) Hs Hty r w1.
  rewrite Hs in Hs0. injection Hs0 as <-.
  pose proof (ext_socket_is_any _ _ Het) as Hta.
  assert (Hhead : forall k : option string -> M (option string),
            (let* so1 := load (Some s) in
             match so_type so1 with
             | xcm_socket_type_conn => get_conn_local_addr (Some s) suppress_tracing
             | xcm_socket_type_server =>
                 let* us := TOUTLS (Some s) in
                 match tls_socket us with
                 | None => ret None
                 | Some _ =>
                     let* tls_addr :=
                       xcm_tp_socket_get_local_addr sub_ops (tls_socket us)
                                                    suppress_tracing in
                     k tls_addr
                 end
             end) w = k (rep_str r) w1).
  { intros k. fwd. rewrite Hty. fwd. rewrite Htls.
    rewrite (bind_Ok _ _ _ _ _ (xcm_tp_socket_get_local_addr_ext _ _ _ Hta)).
    reflexivity. }
  split.
  - intros Hnone. unfold utls_get_local_addr, get_server_local_addr.
    rewrite Hhead, Hnone. reflexivity.
  - intros a ip port l Hsome Hparse Hmake.
    unfold utls_get_local_addr, get_server_local_addr.
    rewrite Hhead, Hsome, Hparse. change (0 =? 0) with true.
    rewrite (bind_Ok _ _ _ _ _ (ut_assert_true _)).
    rewrite Hmake. change (0 =? 0) with true.
    rewrite (bind_Ok _ _ _ _ _ (ut_assert_true _)).
    erewrite bind_Ok by (apply load_Some; subst w1; heap_lookup).
    erewrite bind_Ok by (eapply store_Some; subst w1; heap_lookup).
    reflexivity.
Qed.

(** X5.  An address that does not parse makes no connection and no
    listener.  utls_connect then closes the UX and the TLS sub-socket,
    utls_server the TLS and then the UX one; both free the two
    sub-sockets and return -1, and no connect or server call reaches a
    transport. *)
Theorem utls_unparseable_address_tears_down (w : World) (s lu lt : loc)
        (addr : string) (prc perrno : Z) (host : xcm_addr_host) (port : Z) :
  utls_ready w s lu lt ->
  xcm_addr_parse_utls addr = (prc, perrno, (host, port)) ->
  prc < 0 ->
  utls_connect ctl_fuel (Some s) addr w
  = Ok (-1) (set_heap (delete lt (delete lu (heap w)))
               (after_call (TpClose lt)
                  (after_call (TpClose lu) (set_errno_w perrno w)))) /\
  utls_server ctl_fuel (Some s) addr w
  = Ok (-1) (set_heap (delete lt (delete lu (heap w)))
               (after_call (TpClose lu)
                  (after_call (TpClose lt) (set_errno_w perrno w)))).
Proof.
  intros ((so & Hs & Hux & Htls) & Hn1 & Hn2 & Hn3 & Heu & Het) Hparse Hneg.
  pose proof Heu as (sou & pu & nu & Hlu & _).
  pose proof Het as (sot & pt & nt & Hlt & _).
  apply Z.ltb_lt in Hneg.
  split.
  - unfold utls_connect. fwd. rewrite Hparse, Hneg.
    fwd_by ltac:(reflexivity).
    fwd. rewrite Hux. fwd. fwd. rewrite Htls. fwd. fwd. reflexivity.
  - unfold utls_server. fwd. rewrite Hparse, Hneg.
    fwd_by ltac:(reflexivity).
    fwd. rewrite Htls. fwd. fwd. rewrite Hux. fwd. fwd. reflexivity.
Qed.

(** X6.  What utls_server leaves behind when a listener cannot be
    made.  If the TLS server call returns a negative value, the TLS
    sub-socket is freed, the UX one is closed and freed, and no UX
    server call is made.  If the TLS listener is made and the UX
    server call then returns a negative value (port given), the UX
    sub-socket is freed and the TLS one is freed too, listening as it
    is: no close of it reaches the TLS transport.  The result is -1
    both times. *)
Theorem utls_server_failure_paths (w : World) (s lu lt : loc)
        (local_addr : string) (host : xcm_addr_host) (port prc perrno : Z)
        (tls_addr : string) :
  utls_ready w s lu lt ->
  xcm_addr_parse_utls local_addr = (prc, perrno, (host, port)) ->
  0 <= prc ->
  xcm_addr_make_tls host port (XCM_ADDR_MAX + 1) = (0, tls_addr) ->
  let rt := rep_rc (env_reply (trace w) (TpServer lt tls_addr)) in
  let w1 := if rt =? 0
            then after_call (TpUpdate lt) (after_call (TpServer lt tls_addr) w)
            else after_call (TpServer lt tls_addr) w in
  (rt < 0 ->
   exists w',
     utls_server ctl_fuel (Some s) local_addr w = Ok (-1) w' /\
     tp_events w' = tp_events w ++ [TpServer lt tls_addr; TpClose lu] /\
     heap w' !! lu = None /\ heap w' !! lt = None) /\
  (forall tail ux_addr,
     0 <= rt -> port <> 0 ->
     str_skip 4 tls_addr = Some tail ->
     xcm_addr_ux_make tail (XCM_ADDR_MAX + 1) = (0, ux_addr) ->
     rep_rc (env_reply (trace w1) (TpServer lu ux_addr)) < 0 ->
     exists w',
       utls_server ctl_fuel (Some s) local_addr w = Ok (-1) w' /\
       tp_events w' = tp_events w ++
         [TpServer lt tls_addr] ++ (if rt =? 0 then [TpUpdate lt] else []) ++
         [TpServer lu ux_addr] /\
       heap w' !! lu = None /\ heap w' !! lt = None).
Proof.
  intros ((so & Hs & Hux & Htls) & Hn1 & Hn2 & Hn3 & Heu & Het) Hparse Hprc Hmake rt w1.
  pose proof Heu as (sou & pu & nu & Hlu & _).
  pose proof Het as (sot & pt & nt & Hlt & _).
  apply Z.ltb_ge in Hprc.
  assert (Hhead : forall k : Z -> M Z,
            (let* brc := bind_sub_server ctl_fuel (Some s) f_tls_socket tls_addr in
             k brc) w
            = if rt <? 0
              then k (-1)
                     (set_heap (<[s := so_set_priv (us_set f_tls_socket None (so_priv so)) so]>
                                  (delete lt (heap w)))
                        (after_call (TpServer lt tls_addr) w))
              else k 0 w1).
  { intros k. unfold bind_sub_server. fwd. priv_simpl. rewrite Htls. fwd. fold rt.
    destruct (rt <? 0) eqn:E.
    - assert (E0 : (rt =? 0) = false).
      { apply Z.eqb_neq. apply Z.ltb_lt in E. lia. }
      rewrite E0. fwd. priv_simpl. rewrite Htls.
      fwd_by ltac:(eapply xcm_tp_socket_destroy_Some; heap_lookup).
      fwd_by ltac:(eapply us_write_Some; heap_lookup).
      reflexivity.
    - subst w1. destruct (rt =? 0); reflexivity. }
  split.
  - intros Hneg. apply Z.ltb_lt in Hneg.
    unfold utls_server. fwd. rewrite Hparse, Hprc, Hmake. change (0 =? 0) with true.
    fwd. rewrite Hhead, Hneg. cbv beta. change (-1 <? 0) with true. cbv iota.
    fwd. priv_simpl. rewrite Hux. fwd.
    unfold deinit. fwd. priv_simpl.
    fwd_by ltac:(eapply xcm_tp_socket_destroy_Some; heap_lookup).
    fwd_by ltac:(reflexivity).
    eexists. split; [reflexivity|].
    split; [events_eq|]. split; [heap_lookup|].
    autorewrite with world. rewrite lookup_delete_ne, lookup_insert_ne by congruence.
    apply lookup_delete_eq.
  - intros tail ux_addr Hge Hport Hskip Hux_make Hfail.
    apply Z.ltb_ge in Hge. apply Z.eqb_neq in Hport. apply Z.ltb_lt in Hfail.
    unfold utls_server. fwd. rewrite Hparse, Hprc, Hmake. change (0 =? 0) with true.
    fwd. rewrite Hhead, Hge. cbv beta. change (0 <? 0) with false. cbv iota. rewrite Hport.
    fwd_by ltac:(reflexivity).
    fwd_by ltac:(eapply map_tls_to_ux_run; eassumption).
    unfold bind_sub_server.
    assert (Hs1 : heap w1 !! s = Some so) by (subst w1; destruct (rt =? 0); exact Hs).
    assert (Hlu1 : heap w1 !! lu = Some sou) by (subst w1; destruct (rt =? 0); exact Hlu).
    assert (Hlt1 : heap w1 !! lt = Some sot) by (subst w1; destruct (rt =? 0); exact Hlt).
    assert (Heu1 : ext_socket w1 lu).
    { subst w1. destruct (rt =? 0); repeat apply ext_socket_after_call; exact Heu. }
    fwd_by ltac:(apply us_read_Some; exact Hs1). priv_simpl. rewrite Hux.
    fwd_by ltac:(apply xcm_tp_socket_server_ext; exact Heu1).
    assert (E0 : (rep_rc (env_reply (trace w1) (TpServer lu ux_addr)) =? 0) = false).
    { apply Z.eqb_neq. apply Z.ltb_lt in Hfail. lia. }
    rewrite E0, Hfail.
    fwd_by ltac:(apply us_read_Some; autorewrite with world; exact Hs1). priv_simpl. rewrite Hux.
    fwd_by ltac:(eapply xcm_tp_socket_destroy_Some; autorewrite with world; exact Hlu1).
    fwd_by ltac:(eapply us_write_Some; autorewrite with world;
                 rewrite lookup_delete_ne by congruence; exact Hs1).
    fwd_by ltac:(reflexivity). change (-1 <? 0) with true. cbv iota.
    unfold deinit.
    fwd_by ltac:(apply TOUTLS_Some; autorewrite with world; apply lookup_insert_eq).
    priv_simpl. rewrite Htls.
    fwd_by ltac:(reflexivity).
    fwd_by ltac:(eapply xcm_tp_socket_destroy_Some; autorewrite with world;
                 rewrite lookup_insert_ne, lookup_delete_ne by congruence; exact Hlt1).
    eexists. split; [reflexivity|].
    split.
    { unfold tp_events. autorewrite with world. subst w1.
      destruct (rt =? 0); autorewrite with world; rewrite ?List.filter_app; simpl;
        rewrite <- ?app_assoc; reflexivity. }
    split.
    + autorewrite with world. rewrite lookup_delete_ne, lookup_insert_ne by congruence.
      apply lookup_delete_eq.
    + autorewrite with world. apply lookup_delete_eq.
Qed.
End UtlsForward.

(** ** Tearing down a control channel *)

Lemma array_get_Some {A} (a : list A) (i : Z) (x : A) w :
  0 <= i -> a !! Z.to_nat i = Some x -> array_get a i w = Ok x w.
Proof.
  intros Hi Hx. unfold array_get.
  destruct (i <? 0) eqn:E; [apply Z.ltb_lt in E; lia|]. rewrite Hx. reflexivity.
Qed.

Lemma array_set_run {A} (a : list A) (i : Z) (x : A) w :
  0 <= i < Z.of_nat (length a) ->
  array_set a i x w = Ok (<[Z.to_nat i := x]> a) w.
Proof.
  intros Hi. unfold array_set.
  destruct (i <? 0) eqn:E1; [apply Z.ltb_lt in E1; lia|].
  destruct (Z.of_nat (length a) <=? i) eqn:E2; [apply Z.leb_le in E2; lia|].
  reflexivity.
Qed.

Lemma ext_call_run `{environment} e w :
  ext_call e w = Ok (env_reply (trace w) e) (after_call e w).
Proof. reflexivity. Qed.

(** Forward steps on the control channel: the first call of the
    computation is a primitive on a channel that is there. *)
Ltac ctl_lookup :=
  autorewrite with world; rewrite ?lookup_insert_eq;
  first [reflexivity | eassumption].

Ltac ctl_fwd :=
  rewrite ?bind_assoc;
  erewrite bind_Ok
    by first [ apply load_ctl_Some; ctl_lookup
             | eapply store_ctl_Some; ctl_lookup
             | apply ext_call_run
             | reflexivity ];
  cbv beta.

Ltac ctl_fields :=
  cbn [ctl_socket ctl_server_fd ctl_clients ctl_num_clients ctl_reg_set
       ctl_calls_since_process ctl_set_clients ctl_set_num_clients
       ctl_set_reg_set ctl_set_calls].

Section CtlTeardown.
Context `{build_config} `{environment}.

(** remove_client returns on every slot in use, and these are the
    system calls it makes. *)
Lemma remove_client_run c i x rclient w :
  ctls w !! c = Some x -> ctl_ok x ->
  0 <= i < ctl_num_clients x ->
  ctl_clients x !! Z.to_nat i = Some rclient ->
  exists w',
    remove_client (Some c) i w = Ok tt w' /\
    trace w' = trace w ++
      [SysEpollCtl (cl_fd rclient) None; SysClose (cl_fd rclient)] ++
      (if ctl_num_clients x =? MAX_CLIENTS
       then [SysEpollCtl (ctl_server_fd x) (Some EPOLLIN)] else []).
Proof.
  intros Hx [Hlen Hnum] Hi Hr. unfold remove_client.
  ctl_fwd. rewrite (bind_Ok _ _ _ _ _ (array_get_Some _ _ _ _ (proj1 Hi) Hr)).
  unfold epoll_reg_set_del, UT_PROTECT_ERRNO.
  do 7 ctl_fwd. ctl_fields.
  assert (Hlast : exists last, ctl_clients x !! Z.to_nat (ctl_num_clients x - 1) = Some last).
  { apply lookup_lt_is_Some. unfold MAX_CLIENTS in *. lia. }
  destruct Hlast as [last Hlast].
  destruct (i =? ctl_num_clients x - 1) eqn:Ei.
  - ctl_fwd. ctl_fwd. ctl_fields.
    destruct (ctl_num_clients x =? MAX_CLIENTS) eqn:Efull.
    + unfold epoll_reg_set_add. do 4 ctl_fwd. ctl_fields.
      erewrite store_ctl_Some by ctl_lookup.
      eexists. split; [reflexivity|]. autorewrite with world.
      rewrite <- !app_assoc. reflexivity.
    + do 2 ctl_fwd.
      erewrite store_ctl_Some by ctl_lookup.
      eexists. split; [reflexivity|]. autorewrite with world.
      rewrite <- !app_assoc. reflexivity.
  - rewrite ?bind_assoc.
    erewrite bind_Ok by (apply array_get_Some; [lia | exact Hlast]). cbv beta.
    rewrite ?bind_assoc.
    erewrite bind_Ok by (apply array_set_run; unfold MAX_CLIENTS in *; lia). cbv beta.
    do 2 ctl_fwd. ctl_fields.
    destruct (ctl_num_clients x =? MAX_CLIENTS) eqn:Efull.
    + unfold epoll_reg_set_add. do 4 ctl_fwd. ctl_fields.
      erewrite store_ctl_Some by ctl_lookup.
      eexists. split; [reflexivity|]. autorewrite with world.
      rewrite <- !app_assoc. reflexivity.
    + do 2 ctl_fwd.
      erewrite store_ctl_Some by ctl_lookup.
      eexists. split; [reflexivity|]. autorewrite with world.
      rewrite <- !app_assoc. reflexivity.
Qed.

(** The loop of ctl_destroy removes every client: each descriptor in
    use is closed, and nothing is unlinked. *)
Lemma ctl_destroy_loop_run c n : forall w x,
  ctls w !! c = Some x -> ctl_ok x -> ctl_num_clients x = Z.of_nat n ->
  exists w' x' evs,
    ctl_destroy_loop n (Some c) w = Ok tt w' /\
    ctl_frame w w' /\
    ctls w' = <[c := x']> (ctls w) /\
    ctl_num_clients x' = 0 /\ ctl_server_fd x' = ctl_server_fd x /\
    trace w' = trace w ++ evs /\
    (forall cl, cl ∈ take n (ctl_clients x) -> SysClose (cl_fd cl) ∈ evs) /\
    (forall fd, SysUnlink fd ∉ evs).
Proof.
  induction n as [|n IH]; intros w x Hx Hok Hn; simpl.
  - ctl_fwd. rewrite Hn. change (0 <? Z.of_nat 0) with false. cbv iota.
    exists w, x, []. split; [reflexivity|]. split; [apply ctl_frame_refl|].
    split; [symmetry; apply insert_id; exact Hx|].
    split; [exact Hn|]. split; [reflexivity|].
    split; [symmetry; apply app_nil_r|].
    split; [intros cl Hcl; rewrite take_0 in Hcl; inversion Hcl|].
    intros fd Hfd. inversion Hfd.
  - ctl_fwd.
    assert (Hpos : (0 <? ctl_num_clients x) = true) by (apply Z.ltb_lt; lia).
    rewrite Hpos.
    pose proof Hok as [Hlen Hnum].
    assert (Hr : exists r, ctl_clients x !! Z.to_nat 0 = Some r).
    { apply lookup_lt_is_Some. rewrite Hlen. unfold MAX_CLIENTS. simpl. lia. }
    destruct Hr as [r Hr].
    destruct (remove_client_run c 0 x r w Hx Hok ltac:(lia) Hr) as (w1 & Hrun & Htr).
    rewrite (bind_Ok _ _ _ _ _ Hrun).
    pose proof (remove_client_spec _ _ _ _ Hrun) as (x0 & r0 & Hx0 & _ & Hr0 & Hf1 & Hc1).
    rewrite Hx in Hx0. injection Hx0 as <-.
    rewrite Hr in Hr0. injection Hr0 as <-.
    match type of Hc1 with
    | ctls w1 = <[c := ?y]> _ => set (x1 := y) in *
    end.
    assert (Hx1 : ctls w1 !! c = Some x1) by (rewrite Hc1; apply lookup_insert_eq).
    assert (Hok1 : ctl_ok x1).
    { subst x1. split; cbn [ctl_clients ctl_num_clients].
      - destruct (0 =? ctl_num_clients x - 1); [exact Hlen|].
        rewrite length_insert. exact Hlen.
      - lia. }
    destruct (IH w1 x1 Hx1 Hok1 ltac:(subst x1; cbn [ctl_num_clients]; lia))
      as (w' & x' & evs & Hloop & Hf2 & Hc2 & Hn' & Hfd' & Htr' & Hclosed & Hnounlink).
    exists w', x', (([SysEpollCtl (cl_fd r) None; SysClose (cl_fd r)] ++
                     (if ctl_num_clients x =? MAX_CLIENTS
                      then [SysEpollCtl (ctl_server_fd x) (Some EPOLLIN)] else [])) ++ evs).
    split; [exact Hloop|].
    split; [eapply ctl_frame_trans; eassumption|].
    split; [rewrite Hc2, Hc1; apply insert_insert_eq|].
    split; [exact Hn'|]. split; [exact Hfd'|].
    split; [rewrite Htr', Htr, <- !app_assoc; reflexivity|].
    split.
    + intros cl Hcl.
      pose proof (removal_permutation (ctl_clients x) (ctl_num_clients x) 0 r
                    Hlen ltac:(lia) ltac:(lia) Hr) as Hperm.
      replace (Z.to_nat (ctl_num_clients x)) with (S n) in Hperm by lia.
      replace (Z.to_nat (ctl_num_clients x - 1)) with n in Hperm by lia.
      rewrite Hperm in Hcl. apply elem_of_cons in Hcl as [-> | Hcl].
      * apply elem_of_app. left. apply elem_of_app. left.
        apply elem_of_cons. right. apply elem_of_cons. left. reflexivity.
      * apply elem_of_app. right. apply Hclosed. subst x1. cbn [ctl_clients].
        replace (Z.to_nat (ctl_num_clients x - 1)) with n by lia. exact Hcl.
    + intros fd Hfd. apply elem_of_app in Hfd as [Hfd | Hfd].
      * apply elem_of_app in Hfd as [Hfd | Hfd].
        -- repeat (apply elem_of_cons in Hfd as [Hfd | Hfd]; [discriminate Hfd|]).
           inversion Hfd.
        -- destruct (ctl_num_clients x =? MAX_CLIENTS).
           ++ apply elem_of_cons in Hfd as [Hfd | Hfd]; [discriminate Hfd | inversion Hfd].
           ++ inversion Hfd.
      * exact (Hnounlink fd Hfd).
Qed.

(** ctl_destroy, run forward: the calls of the loop, then getsockname,
    the reset of the epoll set, the close of the listener and, for the
    owner, the unlink. *)
Lemma ctl_destroy_run (c : loc) (x : ctl) (owner : bool) (w : World) :
  ctls w !! c = Some x -> ctl_ok x ->
  exists w' evs,
    ctl_destroy (Some c) owner w = Ok tt w' /\
    ctls w' = delete c (ctls w) /\
    errno w' = errno w /\ ctl_frame w w' /\
    trace w' = trace w ++ evs ++
      [SysGetsockname (ctl_server_fd x); SysEpollReset; SysClose (ctl_server_fd x)] ++
      (if (rep_rc (env_reply (trace w ++ evs) (SysGetsockname (ctl_server_fd x))) =? 0)
          && owner
       then [SysUnlink (ctl_server_fd x)] else []) /\
    (forall cl, cl ∈ take (Z.to_nat (ctl_num_clients x)) (ctl_clients x) ->
                SysClose (cl_fd cl) ∈ evs) /\
    (forall fd, SysUnlink fd ∉ evs).
Proof.
  intros Hx Hok. pose proof Hok as [Hlen Hnum]. unfold ctl_destroy.
  ctl_fwd. ctl_fwd.
  destruct (ctl_destroy_loop_run c (Z.to_nat (ctl_num_clients x)) w x Hx Hok ltac:(lia))
    as (w1 & x1 & evs & Hloop & Hf1 & Hc1 & Hn1 & Hfd1 & Htr1 & Hclosed & Hnounlink).
  rewrite (bind_Ok _ _ _ _ _ Hloop).
  assert (Hx1 : ctls w1 !! c = Some x1) by (rewrite Hc1; apply lookup_insert_eq).
  unfold epoll_reg_set_reset.
  do 6 ctl_fwd. ctl_fields. rewrite Hfd1.
  assert (Hfree : forall w2, ctls w2 = <[c := ctl_set_reg_set ∅ x1]> (ctls w1) ->
            ut_free_ctl (Some c) w2 = Ok tt (set_ctls (delete c (ctls w)) w2)).
  { intros w2 Hw2. unfold ut_free_ctl. rewrite Hw2, lookup_insert_eq.
    rewrite delete_insert_eq, Hc1, delete_insert_eq. reflexivity. }
  rewrite Htr1.
  destruct ((rep_rc (env_reply (trace w ++ evs)
                       (SysGetsockname (ctl_server_fd x))) =? 0) && owner) eqn:Eown.
  - do 3 ctl_fwd.
    erewrite bind_Ok by (apply Hfree; autorewrite with world; reflexivity).
    eexists. exists evs. rewrite Eown. split; [reflexivity|].
    split; [reflexivity|]. split; [reflexivity|].
    split; [frame_chain; exact Hf1|].
    split; [autorewrite with world; rewrite Htr1, <- !app_assoc; reflexivity|].
    split; [exact Hclosed | exact Hnounlink].
  - do 2 ctl_fwd.
    erewrite bind_Ok by (apply Hfree; autorewrite with world; reflexivity).
    eexists. exists evs. rewrite Eown. split; [reflexivity|].
    split; [reflexivity|]. split; [reflexivity|].
    split; [frame_chain; exact Hf1|].
    split; [autorewrite with world; rewrite Htr1, <- !app_assoc; reflexivity|].
    split; [exact Hclosed | exact Hnounlink].
Qed.

(** X7.  ctl_destroy on a channel within its bounds returns with the
    channel freed and errno as it was.  Every descriptor of a connected
    client is closed, and so is the listening descriptor.  Sockets,
    registry and other channels are not touched.  The socket file is
    unlinked by the owner only: with [owner] false, as in
    xcm_tp_socket_cleanup, no unlink is made. *)
Theorem ctl_destroy_closes_all (c : loc) (x : ctl) (owner : bool) (w : World) :
  ctls w !! c = Some x -> ctl_ok x ->
  exists w' evs,
    ctl_destroy (Some c) owner w = Ok tt w' /\
    ctls w' = delete c (ctls w) /\
    errno w' = errno w /\ ctl_frame w w' /\
    trace w' = trace w ++ evs /\
    (forall cl, cl ∈ take (Z.to_nat (ctl_num_clients x)) (ctl_clients x) ->
                SysClose (cl_fd cl) ∈ evs) /\
    SysClose (ctl_server_fd x) ∈ evs /\
    (forall fd, SysUnlink fd ∈ evs -> owner = true /\ fd = ctl_server_fd x).
Proof.
  intros Hx Hok.
  destruct (ctl_destroy_run c x owner w Hx Hok)
    as (w' & evs & Hrun & Hctls & Herrno & Hframe & Htr & Hclosed & Hnounlink).
  eexists w', _. split; [exact Hrun|]. split; [exact Hctls|].
  split; [exact Herrno|]. split; [exact Hframe|]. split; [exact Htr|].
  split; [intros cl Hcl; apply elem_of_app; left; apply Hclosed; exact Hcl|].
  split; [rewrite !elem_of_app, !elem_of_cons; auto 10|].
  intros fd Hfd.
  apply elem_of_app in Hfd as [Hfd | Hfd]; [exfalso; exact (Hnounlink fd Hfd)|].
  apply elem_of_app in Hfd as [Hfd | Hfd].
  { exfalso. rewrite !elem_of_cons, elem_of_nil in Hfd. intuition discriminate. }
  destruct (_ && owner) eqn:Eown.
  - apply andb_true_iff in Eown as [_ ->].
    apply elem_of_cons in Hfd as [Hfd | Hfd]; [|inversion Hfd].
    injection Hfd as ->. auto.
  - inversion Hfd.
Qed.

End CtlTeardown.

(** ** Enabling the control channel *)

Section EnableCtl.
Context `{build_config} `{environment}.
Variable ctl_fuel : nat.

(** The channel ctl_create makes for a socket, given the descriptor of
    its listener. *)
Lemma ctl_create_run sl so w :
  heap w !! sl = Some so ->
  let r := env_reply (trace w) (SysCreateUx sl) in
  let c := fresh (dom (ctls w)) in
  let x := mk_ctl (Some sl) (rep_rc r) (replicate (Z.to_nat MAX_CLIENTS) zero_client)
                  0 {[rep_rc r := EPOLLIN]} 0 in
  ctl_create (Some sl) w =
  if rep_rc r <? 0
  then Ok None (set_errno_w (errno w) (after_call (SysCreateUx sl) w))
  else Ok (Some c)
          (set_ctls (<[c := x]> (ctls w))
             (after_call (SysEpollCtl (rep_rc r) (Some EPOLLIN))
                (set_errno_w (errno w) (after_call (SysCreateUx sl) w)))).
Proof.
  intros Hs r c x. unfold ctl_create.
  do 3 ctl_fwd. fold r.
  destruct (rep_rc r <? 0); [reflexivity|].
  erewrite bind_Ok by (apply load_Some; autorewrite with world; exact Hs).
  cbv beta zeta. unfold epoll_reg_set_add.
  do 3 ctl_fwd. ctl_fields.
  unfold ret. f_equal. autorewrite with world.
  rewrite insert_insert_eq, insert_empty. reflexivity.
Qed.

(** X8.  Enabling the control channel of a UTLS connection socket puts
    the channel on the sub-socket in use: the channel is created for
    that sub-socket and stored in its ctl field, and the UTLS socket
    itself is not written and gets no channel of its own.  When the
    listener of the channel cannot be made the field is NULL and no
    channel exists. *)
Theorem utls_connection_ctl_on_sub_socket (w : World) (s a : loc) (sa : xcm_socket) :
  XCM_CTL = true ->
  utls_socket_of_type w s xcm_socket_type_conn ->
  utls_connected w s a ->
  heap w !! a = Some sa ->
  let r := env_reply (trace w) (SysCreateUx a) in
  exists w',
    xcm_tp_socket_enable_ctl (tp_ops ctl_fuel) (Some s) w = Ok tt w' /\
    heap w' !! s = heap w !! s /\
    if rep_rc r <? 0
    then heap w' !! a = Some (so_set_ctl None sa) /\ ctls w' = ctls w
    else exists c,
           ctls w !! c = None /\
           heap w' !! a = Some (so_set_ctl (Some c) sa) /\
           ctls w' =
             <[c := mk_ctl (Some a) (rep_rc r)
                           (replicate (Z.to_nat MAX_CLIENTS) zero_client)
                           0 {[rep_rc r := EPOLLIN]} 0]> (ctls w).
Proof.
  intros Hctl Hty Hconn Ha r.
  pose proof (active_sub_conn_connected _ _ _ Hconn) as Hact.
  unfold xcm_tp_socket_enable_ctl. rewrite Hctl.
  rewrite (bind_Ok _ _ _ _ _ (XCM_TP_GETOPS_utls _ _ _ _ Hty)).
  unfold utls_ops; cbn [op_enable_ctl]. unfold utls_enable_ctl. rewrite Hctl.
  destruct Hty as (so & p & Hs & Ht & _).
  destruct Hconn as (_ & Hne & _).
  rewrite (bind_Ok _ _ _ _ _ (load_Some _ _ _ Hs)). rewrite Ht.
  rewrite (bind_Ok _ _ _ _ _ Hact).
  unfold enable_socket_ctl.
  rewrite (bind_Ok _ _ _ _ _ (load_Some _ _ _ Ha)).
  pose proof (ctl_create_run _ _ _ Ha) as Hcreate. cbv zeta in Hcreate. fold r in Hcreate.
  destruct (rep_rc r <? 0).
  - rewrite (bind_Ok _ _ _ _ _ Hcreate).
    erewrite bind_Ok by (apply load_Some; autorewrite with world; exact Ha).
    erewrite store_Some by (autorewrite with world; exact Ha).
    eexists. split; [reflexivity|].
    split; [autorewrite with world; apply lookup_insert_ne; congruence|].
    split; [autorewrite with world; apply lookup_insert_eq | reflexivity].
  - rewrite (bind_Ok _ _ _ _ _ Hcreate).
    erewrite bind_Ok by (apply load_Some; autorewrite with world; exact Ha).
    erewrite store_Some by (autorewrite with world; exact Ha).
    eexists. split; [reflexivity|].
    split; [autorewrite with world; apply lookup_insert_ne; congruence|].
    exists (fresh (dom (ctls w))).
    split; [apply not_elem_of_dom, is_fresh|].
    split; [autorewrite with world; apply lookup_insert_eq | reflexivity].
Qed.
End EnableCtl.

(** ** The control channels of a UTLS server socket *)

Section EnableCtlServer.
Context `{build_config} `{environment}.
Variable ctl_fuel : nat.

Lemma enable_socket_ctl_spec l so w :
  heap w !! l = Some so ->
  exists w' c,
    enable_socket_ctl (Some l) w = Ok tt w' /\
    heap w' = <[l := so_set_ctl c so]> (heap w) /\
    protos w' = protos w /\
    List.filter is_SysCreateUx (trace w') =
      List.filter is_SysCreateUx (trace w) ++ [SysCreateUx l] /\
    match c with
    | None => ctls w' = ctls w
    | Some cl =>
        exists x, ctls w !! cl = None /\ ctls w' = <[cl := x]> (ctls w) /\
                  ctl_socket x = Some l /\ ctl_num_clients x = 0 /\
                  ctl_reg_set x = {[ctl_server_fd x := EPOLLIN]}
    end.
Proof.
  intros Hl. unfold enable_socket_ctl.
  rewrite (bind_Ok _ _ _ _ _ (load_Some _ _ _ Hl)).
  pose proof (ctl_create_run _ _ _ Hl) as Hcreate. cbv zeta in Hcreate.
  destruct (rep_rc (env_reply (trace w) (SysCreateUx l)) <? 0).
  - rewrite (bind_Ok _ _ _ _ _ Hcreate).
    erewrite bind_Ok by (apply load_Some; autorewrite with world; exact Hl).
    erewrite store_Some by (autorewrite with world; exact Hl).
    eexists _, None. split; [reflexivity|]. autorewrite with world.
    split; [reflexivity|]. split; [reflexivity|].
    split; [rewrite List.filter_app; reflexivity | reflexivity].
  - rewrite (bind_Ok _ _ _ _ _ Hcreate).
    erewrite bind_Ok by (apply load_Some; autorewrite with world; exact Hl).
    erewrite store_Some by (autorewrite with world; exact Hl).
    eexists _, (Some (fresh (dom (ctls w)))). split; [reflexivity|].
    autorewrite with world.
    split; [reflexivity|]. split; [reflexivity|].
    split; [rewrite <- app_assoc, List.filter_app; reflexivity|].
    eexists. split; [apply not_elem_of_dom, is_fresh|].
    split; [reflexivity|]. auto.
Qed.

End EnableCtlServer.

(** ** The protocol registry as a map *)

Lemma proto_scan_min ps num name n i j :
  proto_scan ps num name n i = Some (Some j) ->
  forall k q, (i <= k < j)%nat -> ps !! k = Some q -> proto_name q <> name.
Proof.
  revert i. induction n as [|n IH]; intros i; simpl; [discriminate|].
  destruct (Z.of_nat i <? num) eqn:Ei; [|discriminate].
  destruct (ps !! i) as [p|] eqn:Ep; [|discriminate].
  destruct (String.eqb (proto_name p) name) eqn:En.
  - intros [= <-] k q Hk. lia.
  - intros Hs k q Hk Hq. destruct (decide (k = i)) as [->|Hne].
    + rewrite Ep in Hq. injection Hq as <-. apply String.eqb_neq. exact En.
    + apply (IH _ Hs k q); [lia | exact Hq].
Qed.

Lemma proto_scan_miss ps num name n i :
  proto_scan ps num name n i = Some None ->
  (Z.to_nat num <= i + n)%nat ->
  forall k q, (i <= k)%nat -> Z.of_nat k < num -> ps !! k = Some q ->
              proto_name q <> name.
Proof.
  revert i. induction n as [|n IH]; intros i; simpl.
  - intros _ Hn k q Hk Hlt. lia.
  - destruct (Z.of_nat i <? num) eqn:Ei.
    + destruct (ps !! i) as [p|] eqn:Ep; [|discriminate].
      destruct (String.eqb (proto_name p) name) eqn:En; [discriminate|].
      intros Hs Hn k q Hk Hlt Hq. destruct (decide (k = i)) as [->|Hne].
      * rewrite Ep in Hq. injection Hq as <-. apply String.eqb_neq. exact En.
      * apply (IH _ Hs ltac:(lia) k q); [lia | exact Hlt | exact Hq].
    + intros _ _ k q Hk Hlt. apply Z.ltb_ge in Ei. lia.
Qed.

Lemma proto_scan_in_array ps num name n i :
  num <= Z.of_nat (length ps) ->
  exists r, proto_scan ps num name n i = Some r.
Proof.
  intros Hlen. revert i. induction n as [|n IH]; intros i; simpl; [eauto|].
  destruct (Z.of_nat i <? num) eqn:Ei; [|eauto].
  apply Z.ltb_lt in Ei.
  destruct (lookup_lt_is_Some_2 ps i ltac:(lia)) as [p ->].
  destruct (String.eqb (proto_name p) name); eauto.
Qed.

(** X9: xcm_tp_proto_by_name.  With the count within the array the
    lookup returns and changes nothing; what it returns is the first
    entry in use that has the name, and NULL exactly when no entry in
    use has it.  Entries past [num_protos] are never looked at. *)
Theorem proto_by_name_first_match (w : World) (name : string) :
  num_protos w <= Z.of_nat (length (protos w)) ->
  exists r, xcm_tp_proto_by_name name w = Ok r w /\
    match r with
    | Some j =>
        Z.of_nat j < num_protos w /\
        (exists p, protos w !! j = Some p /\ proto_name p = name) /\
        (forall k q, (k < j)%nat -> protos w !! k = Some q -> proto_name q <> name)
    | None => ~ name_registered w name
    end.
Proof.
  intros Hlen. unfold xcm_tp_proto_by_name.
  destruct (proto_scan_in_array (protos w) (num_protos w) name
              (Z.to_nat (num_protos w)) 0 Hlen) as [r Hr].
  rewrite Hr. exists r. split; [reflexivity|].
  destruct r as [j|].
  - destruct (proto_scan_found _ _ _ _ _ _ Hr) as (_ & Hlt & Hp).
    split; [exact Hlt|]. split; [exact Hp|].
    intros k q Hk. apply (proto_scan_min _ _ _ _ _ _ Hr). lia.
  - intros (k & q & Hk & Hq & Hn).
    exact (proto_scan_miss _ _ _ _ _ Hr ltac:(lia) k q ltac:(lia) Hk Hq Hn).
Qed.

Lemma proto_scan_insert_other ps num name p n i :
  0 <= num -> (Z.to_nat num < length ps)%nat ->
  proto_name p <> name ->
  (i + n = Z.to_nat num)%nat ->
  forall r, proto_scan ps num name n i = Some r ->
            proto_scan (<[Z.to_nat num := p]> ps) (num + 1) name (S n) i = Some r.
Proof.
  intros Hnum Hlen Hne. revert i. induction n as [|n IH]; intros i Hi r.
  - simpl. intros [= <-].
    replace (Z.of_nat i <? num + 1) with true by (symmetry; apply Z.ltb_lt; lia).
    replace i with (Z.to_nat num) by lia.
    rewrite list_lookup_insert_eq by exact Hlen.
    apply String.eqb_neq in Hne. rewrite Hne. reflexivity.
  - change (proto_scan ps num name (S n) i) with
      (if Z.of_nat i <? num then
         match ps !! i with
         | Some q => if String.eqb (proto_name q) name then Some (Some i)
                     else proto_scan ps num name n (S i)
         | None => None
         end
       else Some None).
    change (proto_scan (<[Z.to_nat num := p]> ps) (num + 1) name (S (S n)) i) with
      (if Z.of_nat i <? num + 1 then
         match <[Z.to_nat num := p]> ps !! i with
         | Some q => if String.eqb (proto_name q) name then Some (Some i)
                     else proto_scan (<[Z.to_nat num := p]> ps) (num + 1) name (S n) (S i)
         | None => None
         end
       else Some None).
    replace (Z.of_nat i <? num) with true by (symmetry; apply Z.ltb_lt; lia).
    replace (Z.of_nat i <? num + 1) with true by (symmetry; apply Z.ltb_lt; lia).
    rewrite list_lookup_insert_ne by lia.
    destruct (ps !! i) as [q|]; [|discriminate].
    destruct (String.eqb (proto_name q) name); [trivial|].
    apply IH. lia.
Qed.

Section RegistryMap.
Context `{build_config}.

Lemma xcm_tp_register_Ok_any name ops w w' :
  xcm_tp_register name ops w = Ok tt w' ->
  (Z.of_nat (length (protos w)) > num_protos w) /\
  w' = set_registry (<[Z.to_nat (num_protos w) := mk_proto name (Some ops)]> (protos w))
                    (num_protos w + 1) w.
Proof.
  intros Hreg. unfold xcm_tp_register in Hreg.
  inv_steps.
  repeat match goal with
         | H : ut_assert _ _ = Ok _ _ |- _ =>
             apply ut_assert_Ok_inv in H as [-> _]
         | H : xcm_tp_proto_by_name _ _ = Ok _ _ |- _ =>
             apply xcm_tp_proto_by_name_Ok_inv in H as [-> _]
         end.
  match goal with
  | H : (if ?b then _ else _) _ = Ok _ _ |- _ =>
      destruct b eqn:Eb; [discriminate H|]; apply modify_Ok_inv in H; rename H into Hw
  end.
  apply orb_false_iff in Eb as [Eb _]. apply Z.leb_gt in Eb.
  split; [lia | exact Hw].
Qed.

(** X10: xcm_tp_register.  A registration that returns, in a debug or
    a release build, leaves the lookup of every other name as it was:
    the same entry index, or NULL as before.  Only the count and the
    slot at the old count change. *)
Theorem register_keeps_other_lookups (w w' : World) (name name' : string)
        (ops : ops_ref) (r : option nat) :
  0 <= num_protos w ->
  xcm_tp_register name ops w = Ok tt w' ->
  name' <> name ->
  xcm_tp_proto_by_name name' w = Ok r w ->
  xcm_tp_proto_by_name name' w' = Ok r w' /\
  num_protos w' = num_protos w + 1 /\
  (forall i, i <> Z.to_nat (num_protos w) -> protos w' !! i = protos w !! i) /\
  protos w' !! Z.to_nat (num_protos w) = Some (mk_proto name (Some ops)).
Proof.
  intros Hnum Hreg Hne Hlook.
  apply xcm_tp_register_Ok_any in Hreg as [Hlen ->].
  split; [|split; [reflexivity|split]].
  - unfold xcm_tp_proto_by_name in *.
    destruct (proto_scan (protos w) (num_protos w) name' (Z.to_nat (num_protos w)) 0)
      as [r0|] eqn:Hscan; [|discriminate].
    injection Hlook as ->.
    cbn [protos num_protos set_registry].
    replace (Z.to_nat (num_protos w + 1)) with (S (Z.to_nat (num_protos w))) by lia.
    rewrite (proto_scan_insert_other (protos w) (num_protos w) name'
               (mk_proto name (Some ops)) (Z.to_nat (num_protos w)) 0%nat Hnum
               ltac:(lia) ltac:(cbn; congruence) ltac:(lia) _ Hscan).
    reflexivity.
  - intros i Hi. cbn [protos set_registry]. apply list_lookup_insert_ne. congruence.
  - cbn [protos set_registry]. apply list_lookup_insert_eq. lia.
Qed.
End RegistryMap.

(** ** Socket creation and socket ids *)


(** ** utls_init, run forward *)

Lemma heap_set_next_id n w : heap (set_next_id n w) = heap w.
Proof. reflexivity. Qed.
Lemma protos_set_next_id n w : protos (set_next_id n w) = protos w.
Proof. reflexivity. Qed.
Lemma trace_set_next_id n w : trace (set_next_id n w) = trace w.
Proof. reflexivity. Qed.
Lemma num_protos_set_next_id n w : num_protos (set_next_id n w) = num_protos w.
Proof. reflexivity. Qed.
Lemma num_protos_set_heap m w : num_protos (set_heap m w) = num_protos w.
Proof. reflexivity. Qed.
Lemma num_protos_after_call `{environment} e w :
  num_protos (after_call e w) = num_protos w.
Proof. reflexivity. Qed.
Lemma next_id_set_next_id n w : next_id (set_next_id n w) = n.
Proof. reflexivity. Qed.
Lemma next_id_set_heap m w : next_id (set_heap m w) = next_id w.
Proof. reflexivity. Qed.
Lemma next_id_after_call `{environment} e w : next_id (after_call e w) = next_id w.
Proof. reflexivity. Qed.
#[export] Hint Rewrite heap_set_next_id protos_set_next_id trace_set_next_id
  num_protos_set_next_id num_protos_set_heap @num_protos_after_call
  next_id_set_next_id next_id_set_heap @next_id_after_call : world.

Lemma xcm_tp_proto_by_name_frame name w w' r :
  xcm_tp_proto_by_name name w = Ok r w ->
  protos w' = protos w -> num_protos w' = num_protos w ->
  xcm_tp_proto_by_name name w' = Ok r w'.
Proof.
  unfold xcm_tp_proto_by_name. intros Hrun -> ->.
  destruct (proto_scan _ _ _ _ _); [|discriminate].
  injection Hrun as ->. reflexivity.
Qed.

Lemma sub_proto_at_frame w w' c name i :
  sub_proto_at w c name i ->
  protos w' = protos w -> num_protos w' = num_protos w ->
  sub_proto_at w' c name i.
Proof.
  intros [Hc Hp] Hps Hn. split.
  - destruct Hc as [Hc|[Hc Hl]]; [left; exact Hc | right].
    split; [exact Hc|]. eapply xcm_tp_proto_by_name_frame; eassumption.
  - rewrite Hps. exact Hp.
Qed.

Lemma ux_proto_run w i :
  sub_proto_at w (ux_cached_proto w) XCM_UX_PROTO i ->
  exists w1, ux_proto w = Ok (Some i) w1 /\
    heap w1 = heap w /\ protos w1 = protos w /\ num_protos w1 = num_protos w /\
    trace w1 = trace w /\ next_id w1 = next_id w /\
    tls_cached_proto w1 = tls_cached_proto w.
Proof.
  intros [[Hc|[Hc Hl]] _]; unfold ux_proto, get_proto, bind, gets; rewrite Hc.
  - exists w. auto 10.
  - rewrite Hl. eexists. split; [reflexivity|]. auto 10.
Qed.

Lemma tls_proto_run w i :
  sub_proto_at w (tls_cached_proto w) XCM_TLS_PROTO i ->
  exists w1, tls_proto w = Ok (Some i) w1 /\
    heap w1 = heap w /\ protos w1 = protos w /\ num_protos w1 = num_protos w /\
    trace w1 = trace w /\ next_id w1 = next_id w.
Proof.
  intros [[Hc|[Hc Hl]] _]; unfold tls_proto, get_proto, bind, gets; rewrite Hc.
  - exists w. auto 10.
  - rewrite Hl. eexists. split; [reflexivity|]. auto 10.
Qed.

Lemma xcm_tp_socket_create_run pi p ops type epoll_fd is_blocking w :
  protos w !! pi = Some p -> proto_ops p = Some ops ->
  xcm_tp_socket_create (Some pi) type epoll_fd is_blocking w =
  Ok (Some (fresh (dom (heap w))))
     (set_heap (<[fresh (dom (heap w)) :=
                  created_socket pi type epoll_fd is_blocking (next_id w)]> (heap w))
               (set_next_id (to_int64 (next_id w + 1)) w)).
Proof.
  intros Hp Hops.
  unfold xcm_tp_socket_create, bind, gets. rewrite Hp, Hops.
  unfold alloc_socket, get_next_sock_id, bind, gets, modify, ret, load, store.
  cbn. repeat (rewrite lookup_insert_eq; cbn).
  rewrite insert_insert_eq. reflexivity.
Qed.

Section UtlsInitRuns.
Context `{build_config} `{environment}.

Lemma create_sub_socket_run pi p n type epoll_fd w :
  protos w !! pi = Some p -> proto_ops p = Some (ext_ops_ref n) ->
  let l := fresh (dom (heap w)) in
  let w1 := after_call (TpInit l)
              (set_heap (<[l := created_socket pi type epoll_fd false (next_id w)]>
                           (heap w))
                        (set_next_id (to_int64 (next_id w + 1)) w)) in
  create_sub_socket (Some pi) type epoll_fd w =
  if rep_rc (env_reply (trace w) (TpInit l)) <? 0
  then Ok None (set_heap (heap w) w1)
  else Ok (Some l) w1.
Proof.
  intros Hp Hops l w1. unfold create_sub_socket.
  rewrite (bind_Ok _ _ _ _ _ (xcm_tp_socket_create_run _ _ _ _ _ _ _ Hp Hops)).
  fold l. unfold xcm_tp_socket_init.
  erewrite bind_Ok.
  2:{ erewrite bind_Ok.
      2:{ apply XCM_TP_GETOPS_ext. exists (created_socket pi type epoll_fd false (next_id w)), p, n.
          autorewrite with world. rewrite lookup_insert_eq. auto. }
      cbn [ext_ops op_init].
      erewrite bind_Ok.
      2:{ apply tp_call_ext.
          exists (created_socket pi type epoll_fd false (next_id w)), p, n.
          autorewrite with world. rewrite lookup_insert_eq. auto. }
      reflexivity. }
  autorewrite with world. fold w1.
  destruct (rep_rc (env_reply (trace w) (TpInit l)) <? 0); [|reflexivity].
  erewrite bind_Ok.
  2:{ eapply xcm_tp_socket_destroy_Some. subst w1. autorewrite with world.
      apply lookup_insert_eq. }
  unfold ret. f_equal. f_equal. subst w1. autorewrite with world.
  rewrite delete_insert_eq. apply delete_id.
  apply not_elem_of_dom, is_fresh.
Qed.
End UtlsInitRuns.

Section UtlsInitOutcomes.
Context `{build_config} `{environment}.

(** From the first sub-socket to the result of the second init call. *)
Ltac init_second_sub Hout Hsub1 Htls Hc1 Ht1 Hp1 w1 so it :=
  rewrite (bind_Ok _ _ _ _ _ Hsub1) in Hout;
  erewrite bind_Ok in Hout by (apply us_write_Some; heap_lookup);
  erewrite bind_Ok in Hout by (apply load_Some; heap_lookup);
  cbn [so_type so_epoll_fd so_set_priv] in Hout;
  autorewrite with world in Hout;
  let w4 := fresh "w4" in
  let Hrun4 := fresh "Hrun4" in
  let Hh4 := fresh "Hh4" in
  let Hp4 := fresh "Hp4" in
  let Hn4 := fresh "Hn4" in
  let Ht4 := fresh "Ht4" in
  let Hi4 := fresh "Hi4" in
  let Hsub2 := fresh "Hsub2" in
  let Hlt := fresh "Hlt" in
  match type of Hout with
  | _ = bind tls_proto _ ?W =>
      destruct (tls_proto_run W it) as (w4 & Hrun4 & Hh4 & Hp4 & Hn4 & Ht4 & Hi4);
      [ change (tls_cached_proto W) with (tls_cached_proto w1); rewrite Hc1;
        eapply sub_proto_at_frame;
        [exact Htls | autorewrite with world; congruence..] | ]
  end;
  autorewrite with world in Hh4, Hp4, Hn4, Ht4, Hi4;
  rewrite Ht1 in Ht4; rewrite Hp1 in Hp4;
  destruct Htls as [_ (pt & nt & Hpt & Hot)];
  pose proof (create_sub_socket_run it pt nt (so_type so) (so_epoll_fd so) w4
                ltac:(rewrite Hp4; exact Hpt) Hot) as Hsub2;
  cbv zeta in Hsub2; rewrite Hh4, Ht4, Hi4 in Hsub2;
  rewrite (bind_Ok _ _ _ _ _ Hrun4) in Hout;
  match type of Hsub2 with
  | context [TpInit (fresh (dom ?h))] =>
      assert (Hlt : h !! fresh (dom h) = None) by (apply not_elem_of_dom, is_fresh);
      set (lt := fresh (dom h)) in *
  end;
  repeat (apply lookup_insert_None in Hlt as [Hlt ?]);
  match type of Hsub2 with
  | _ = (if ?b then _ else _) => destruct b eqn:Etls
  end;
  rewrite (bind_Ok _ _ _ _ _ Hsub2) in Hout;
  erewrite bind_Ok in Hout by (apply us_write_Some; heap_lookup);
  erewrite bind_Ok in Hout by (apply TOUTLS_Some; heap_lookup);
  cbn in Hout.

(** The facts about the final world, read off its explicit form. *)
Ltac init_facts out lu lt Hlu Hlt Ht4 Eux Etls :=
  subst out; eexists _, _, lu, lt, _;
  split; [reflexivity|]; split; [exact Hlu|]; split; [exact Hlt|];
  split; [autorewrite with world; rewrite Ht4, <- app_assoc; reflexivity|];
  split; [autorewrite with world;
          rewrite ?lookup_delete_ne by congruence;
          rewrite ?lookup_insert_eq; reflexivity|];
  split; [reflexivity|];
  split;
  [ let Hx := fresh "Hx" in
    intros l Hl [x Hx]; autorewrite with world;
    rewrite ?lookup_delete_ne by congruence;
    rewrite ?lookup_insert_ne by congruence; reflexivity |];
  split;
  [ intros l Hl1 Hl2 Hl; autorewrite with world;
    rewrite ?lookup_delete_ne by congruence;
    rewrite ?lookup_insert_ne by congruence; exact Hl |];
  cbv zeta; rewrite Eux, Etls; autorewrite with world.

(** X12: utls_init.  With "ux" and "tls" registered as wrapped
    transports, utls_init returns: it creates and initialises a UX
    sub-socket and then a TLS sub-socket, the only outside calls being
    the two init calls, and returns 0 if both succeed and -1
    otherwise.  A sub-socket whose init fails is freed at once and its
    field is NULL.  When only the TLS init fails, the UX sub-socket is
    freed without a close call and the field [ux_socket] keeps its
    address; when only the UX init fails, the TLS sub-socket is left
    allocated at the address in [tls_socket].  Sockets other than
    these are untouched. *)
Theorem utls_init_outcomes (w : World) (s : loc) (so : xcm_socket) (iu it : nat) :
  heap w !! s = Some so ->
  sub_proto_at w (ux_cached_proto w) XCM_UX_PROTO iu ->
  sub_proto_at w (tls_cached_proto w) XCM_TLS_PROTO it ->
  exists rc w' lu lt us',
    utls_init (Some s) w = Ok rc w' /\
    heap w !! lu = None /\ heap w !! lt = None /\
    trace w' = trace w ++ [TpInit lu; TpInit lt] /\
    heap w' !! s = Some (so_set_priv us' so) /\ laddr us' = laddr (so_priv so) /\
    (forall l, l <> s -> is_Some (heap w !! l) -> heap w' !! l = heap w !! l) /\
    (forall l, l <> lu -> l <> lt -> heap w !! l = None -> heap w' !! l = None) /\
    let ux_failed := rep_rc (env_reply (trace w) (TpInit lu)) <? 0 in
    let tls_failed := rep_rc (env_reply (trace w ++ [TpInit lu]) (TpInit lt)) <? 0 in
    match ux_failed, tls_failed with
    | false, false =>
        rc = 0 /\ ux_socket us' = Some lu /\ tls_socket us' = Some lt /\ lu <> lt /\
        heap w' !! lu = Some (created_socket iu (so_type so) (so_epoll_fd so) false
                                             (next_id w)) /\
        heap w' !! lt = Some (created_socket it (so_type so) (so_epoll_fd so) false
                                             (to_int64 (next_id w + 1)))
    | false, true =>
        rc = -1 /\ ux_socket us' = Some lu /\ tls_socket us' = None /\
        heap w' !! lu = None /\ heap w' !! lt = None
    | true, false =>
        rc = -1 /\ ux_socket us' = None /\ tls_socket us' = Some lt /\
        is_Some (heap w' !! lt)
    | true, true =>
        rc = -1 /\ ux_socket us' = None /\ tls_socket us' = None /\
        heap w' !! lu = None /\ heap w' !! lt = None
    end.
Proof.
  intros Hs Hux Htls.
  assert (Hlu : heap w !! fresh (dom (heap w)) = None)
    by (apply not_elem_of_dom, is_fresh).
  assert (Hsu : s <> fresh (dom (heap w))) by congruence.
  destruct (ux_proto_run _ _ Hux) as (w1 & Hrun1 & Hh1 & Hp1 & Hn1 & Ht1 & Hi1 & Hc1).
  destruct Hux as [_ (pu & nu & Hpu & Hou)].
  pose proof (create_sub_socket_run iu pu nu (so_type so) (so_epoll_fd so) w1
                ltac:(rewrite Hp1; exact Hpu) Hou) as Hsub1.
  cbv zeta in Hsub1. rewrite Hh1, Ht1, Hi1 in Hsub1.
  remember (utls_init (Some s) w) as out eqn:Hout. unfold utls_init in Hout.
  rewrite (bind_Ok _ _ _ _ _ (load_Some _ _ _ Hs)) in Hout.
  rewrite (bind_Ok _ _ _ _ _ Hrun1) in Hout.
  set (lu := fresh (dom (heap w))) in *.
  destruct (rep_rc (env_reply (trace w) (TpInit lu)) <? 0) eqn:Eux;
    init_second_sub Hout Hsub1 Htls Hc1 Ht1 Hp1 w1 so it.
  - init_facts out lu lt Hlu Hlt Ht4 Eux Etls.
    rewrite ?lookup_insert_ne by congruence. auto.
  - init_facts out lu lt Hlu Hlt Ht4 Eux Etls.
    rewrite lookup_insert_ne by congruence. rewrite lookup_insert_eq. eauto.
  - erewrite bind_Ok in Hout by (eapply xcm_tp_socket_destroy_Some; heap_lookup).
    init_facts out lu lt Hlu Hlt Ht4 Eux Etls.
    split; [reflexivity|]. split; [reflexivity|]. split; [reflexivity|].
    split; [apply lookup_delete_eq|].
    rewrite lookup_delete_ne by congruence.
    rewrite ?lookup_insert_ne by congruence. exact Hlt.
  - init_facts out lu lt Hlu Hlt Ht4 Eux Etls.
    split; [reflexivity|]. split; [reflexivity|]. split; [reflexivity|].
    split; [congruence|].
    split.
    + rewrite ?lookup_insert_ne by congruence. apply lookup_insert_eq.
    + rewrite lookup_insert_ne by congruence. apply lookup_insert_eq.
Qed.
End UtlsInitOutcomes.

(** ** A request on the control channel and its answer *)

Section CtlRequest.
Context `{build_config} `{environment}.

Lemma get_client_run c x i cl w :
  ctls w !! c = Some x -> 0 <= i -> ctl_clients x !! Z.to_nat i = Some cl ->
  get_client (Some c) i w = Ok cl w.
Proof.
  intros Hx Hi Hcl. unfold get_client.
  rewrite (bind_Ok _ _ _ _ _ (load_ctl_Some _ _ _ Hx)).
  apply array_get_Some; assumption.
Qed.

Lemma set_client_run c x i cl w :
  ctls w !! c = Some x -> 0 <= i < Z.of_nat (length (ctl_clients x)) ->
  set_client (Some c) i cl w =
  Ok tt (set_ctls (<[c := ctl_set_clients (<[Z.to_nat i := cl]> (ctl_clients x)) x]>
                     (ctls w)) w).
Proof.
  intros Hx Hi. unfold set_client.
  rewrite (bind_Ok _ _ _ _ _ (load_ctl_Some _ _ _ Hx)).
  rewrite (bind_Ok _ _ _ _ _ (array_set_run _ _ _ _ Hi)).
  eapply store_ctl_Some. exact Hx.
Qed.

Lemma epoll_reg_set_mod_run c x fd events w :
  ctls w !! c = Some x ->
  epoll_reg_set_mod (Some c) fd events w =
  Ok tt (set_ctls (<[c := ctl_set_reg_set (<[fd := events]> (ctl_reg_set x)) x]>
                     (ctls w))
                  (after_call (SysEpollCtl fd (Some events)) w)).
Proof.
  intros Hx. unfold epoll_reg_set_mod.
  rewrite (bind_Ok _ _ _ _ _ (ext_call_run _ _)).
  erewrite bind_Ok by (apply load_ctl_Some; ctl_lookup).
  erewrite store_ctl_Some by ctl_lookup.
  autorewrite with world. reflexivity.
Qed.

(** A client with a response pending: the response is sent. *)
Lemma process_client_send_run c x i cl w :
  ctls w !! c = Some x ->
  0 <= i < Z.of_nat (length (ctl_clients x)) ->
  ctl_clients x !! Z.to_nat i = Some cl ->
  cl_is_response_pending cl = true ->
  let rs := env_reply (trace w) (SysSend (cl_fd cl) (cl_pending_response cl)) in
  let w1 := set_errno_w (errno w)
              (after_call (SysSend (cl_fd cl) (cl_pending_response cl)) w) in
  process_client i (Some c) w =
  if rep_rc rs <? 0 then Ok (if rep_errno rs =? EAGAIN then 0 else -1) w1
  else
    Ok 0 (set_ctls
            (<[c := ctl_set_reg_set (<[cl_fd cl := EPOLLIN]> (ctl_reg_set x))
                      (ctl_set_clients
                         (<[Z.to_nat i := cl_set_pending false cl]> (ctl_clients x)) x)]>
               (ctls w))
            (after_call (SysEpollCtl (cl_fd cl) (Some EPOLLIN)) w1)).
Proof.
  intros Hx Hi Hcl Hpend rs w1. unfold process_client.
  rewrite (bind_Ok _ _ _ _ _ (get_client_run _ _ _ _ _ Hx (proj1 Hi) Hcl)).
  rewrite Hpend.
  do 4 ctl_fwd. fold rs. autorewrite with world. fold w1.
  destruct (rep_rc rs <? 0).
  - unfold after_call. autorewrite with world. cbn [errno set_errno_w log_event].
    fold rs. destruct (rep_errno rs =? EAGAIN); reflexivity.
  - erewrite bind_Ok by (eapply set_client_run; [subst w1; ctl_lookup | exact Hi]).
    erewrite bind_Ok by (eapply epoll_reg_set_mod_run; subst w1; ctl_lookup).
    unfold ret. f_equal. subst w1. autorewrite with world. ctl_fields.
    rewrite insert_insert_eq. reflexivity.
Qed.

(** X13: process_client.  A client with no response pending whose
    recv delivers a whole get-attribute request is answered on the next
    round: the first call returns 0, asks xcm_attr_get for the named
    attribute, stores the answer in the client slot (a confirmation
    with the value and its length if the attribute call succeeded, a
    rejection with its errno otherwise), marks the response pending and
    turns the descriptor's epoll interest to EPOLLOUT; the next call
    sends exactly that stored message and, if the send succeeds, clears
    the flag and turns the interest back to EPOLLIN. *)
Theorem ctl_request_answered_next_round (c : loc) (x : ctl) (i : Z) (cl : client)
        (w : World) :
  ctls w !! c = Some x ->
  0 <= i < Z.of_nat (length (ctl_clients x)) ->
  ctl_clients x !! Z.to_nat i = Some cl ->
  cl_is_response_pending cl = false ->
  0 <= sizeof_ctl_proto_msg ->
  let fd := cl_fd cl in
  let req := rep_msg (env_reply (trace w) (SysRecv fd)) in
  rep_rc (env_reply (trace w) (SysRecv fd)) = sizeof_ctl_proto_msg ->
  msg_type req = ctl_proto_type_get_attr_req ->
  let get := XcmAttrGet (ctl_socket x) (msg_attr_name req) in
  let ra := env_reply (trace w ++ [SysRecv fd; SysEpollCtl fd (Some EPOLLOUT)]) get in
  exists w1 x1 res,
    process_client i (Some c) w = Ok 0 w1 /\
    trace w1 = trace w ++ [SysRecv fd; SysEpollCtl fd (Some EPOLLOUT); get] /\
    ctls w1 = <[c := x1]> (ctls w) /\
    ctl_clients x1 = <[Z.to_nat i := mk_client fd true res]> (ctl_clients x) /\
    ctl_reg_set x1 = <[fd := EPOLLOUT]> (ctl_reg_set x) /\
    ctl_num_clients x1 = ctl_num_clients x /\
    (if 0 <=? rep_rc ra
     then msg_type res = ctl_proto_type_get_attr_cfm /\
          attr_value_len (msg_attr res) = rep_rc ra /\
          attr_any_value (msg_attr res) = rep_bytes ra /\
          attr_value_type (msg_attr res) = rep_num ra
     else msg_type res = ctl_proto_type_get_attr_rej /\
          msg_rej_errno res = rep_errno ra) /\
    let rs := env_reply (trace w1) (SysSend fd res) in
    exists rc2 w2,
      process_client i (Some c) w1 = Ok rc2 w2 /\
      if rep_rc rs <? 0
      then rc2 = (if rep_errno rs =? EAGAIN then 0 else -1) /\
           ctls w2 = ctls w1 /\ trace w2 = trace w1 ++ [SysSend fd res]
      else rc2 = 0 /\
           trace w2 = trace w1 ++ [SysSend fd res; SysEpollCtl fd (Some EPOLLIN)] /\
           exists x2, ctls w2 = <[c := x2]> (ctls w) /\
             ctl_clients x2 = <[Z.to_nat i := mk_client fd false res]> (ctl_clients x) /\
             ctl_reg_set x2 = <[fd := EPOLLIN]> (ctl_reg_set x).
Proof.
  intros Hx Hi Hcl Hpend Hsz fd req Hrc Hty get ra.
  assert (Hrun : exists w1 x1 res,
    process_client i (Some c) w = Ok 0 w1 /\
    trace w1 = trace w ++ [SysRecv fd; SysEpollCtl fd (Some EPOLLOUT); get] /\
    ctls w1 = <[c := x1]> (ctls w) /\
    ctl_clients x1 = <[Z.to_nat i := mk_client fd true res]> (ctl_clients x) /\
    ctl_reg_set x1 = <[fd := EPOLLOUT]> (ctl_reg_set x) /\
    ctl_num_clients x1 = ctl_num_clients x /\
    (if 0 <=? rep_rc ra
     then msg_type res = ctl_proto_type_get_attr_cfm /\
          attr_value_len (msg_attr res) = rep_rc ra /\
          attr_any_value (msg_attr res) = rep_bytes ra /\
          attr_value_type (msg_attr res) = rep_num ra
     else msg_type res = ctl_proto_type_get_attr_rej /\
          msg_rej_errno res = rep_errno ra)).
  { unfold process_client.
    rewrite (bind_Ok _ _ _ _ _ (get_client_run _ _ _ _ _ Hx (proj1 Hi) Hcl)).
    rewrite Hpend.
    do 4 ctl_fwd. fold fd. fold req.
    rewrite Hrc, Hty.
    destruct (sizeof_ctl_proto_msg <? 0) eqn:E; [apply Z.ltb_lt in E; lia|].
    rewrite Z.eqb_refl. cbn [negb].
    erewrite bind_Ok by (eapply set_client_run; [ctl_lookup | exact Hi]).
    erewrite bind_Ok by (eapply epoll_reg_set_mod_run; ctl_lookup).
    ctl_fwd. ctl_fields.
    erewrite bind_Ok
      by (eapply get_client_run;
          [ctl_lookup | lia | ctl_fields; apply list_lookup_insert_eq; lia]).
    unfold process_get_attr.
    do 4 ctl_fwd. fold get.
    autorewrite with world. rewrite <- !app_assoc.
    change ([SysRecv fd] ++ [SysEpollCtl fd (Some EPOLLOUT)])
      with [SysRecv fd; SysEpollCtl fd (Some EPOLLOUT)].
    fold ra.
    destruct (0 <=? rep_rc ra) eqn:Era.
    - ctl_fwd.
      erewrite bind_Ok
        by (eapply set_client_run;
            [ctl_lookup | ctl_fields; rewrite length_insert; exact Hi]).
      eexists _, _, _. split; [reflexivity|].
      autorewrite with world. ctl_fields.
      rewrite !insert_insert_eq, list_insert_insert_eq.
      split; [rewrite <- !app_assoc; reflexivity|].
      split; [reflexivity|].
      ctl_fields. split; [reflexivity|]. split; [reflexivity|].
      split; [reflexivity|]. cbn. auto.
    - ctl_fwd.
      erewrite bind_Ok
        by (eapply set_client_run;
            [ctl_lookup | ctl_fields; rewrite length_insert; exact Hi]).
      eexists _, _, _. split; [reflexivity|].
      autorewrite with world. ctl_fields.
      rewrite !insert_insert_eq, list_insert_insert_eq.
      split; [rewrite <- !app_assoc; reflexivity|].
      split; [reflexivity|].
      ctl_fields. split; [reflexivity|]. split; [reflexivity|].
      split; [reflexivity|]. cbn. unfold after_call. cbn. auto. }
  destruct Hrun as (w1 & x1 & res & Hrun & Htr & Hc1 & Hcl1 & Hreg1 & Hn1 & Hres).
  exists w1, x1, res. repeat (split; [assumption|]).
  assert (Hx1 : ctls w1 !! c = Some x1) by (rewrite Hc1; apply lookup_insert_eq).
  assert (Hi1 : 0 <= i < Z.of_nat (length (ctl_clients x1)))
    by (rewrite Hcl1, length_insert; exact Hi).
  assert (Hcl1' : ctl_clients x1 !! Z.to_nat i = Some (mk_client fd true res))
    by (rewrite Hcl1; apply list_lookup_insert_eq; lia).
  pose proof (process_client_send_run c x1 i _ w1 Hx1 Hi1 Hcl1' eq_refl) as Hsend.
  cbv zeta in Hsend. cbn [cl_fd cl_pending_response] in Hsend.
  intros rs. fold rs in Hsend.
  destruct (rep_rc rs <? 0).
  - eexists _, _. split; [exact Hsend|].
    split; [reflexivity|]. autorewrite with world. auto.
  - eexists _, _. split; [exact Hsend|].
    split; [reflexivity|]. autorewrite with world.
    split; [rewrite <- app_assoc; reflexivity|].
    eexists. split; [rewrite Hc1, insert_insert_eq; reflexivity|].
    ctl_fields. rewrite Hcl1, Hreg1, list_insert_insert_eq, insert_insert_eq.
    auto.
Qed.
End CtlRequest.

(** ** Accepting a client of the control channel *)

Section CtlAccept.
Context `{build_config} `{environment}.

Lemma epoll_reg_set_add_run c x fd events w :
  ctls w !! c = Some x ->
  epoll_reg_set_add (Some c) fd events w =
  Ok tt (set_ctls (<[c := ctl_set_reg_set (<[fd := events]> (ctl_reg_set x)) x]>
                     (ctls w))
                  (after_call (SysEpollCtl fd (Some events)) w)).
Proof. apply epoll_reg_set_mod_run. Qed.

Lemma epoll_reg_set_del_run c x fd w :
  ctls w !! c = Some x ->
  epoll_reg_set_del (Some c) fd w =
  Ok tt (set_ctls (<[c := ctl_set_reg_set (delete fd (ctl_reg_set x)) x]> (ctls w))
                  (after_call (SysEpollCtl fd None) w)).
Proof.
  intros Hx. unfold epoll_reg_set_del.
  rewrite (bind_Ok _ _ _ _ _ (ext_call_run _ _)).
  erewrite bind_Ok by (apply load_ctl_Some; ctl_lookup).
  erewrite store_ctl_Some by ctl_lookup.
  autorewrite with world. reflexivity.
Qed.

(** X14: accept_client.  On a channel with a free client slot
    accept_client returns.  If accept fails nothing but the call is
    made.  If the new descriptor cannot be made non-blocking it is
    closed and the channel is as before.  Otherwise the descriptor is
    registered for EPOLLIN and stored in the first free slot with no
    response pending, the count goes up by one, and the listening
    descriptor is taken out of the epoll set exactly when the count
    has reached MAX_CLIENTS. *)
Theorem accept_client_outcomes (c : loc) (x : ctl) (w : World) :
  ctls w !! c = Some x -> ctl_ok x -> ctl_num_clients x < MAX_CLIENTS ->
  let listen_fd := ctl_server_fd x in
  let fd := rep_rc (env_reply (trace w) (SysAccept listen_fd)) in
  let nonblock := SysSetBlocking fd false in
  let rb := rep_rc (env_reply (trace w ++ [SysAccept listen_fd]) nonblock) in
  exists w',
    accept_client (Some c) w = Ok tt w' /\ ctl_frame w w' /\
    if fd <? 0 then
      trace w' = trace w ++ [SysAccept listen_fd] /\ ctls w' = ctls w
    else if rb <? 0 then
      trace w' = trace w ++ [SysAccept listen_fd; nonblock; SysClose fd] /\
      ctls w' = ctls w
    else
      exists x' old,
        ctls w' = <[c := x']> (ctls w) /\
        ctl_num_clients x' = ctl_num_clients x + 1 /\
        ctl_clients x' = <[Z.to_nat (ctl_num_clients x) := mk_client fd false old]>
                           (ctl_clients x) /\
        ctl_server_fd x' = listen_fd /\
        ctl_reg_set x' =
          (if ctl_num_clients x + 1 =? MAX_CLIENTS
           then delete listen_fd (<[fd := EPOLLIN]> (ctl_reg_set x))
           else <[fd := EPOLLIN]> (ctl_reg_set x)) /\
        trace w' = trace w ++
          [SysAccept listen_fd; nonblock; SysEpollCtl fd (Some EPOLLIN)] ++
          (if ctl_num_clients x + 1 =? MAX_CLIENTS
           then [SysEpollCtl listen_fd None] else []).
Proof.
  intros Hx [Hlen Hnum] Hfree listen_fd fd nonblock rb.
  unfold accept_client. do 2 ctl_fwd. fold listen_fd. fold fd.
  destruct (fd <? 0).
  { eexists. split; [reflexivity|].
    split; [apply ctl_frame_after_call; reflexivity|].
    autorewrite with world. auto. }
  ctl_fwd. fold nonblock. autorewrite with world. fold rb.
  destruct (rb <? 0).
  { ctl_fwd. eexists. split; [reflexivity|].
    split; [frame_chain|].
    autorewrite with world. rewrite <- !app_assoc. auto. }
  erewrite bind_Ok by (eapply epoll_reg_set_add_run; ctl_lookup).
  ctl_fwd. ctl_fields.
  destruct (lookup_lt_is_Some_2 (ctl_clients x) (Z.to_nat (ctl_num_clients x))
              ltac:(unfold MAX_CLIENTS in *; lia)) as [old Hold].
  rewrite (bind_Ok _ _ _ _ _ (array_get_Some _ _ _ _ (proj1 Hnum) Hold)).
  ctl_fwd.
  erewrite bind_Ok
    by (eapply set_client_run;
        [ctl_lookup | ctl_fields; unfold MAX_CLIENTS in *; lia]).
  ctl_fwd. ctl_fields.
  destruct (ctl_num_clients x + 1 =? MAX_CLIENTS).
  - erewrite epoll_reg_set_del_run by ctl_lookup.
    eexists. split; [reflexivity|]. split; [frame_chain|].
    eexists _, (cl_pending_response old). autorewrite with world. ctl_fields.
    rewrite !insert_insert_eq.
    split; [reflexivity|]. do 4 (split; [reflexivity|]).
    rewrite <- !app_assoc. reflexivity.
  - eexists. split; [reflexivity|]. split; [frame_chain|].
    eexists _, (cl_pending_response old). autorewrite with world. ctl_fields.
    rewrite !insert_insert_eq.
    split; [reflexivity|]. do 4 (split; [reflexivity|]).
    rewrite <- !app_assoc. reflexivity.
Qed.
End CtlAccept.

(** ** The attribute table of a UTLS socket *)


Lemma slot_write_at {A} (done rest : list (option A)) (y : option A) (x : A) :
  UtlsAttrs.slot_write (done ++ y :: rest) (length done) x
  = Some (done ++ Some x :: rest).
Proof.
  unfold UtlsAttrs.slot_write. rewrite length_app. cbn [length].
  destruct (decide _) as [_|Hn]; [|lia].
  f_equal. induction done as [|z done IH]; [reflexivity|].
  cbn. f_equal. exact IH.
Qed.

Lemma slot_read_at {A} (done rest : list (option A)) (x : A) :
  UtlsAttrs.slot_read (done ++ Some x :: rest) (length done) = Some x.
Proof.
  unfold UtlsAttrs.slot_read. rewrite lookup_app_r by lia.
  rewrite Nat.sub_diag. reflexivity.
Qed.

Lemma add_attr_copy (a : xcm_tp_attr) :
  match tpa_set_fun a with
  | Some _ =>
      mk_tp_attr
        (tpa_name match tpa_get_fun a with
                  | Some _ => mk_tp_attr (tpa_name a) (tpa_type a) (tpa_set_fun a)
                                         (Some proxy_fun)
                  | None => a
                  end)
        (tpa_type match tpa_get_fun a with
                  | Some _ => mk_tp_attr (tpa_name a) (tpa_type a) (tpa_set_fun a)
                                         (Some proxy_fun)
                  | None => a
                  end)
        (Some proxy_fun)
        (tpa_get_fun match tpa_get_fun a with
                     | Some _ => mk_tp_attr (tpa_name a) (tpa_type a) (tpa_set_fun a)
                                            (Some proxy_fun)
                     | None => a
                     end)
  | None =>
      match tpa_get_fun a with
      | Some _ => mk_tp_attr (tpa_name a) (tpa_type a) (tpa_set_fun a) (Some proxy_fun)
      | None => a
      end
  end = proxied a.
Proof. destruct a as [n ty [s|] [g|]]; reflexivity. Qed.

Lemma add_attr_run d1 d2 d3 y1 y2 y3 r1 r2 r3 a sock :
  length d2 = length d1 -> length d3 = length d1 ->
  UtlsAttrs.add_attr
    (mk_tables (d1 ++ y1 :: r1) (d2 ++ y2 :: r2) (d3 ++ y3 :: r3) (length d1))
           a sock =
  Some (mk_tables (d1 ++ Some (proxied a) :: r1) (d2 ++ Some a :: r2)
                  (d3 ++ Some sock :: r3) (S (length d1))).
Proof.
  intros H2 H3. unfold UtlsAttrs.add_attr.
  cbn [attrs_len utls_attrs real_attrs real_sockets].
  rewrite add_attr_copy, slot_write_at.
  rewrite <- H2 at 1. rewrite slot_write_at.
  rewrite <- H3 at 1. rewrite slot_write_at. reflexivity.
Qed.

Lemma add_attrs_run attrs sock : forall d1 d2 d3 r1 r2 r3,
  length d2 = length d1 -> length d3 = length d1 ->
  (length attrs <= length r1)%nat -> (length attrs <= length r2)%nat ->
  (length attrs <= length r3)%nat ->
  UtlsAttrs.add_attrs (mk_tables (d1 ++ r1) (d2 ++ r2) (d3 ++ r3) (length d1))
                      attrs sock =
  Some (mk_tables (d1 ++ (Some ∘ proxied <$> attrs) ++ drop (length attrs) r1)
                  (d2 ++ (Some <$> attrs) ++ drop (length attrs) r2)
                  (d3 ++ replicate (length attrs) (Some sock) ++ drop (length attrs) r3)
                  (length d1 + length attrs)).
Proof.
  induction attrs as [|a attrs IH]; intros d1 d2 d3 r1 r2 r3 H2 H3 L1 L2 L3.
  - cbn. rewrite Nat.add_0_r. reflexivity.
  - destruct r1 as [|y1 r1]; [cbn in L1; lia|].
    destruct r2 as [|y2 r2]; [cbn in L2; lia|].
    destruct r3 as [|y3 r3]; [cbn in L3; lia|].
    cbn [UtlsAttrs.add_attrs]. rewrite add_attr_run by assumption.
    cbn in L1, L2, L3.
    pose proof (IH (d1 ++ [Some (proxied a)]) (d2 ++ [Some a]) (d3 ++ [Some sock])
                   r1 r2 r3) as Hrec.
    rewrite !length_app in Hrec. cbn [length] in Hrec.
    rewrite <- !app_assoc in Hrec. cbn [app] in Hrec.
    replace (length d1 + 1)%nat with (S (length d1)) in Hrec by lia.
    rewrite Hrec by lia.
    cbn [length fmap list_fmap replicate drop app].
    f_equal. f_equal. lia.
Qed.

Section Dispatch.
Variable xcm_tp_socket_get_attrs : loc -> list xcm_tp_attr.

Lemma update_attrs_run (us : utls_socket) (t : utls_attr_tables) :
  let ux_attrs := match ux_socket us with
                  | Some l => xcm_tp_socket_get_attrs l | None => [] end in
  let tls_attrs := match tls_socket us with
                   | Some l => xcm_tp_socket_get_attrs l | None => [] end in
  ux_attrs ++ tls_attrs <> [] ->
  UtlsAttrs.update_attrs xcm_tp_socket_get_attrs us t =
  Some (mk_tables (Some ∘ proxied <$> ux_attrs ++ tls_attrs)
                  (Some <$> ux_attrs ++ tls_attrs)
                  (replicate (length ux_attrs) (Some (ux_socket us)) ++
                   replicate (length tls_attrs) (Some (tls_socket us)))
                  (length (ux_attrs ++ tls_attrs))).
Proof.
  intros ux_attrs tls_attrs Hne. unfold UtlsAttrs.update_attrs.
  fold ux_attrs. fold tls_attrs.
  destruct (decide _) as [Hz|_].
  { destruct ux_attrs, tls_attrs; cbn in Hz; try lia. contradiction. }
  set (n := (length ux_attrs + length tls_attrs)%nat).
  pose proof (add_attrs_run ux_attrs (ux_socket us) [] [] []
                (UtlsAttrs.ut_realloc (utls_attrs t) n)
                (UtlsAttrs.ut_realloc (real_attrs t) n)
                (UtlsAttrs.ut_realloc (real_sockets t) n) eq_refl eq_refl) as H1.
  unfold UtlsAttrs.ut_realloc in *. rewrite !length_resize in H1.
  cbn [app length Nat.add] in H1. rewrite H1 by (subst n; lia).
  pose proof (add_attrs_run tls_attrs (tls_socket us)
                (Some ∘ proxied <$> ux_attrs) (Some <$> ux_attrs)
                (replicate (length ux_attrs) (Some (ux_socket us)))
                (drop (length ux_attrs) (resize n None (utls_attrs t)))
                (drop (length ux_attrs) (resize n None (real_attrs t)))
                (drop (length ux_attrs) (resize n None (real_sockets t)))) as H2.
  rewrite !length_fmap, !length_replicate, !length_drop, !length_resize in H2.
  rewrite H2 by (subst n; lia).
  rewrite !drop_drop.
  rewrite !drop_ge by (rewrite length_resize; subst n; lia).
  rewrite !app_nil_r, !fmap_app, length_app. reflexivity.
Qed.

(** X16: the attribute table of a UTLS socket.  utls_get_attrs hands
    back one entry for each attribute of the UX sub-socket followed by
    one for each attribute of the TLS sub-socket, a missing sub-socket
    counting for none: each entry has the name and type of the
    attribute it stands for and a proxy in place of each accessor that
    attribute has.  The proxy of entry [i] calls the accessor of that
    very attribute on the sub-socket it came from.  When there is no
    attribute at all the tables, and what was handed back before, stay
    as they were. *)
Theorem utls_attr_proxies_reach_owner (us : utls_socket) (t : utls_attr_tables) :
  let ux_attrs := match ux_socket us with
                  | Some l => xcm_tp_socket_get_attrs l | None => [] end in
  let tls_attrs := match tls_socket us with
                   | Some l => xcm_tp_socket_get_attrs l | None => [] end in
  (ux_attrs ++ tls_attrs = [] ->
   UtlsAttrs.utls_get_attrs xcm_tp_socket_get_attrs us t
   = Some (t, (utls_attrs t, attrs_len t))) /\
  (ux_attrs ++ tls_attrs <> [] ->
   exists t',
     UtlsAttrs.utls_get_attrs xcm_tp_socket_get_attrs us t
     = Some (t', (Some ∘ proxied <$> ux_attrs ++ tls_attrs,
                  length (ux_attrs ++ tls_attrs))) /\
     forall i a, (ux_attrs ++ tls_attrs) !! i = Some a ->
       let owner := if decide (i < length ux_attrs)%nat
                    then ux_socket us else tls_socket us in
       UtlsAttrs.get_attr_proxy t' i =
         match tpa_get_fun a with
         | Some f => Some (mk_call f owner a)
         | None => None
         end /\
       UtlsAttrs.set_attr_proxy t' i =
         match tpa_set_fun a with
         | Some f => Some (mk_call f owner a)
         | None => None
         end).
Proof.
  intros ux_attrs tls_attrs. split.
  - intros Hnil. unfold UtlsAttrs.utls_get_attrs, UtlsAttrs.update_attrs.
    fold ux_attrs. fold tls_attrs.
    apply app_eq_nil in Hnil as [-> ->]. reflexivity.
  - intros Hne. unfold UtlsAttrs.utls_get_attrs.
    rewrite (update_attrs_run us t Hne). fold ux_attrs. fold tls_attrs.
    eexists. split; [reflexivity|].
    intros i a Hi.
    set (owner := if decide (i < length ux_attrs)%nat
                  then ux_socket us else tls_socket us).
    assert (Hra : UtlsAttrs.slot_read (Some <$> ux_attrs ++ tls_attrs) i = Some a).
    { unfold UtlsAttrs.slot_read. rewrite list_lookup_fmap, Hi. reflexivity. }
    assert (Hrs : UtlsAttrs.slot_read
                    (replicate (length ux_attrs) (Some (ux_socket us)) ++
                             replicate (length tls_attrs) (Some (tls_socket us))) i
                  = Some owner).
    { unfold UtlsAttrs.slot_read. subst owner.
      pose proof (lookup_lt_Some _ _ _ Hi) as Hlt. rewrite length_app in Hlt.
      destruct (decide (i < length ux_attrs)%nat) as [Hl|Hl].
      - rewrite lookup_app_l by (rewrite length_replicate; exact Hl).
        rewrite lookup_replicate_2 by exact Hl. reflexivity.
      - rewrite lookup_app_r by (rewrite length_replicate; lia).
        rewrite length_replicate.
        rewrite lookup_replicate_2 by lia. reflexivity. }
    unfold UtlsAttrs.get_attr_proxy, UtlsAttrs.set_attr_proxy.
    cbn [real_attrs real_sockets]. rewrite Hra, Hrs. split; reflexivity.
Qed.
End Dispatch.

(** ** A request for all attributes *)

Section CtlGetAll.
Context `{build_config} `{environment}.

Lemma attr_eta (a : ctl_proto_attr) :
  mk_attr (attr_name a) (attr_value_type a) (attr_any_value a) (attr_value_len a) = a.
Proof. destruct a. reflexivity. Qed.

Lemma list_insert_at {A} (done rest : list A) (y x : A) :
  <[length done := x]> (done ++ y :: rest) = done ++ x :: rest.
Proof. induction done as [|z done IH]; [reflexivity|]. cbn. f_equal. exact IH. Qed.

(** The callback on a slot that is there, below the bound the
    assertion asks for. *)
Lemma ctl_add_attr_run (done rest : list ctl_proto_attr) (old a : ctl_proto_attr)
      (cfm : ctl_proto_msg) w :
  msg_attrs cfm = done ++ old :: rest ->
  msg_attrs_len cfm = Z.of_nat (length done) ->
  Z.of_nat (length done) + 1 < CTL_PROTO_MAX_ATTRS ->
  attr_value_len old < sizeof_any_value ->
  attr_value_len a <= sizeof_any_value ->
  add_attr (attr_name a) (attr_value_type a) (attr_any_value a) (attr_value_len a) cfm w
  = Ok (msg_set_attrs (done ++ a :: rest) (Z.of_nat (length done) + 1) cfm) w.
Proof.
  intros Hl Hn Hmax Hold Hfit. unfold add_attr.
  cbn [msg_attrs_len msg_attrs msg_set_attrs]. rewrite Hn, Hl.
  replace (Z.of_nat (length done) + 1 <? CTL_PROTO_MAX_ATTRS) with true
    by (symmetry; apply Z.ltb_lt; exact Hmax).
  rewrite (bind_Ok _ _ _ _ _ (ut_assert_true w)).
  erewrite bind_Ok
    by (apply array_get_Some;
        [lia | rewrite Nat2Z.id, lookup_app_r, Nat.sub_diag by lia; reflexivity]).
  replace (attr_value_len old <? sizeof_any_value) with true
    by (symmetry; apply Z.ltb_lt; exact Hold).
  rewrite (bind_Ok _ _ _ _ _ (ut_assert_true w)).
  replace (sizeof_any_value <? attr_value_len a) with false
    by (symmetry; apply Z.ltb_ge; exact Hfit).
  erewrite bind_Ok
    by (apply array_set_run; rewrite length_app; cbn [length]; lia).
  rewrite Nat2Z.id, list_insert_at, attr_eta. reflexivity.
Qed.

Lemma ctl_add_attrs_run (reported : list ctl_proto_attr) :
  forall (done rest : list ctl_proto_attr) (cfm : ctl_proto_msg) w,
    msg_attrs cfm = done ++ rest ->
    msg_attrs_len cfm = Z.of_nat (length done) ->
    (length reported <= length rest)%nat ->
    Z.of_nat (length done + length reported) < CTL_PROTO_MAX_ATTRS ->
    Forall (fun old => attr_value_len old < sizeof_any_value) rest ->
    Forall (fun a => attr_value_len a <= sizeof_any_value) reported ->
    add_attrs reported cfm w
    = Ok (msg_set_attrs (done ++ reported ++ drop (length reported) rest)
                        (Z.of_nat (length done + length reported)) cfm) w.
Proof.
  induction reported as [|a reported IH];
    intros done rest cfm w Hl Hn Hlen Hmax Hold Hfit.
  - cbn [add_attrs length app]. rewrite drop_0.
    rewrite Nat.add_0_r, <- Hl, <- Hn. destruct cfm. reflexivity.
  - destruct rest as [|old rest]; [cbn in Hlen; lia|].
    apply Forall_cons in Hold as [Hold Hrest].
    apply Forall_cons in Hfit as [Hfit Hfits].
    cbn [length] in Hlen, Hmax. cbn [add_attrs].
    rewrite (bind_Ok _ _ _ _ _
               (ctl_add_attr_run done rest old a cfm w Hl Hn ltac:(lia) Hold Hfit)).
    rewrite (IH (done ++ [a]) rest); cbn [msg_attrs msg_attrs_len msg_set_attrs].
    + rewrite length_app. cbn [length drop]. rewrite <- !app_assoc. cbn [app].
      replace (length done + 1 + length reported)%nat
        with (length done + S (length reported))%nat by lia.
      reflexivity.
    + rewrite <- app_assoc. reflexivity.
    + rewrite length_app. cbn [length]. lia.
    + lia.
    + rewrite length_app. cbn [length]. lia.
    + exact Hrest.
    + exact Hfits.
Qed.


Lemma bind_ext {A B} (m : M A) (f g : A -> M B) w :
  (forall a w', f a w' = g a w') -> bind m f w = bind m g w.
Proof. intros Hfg. unfold bind. destruct (m w); auto. Qed.

Lemma ctl_add_attrs_app (l1 l2 : list ctl_proto_attr) : forall cfm w,
  add_attrs (l1 ++ l2) cfm w = (let* c := add_attrs l1 cfm in add_attrs l2 c) w.
Proof.
  induction l1 as [|a l1 IH]; intros cfm w; [reflexivity|].
  cbn [app add_attrs]. rewrite bind_assoc. apply bind_ext. exact IH.
Qed.

(** X18: the bound of the list of all attributes.  In a build with
    assertions, a socket that reports CTL_PROTO_MAX_ATTRS attributes
    or more makes process_get_all_attr abort the process: the callback
    asserts that the count stays below CTL_PROTO_MAX_ATTRS after it
    has been raised, so the last slot of the array is never filled. *)
Theorem ctl_get_all_aborts_at_capacity (socket : ptr) (response : ctl_proto_msg)
        (w : World) :
  NDEBUG = false ->
  0 < CTL_PROTO_MAX_ATTRS ->
  length (msg_attrs response) = Z.to_nat CTL_PROTO_MAX_ATTRS ->
  Forall (fun a => attr_value_len a < sizeof_any_value) (msg_attrs response) ->
  let reported := rep_attrs (env_reply (trace w) (XcmAttrGetAll socket)) in
  Forall (fun a => attr_value_len a <= sizeof_any_value) reported ->
  CTL_PROTO_MAX_ATTRS <= Z.of_nat (length reported) ->
  process_get_all_attr socket response w = Abort.
Proof.
  intros Hdbg Hpos Hslots Hold reported Hfit Hmany.
  unfold process_get_all_attr. ctl_fwd. fold reported.
  set (k := Z.to_nat (CTL_PROTO_MAX_ATTRS - 1)).
  rewrite <- (take_drop k reported) in Hfit |- *.
  apply Forall_app in Hfit as [Hfit1 Hfit2].
  assert (Hk : length (take k reported) = k) by (rewrite length_take; lia).
  destruct (drop k reported) as [|a l2] eqn:Hdrop.
  { apply (f_equal length) in Hdrop. rewrite length_drop in Hdrop.
    cbn in Hdrop. lia. }
  rewrite ctl_add_attrs_app.
  erewrite bind_Ok
    by (apply (ctl_add_attrs_run (take k reported) [] (msg_attrs response));
        [ reflexivity | reflexivity | rewrite Hk; lia
        | cbn [length Nat.add]; rewrite Hk; lia | exact Hold | exact Hfit1 ]).
  cbn [add_attrs]. unfold add_attr at 1.
  cbn [msg_attrs_len msg_attrs msg_set_attrs length Nat.add]. rewrite Hk.
  replace (Z.of_nat k + 1 <? CTL_PROTO_MAX_ATTRS) with false
    by (symmetry; apply Z.ltb_ge; lia).
  unfold ut_assert. rewrite Hdbg. reflexivity.
Qed.
End CtlGetAll.

(** ** Setting the local address of a UTLS socket *)

Section SetLocalAddr.
Context `{build_config} `{environment}.
Variable ext_set_local_addr : N -> option (ptr -> string -> M Z).

(** X19: utls_set_local_addr behind the attribute "xcm.local_addr".
    On a UTLS socket the setter fails with EACCES when the socket has
    no TLS sub-socket, as after a connect that succeeded over UX, and
    with EINVAL when the address is no UTLS address.  Otherwise the
    address is written again as a TLS address and handed to the
    [set_local_addr] operation of the TLS sub-socket, whose result is
    the result; a TLS transport without that operation gives EACCES.
    The UX sub-socket is never asked. *)
Theorem utls_local_addr_goes_to_tls (w : World) (s : loc) (so : xcm_socket)
        (type : xcm_socket_type) (addr : string) :
  utls_socket_of_type w s type ->
  heap w !! s = Some so ->
  (tls_socket (so_priv so) = None ->
   set_local_attr ext_set_local_addr (Some s) addr w
   = Ok (-1) (set_errno_w EACCES w)) /\
  (forall lt prc perrno host port,
     tls_socket (so_priv so) = Some lt ->
     xcm_addr_parse_utls addr = (prc, perrno, (host, port)) ->
     prc < 0 ->
     set_local_attr ext_set_local_addr (Some s) addr w
     = Ok (-1) (set_errno_w EINVAL w)) /\
  (forall lt st pt n prc perrno host port tls_addr,
     tls_socket (so_priv so) = Some lt ->
     heap w !! lt = Some st -> protos w !! so_proto st = Some pt ->
     proto_ops pt = Some (ext_ops_ref n) ->
     xcm_addr_parse_utls addr = (prc, perrno, (host, port)) ->
     0 <= prc ->
     xcm_addr_make_tls host port XCM_ADDR_MAX = (0, tls_addr) ->
     set_local_attr ext_set_local_addr (Some s) addr w
     = match ext_set_local_addr n with
       | Some set_local_addr => set_local_addr (Some lt) tls_addr w
       | None => Ok (-1) (set_errno_w EACCES w)
       end).
Proof.
  intros (so' & p & Hs' & _ & Hp & Hops) Hs.
  rewrite Hs in Hs'. injection Hs' as <-.
  assert (Hdisp : set_local_attr ext_set_local_addr (Some s) addr w
                  = utls_set_local_addr ext_set_local_addr (Some s) addr w).
  { unfold set_local_attr, xcm_tp_socket_set_local_addr.
    rewrite (bind_Ok _ _ _ _ _ (load_Some _ _ _ Hs)).
    unfold bind at 1. unfold gets. rewrite Hp, Hops. reflexivity. }
  rewrite Hdisp. unfold utls_set_local_addr.
  rewrite (bind_Ok _ _ _ _ _ (TOUTLS_Some _ _ _ Hs)).
  split; [|split].
  - intros ->. reflexivity.
  - intros lt prc perrno host port -> -> Hneg.
    replace (prc <? 0) with true by (symmetry; apply Z.ltb_lt; exact Hneg).
    reflexivity.
  - intros lt st pt n prc perrno host port tls_addr -> Hlt Hpt Hopt -> Hprc ->.
    replace (prc <? 0) with false by (symmetry; apply Z.ltb_ge; exact Hprc).
    change (0 =? 0) with true. rewrite (bind_Ok _ _ _ _ _ (ut_assert_true w)).
    unfold xcm_tp_socket_set_local_addr.
    rewrite (bind_Ok _ _ _ _ _ (load_Some _ _ _ Hlt)).
    unfold bind at 1. unfold gets. rewrite Hpt, Hopt.
    cbn [sub_set_local_addr]. destruct (ext_set_local_addr n); reflexivity.
Qed.
End SetLocalAddr.

(** ** The protocol of an address *)

Section ProtoByAddrFacts.
Variable xcm_addr_parse_proto : string -> Z -> Z * Z * string.
Context `{build_config}.

(** X20: xcm_tp_proto_by_addr.  An address whose protocol part cannot
    be parsed gives NULL and the registry is not consulted.  Otherwise
    the result is the registry entry of that protocol if one is in use,
    with nothing changed, and NULL with errno ENOPROTOOPT if the
    protocol is not registered. *)
Theorem proto_by_addr_unknown_is_ENOPROTOOPT (w : World) (addr name : string)
        (rc perrno : Z) :
  num_protos w <= Z.of_nat (length (protos w)) ->
  xcm_addr_parse_proto addr (XCM_ADDR_MAX_PROTO_LEN + 1) = (rc, perrno, name) ->
  (rc < 0 ->
   xcm_tp_proto_by_addr xcm_addr_parse_proto addr w
   = Ok None (set_errno_w perrno w)) /\
  (0 <= rc -> ~ name_registered w name ->
   xcm_tp_proto_by_addr xcm_addr_parse_proto addr w
   = Ok None (set_errno_w ENOPROTOOPT w)) /\
  (0 <= rc -> name_registered w name ->
   exists j p,
     xcm_tp_proto_by_addr xcm_addr_parse_proto addr w = Ok (Some j) w /\
     Z.of_nat j < num_protos w /\
     protos w !! j = Some p /\ proto_name p = name).
Proof.
  intros Hlen Hparse. unfold xcm_tp_proto_by_addr. rewrite Hparse.
  assert (Hlook : exists r, xcm_tp_proto_by_name name w = Ok r w /\
            match r with
            | Some j => Z.of_nat j < num_protos w /\
                        exists p, protos w !! j = Some p /\ proto_name p = name
            | None => ~ name_registered w name
            end).
  { unfold xcm_tp_proto_by_name.
    destruct (proto_scan_in_array (protos w) (num_protos w) name
                (Z.to_nat (num_protos w)) 0 Hlen) as [r Hr].
    rewrite Hr. exists r. split; [reflexivity|].
    destruct r as [j|].
    - destruct (proto_scan_found _ _ _ _ _ _ Hr) as (_ & Hlt & Hp). auto.
    - intros (k & q & Hk & Hq & Hn).
      exact (proto_scan_miss _ _ _ _ _ Hr ltac:(lia) k q ltac:(lia) Hk Hq Hn). }
  destruct Hlook as (r & Hrun & Hr).
  split; [|split].
  - intros Hneg.
    replace (rc <? 0) with true by (symmetry; apply Z.ltb_lt; exact Hneg).
    reflexivity.
  - intros Hrc Hnot.
    replace (rc <? 0) with false by (symmetry; apply Z.ltb_ge; exact Hrc).
    rewrite (bind_Ok _ _ _ _ _ Hrun).
    destruct r as [j|]; [|reflexivity].
    destruct Hr as (Hj & p & Hp & Hn).
    exfalso. apply Hnot. exists j, p. auto.
  - intros Hrc Hreg.
    replace (rc <? 0) with false by (symmetry; apply Z.ltb_ge; exact Hrc).
    rewrite (bind_Ok _ _ _ _ _ Hrun).
    destruct r as [j|]; [|contradiction].
    destruct Hr as (Hj & p & Hp & Hn).
    exists j, p. auto.
Qed.
End ProtoByAddrFacts.

(** ** The attribute "xcm.blocking" *)

Section BlockingAttrFacts.
Context `{build_config} `{environment}.
Variable xcm_set_blocking : ptr -> bool -> M Z.

(** X21: set_blocking_attr and get_blocking_attr.  What
    get_blocking_attr writes can be handed back to set_blocking_attr
    with the length it returned: xcm_set_blocking is then called with
    the flag the socket has, and the result is 0 or -1 by the sign of
    its result.  A value of any other length is refused with EINVAL
    and xcm_set_blocking is not called. *)
Theorem blocking_attr_round_trip (w : World) (s : loc) (so : xcm_socket)
        (buf : list byte) (capacity : Z) :
  heap w !! s = Some so ->
  (0 < length buf)%nat -> sizeof_bool <= capacity ->
  (exists buf',
     get_blocking_attr (Some s) buf capacity w = Ok (sizeof_bool, buf') w /\
     set_blocking_attr xcm_set_blocking (Some s) buf' sizeof_bool w
     = (let* rc := xcm_set_blocking (Some s) (so_is_blocking so) in
        ret (if rc <? 0 then -1 else 0)) w) /\
  (forall value len,
     len <> sizeof_bool ->
     set_blocking_attr xcm_set_blocking (Some s) value len w
     = Ok (-1) (set_errno_w EINVAL w)).
Proof.
  intros Hs Hbuf Hcap. split.
  - unfold get_blocking_attr.
    rewrite (bind_Ok _ _ _ _ _ (load_Some _ _ _ Hs)).
    unfold get_bool_attr.
    replace (capacity <? sizeof_bool) with false
      by (symmetry; apply Z.ltb_ge; exact Hcap).
    destruct buf as [|b0 buf]; [cbn in Hbuf; lia|].
    eexists. split; [reflexivity|].
    unfold set_blocking_attr, set_bool_attr. rewrite Z.eqb_refl.
    cbn [negb app drop length].
    unfold bind at 1. unfold ret at 1. cbn [fst snd].
    change (0 <? 0) with false. cbv iota.
    replace (negb (Byte.eqb (if so_is_blocking so then x01 else x00) x00))
      with (so_is_blocking so) by (destruct (so_is_blocking so); reflexivity).
    apply bind_ext. intros rc w'. destruct (rc <? 0); reflexivity.
  - intros value len Hlen. unfold set_blocking_attr, set_bool_attr.
    replace (len =? sizeof_bool) with false
      by (symmetry; apply Z.eqb_neq; exact Hlen).
    reflexivity.
Qed.
End BlockingAttrFacts.

(** ** The listening socket of a control channel *)

Section CreateUxFacts.
Variable sys_rc : list sys_call -> sys_call -> Z.
Variable S_ISDIR : list sys_call -> string -> bool.
Variable ctl_get_dir : string.
Variable getpid : Z.
Variable ctl_derive_path : string -> Z -> Z -> string.

(** Membership in a list written out. *)
Ltac in_list := rewrite !elem_of_cons; auto 10.
Ltac not_in_list H :=
  exfalso; rewrite !elem_of_cons, elem_of_nil in H; intuition discriminate.

(** X22: create_ux.  The result is -1 or the descriptor socket()
    returned.  When it is -1 no descriptor is left open: a descriptor
    that socket() returned has been closed.  When bind had succeeded
    and listen or the switch to non-blocking mode failed, the socket
    file is unlinked before the close.  On success the calls are stat,
    unlink, socket, bind, listen and the switch to non-blocking mode,
    and the descriptor returned is the only one left open. *)
Theorem create_ux_leaves_no_descriptor (sock_id : Z) (hist : list sys_call) :
  let path := ctl_derive_path ctl_get_dir getpid sock_id in
  let h2 := hist ++ [sys_stat ctl_get_dir; sys_unlink path] in
  let fd := sys_rc h2 sys_socket in
  let rc_bind := sys_rc (h2 ++ [sys_socket]) (sys_bind fd path) in
  let out := create_ux sys_rc S_ISDIR ctl_get_dir getpid ctl_derive_path
                       sock_id hist in
  exists calls,
    snd out = hist ++ calls /\
    (fst out = -1 \/ (fst out = fd /\ 0 <= fd)) /\
    open_fds sys_rc hist calls = (if 0 <=? fst out then [fst out] else []) /\
    (0 <= fst out ->
     calls = [sys_stat ctl_get_dir; sys_unlink path; sys_socket;
              sys_bind fd path; sys_listen fd 2; sys_set_blocking fd false]) /\
    (fst out = -1 -> sys_bind fd path ∈ calls -> 0 <= rc_bind ->
     exists pre, calls = pre ++ [sys_unlink path; sys_close fd]).
Proof.
  intros path h2 fd rc_bind out. subst out.
  unfold create_ux, sys. fold path.
  rewrite <- !app_assoc. cbn [app]. fold h2. fold fd.
  assert (Hfd : sys_rc ((hist ++ [sys_stat ctl_get_dir]) ++ [sys_unlink path])
                       sys_socket = fd)
    by (subst fd h2; rewrite <- app_assoc; reflexivity).
  destruct (sys_rc hist (sys_stat ctl_get_dir) <? 0) eqn:Estat.
  { exists [sys_stat ctl_get_dir]. cbn [fst snd open_fds].
    split; [reflexivity|]. split; [left; reflexivity|]. split; [reflexivity|].
    split; [lia|]. intros _ Hin. not_in_list Hin. }
  destruct (S_ISDIR hist ctl_get_dir) eqn:Edir; cbn [negb].
  2:{ exists [sys_stat ctl_get_dir]. cbn [fst snd open_fds].
      split; [reflexivity|]. split; [left; reflexivity|]. split; [reflexivity|].
      split; [lia|]. intros _ Hin. not_in_list Hin. }
  destruct (fd <? 0) eqn:Efd.
  { exists [sys_stat ctl_get_dir; sys_unlink path; sys_socket].
    cbn [fst snd open_fds]. rewrite Hfd, Efd.
    split; [reflexivity|]. split; [left; reflexivity|]. split; [reflexivity|].
    split; [lia|]. intros _ Hin. not_in_list Hin. }
  apply Z.ltb_ge in Efd.
  assert (Hb : sys_rc (hist ++ [sys_stat ctl_get_dir; sys_unlink path; sys_socket])
                      (sys_bind fd path) = rc_bind)
    by (subst rc_bind h2; rewrite <- app_assoc; reflexivity).
  rewrite Hb.
  assert (Hopen : forall rest,
            open_fds sys_rc hist
              (sys_stat ctl_get_dir :: sys_unlink path :: sys_socket :: rest)
            = if bool_decide (sys_close fd ∈ rest)
              then open_fds sys_rc (h2 ++ [sys_socket]) rest
              else fd :: open_fds sys_rc (h2 ++ [sys_socket]) rest).
  { intros rest. cbn [open_fds]. rewrite Hfd.
    replace (fd <? 0) with false by (symmetry; apply Z.ltb_ge; exact Efd).
    subst h2. rewrite <- !app_assoc. reflexivity. }
  destruct (rc_bind <? 0) eqn:Ebind.
  { eexists. cbn [fst snd]. split; [reflexivity|]. split; [left; reflexivity|].
    split; [rewrite Hopen, bool_decide_eq_true_2 by in_list; reflexivity|].
    split; [lia|]. intros _ _ Hok. apply Z.ltb_lt in Ebind. lia. }
  destruct (sys_rc _ (sys_listen fd 2) <? 0).
  { eexists. cbn [fst snd]. split; [reflexivity|]. split; [left; reflexivity|].
    split; [rewrite Hopen, bool_decide_eq_true_2 by in_list; reflexivity|].
    split; [lia|]. intros _ _ _.
    exists [sys_stat ctl_get_dir; sys_unlink path; sys_socket;
            sys_bind fd path; sys_listen fd 2]. reflexivity. }
  destruct (sys_rc _ (sys_set_blocking fd false) <? 0).
  { eexists. cbn [fst snd]. split; [reflexivity|]. split; [left; reflexivity|].
    split; [rewrite Hopen, bool_decide_eq_true_2 by in_list; reflexivity|].
    split; [lia|]. intros _ _ _.
    exists [sys_stat ctl_get_dir; sys_unlink path; sys_socket;
            sys_bind fd path; sys_listen fd 2; sys_set_blocking fd false].
    reflexivity. }
  eexists. cbn [fst snd]. split; [reflexivity|].
  split; [right; split; [reflexivity | exact Efd]|].
  split.
  { rewrite Hopen, bool_decide_eq_false_2.
    - replace (0 <=? fd) with true by (symmetry; apply Z.leb_le; exact Efd).
      reflexivity.
    - intros Hin. not_in_list Hin. }
  split; [reflexivity|]. intros Hneg. lia.
Qed.
End CreateUxFacts.

(** ** An accept that finds nothing *)

Section UtlsAcceptFailure.
Context `{build_config} `{environment}.
Variable ctl_fuel : nat.

(** X23: utls_accept when neither listener has a connection.  With
    listeners that have no control channel of their own, and both
    accept calls returning a value other than 0, utls_accept returns
    -1 after accept and update on the UX listener and then on the TLS
    listener.  The two sub-sockets of the connection socket are freed
    with no close call to their transports, and the connection socket
    itself, with the addresses of the two in its fields, is left as it
    was. *)
Theorem utls_accept_failure_frees_both (w : World) (conn srv cu ct su st : loc) :
  utls_ready w conn cu ct ->
  utls_listening w srv su st ->
  ext_socket w su -> ext_socket w st ->
  let r1 := rep_rc (env_reply (trace w) (TpAccept cu su)) in
  let w1 := after_call (TpUpdate su) (after_call (TpAccept cu su) w) in
  let r2 := rep_rc (env_reply (trace w1) (TpAccept ct st)) in
  r1 <> 0 -> r2 <> 0 ->
  utls_accept ctl_fuel (Some conn) (Some srv) w
  = Ok (-1) (set_heap (delete ct (delete cu (heap w)))
               (after_call (TpUpdate st) (after_call (TpAccept ct st) w1))).
Proof.
  intros ((so & Hs & Hux & Htls) & Hn1 & Hn2 & Hn3 & Heu & Het)
         ((sso & Hsrv & Hsux & Hstls) & _ & _) Hesu Hest r1 w1 r2 Hr1 Hr2.
  pose proof Heu as (sou & pu & nu & Hlu & _).
  pose proof Het as (sot & pt & nt & Hlt & _).
  unfold utls_accept.
  fwd. fwd. rewrite Hux, Hsux.
  erewrite bind_Ok
    by (apply xcm_tp_socket_accept_ext_run;
        [apply ext_socket_is_any; exact Heu | exact Hesu]).
  cbv beta. fold r1.
  replace (r1 =? 0) with false by (symmetry; apply Z.eqb_neq; exact Hr1).
  fold w1.
  fwd. fwd. rewrite Htls, Hstls.
  erewrite bind_Ok
    by (apply xcm_tp_socket_accept_ext_run;
        [apply ext_socket_is_any; ext_at | ext_at]).
  cbv beta. fold r2.
  replace (r2 =? 0) with false by (symmetry; apply Z.eqb_neq; exact Hr2).
  fwd. unfold ret. f_equal.
Qed.
End UtlsAcceptFailure.

(** ** Counters and message size of a UTLS connection *)

Section UtlsCounters.
Context `{build_config} `{environment}.
Variable ctl_fuel : nat.

(** X25: the counter attributes and xcm.max_msg_size of a UTLS
    connection socket.  With one sub-socket left, each counter
    attribute of the UTLS socket gives the eight bytes of that counter
    of the sub-socket, and xcm.max_msg_size the value the transport of
    the sub-socket reports for it.  The counters of the UTLS socket
    itself are not read. *)
Theorem utls_counters_are_the_sub_sockets (w : World) (s a : loc) (sa : xcm_socket)
        (value : list byte) (capacity : Z) :
  utls_socket_of_type w s xcm_socket_type_conn ->
  utls_connected w s a ->
  heap w !! a = Some sa ->
  sizeof_int64 <= capacity -> capacity <= Z.of_nat (length value) ->
  (forall field,
     get_cnt_attr (tp_ops ctl_fuel) field (Some s) value capacity w
     = Ok (sizeof_int64, le_bytes 8 (field (so_cnt sa)) ++ drop 8 value) w) /\
  get_max_msg_attr (tp_ops ctl_fuel) (Some s) value capacity w
  = Ok (sizeof_int64,
        le_bytes 8 (to_int64 (rep_rc (env_reply (trace w) (TpMaxMsg a))))
        ++ drop 8 value)
       (after_call (TpMaxMsg a) w).
Proof.
  intros Hty Hconn Ha Hcap Hbuf.
  pose proof (XCM_TP_GETOPS_utls ctl_fuel _ _ _ Hty) as Hops.
  pose proof (active_sub_conn_connected _ _ _ Hconn) as Hact.
  pose proof Hconn as (_ & _ & He).
  pose proof (ext_socket_is_any _ _ He) as Hany.
  split.
  - intros field.
    apply (get_cnt_attr_fits (tp_ops ctl_fuel) field (Some s) value capacity w a sa w
             Hcap Hbuf); [|exact Ha].
    unfold xcm_tp_socket_get_cnt. rewrite (bind_Ok _ _ _ _ _ Hops).
    unfold utls_ops; cbn [op_get_cnt].
    destruct (utls_dispatch ctl_fuel _ _ _ Hconn) as (_ & _ & _ & _ & Hcnt).
    exact Hcnt.
  - destruct Hty as (so & p & Hs & Ht & _).
    apply (get_max_msg_attr_fits (tp_ops ctl_fuel) s so value capacity w
             (utls_ops ctl_fuel) _ _ Hs Ht Hcap Hbuf Hops).
    unfold utls_ops; cbn [op_max_msg]. unfold utls_max_msg.
    rewrite (bind_Ok _ _ _ _ _ Hact).
    unfold xcm_tp_socket_max_msg.
    rewrite (bind_Ok _ _ _ _ _ (XCM_TP_GETOPS_ext _ _ Hany)).
    unfold ext_ops; cbn [op_max_msg].
    rewrite (bind_Ok _ _ _ _ _ (tp_call_ext TpMaxMsg _ _ Hany)). reflexivity.
Qed.
End UtlsCounters.

(** * Sample runs of the further properties *)

(** Closing the sample UTLS connection socket before any connect. *)
Lemma utls_close_frees_both_witness :
  let w := sample_utls_world false xcm_socket_type_conn in
  exists rc w',
    @utls_close debug_build (sample_env false) (Some 1%positive) w = Ok rc w' /\
    heap w' !! 2%positive = None /\ heap w' !! 3%positive = None.
Proof.
  intros w.
  assert (Hready : utls_ready w 1%positive 2%positive 3%positive) by sample_fact.
  destruct (@utls_close_frees_both debug_build (sample_env false)
              w 1%positive 2%positive 3%positive Hready) as [Hclose _].
  eexists _, _. split; [exact Hclose|].
  split; vm_compute; reflexivity.
Defined.

(** Finishing the sample UTLS server socket. *)
Lemma utls_finish_server_in_order_witness :
  let w := sample_utls_world true xcm_socket_type_server in
  exists w',
    @utls_finish debug_build (sample_env true) 3 (Some 1%positive) w = Ok 0 w' /\
    tp_events w' = (tp_events w ++
                    [TpFinish 2%positive; TpUpdate 2%positive;
                     TpFinish 3%positive; TpUpdate 3%positive])%list.
Proof.
  intros w.
  assert (Hready : utls_ready w 1%positive 2%positive 3%positive) by sample_fact.
  pose proof (@utls_finish_server_in_order debug_build (sample_env true) 3
                w 1%positive 2%positive 3%positive Hready
                ltac:(vm_compute; reflexivity)) as Hrun.
  eexists. split; [exact Hrun|]. vm_compute. reflexivity.
Defined.


(** The local address of the sample UTLS server bound to port 0. *)
Lemma utls_server_local_addr_from_tls_witness :
  let w := sample_listening_world true in
  exists w',
    @utls_get_local_addr debug_build (sample_env true) (Some 1%positive) false w
    = Ok (Some "utls:127.0.0.1:40000") w'.
Proof.
  intros w.
  assert (Hready : utls_ready w 1%positive 2%positive 3%positive) by sample_fact.
  assert (Hso : exists so, heap w !! 1%positive = Some so /\
                           so_type so = xcm_socket_type_server)
    by (eexists; split; vm_compute; reflexivity).
  destruct Hso as (so & Hs & Hty).
  destruct (@utls_server_local_addr_from_tls debug_build (sample_env true)
              w 1%positive 2%positive 3%positive so false Hready Hs Hty)
    as [_ Haddr].
  eexists.
  apply (Haddr "tls:127.0.0.1:40000" "127.0.0.1" 40000 "utls:127.0.0.1:40000");
    vm_compute; reflexivity.
Defined.

(** A connect to an address that is no UTLS address. *)
Lemma utls_unparseable_address_tears_down_witness :
  let w := sample_utls_world false xcm_socket_type_conn in
  exists w',
    @utls_connect debug_build (sample_env false) 3 (Some 1%positive) "bogus" w
    = Ok (-1) w' /\
    tp_events w' = (tp_events w ++ [TpClose 2%positive; TpClose 3%positive])%list.
Proof.
  intros w.
  assert (Hready : utls_ready w 1%positive 2%positive 3%positive) by sample_fact.
  destruct (@utls_unparseable_address_tears_down debug_build (sample_env false) 3
              w 1%positive 2%positive 3%positive "bogus" (-1) EINVAL
              (mk_host EmptyString) 0 Hready
              ltac:(vm_compute; reflexivity) ltac:(lia)) as [Hconn _].
  eexists. split; [exact Hconn|]. vm_compute. reflexivity.
Defined.

(** A UTLS server whose TLS listener cannot be made. *)
Lemma utls_server_failure_paths_witness :
  let env := sample_env_failing (is_TpServer_on 3%positive) in
  let w := sample_utls_world true xcm_socket_type_server in
  exists w',
    @utls_server debug_build env 3 (Some 1%positive) "utls:127.0.0.1:14001" w
    = Ok (-1) w' /\
    tp_events w' = (tp_events w ++
                    [TpServer 3%positive "tls:127.0.0.1:14001";
                     TpClose 2%positive])%list.
Proof.
  intros env w.
  assert (Hready : utls_ready w 1%positive 2%positive 3%positive) by sample_fact.
  destruct (@utls_server_failure_paths debug_build env 3
              w 1%positive 2%positive 3%positive "utls:127.0.0.1:14001"
              (mk_host "127.0.0.1") 14001 0 0 "tls:127.0.0.1:14001" Hready
              ltac:(vm_compute; reflexivity) ltac:(lia)
              ltac:(vm_compute; reflexivity)) as [Hfail _].
  destruct (Hfail ltac:(vm_compute; reflexivity)) as (w' & Hrun & Hev & _).
  exists w'. split; [exact Hrun | exact Hev].
Defined.

(** Destroying the sample channel with its one client, as owner. *)
Lemma ctl_destroy_closes_all_witness :
  let w := sample_ctl_calls 64 sample_ctl_world in
  exists w' evs,
    @ctl_destroy (sample_env true) (Some 1%positive) true w = Ok tt w' /\
    ctls w' !! 1%positive = None /\
    trace w' = (trace w ++ evs)%list /\
    SysClose 4 ∈ evs /\ SysClose 3 ∈ evs.
Proof.
  intros w.
  assert (Hx : exists x, ctls w !! 1%positive = Some x /\ ctl_ok x /\
                         ctl_clients x !! 0%nat = Some (mk_client 4 false (@zero_msg debug_build)) /\
                         ctl_num_clients x = 1 /\ ctl_server_fd x = 3).
  { eexists. split; [vm_compute; reflexivity|].
    split; [split; [reflexivity | split; discriminate]|].
    split; [vm_compute; reflexivity|]. split; reflexivity. }
  destruct Hx as (x & Hx & Hok & Hcl & Hn & Hfd).
  destruct (@ctl_destroy_closes_all (sample_env true) 1%positive x true w Hx Hok)
    as (w' & evs & Hrun & Hctls & _ & _ & Htr & Hclients & Hsrv & _).
  exists w', evs. split; [exact Hrun|].
  split; [rewrite Hctls; apply lookup_delete_eq|].
  split; [exact Htr|].
  split.
  - apply (Hclients (mk_client 4 false (@zero_msg debug_build))).
    rewrite Hn. change (Z.to_nat 1) with 1%nat.
    destruct (ctl_clients x) as [|c0 cs]; [discriminate Hcl|].
    injection Hcl as ->. apply elem_of_cons. left. reflexivity.
  - rewrite <- Hfd. exact Hsrv.
Defined.

(** Enabling the control channel of the connected sample socket. *)
Lemma utls_connection_ctl_on_sub_socket_witness :
  let w := sample_connected_world in
  exists w',
    @xcm_tp_socket_enable_ctl debug_build (sample_env false)
      (@tp_ops debug_build (sample_env false) 3) (Some 1%positive) w = Ok tt w' /\
    heap w' !! 1%positive = heap w !! 1%positive.
Proof.
  intros w.
  assert (Hty : utls_socket_of_type w 1%positive xcm_socket_type_conn) by sample_fact.
  assert (Hconn : utls_connected w 1%positive 3%positive).
  { split; [eexists; split; [vm_compute; reflexivity|];
            right; split; vm_compute; reflexivity|].
    split; [discriminate | sample_fact]. }
  assert (Hsa : exists sa, heap w !! 3%positive = Some sa)
    by (eexists; vm_compute; reflexivity).
  destruct Hsa as (sa & Hsa).
  destruct (@utls_connection_ctl_on_sub_socket debug_build (sample_env false) 3
              w 1%positive 3%positive sa eq_refl Hty Hconn Hsa)
    as (w' & Hrun & Hkept & _).
  exists w'. split; [exact Hrun | exact Hkept].
Defined.

(** Looking up "tls" and "sctp" after the constructors have run. *)
Lemma proto_by_name_first_match_witness :
  xcm_tp_proto_by_name "tls" booted_world = Ok (Some 1%nat) booted_world /\
  xcm_tp_proto_by_name "sctp" booted_world = Ok None booted_world.
Proof.
  assert (Hlen : num_protos booted_world <= Z.of_nat (length (protos booted_world)))
    by (vm_compute; discriminate).
  split.
  - destruct (proto_by_name_first_match booted_world "tls" Hlen) as (r & Hrun & _).
    rewrite Hrun. vm_compute in Hrun. injection Hrun as <-. reflexivity.
  - destruct (proto_by_name_first_match booted_world "sctp" Hlen) as (r & Hrun & _).
    rewrite Hrun. vm_compute in Hrun. injection Hrun as <-. reflexivity.
Defined.

(** Registering "sctp" after the constructors have run leaves "ux"
    where it was. *)
Lemma register_keeps_other_lookups_witness :
  let w' := world_of (@xcm_tp_register debug_build "sctp" (ext_ops_ref 3) booted_world) in
  xcm_tp_proto_by_name "ux" w' = Ok (Some 0%nat) w' /\ num_protos w' = 4.
Proof.
  intros w'.
  destruct (@register_keeps_other_lookups debug_build booted_world w'
              "sctp" "ux" (ext_ops_ref 3) (Some 0%nat)
              ltac:(vm_compute; discriminate) ltac:(vm_compute; reflexivity)
              ltac:(discriminate) ltac:(vm_compute; reflexivity))
    as (Hlook & Hnum & _).
  split; [exact Hlook | exact Hnum].
Defined.


(** utls_init on the sample UTLS socket, both transports willing. *)
Lemma utls_init_outcomes_witness :
  let w := sample_created_world xcm_socket_type_conn in
  exists w' lu lt,
    @utls_init (sample_env false) (Some 1%positive) w = Ok 0 w' /\
    trace w' = (trace w ++ [TpInit lu; TpInit lt])%list /\ lu <> lt.
Proof.
  intros w.
  assert (Hso : exists so, heap w !! 1%positive = Some so)
    by (eexists; vm_compute; reflexivity).
  destruct Hso as (so & Hs).
  assert (Hux : sub_proto_at w (ux_cached_proto w) XCM_UX_PROTO 0).
  { split; [right; split; vm_compute; reflexivity|].
    eexists _, _. split; vm_compute; reflexivity. }
  assert (Htls : sub_proto_at w (tls_cached_proto w) XCM_TLS_PROTO 1).
  { split; [right; split; vm_compute; reflexivity|].
    eexists _, _. split; vm_compute; reflexivity. }
  destruct (@utls_init_outcomes (sample_env false) w 1%positive so 0%nat 1%nat
              Hs Hux Htls)
    as (rc & w' & lu & lt & us' & Hrun & _ & _ & Htr & _ & _ & _ & _ & Hcase).
  cbv zeta in Hcase.
  change (rep_rc (@env_reply (sample_env false) (trace w) (TpInit lu)) <? 0)
    with false in Hcase.
  change (rep_rc (@env_reply (sample_env false) (trace w ++ [TpInit lu]) (TpInit lt)) <? 0)
    with false in Hcase.
  destruct Hcase as (-> & _ & _ & Hne & _).
  exists w', lu, lt. split; [exact Hrun|]. split; [exact Htr | exact Hne].
Defined.

(** The sample channel with its client, in an environment where the
    client sends a request. *)
Lemma ctl_request_answered_next_round_witness :
  let w := sample_ctl_calls 64 sample_ctl_world in
  exists w1 res,
    @process_client debug_build (sample_env_channel sample_request []) 0 (Some 1%positive) w = Ok 0 w1 /\
    msg_type res = ctl_proto_type_get_attr_cfm /\
    exists rc2 w2,
      @process_client debug_build (sample_env_channel sample_request []) 0 (Some 1%positive) w1
      = Ok rc2 w2 /\
      trace w2 = (trace w1 ++ [SysSend 4 res; SysEpollCtl 4 (Some EPOLLIN)])%list.
Proof.
  intros w.
  assert (Hx : exists x, ctls w !! 1%positive = Some x /\
                         length (ctl_clients x) = 2%nat /\
                         ctl_clients x !! 0%nat = Some (mk_client 4 false (@zero_msg debug_build))).
  { eexists. split; [vm_compute; reflexivity|]. split; reflexivity. }
  destruct Hx as (x & Hx & Hlen & Hcl).
  destruct (@ctl_request_answered_next_round debug_build
              (sample_env_channel sample_request [])
              1%positive x 0 (mk_client 4 false (@zero_msg debug_build)) w Hx
              ltac:(rewrite Hlen; lia) Hcl eq_refl ltac:(vm_compute; discriminate)
              eq_refl eq_refl)
    as (w1 & x1 & res & Hrun & _ & _ & _ & _ & _ & Hres & Hnext).
  cbv zeta in Hres, Hnext. cbn [cl_fd] in Hres, Hnext.
  destruct Hres as (Hty & _).
  destruct Hnext as (rc2 & w2 & Hrun2 & _ & Htr & _).
  exists w1, res. split; [exact Hrun|]. split; [exact Hty|].
  exists rc2, w2. split; [exact Hrun2 | exact Htr].
Defined.

(** The sample channel accepting its first client. *)
Lemma accept_client_outcomes_witness :
  let w := sample_ctl_world in
  exists w' x',
    @accept_client (sample_env true) (Some 1%positive) w = Ok tt w' /\
    ctls w' !! 1%positive = Some x' /\ ctl_num_clients x' = 1.
Proof.
  intros w.
  assert (Hx : exists x, ctls w !! 1%positive = Some x /\ ctl_ok x /\
                         ctl_num_clients x = 0).
  { eexists. split; [vm_compute; reflexivity|].
    split; [split; [reflexivity | split; discriminate] | reflexivity]. }
  destruct Hx as (x & Hx & Hok & Hn).
  destruct (@accept_client_outcomes (sample_env true) 1%positive x w
              Hx Hok ltac:(rewrite Hn; reflexivity))
    as (w' & Hrun & _ & Hcase).
  cbv zeta in Hcase.
  assert (Hfd : rep_rc (@env_reply (sample_env true) (trace w)
                          (SysAccept (ctl_server_fd x))) = 4)
    by (vm_compute; reflexivity).
  rewrite Hfd in Hcase. change (4 <? 0) with false in Hcase.
  change (rep_rc (@env_reply (sample_env true)
                    (trace w ++ [SysAccept (ctl_server_fd x)])
                    (SysSetBlocking 4 false)) <? 0) with false in Hcase.
  destruct Hcase as (x' & old & Hctls & Hnum & _).
  exists w', x'. split; [exact Hrun|].
  split; [rewrite Hctls; apply lookup_insert_eq|].
  rewrite Hnum, Hn. reflexivity.
Defined.


(** The attribute table of a UTLS socket with its sub-sockets at
    locations 2 and 3: the second entry reaches the TLS sub-socket. *)
Lemma utls_attr_proxies_reach_owner_witness :
  let us := mk_utls EmptyString (Some 2%positive) (Some 3%positive) in
  exists t',
    UtlsAttrs.utls_get_attrs sample_sub_attrs us (mk_tables [] [] [] 0)
    = Some (t', ([Some (mk_tp_attr "xcm.type" 3 None (Some proxy_fun));
                  Some (mk_tp_attr "tls.cert_file" 3 (Some proxy_fun)
                                   (Some proxy_fun))], 2%nat)) /\
    UtlsAttrs.get_attr_proxy t' 1
    = Some (mk_call (real_fun 3) (Some 3%positive)
                    (mk_tp_attr "tls.cert_file" 3 (Some (real_fun 2))
                                (Some (real_fun 3)))).
Proof.
  intros us.
  destruct (utls_attr_proxies_reach_owner sample_sub_attrs us (mk_tables [] [] [] 0))
    as [_ Hsome].
  destruct (Hsome ltac:(vm_compute; discriminate)) as (t' & Hrun & Hcall).
  exists t'. split; [exact Hrun|].
  destruct (Hcall 1%nat (mk_tp_attr "tls.cert_file" 3 (Some (real_fun 2))
                                    (Some (real_fun 3)))
                  ltac:(vm_compute; reflexivity)) as [Hget _].
  exact Hget.
Defined.


(** A socket that reports as many attributes as the array has slots. *)
Lemma ctl_get_all_aborts_at_capacity_witness :
  let env := sample_env_channel sample_request_all
               (replicate 64 sample_type_attr) in
  @process_get_all_attr debug_build env (Some 1%positive)
    (@zero_msg debug_build) initial_world = Abort.
Proof.
  intros env.
  apply (@ctl_get_all_aborts_at_capacity debug_build env (Some 1%positive)
           (@zero_msg debug_build) initial_world eq_refl).
  - reflexivity.
  - reflexivity.
  - apply Forall_replicate. reflexivity.
  - apply Forall_replicate. vm_compute. discriminate.
  - vm_compute. discriminate.
Defined.

(** The local address of the sample UTLS socket, with a TLS transport
    that takes every address. *)
Lemma utls_local_addr_goes_to_tls_witness :
  let w := sample_utls_world false xcm_socket_type_conn in
  let hook := fun _ : N => Some (fun (_ : ptr) (_ : string) => @ret Z 0) in
  @set_local_attr debug_build (sample_env false) hook (Some 1%positive)
    "utls:127.0.0.1:14001" w = Ok 0 w /\
  @set_local_attr debug_build (sample_env false) hook (Some 1%positive)
    "bogus" w = Ok (-1) (set_errno_w EINVAL w).
Proof.
  intros w hook.
  assert (Hty : utls_socket_of_type w 1%positive xcm_socket_type_conn) by sample_fact.
  assert (Hso : exists so, heap w !! 1%positive = Some so /\
                           tls_socket (so_priv so) = Some 3%positive)
    by (eexists; split; vm_compute; reflexivity).
  destruct Hso as (so & Hs & Htls).
  assert (Hst : exists st pt, heap w !! 3%positive = Some st /\
                              protos w !! so_proto st = Some pt /\
                              proto_ops pt = Some (ext_ops_ref 2))
    by (eexists _, _; split; [|split]; vm_compute; reflexivity).
  destruct Hst as (st & pt & Hlt & Hpt & Hops).
  split.
  - destruct (@utls_local_addr_goes_to_tls debug_build (sample_env false) hook
                w 1%positive so xcm_socket_type_conn "utls:127.0.0.1:14001" Hty Hs)
      as (_ & _ & Hfwd).
    exact (Hfwd 3%positive st pt 2%N 0 0 (mk_host "127.0.0.1") 14001
                "tls:127.0.0.1:14001" Htls Hlt Hpt Hops
                ltac:(vm_compute; reflexivity) ltac:(lia)
                ltac:(vm_compute; reflexivity)).
  - destruct (@utls_local_addr_goes_to_tls debug_build (sample_env false) hook
                w 1%positive so xcm_socket_type_conn "bogus" Hty Hs)
      as (_ & Hbad & _).
    exact (Hbad 3%positive (-1) EINVAL (mk_host EmptyString) 0 Htls
                ltac:(vm_compute; reflexivity) ltac:(lia)).
Defined.

(** The protocol of a TLS address after the constructors have run. *)
Lemma proto_by_addr_unknown_is_ENOPROTOOPT_witness :
  let parse := fun (a : string) (_ : Z) =>
                 if String.prefix "tls:" a then (0, 0, "tls") else (0, 0, "sctp") in
  @xcm_tp_proto_by_addr parse debug_build "tls:127.0.0.1:14001" booted_world
  = Ok (Some 1%nat) booted_world.
Proof.
  intros parse.
  destruct (@proto_by_addr_unknown_is_ENOPROTOOPT parse debug_build booted_world
              "tls:127.0.0.1:14001" "tls" 0 0
              ltac:(vm_compute; discriminate) ltac:(vm_compute; reflexivity))
    as (_ & _ & Hreg).
  destruct (Hreg ltac:(lia)
              ltac:(exists 1%nat, (mk_proto "tls" (Some (ext_ops_ref 2)));
                    split; [vm_compute; reflexivity|];
                    split; [vm_compute; reflexivity | reflexivity]))
    as (j & p & Hrun & _).
  rewrite Hrun. vm_compute in Hrun. injection Hrun as <-. reflexivity.
Defined.

(** The blocking flag of the sample UTLS socket, read and written
    back. *)
Lemma blocking_attr_round_trip_witness :
  let w := sample_utls_world false xcm_socket_type_conn in
  let set_blocking := fun (_ : ptr) (_ : bool) => @ret Z 0 in
  exists buf',
    get_blocking_attr (Some 1%positive) [x00] 1 w = Ok (1, buf') w /\
    set_blocking_attr set_blocking (Some 1%positive) buf' 1 w = Ok 0 w /\
    set_blocking_attr set_blocking (Some 1%positive) buf' 4 w
    = Ok (-1) (set_errno_w EINVAL w).
Proof.
  intros w set_blocking.
  assert (Hso : exists so, heap w !! 1%positive = Some so)
    by (eexists; vm_compute; reflexivity).
  destruct Hso as (so & Hs).
  destruct (@blocking_attr_round_trip set_blocking w 1%positive so [x00] 1 Hs
              ltac:(simpl; lia) ltac:(vm_compute; discriminate))
    as ((buf' & Hget & Hset) & Hbad).
  exists buf'. split; [exact Hget|].
  split; [etransitivity; [exact Hset | reflexivity]|].
  apply Hbad. discriminate.
Defined.

(** create_ux where listen fails. *)
Lemma create_ux_leaves_no_descriptor_witness :
  let path := fun (dir : string) (_ _ : Z) => (dir ++ "/ctl-1-0")%string in
  create_ux sample_sys_rc (fun _ _ => true) "/run/xcm/ctl" 1 path 0 []
  = (-1, [sys_stat "/run/xcm/ctl"; sys_unlink "/run/xcm/ctl/ctl-1-0"; sys_socket;
          sys_bind 7 "/run/xcm/ctl/ctl-1-0"; sys_listen 7 2;
          sys_unlink "/run/xcm/ctl/ctl-1-0"; sys_close 7]) /\
  exists calls,
    open_fds sample_sys_rc [] calls = [] /\
    snd (create_ux sample_sys_rc (fun _ _ => true) "/run/xcm/ctl" 1 path 0 [])
    = calls.
Proof.
  intros path. split; [vm_compute; reflexivity|].
  destruct (create_ux_leaves_no_descriptor sample_sys_rc (fun _ _ => true)
              "/run/xcm/ctl" 1 path 0 [])
    as (calls & Hcalls & _ & Hopen & _).
  exists calls. split; [exact Hopen | exact Hcalls].
Defined.

(** An accept on the sample server when no connection is waiting on
    either listener. *)
Lemma utls_accept_failure_frees_both_witness :
  let env := sample_env_failing is_TpAccept in
  let w := sample_accept_world false in
  exists w',
    @utls_accept debug_build env 3 (Some 4%positive) (Some 1%positive) w
    = Ok (-1) w' /\
    heap w' !! 5%positive = None /\ heap w' !! 6%positive = None /\
    tp_events w' = (tp_events w ++
                    [TpAccept 5%positive 2%positive; TpUpdate 2%positive;
                     TpAccept 6%positive 3%positive; TpUpdate 3%positive])%list.
Proof.
  intros env w.
  assert (Hready : utls_ready w 4%positive 5%positive 6%positive) by sample_fact.
  assert (Hlisten : utls_listening w 1%positive 2%positive 3%positive) by sample_fact.
  assert (Hsu : ext_socket w 2%positive) by sample_fact.
  assert (Hst : ext_socket w 3%positive) by sample_fact.
  pose proof (@utls_accept_failure_frees_both debug_build env 3
                w 4%positive 1%positive 5%positive 6%positive 2%positive 3%positive
                Hready Hlisten Hsu Hst
                ltac:(vm_compute; discriminate) ltac:(vm_compute; discriminate))
    as Hrun.
  eexists. split; [exact Hrun|].
  split; [vm_compute; reflexivity|]. split; vm_compute; reflexivity.
Defined.


(** The counter of messages handed to the application, read from the
    connected sample socket into a buffer of eight bytes. *)
Lemma utls_counters_are_the_sub_sockets_witness :
  let w := sample_connected_world in
  let buf := replicate 8 x00 in
  exists buf',
    get_cnt_attr (@tp_ops debug_build (sample_env false) 3) to_app_msgs
      (Some 1%positive) buf 8 w = Ok (8, buf') w.
Proof.
  intros w buf.
  assert (Hty : utls_socket_of_type w 1%positive xcm_socket_type_conn) by sample_fact.
  assert (Hconn : utls_connected w 1%positive 3%positive).
  { split; [eexists; split; [vm_compute; reflexivity|];
            right; split; vm_compute; reflexivity|].
    split; [discriminate | sample_fact]. }
  assert (Hsa : exists sa, heap w !! 3%positive = Some sa)
    by (eexists; vm_compute; reflexivity).
  destruct Hsa as (sa & Hsa).
  destruct (@utls_counters_are_the_sub_sockets debug_build (sample_env false) 3
              w 1%positive 3%positive sa buf 8 Hty Hconn Hsa
              ltac:(vm_compute; discriminate) ltac:(vm_compute; discriminate))
    as [Hcnt _].
  eexists. exact (Hcnt to_app_msgs).
Defined.
